(** * THORUS-Terminal: the command execution pipeline

    A shallow embedding of the command manager
    ([src/core/command_manager.py]), the Tank handler
    ([src/core/computer_use_tank.py]) and the Claude controller
    ([src/core/computer_use_providers/computer_use_tank/claude.py]),
    followed by the properties of the specification that concern them.

    Conventions of the embedding.
    - Python [int] is [Z].  Python [str] is [string], a character being a
      code point below 256.
    - Python [float] arithmetic goes through the interface [FloatArith];
      [binary64] implements it with IEEE 754 double precision (round to
      nearest even), [exact_arith] with rational numbers.
    - A Python exception is a value of [exn]; a computation that may raise
      returns a [res].  [CancelledError] derives from [BaseException], every
      other constructor from [Exception].
    - Stateful code threads its state explicitly.  An async generator is
      modelled by the list of chunks it yields and the way it ends.
    - Everything outside the process (the remote model, the pointer, keyboard
      and screen, the clock, a concurrent cancellation request) is read from
      an environment [Env]. *)

From Stdlib Require Import ZArith List String Ascii Bool Lia QArith SpecFloat DecimalString.
From Stdlib Require Import Permutation Sorted Qpower Lqa.
Import ListNotations.

Open Scope Z_scope.

(** ** Python values, exceptions and results *)

Set Warnings "-register-all".

(** The JSON-like values a tool input carries.  JSON numbers are integers
    here: the computer tool's schema has integer coordinates. *)
Inductive pyval : Type :=
| PNone
| PBool (b : bool)
| PInt (z : Z)
| PStr (s : string)
| PList (l : list pyval)
| PDict (d : list (string * pyval)).

Inductive exn : Type :=
| CancelledError (msg : string)
| ValueError (msg : string)
| TypeError (msg : string)
| KeyError (msg : string)
| IndexError (msg : string)
| ZeroDivisionError (msg : string)
| OverflowError (msg : string)
| RuntimeError (msg : string)
| AttributeError (msg : string)
| OtherException (msg : string).

(** [isinstance(e, Exception)]: what [except Exception] catches. *)
Definition is_Exception (e : exn) : bool :=
  match e with
  | CancelledError _ => false
  | _ => true
  end.

(** [str(e)]. *)
Definition str_exn (e : exn) : string :=
  match e with
  | CancelledError m | ValueError m | TypeError m | KeyError m | IndexError m
  | ZeroDivisionError m | OverflowError m | RuntimeError m | AttributeError m
  | OtherException m => m
  end.

Inductive res (A : Type) : Type :=
| Ok (a : A)
| Raise (e : exn).
Arguments Ok {A} a.
Arguments Raise {A} e.

Definition res_bind {A B : Type} (r : res A) (k : A -> res B) : res B :=
  match r with
  | Ok a => k a
  | Raise e => Raise e
  end.

Declare Scope res_scope.
Delimit Scope res_scope with res.
Notation "'let?' x := r 'in' k" := (res_bind r (fun x => k))
  (at level 10, x pattern, r at level 100, k at level 200) : res_scope.
Open Scope res_scope.

(** Truthiness of a value ([if v:] / [not v]). *)
Definition truthy (v : pyval) : bool :=
  match v with
  | PNone => false
  | PBool b => b
  | PInt z => negb (z =? 0)
  | PStr s => negb (String.eqb s EmptyString)
  | PList l => match l with [] => false | _ => true end
  | PDict d => match d with [] => false | _ => true end
  end.

(** [len(v)]: defined on strings, lists and dicts, a [TypeError] elsewhere. *)
Definition py_len (v : pyval) : res Z :=
  match v with
  | PStr s => Ok (Z.of_nat (String.length s))
  | PList l => Ok (Z.of_nat (List.length l))
  | PDict d => Ok (Z.of_nat (List.length d))
  | PNone => Raise (TypeError "object of type 'NoneType' has no len()")
  | PBool _ => Raise (TypeError "object of type 'bool' has no len()")
  | PInt _ => Raise (TypeError "object of type 'int' has no len()")
  end.

(** [v == s] for a string literal [s]. *)
Definition is_str (v : pyval) (s : string) : bool :=
  match v with
  | PStr t => String.eqb t s
  | _ => false
  end.

(** [v[i]] for a literal index [i] that is 0 or 1. *)
Definition py_index (v : pyval) (i : nat) : res pyval :=
  match v with
  | PList l =>
      match nth_error l i with
      | Some x => Ok x
      | None => Raise (IndexError "list index out of range")
      end
  | PStr s =>
      match String.get i s with
      | Some c => Ok (PStr (String c EmptyString))
      | None => Raise (IndexError "string index out of range")
      end
  | PDict _ => Raise (KeyError "0")
  | _ => Raise (TypeError "object is not subscriptable")
  end.

(** A value used as a number: [bool] is a subclass of [int]. *)
Definition as_int (v : pyval) : res Z :=
  match v with
  | PInt z => Ok z
  | PBool b => Ok (if b then 1 else 0)
  | _ => Raise (TypeError "'<' not supported between these instances")
  end.

(** Keyword arguments and dicts with string keys. *)
Definition kwargs : Type := list (string * pyval).

Fixpoint dict_get (k : string) (d : kwargs) : option pyval :=
  match d with
  | [] => None
  | (k', v) :: d' => if String.eqb k k' then Some v else dict_get k d'
  end.

Fixpoint dict_remove (k : string) (d : kwargs) : kwargs :=
  match d with
  | [] => []
  | (k', v) :: d' => if String.eqb k k' then dict_remove k d' else (k', v) :: dict_remove k d'
  end.

(** [d.get(k)], whose default is [None]. *)
Definition get_or_none (k : string) (d : kwargs) : pyval :=
  match dict_get k d with
  | Some v => v
  | None => PNone
  end.

(** [d.pop(k, None)]. *)
Definition pop_or_none (k : string) (d : kwargs) : pyval * kwargs :=
  (get_or_none k d, dict_remove k d).

(** ** Strings *)

(** [c.isspace()] for a code point below 256. *)
Definition py_isspace (c : ascii) : bool :=
  let n := nat_of_ascii c in
  (((9 <=? n) && (n <=? 13)) || ((28 <=? n) && (n <=? 32))
   || (n =? 133) || (n =? 160))%nat.

Fixpoint lstrip (s : string) : string :=
  match s with
  | EmptyString => EmptyString
  | String c s' => if py_isspace c then lstrip s' else s
  end.

(** The string without its trailing white space. *)
Fixpoint rstrip (s : string) : string :=
  match s with
  | EmptyString => EmptyString
  | String c s' =>
      match rstrip s' with
      | EmptyString => if py_isspace c then EmptyString else String c EmptyString
      | r => String c r
      end
  end.

(** [s.strip()]. *)
Definition strip (s : string) : string := rstrip (lstrip s).

(** [c.lower()] for a code point below 256: the ASCII capitals and the
    Latin-1 capitals 0xC0..0xDE other than 0xD7. *)
Definition lower_char (c : ascii) : ascii :=
  let n := nat_of_ascii c in
  if (((65 <=? n) && (n <=? 90))
      || ((192 <=? n) && (n <=? 222) && negb (n =? 215)))%nat
  then ascii_of_nat (n + 32)
  else c.

Fixpoint lower (s : string) : string :=
  match s with
  | EmptyString => EmptyString
  | String c s' => String (lower_char c) (lower s')
  end.

(** [sub in s]. *)
Fixpoint contains (sub s : string) : bool :=
  if String.prefix sub s then true
  else match s with
       | EmptyString => false
       | String _ s' => contains sub s'
       end.

(** [s.split("+")]. *)
Fixpoint split_plus (s : string) : list string :=
  match s with
  | EmptyString => [EmptyString]
  | String c s' =>
      if Ascii.eqb c "+"%char then EmptyString :: split_plus s'
      else match split_plus s' with
           | piece :: pieces => String c piece :: pieces
           | [] => [String c EmptyString]
           end
  end.

(** [text.split("+")] on whatever value [text] is: only a string has the
    method. *)
Definition py_split_plus (text : pyval) : res (list string) :=
  match text with
  | PStr s => Ok (split_plus s)
  | PNone => Raise (AttributeError "'NoneType' object has no attribute 'split'")
  | PBool _ => Raise (AttributeError "'bool' object has no attribute 'split'")
  | PInt _ => Raise (AttributeError "'int' object has no attribute 'split'")
  | PList _ => Raise (AttributeError "'list' object has no attribute 'split'")
  | PDict _ => Raise (AttributeError "'dict' object has no attribute 'split'")
  end.

(** [[s[i : i + chunk_size] for i in range(0, len(s), chunk_size)]]. *)
Fixpoint chunks_from (fuel : nat) (s : string) (chunk_size : nat) : list string :=
  match fuel with
  | O => []
  | S fuel' =>
      match s with
      | EmptyString => []
      | _ =>
          String.substring 0 chunk_size s
          :: chunks_from fuel'
               (String.substring chunk_size (String.length s - chunk_size) s)
               chunk_size
      end
  end.

Definition _chunk_string (s : string) (chunk_size : nat) : list string :=
  chunks_from (String.length s) s chunk_size.

(** The same slices of a list. *)
Fixpoint list_chunks_from {A : Type} (fuel : nat) (l : list A) (chunk_size : nat)
  : list (list A) :=
  match fuel with
  | O => []
  | S fuel' =>
      match l with
      | [] => []
      | _ => firstn chunk_size l :: list_chunks_from fuel' (skipn chunk_size l) chunk_size
      end
  end.

(** [_chunk_string(s, chunk_size)] on whatever value it is given: [len(s)]
    first, then the slices [s[i : i + chunk_size]].  A number has no
    length; a dict that is not empty cannot be sliced (the [TypeError] of
    CPython up to 3.11, where a slice is not hashable; later versions
    raise [KeyError] for the missing key). *)
Definition _chunk_value (s : pyval) (chunk_size : nat) : res (list pyval) :=
  match s with
  | PStr txt => Ok (map PStr (_chunk_string txt chunk_size))
  | PList l => Ok (map PList (list_chunks_from (List.length l) l chunk_size))
  | PDict [] => Ok []
  | PDict _ => Raise (TypeError "unhashable type: 'slice'")
  | other => let? _ := py_len other in Ok []
  end.

(** All white space: what makes [not command.strip()] true. *)
Fixpoint all_space (s : string) : bool :=
  match s with
  | EmptyString => true
  | String c s' => py_isspace c && all_space s'
  end.

(** ** The conversation *)

Inductive role : Type := User | Assistant.

(** An entry of a [tool_result] block's content list: a dict of type
    "image" (a base64 screenshot) or of type "text". *)
Inductive item : Type :=
| ImageItem (media_type data : string)
| TextItem (text : string).

(** A content block of a message: a dict of type "text", "tool_use" or
    "tool_result". *)
Inductive block : Type :=
| TextBlock (text : string)
| ToolUseBlock (id name : string) (input : kwargs)
| ToolResultBlock (tool_use_id : string) (content : list item).

(** The "content" of a message: a list of blocks in every message this
    program builds; the transport also admits a plain string. *)
Inductive msg_content : Type :=
| ContentText (text : string)
| ContentBlocks (blocks : list block).

Record message : Type := mkMessage {
  msg_role : role;
  msg_content_of : msg_content
}.

Definition is_image (c : item) : bool :=
  match c with
  | ImageItem _ _ => true
  | TextItem _ => false
  end.

(** [sum(1 for c in block_content if ... c.get("type") == "image")]. *)
Fixpoint count_images (block_content : list item) : Z :=
  match block_content with
  | [] => 0
  | c :: rest => (if is_image c then 1 else 0) + count_images rest
  end.

(** The first loop of [_maybe_filter_to_n_most_recent_images]: the content
    lists of the [tool_result] blocks, in message order. *)
Fixpoint tool_results_of_blocks (content : list block) : list (list item) :=
  match content with
  | [] => []
  | ToolResultBlock _ c :: rest => c :: tool_results_of_blocks rest
  | _ :: rest => tool_results_of_blocks rest
  end.

Fixpoint tool_result_blocks (messages : list message) : list (list item) :=
  match messages with
  | [] => []
  | msg :: rest =>
      match msg_content_of msg with
      | ContentBlocks content => tool_results_of_blocks content ++ tool_result_blocks rest
      | ContentText _ => tool_result_blocks rest
      end
  end.

(** The second loop: the number of image entries over all those blocks. *)
Fixpoint total_images_of (tool_results : list (list item)) : Z :=
  match tool_results with
  | [] => 0
  | block_content :: rest => count_images block_content + total_images_of rest
  end.

Definition total_images (messages : list message) : Z :=
  total_images_of (tool_result_blocks messages).

(** The inner loop of the removal: [new_content] of one block and what is
    left of [images_to_remove]. *)
Fixpoint remove_images (block_content : list item) (images_to_remove : Z)
  : list item * Z :=
  match block_content with
  | [] => ([], images_to_remove)
  | c :: rest =>
      if is_image c && (images_to_remove >? 0)
      then remove_images rest (images_to_remove - 1)
      else let (new_content, n) := remove_images rest images_to_remove in
           (c :: new_content, n)
  end.

(** The removal loop visits the [tool_result] blocks oldest first and
    assigns each its [new_content] in place, until nothing is left to remove
    ([break]).  The blocks are reached here through the messages that hold
    them, in the same order. *)
Fixpoint prune_blocks (content : list block) (images_to_remove : Z)
  : list block * Z :=
  match content with
  | [] => ([], images_to_remove)
  | ToolResultBlock id c :: rest =>
      if images_to_remove <=? 0 then (content, images_to_remove)
      else let (new_content, n) := remove_images c images_to_remove in
           let (rest', n') := prune_blocks rest n in
           (ToolResultBlock id new_content :: rest', n')
  | b :: rest =>
      let (rest', n) := prune_blocks rest images_to_remove in
      (b :: rest', n)
  end.

Fixpoint prune_messages (messages : list message) (images_to_remove : Z)
  : list message :=
  match messages with
  | [] => []
  | msg :: rest =>
      match msg_content_of msg with
      | ContentBlocks content =>
          let (content', n) := prune_blocks content images_to_remove in
          mkMessage (msg_role msg) (ContentBlocks content') :: prune_messages rest n
      | ContentText _ => msg :: prune_messages rest images_to_remove
      end
  end.

(** [_maybe_filter_to_n_most_recent_images(messages, images_to_keep,
    min_removal_threshold)]: the message list after the call, which mutates
    it in place.  [%] is Python's, the sign of the divisor, and raises on a
    zero divisor. *)
Definition _maybe_filter_to_n_most_recent_images
  (messages : list message) (images_to_keep min_removal_threshold : Z)
  : res (list message) :=
  let images_to_remove := total_images messages - images_to_keep in
  if images_to_remove <=? 0 then Ok messages
  else if min_removal_threshold =? 0
       then Raise (ZeroDivisionError "integer modulo by zero")
       else
         let images_to_remove :=
           images_to_remove - (images_to_remove mod min_removal_threshold) in
         Ok (prune_messages messages images_to_remove).

(** The screenshots of a message list, oldest first. *)
Definition all_images (messages : list message) : list item :=
  filter is_image (List.concat (tool_result_blocks messages)).

(** A message list without its screenshots: everything else it holds. *)
Definition strip_images_block (b : block) : block :=
  match b with
  | ToolResultBlock id c => ToolResultBlock id (filter (fun i => negb (is_image i)) c)
  | _ => b
  end.

Definition strip_images_message (msg : message) : message :=
  match msg_content_of msg with
  | ContentBlocks content =>
      mkMessage (msg_role msg) (ContentBlocks (map strip_images_block content))
  | ContentText _ => msg
  end.

Definition strip_images (messages : list message) : list message :=
  map strip_images_message messages.

(** ** Floating-point arithmetic *)

(** The operations on [float] that [scale_coordinates] performs, each with
    the exceptions Python raises from it. *)
Record FloatArith : Type := mkFloatArith {
  float : Type;
  (** [a / b] for two [int]s: true division. *)
  int_truediv : Z -> Z -> res float;
  (** [f * n] and [f + n] for a [float] and an [int]. *)
  float_mul_int : float -> Z -> res float;
  float_add_int : float -> Z -> res float;
  (** [int(f)]: truncation toward zero. *)
  int_of_float : float -> res Z
}.

(** *** IEEE 754 binary64, the [float] of CPython *)

Module Binary64.

Definition prec : Z := 53.
Definition emax : Z := 1024.

(** [float(n)]: the nearest double, ties to even; too large an [int] raises. *)
Definition of_int (n : Z) : res spec_float :=
  match binary_normalize prec emax n 0 false with
  | S754_infinity _ => Raise (OverflowError "int too large to convert to float")
  | f => Ok f
  end.

(** The operand of a true division, exactly. *)
Definition exact_int (n : Z) : spec_float :=
  match n with
  | Z0 => S754_zero false
  | Zpos m => S754_finite false m 0
  | Zneg m => S754_finite true m 0
  end.

(** [a / b]: the double nearest to the quotient of the two integers. *)
Definition truediv (a b : Z) : res spec_float :=
  if b =? 0 then Raise (ZeroDivisionError "division by zero")
  else match SFdiv prec emax (exact_int a) (exact_int b) with
       | S754_infinity _ =>
           Raise (OverflowError "integer division result too large for a float")
       | f => Ok f
       end.

Definition mul_int (f : spec_float) (n : Z) : res spec_float :=
  let? g := of_int n in Ok (SFmul prec emax f g).

Definition add_int (f : spec_float) (n : Z) : res spec_float :=
  let? g := of_int n in Ok (SFadd prec emax f g).

Definition div_int (f : spec_float) (n : Z) : res spec_float :=
  let? g := of_int n in
  if n =? 0 then Raise (ZeroDivisionError "float division by zero")
  else Ok (SFdiv prec emax f g).

Definition add (f g : spec_float) : spec_float := SFadd prec emax f g.

Definition to_int (f : spec_float) : res Z :=
  match f with
  | S754_zero _ => Ok 0
  | S754_finite s m e => Ok (cond_Zopp s (Z.shiftl (Zpos m) e))
  | S754_infinity _ => Raise (OverflowError "cannot convert float infinity to integer")
  | S754_nan => Raise (ValueError "cannot convert float NaN to integer")
  end.

End Binary64.

(** The arithmetic the program runs on. *)
Definition binary64 : FloatArith := {|
  float := spec_float;
  int_truediv := Binary64.truediv;
  float_mul_int := Binary64.mul_int;
  float_add_int := Binary64.add_int;
  int_of_float := Binary64.to_int
|}.

(** *** Exact arithmetic: the same operations without rounding *)

Module Exact.

Definition truediv (a b : Z) : res Q :=
  if b =? 0 then Raise (ZeroDivisionError "division by zero")
  else Ok (inject_Z a / inject_Z b)%Q.

Definition mul_int (f : Q) (n : Z) : res Q := Ok (f * inject_Z n)%Q.

Definition add_int (f : Q) (n : Z) : res Q := Ok (f + inject_Z n)%Q.

Definition to_int (f : Q) : res Z := Ok (Z.quot (Qnum f) (Zpos (Qden f))).

End Exact.

(** The idealised arithmetic, to tell what rounding changes. *)
Definition exact_arith : FloatArith := {|
  float := Q;
  int_truediv := Exact.truediv;
  float_mul_int := Exact.mul_int;
  float_add_int := Exact.add_int;
  int_of_float := Exact.to_int
|}.

(** ** Configuration of the controller *)

(** Python slices [l[i:]] and [l[:j]] for integers of either sign. *)
Definition slice_index {A : Type} (l : list A) (i : Z) : nat :=
  let n := Z.of_nat (List.length l) in
  Z.to_nat (if i <? 0 then Z.max 0 (n + i) else Z.min i n).

Definition slice_from {A : Type} (l : list A) (i : Z) : list A :=
  skipn (slice_index l i) l.

Definition slice_to {A : Type} (l : list A) (j : Z) : list A :=
  firstn (slice_index l j) l.

(** [str(n)] for an [int]. *)
Definition str_int (n : Z) : string := NilZero.string_of_int (Z.to_int n).

Definition newline : string := String (ascii_of_nat 10) EmptyString.

Inductive ScalingSource : Type :=
| COMPUTER  (* real screen resolution *)
| API.      (* scaled (model) resolution *)

Record ScalingConfig : Type := mkScalingConfig {
  enabled : bool;
  scale_quality : Z;
  maintain_aspect_ratio : bool;
  base_width : Z;
  base_height : Z
}.

Record CommandConfig : Type := mkCommandConfig {
  max_retries : Z;
  max_tokens : Z;
  history_size : Z;
  display_width : Z;
  display_height : Z;
  display_number : Z;
  scaling : ScalingConfig
}.

(** [MAX_SCALING_TARGETS]: XGA, WXGA and FWXGA, width and height. *)
Definition MAX_SCALING_TARGETS : list (Z * Z) :=
  [(1024, 768); (1280, 800); (1366, 768)].

Definition RECOMMENDED_WIDTH : Z := 1024.
Definition RECOMMENDED_HEIGHT : Z := 768.

(** The content blocks of a response of the remote model. *)
Inductive content_block : Type :=
| BetaTextBlock (text : string)
| BetaToolUseBlock (id name : string) (input : kwargs)
| OtherContentBlock.

(** The calls that reach the pointer, the keyboard and the screen. *)
Inductive os_call : Type :=
| Grab (left top right bottom : Z)
| MoveTo (x y : Z) (duration_ms : Z)
| Position
| MouseDown (x y : Z)
| MouseUp
| Click
| RightClick
| MiddleClick
| DoubleClick
| KeyDown (key : string)
| KeyUp (key : string)
| Typewrite (message : pyval).

(** What the process did to the outside world, oldest first. *)
Inductive event : Type :=
| SessionCreated
| ModelCall (request : list message) (response : res (list content_block))
| OsCall (call : os_call).

Definition is_os_call (e : event) : bool :=
  match e with OsCall _ => true | _ => false end.

Definition is_model_call (e : event) : bool :=
  match e with ModelCall _ _ => true | _ => false end.

(** ** The environment *)

(** Everything the process reads from outside.  An oracle indexed by a
    natural number is asked with the number of events that happened before
    the call, so that two calls never share an index. *)
Record Env : Type := mkEnv {
  (** [Anthropic(api_key=...)]: creating the client may raise. *)
  create_client : res unit;
  (** [client.beta.messages.create(...)]: the content of the response to a
      request, or the exception the transport raises. *)
  model_reply : nat -> list message -> res (list content_block);
  (** [_capture_screenshot]: the capture, scaled or padded and encoded. *)
  grab_reply : nat -> res string;
  (** [pyautogui.position()]. *)
  position_reply : nat -> res (Z * Z);
  (** The other [pyautogui] calls, which return nothing or raise. *)
  input_reply : nat -> os_call -> res unit;
  (** [time.time() - start_time] at the end of a tool call. *)
  elapsed : nat -> spec_float;
  (** Whether another task has called [cancel_current()] on the controller
      by the time this many chunks have been yielded. *)
  cancel_request : nat -> bool;
  (** [str(v)], as an f-string formats a value. *)
  str_of : pyval -> string;
  (** The readings of [time.time()] in [TankHandler.execute_command]. *)
  time_reading : nat -> Z
}.

(** [f"{v}"]: the text of a string is the string, an [int] prints in
    decimal; the environment prints the containers. *)
Definition format_value (env : Env) (v : pyval) : string :=
  match v with
  | PNone => "None"
  | PBool true => "True"
  | PBool false => "False"
  | PInt z => str_int z
  | PStr s => s
  | _ => str_of env v
  end.

(** The completion phrases of the control loop. *)
Definition completion_phrases : list string :=
  ["completed"; "finished"; "done"; "task accomplished"]%string.

(** [any(phrase in text.lower() for phrase in (...))]. *)
Definition is_completion_text (text : string) : bool :=
  existsb (fun phrase => contains phrase (lower text)) completion_phrases.

Definition is_assistant (m : message) : bool :=
  match msg_role m with Assistant => true | User => false end.

Definition nonempty (s : string) : bool := negb (String.eqb s EmptyString).

(** How a run of the control loop ends without raising: the turn is
    complete, the message ceiling is hit, an exception was reported as an
    error chunk; [OutOfFuel] says the model stopped the run before any of
    these happened. *)
Inductive loop_end : Type :=
| TurnCompleted
| MessageLimit
| ErrorReported
| OutOfFuel.

Definition CANCEL_MARKER : string := "Command cancelled".

(** ** [TankClaudeController] *)

Module TankClaudeController.

Record ToolStats : Type := mkToolStats {
  success_count : Z;
  error_count : Z;
  total_calls : Z;
  average_duration : spec_float
}.

(** The fields of the controller the modelled methods read or write.
    [client] says whether [self.client] is set. *)
Record t : Type := mkController {
  config : CommandConfig;
  _is_initialized : bool;
  client : bool;
  tool_stats : ToolStats;
  offset_x : Z;
  offset_y : Z;
  screen_width : Z;
  screen_height : Z;
  history : list message;
  _cancelled : bool
}.

Definition set_tool_stats (self : t) (ts : ToolStats) : t :=
  mkController (config self) (_is_initialized self) (client self) ts
    (offset_x self) (offset_y self) (screen_width self) (screen_height self)
    (history self) (_cancelled self).

Definition set_history (self : t) (h : list message) : t :=
  mkController (config self) (_is_initialized self) (client self) (tool_stats self)
    (offset_x self) (offset_y self) (screen_width self) (screen_height self)
    h (_cancelled self).

Definition set_cancelled (self : t) (c : bool) : t :=
  mkController (config self) (_is_initialized self) (client self) (tool_stats self)
    (offset_x self) (offset_y self) (screen_width self) (screen_height self)
    (history self) c.

Definition set_session (self : t) (initialized has_client : bool) : t :=
  mkController (config self) initialized has_client (tool_stats self)
    (offset_x self) (offset_y self) (screen_width self) (screen_height self)
    (history self) (_cancelled self).

(** [scale_coordinates(source, x, y)], over the arithmetic [fa]. *)
Definition scale_coordinates_with (fa : FloatArith) (self : t)
  (source : ScalingSource) (x y : Z) : res (Z * Z) :=
  let x := if x <? 0 then 0 else x in
  let y := if y <? 0 then 0 else y in
  if negb (enabled (scaling (config self))) then
    match source with
    | API =>
        let final_x := x + offset_x self in
        let final_y := y + offset_y self in
        let final_x :=
          Z.min (Z.max final_x (offset_x self)) (offset_x self + screen_width self - 1) in
        let final_y :=
          Z.min (Z.max final_y (offset_y self)) (offset_y self + screen_height self - 1) in
        Ok (final_x, final_y)
    | COMPUTER => Ok (x, y)
    end
  else
    let real_w := screen_width self in
    let real_h := screen_height self in
    let base_w := base_width (scaling (config self)) in
    let base_h := base_height (scaling (config self)) in
    match source with
    | API =>
        let? qx := int_truediv fa x base_w in
        let? scale_x := float_mul_int fa qx real_w in
        let? qy := int_truediv fa y base_h in
        let? scale_y := float_mul_int fa qy real_h in
        let? sx := float_add_int fa scale_x (offset_x self) in
        let? final_x := int_of_float fa sx in
        let? sy := float_add_int fa scale_y (offset_y self) in
        let? final_y := int_of_float fa sy in
        let final_x :=
          Z.min (Z.max final_x (offset_x self)) (offset_x self + real_w - 1) in
        let final_y :=
          Z.min (Z.max final_y (offset_y self)) (offset_y self + real_h - 1) in
        Ok (final_x, final_y)
    | COMPUTER =>
        let rx := x - offset_x self in
        let ry := y - offset_y self in
        let rx := if rx <? 0 then 0 else rx in
        let ry := if ry <? 0 then 0 else ry in
        let rx := if rx >? real_w then real_w else rx in
        let ry := if ry >? real_h then real_h else ry in
        let? qx := int_truediv fa rx real_w in
        let? scaled_x := float_mul_int fa qx base_w in
        let? qy := int_truediv fa ry real_h in
        let? scaled_y := float_mul_int fa qy base_h in
        let? ix := int_of_float fa scaled_x in
        let? iy := int_of_float fa scaled_y in
        Ok (ix, iy)
    end.

(** [scale_coordinates] as the program runs it. *)
Definition scale_coordinates : t -> ScalingSource -> Z -> Z -> res (Z * Z) :=
  scale_coordinates_with binary64.

(** The spec's [toScreen] and [toLogical]. *)
Definition toScreen (fa : FloatArith) (self : t) (p : Z * Z) : res (Z * Z) :=
  scale_coordinates_with fa self API (fst p) (snd p).

Definition toLogical (fa : FloatArith) (self : t) (p : Z * Z) : res (Z * Z) :=
  scale_coordinates_with fa self COMPUTER (fst p) (snd p).

(** [toScreen(x, y)] next to [toScreen(toLogical(toScreen(x, y)))]. *)
Definition round_trip (fa : FloatArith) (self : t) (x y : Z)
  : res ((Z * Z) * (Z * Z)) :=
  let? s1 := toScreen fa self (x, y) in
  let? l := toLogical fa self s1 in
  let? s2 := toScreen fa self l in
  Ok (s1, s2).

(** *** State and effects *)

(** The controller, the events so far, the chunks the running generator has
    yielded, and the list object [messages] of the running command. *)
Record State : Type := mkState {
  self : t;
  trace : list event;
  out : list string;
  messages : list message
}.

Definition M (A : Type) : Type := State -> res A * State.

Definition ret {A : Type} (a : A) : M A := fun st => (Ok a, st).

Definition bind {A B : Type} (m : M A) (k : A -> M B) : M B :=
  fun st =>
    match m st with
    | (Ok a, st') => k a st'
    | (Raise e, st') => (Raise e, st')
    end.

Definition raise {A : Type} (e : exn) : M A := fun st => (Raise e, st).

Definition lift {A : Type} (r : res A) : M A := fun st => (r, st).

Declare Scope ctl_scope.
Delimit Scope ctl_scope with ctl.
Notation "x <- m ;; k" := (bind m (fun x => k))
  (at level 61, m at next level, right associativity) : ctl_scope.
Notation "m ;; k" := (bind m (fun _ => k))
  (at level 61, right associativity) : ctl_scope.
Open Scope ctl_scope.

Definition get_self : M t := fun st => (Ok (self st), st).

Definition put_self (c : t) : M unit :=
  fun st => (Ok tt, mkState c (trace st) (out st) (messages st)).

Definition get_messages : M (list message) := fun st => (Ok (messages st), st).

Definition put_messages (ms : list message) : M unit :=
  fun st => (Ok tt, mkState (self st) (trace st) (out st) ms).

Definition log_event (e : event) : M unit :=
  fun st => (Ok tt, mkState (self st) (trace st ++ [e]) (out st) (messages st)).

Definition event_index : M nat := fun st => (Ok (List.length (trace st)), st).

(** [try: body / except Exception as e: handler(e)]: a [CancelledError]
    passes through. *)
Definition try_except {A : Type} (body : M A) (handler : exn -> M A) : M A :=
  fun st =>
    match body st with
    | (Ok a, st') => (Ok a, st')
    | (Raise e, st') => if is_Exception e then handler e st' else (Raise e, st')
    end.

(** [try: body / except asyncio.CancelledError: handler]. *)
Definition try_cancelled {A : Type} (body : M A) (handler : exn -> M A) : M A :=
  fun st =>
    match body st with
    | (Ok a, st') => (Ok a, st')
    | (Raise e, st') => if is_Exception e then (Raise e, st') else handler e st'
    end.

Section WithEnv.

Context (env : Env).

(** *** [cancel_current] *)

(** The two assignments of [cancel_current]. *)
Definition request_cancel (c : t) : t :=
  set_history (set_cancelled c true)
    (slice_to (history c) (history_size (config c))).

(** [cancel_current()]: after the assignments it raises, always. *)
Definition cancel_current (c : t) : res unit * t :=
  (Raise (CancelledError "Command cancelled by user"), request_cancel c).

(** [yield chunk].  While the consumer holds the chunk other tasks run, and
    one of them may call [cancel_current()]; the exception it raises goes to
    that caller, the assignments stay. *)
Definition yield (chunk : string) : M unit :=
  fun st =>
    let out' := out st ++ [chunk] in
    let c := if cancel_request env (List.length out')
             then request_cancel (self st) else self st in
    (Ok tt, mkState c (trace st) out' (messages st)).

(** *** The OS boundary *)

Definition os_input (call : os_call) : M unit :=
  n <- event_index ;;
  log_event (OsCall call) ;;
  lift (input_reply env n call).

Definition os_position : M (Z * Z) :=
  n <- event_index ;;
  log_event (OsCall Position) ;;
  lift (position_reply env n).

(** [_capture_screenshot()]: the bounding box is the screen of the
    controller; capture, scaling, padding and encoding are the
    environment's. *)
Definition _capture_screenshot : M string :=
  c <- get_self ;;
  n <- event_index ;;
  log_event (OsCall (Grab (offset_x c) (offset_y c)
                          (offset_x c + screen_width c)
                          (offset_y c + screen_height c))) ;;
  lift (grab_reply env n).

(** *** Tool statistics *)

Definition bump_total_calls (ts : ToolStats) : ToolStats :=
  mkToolStats (success_count ts) (error_count ts) (total_calls ts + 1)
    (average_duration ts).

Definition bump_error_count (ts : ToolStats) : ToolStats :=
  mkToolStats (success_count ts) (error_count ts + 1) (total_calls ts)
    (average_duration ts).

(** [_update_tool_success_stats(duration)]. *)
Definition _update_tool_success_stats (duration : spec_float) : M unit :=
  c <- get_self ;;
  let ts := tool_stats c in
  let sc := success_count ts + 1 in
  let ts := mkToolStats sc (error_count ts) (total_calls ts) (average_duration ts) in
  put_self (set_tool_stats c ts) ;;
  let old_avg := average_duration ts in
  weighted <- lift (Binary64.mul_int old_avg (sc - 1)) ;;
  avg <- lift (Binary64.div_int (Binary64.add weighted duration) sc) ;;
  c <- get_self ;;
  let ts := tool_stats c in
  put_self (set_tool_stats c
    (mkToolStats (success_count ts) (error_count ts) (total_calls ts) avg)).

(** [duration = time.time() - start_time], then the update. *)
Definition record_success : M unit :=
  n <- event_index ;;
  _update_tool_success_stats (elapsed env n).

(** *** [_execute_tool] *)

(** The arguments of [scale_coordinates] are compared with 0 first: a value
    that is not a number raises there. *)
Definition scale_values (source : ScalingSource) (vx vy : pyval) : M (Z * Z) :=
  x <- lift (as_int vx) ;;
  y <- lift (as_int vy) ;;
  c <- get_self ;;
  lift (scale_coordinates c source x y).

(** [for k in keys: pyautogui.keyDown(k.strip().lower())] and its mirror. *)
Fixpoint keys_down (keys : list string) : M unit :=
  match keys with
  | [] => ret tt
  | k :: rest => os_input (KeyDown (lower (strip k))) ;; keys_down rest
  end.

Fixpoint keys_up (keys : list string) : M unit :=
  match keys with
  | [] => ret tt
  | k :: rest => os_input (KeyUp (lower (strip k))) ;; keys_up rest
  end.

(** [for chunk in ...: pyautogui.typewrite(chunk, interval=interval)]. *)
Fixpoint type_chunks (chunks : list pyval) : M unit :=
  match chunks with
  | [] => ret tt
  | chunk :: rest => os_input (Typewrite chunk) ;; type_chunks rest
  end.

(** [if not coordinate or len(coordinate) != 2: raise ValueError(...)]. *)
Definition check_coordinate (action coordinate : pyval) : M unit :=
  let invalid :=
    ValueError ("Invalid coordinate for " ++ format_value env action ++ ".")%string in
  if negb (truthy coordinate) then raise invalid
  else
    n <- lift (py_len coordinate) ;;
    if negb (n =? 2) then raise invalid else ret tt.

(** The branch "Mouse movement or drag". *)
Definition mouse_action (action : pyval) (kw : kwargs) : M (list item) :=
  let coordinate := get_or_none "coordinate" kw in
  check_coordinate action coordinate ;;
  vx <- lift (py_index coordinate 0) ;;
  vy <- lift (py_index coordinate 1) ;;
  p <- scale_values API vx vy ;;
  let (x, y) := p : Z * Z in
  result_text <-
    (if is_str action "mouse_move" then
       os_input (MoveTo x y 0) ;;
       ret ("Moved mouse to (" ++ str_int x ++ ", " ++ str_int y ++ ")")%string
     else
       start <- os_position ;;
       let (startx, starty) := start : Z * Z in
       os_input (MouseDown startx starty) ;;
       os_input (MoveTo x y 200) ;;
       os_input MouseUp ;;
       ret ("Dragged mouse from (" ++ str_int startx ++ ", " ++ str_int starty
            ++ ") to (" ++ str_int x ++ ", " ++ str_int y ++ ")")%string) ;;
  record_success ;;
  ret [TextItem result_text].

(** The branch "Clicks". *)
Definition click_action (action : pyval) : M (list item) :=
  (if is_str action "left_click" then os_input Click
   else if is_str action "right_click" then os_input RightClick
   else if is_str action "middle_click" then os_input MiddleClick
   else os_input DoubleClick) ;;
  record_success ;;
  ret [TextItem ("Performed " ++ format_value env action)%string].

(** The branch "Keyboard".  The text is whatever the tool input holds: a
    value without [split] fails a combination before any key is pressed,
    and a list is typed as a string is, in slices of 50 entries. *)
Definition keyboard_action (action : pyval) (kw : kwargs) : M (list item) :=
  let text := get_or_none "text" kw in
  if negb (truthy text) then raise (ValueError "No text provided for keyboard action.")
  else
    (if is_str action "key" then
       keys <- lift (py_split_plus text) ;;
       keys_down keys ;; keys_up (rev keys)
     else
       chunks <- lift (_chunk_value text 50) ;;
       type_chunks chunks) ;;
    record_success ;;
    ret [TextItem ("Input text: " ++ format_value env text)%string].

(** The branch "Cursor position". *)
Definition cursor_position_action : M (list item) :=
  real <- os_position ;;
  scaled <- (c <- get_self ;;
             lift (scale_coordinates c COMPUTER (fst real) (snd real))) ;;
  record_success ;;
  ret [TextItem ("Cursor position: (" ++ str_int (fst scaled) ++ ", "
                 ++ str_int (snd scaled) ++ ")")%string].

(** The [try] block of [_execute_tool]: the content of the tool result. *)
Definition execute_action (kw : kwargs) : M (list item) :=
  let (action, kw) := pop_or_none "action" kw in
  if negb (truthy action) then raise (ValueError "No action specified in tool input")
  else if is_str action "screenshot" then
    screenshot_data <- _capture_screenshot ;;
    record_success ;;
    ret [ImageItem "image/png" screenshot_data]
  else if is_str action "mouse_move" || is_str action "left_click_drag" then
    mouse_action action kw
  else if is_str action "left_click" || is_str action "right_click"
          || is_str action "middle_click" || is_str action "double_click" then
    click_action action
  else if is_str action "key" || is_str action "type" then
    keyboard_action action kw
  else if is_str action "cursor_position" then cursor_position_action
  else raise (ValueError ("Unknown action: " ++ format_value env action)%string).

(** [_execute_tool], called with the keyword arguments [kw]. *)
Definition _execute_tool (kw : kwargs) : M (list item) :=
  c <- get_self ;;
  put_self (set_tool_stats c (bump_total_calls (tool_stats c))) ;;
  try_except (execute_action kw)
    (fun e =>
       c <- get_self ;;
       put_self (set_tool_stats c (bump_error_count (tool_stats c))) ;;
       raise e).

(** *** [_process_message_loop] *)

Definition append_message (m : message) : M unit :=
  ms <- get_messages ;;
  put_messages (ms ++ [m])%list.

(** [if self._cancelled: raise asyncio.CancelledError()]. *)
Definition check_cancelled : M unit :=
  c <- get_self ;;
  if _cancelled c then raise (CancelledError "") else ret tt.

(** [self.client.beta.messages.create(...)]. *)
Definition create_message : M (list content_block) :=
  c <- get_self ;;
  if negb (client c)
  then raise (OtherException "'NoneType' object has no attribute 'beta'")
  else
    n <- event_index ;;
    ms <- get_messages ;;
    let response := model_reply env n ms in
    log_event (ModelCall ms response) ;;
    lift response.

(** The call of [_execute_tool] with [content.input] unpacked into keyword
    arguments: a key "self" collides with the bound argument before the body
    runs. *)
Definition call_execute_tool (input : kwargs) : M (list item) :=
  match dict_get "self" input with
  | Some _ =>
      raise (TypeError "_execute_tool() got multiple values for argument 'self'")
  | None => _execute_tool input
  end.

(** The body of [for content in response.content], on the two flags
    [(has_tool_use, response_complete)]. *)
Definition process_block (content : content_block) (flags : bool * bool)
  : M (bool * bool) :=
  let (has_tool_use, response_complete) := flags in
  check_cancelled ;;
  match content with
  | BetaTextBlock text =>
      append_message (mkMessage Assistant (ContentBlocks [TextBlock text])) ;;
      yield text ;;
      ret (has_tool_use,
           if is_completion_text text then true else response_complete)
  | BetaToolUseBlock id name input =>
      yield ("Tool Use: " ++ name ++ newline ++ "Input: "
             ++ format_value env (PDict input))%string ;;
      try_except
        (tool_result <- call_execute_tool input ;;
         append_message
           (mkMessage Assistant (ContentBlocks [ToolUseBlock id name input])) ;;
         append_message
           (mkMessage User (ContentBlocks [ToolResultBlock id tool_result])) ;;
         yield ("Tool executed: "
                ++ format_value env (get_or_none "action" input))%string)
        (fun e =>
           let error_msg := ("Tool execution error: " ++ str_exn e)%string in
           yield error_msg ;;
           append_message (mkMessage User (ContentBlocks [TextBlock error_msg]))) ;;
      ret (true, response_complete)
  | OtherContentBlock => ret (has_tool_use, response_complete)
  end.

Fixpoint process_content (response : list content_block) (flags : bool * bool)
  : M (bool * bool) :=
  match response with
  | [] => ret flags
  | content :: rest =>
      flags' <- process_block content flags ;;
      process_content rest flags'
  end.

(** [if messages and messages[-1]["role"] == "assistant": messages.pop()]. *)
Definition drop_trailing_assistant : M unit :=
  ms <- get_messages ;;
  match last (map Some ms) None with
  | Some m => if is_assistant m then put_messages (removelast ms) else ret tt
  | None => ret tt
  end.

Definition MESSAGE_LIMIT_WARNING : string :=
  "Warning: message limit reached. Terminating conversation.".

(** One turn of [while True], after the first cancellation check: [None]
    goes round again, [Some e] leaves the loop. *)
Definition loop_iteration : M (option loop_end) :=
  try_except
    (ms <- get_messages ;;
     ms' <- lift (_maybe_filter_to_n_most_recent_images ms 2 2) ;;
     put_messages ms' ;;
     drop_trailing_assistant ;;
     response <- create_message ;;
     flags <- process_content response (false, false) ;;
     let (has_tool_use, response_complete) := flags : bool * bool in
     if negb has_tool_use && response_complete then ret (Some TurnCompleted)
     else
       ms <- get_messages ;;
       c <- get_self ;;
       if Z.of_nat (List.length ms) >? history_size (config c) * 10
       then yield MESSAGE_LIMIT_WARNING ;; ret (Some MessageLimit)
       else ret None)
    (fun e => yield ("Error: " ++ str_exn e)%string ;; ret (Some ErrorReported)).

(** [_process_message_loop(messages)], the list being [messages] of the
    state; the chunks go to [out]. *)
Fixpoint _process_message_loop (fuel : nat) : M loop_end :=
  match fuel with
  | O => ret OutOfFuel
  | S fuel' =>
      check_cancelled ;;
      r <- loop_iteration ;;
      match r with
      | Some e => ret e
      | None => _process_message_loop fuel'
      end
  end.

(** *** [init_session] and [execute_command] *)

Definition init_session : M unit :=
  c <- get_self ;;
  if _is_initialized c then ret tt
  else
    try_except
      (lift (create_client env) ;;
       log_event SessionCreated ;;
       c <- get_self ;;
       put_self (set_session c true true))
      (fun e =>
         raise (RuntimeError ("Session initialization failed: " ++ str_exn e)%string)).

(** [async for result in self._process_message_loop(messages): if result:
    yield result]: the chunks of the loop that are not empty, whether the
    loop returns or raises. *)
Definition relay_loop (fuel : nat) : M loop_end :=
  fun st =>
    let (r, st') :=
      _process_message_loop fuel (mkState (self st) (trace st) [] (messages st)) in
    (r, mkState (self st') (trace st')
          (out st ++ filter nonempty (out st'))%list (messages st')).

Definition user_message (command : string) : message :=
  mkMessage User (ContentBlocks [TextBlock command]).

(** [execute_command(command)].  [None]: the generator returned without
    entering the loop. *)
Definition execute_command (fuel : nat) (command : string) : M (option loop_end) :=
  if negb (nonempty (strip command)) then ret None
  else
    try_except
      (c <- get_self ;;
       (if _is_initialized c then ret tt else init_session) ;;
       c <- get_self ;;
       put_self (set_cancelled c false) ;;
       let command := strip command in
       c <- get_self ;;
       put_messages (history c ++ [user_message command])%list ;;
       try_cancelled
         (e <- relay_loop fuel ;;
          match e with
          | OutOfFuel => ret (Some OutOfFuel)
          | _ =>
              c <- get_self ;;
              ms <- get_messages ;;
              put_self (set_history c (slice_from ms (- history_size (config c)))) ;;
              ret (Some e)
          end)
         (fun e => yield CANCEL_MARKER ;; raise e))
      (fun e =>
         yield ("Command execution error: " ++ str_exn e)%string ;; ret None).

End WithEnv.

(** *** The screen of the controller *)

(** A monitor as [screeninfo] reports it. *)
Record Monitor : Type := mkMonitor {
  mon_x : Z;
  mon_y : Z;
  mon_width : Z;
  mon_height : Z
}.

(** The name [get_monitors]: [None] when [screeninfo] could not be
    imported, else a function whose call returns the monitors or raises. *)
Inductive screeninfo : Type :=
| NotInstalled
| Installed (monitors : res (list Monitor)).

(** [sorted(screens, key=lambda s: s.x)]: ascending in [x], monitors of
    equal [x] in the order they had. *)
Fixpoint insert_by_x (s : Monitor) (sorted : list Monitor) : list Monitor :=
  match sorted with
  | [] => [s]
  | t :: rest => if mon_x s <=? mon_x t then s :: sorted else t :: insert_by_x s rest
  end.

Fixpoint sorted_by_x (screens : list Monitor) : list Monitor :=
  match screens with
  | [] => []
  | s :: rest => insert_by_x s (sorted_by_x rest)
  end.

Definition set_screen (self : t) (screen : Monitor) : t :=
  mkController (config self) (_is_initialized self) (client self) (tool_stats self)
    (mon_x screen) (mon_y screen) (mon_width screen) (mon_height screen)
    (history self) (_cancelled self).

(** [_init_screen_offset()].  [except Exception] logs and goes on; an
    exception of another class leaves the method. *)
Definition _init_screen_offset (get_monitors : screeninfo) (self : t) : res t :=
  match get_monitors with
  | NotInstalled => Ok self
  | Installed (Raise e) => if is_Exception e then Ok self else Raise e
  | Installed (Ok screens) =>
      match screens with
      | [] => Ok self
      | _ =>
          let sorted_screens := sorted_by_x screens in
          let idx := Z.max 0 (display_number (config self) - 1) in
          let idx :=
            if idx >=? Z.of_nat (List.length sorted_screens) then 0 else idx in
          match nth_error sorted_screens (Z.to_nat idx) with
          | Some screen => Ok (set_screen self screen)
          | None => Ok self
          end
      end
  end.

(** *** The size of a screenshot *)

(** An image as far as its size, [(width, height)].  [im.resize(size)]
    raises on a size that is not positive, [Image.new(mode, size)] on a
    negative one. *)
Definition resize (size : Z * Z) : res (Z * Z) :=
  if (fst size <=? 0) || (snd size <=? 0)
  then Raise (ValueError "height and width must be > 0")
  else Ok size.

Definition new_image (size : Z * Z) : res (Z * Z) :=
  if (fst size <? 0) || (snd size <? 0)
  then Raise (ValueError "Width and height must be >= 0")
  else Ok size.

(** [_pad_to_base_resolution(im)]. *)
Definition _pad_to_base_resolution (self : t) (im : Z * Z) : res (Z * Z) :=
  let (w, h) := im in
  let bw := base_width (scaling (config self)) in
  let bh := base_height (scaling (config self)) in
  if (w >=? bw) && (h >=? bh) then Ok im
  else new_image (bw, bh).

(** The lines of [_capture_screenshot] between the capture and the
    encoding: the size of the image that is encoded, from the size of the
    capture. *)
Definition fit_to_base (self : t) (screenshot : Z * Z) : res (Z * Z) :=
  let base_w := base_width (scaling (config self)) in
  let base_h := base_height (scaling (config self)) in
  let (current_w, current_h) := screenshot in
  if (current_w >? base_w) || (current_h >? base_h) then resize (base_w, base_h)
  else if (current_w <? base_w) || (current_h <? base_h)
       then _pad_to_base_resolution self screenshot
       else Ok screenshot.

(** *** [close] *)

(** [close()]: nothing in its [try] block raises. *)
Definition close (self : t) : t := set_session (set_history self []) false false.

(** The property [session_active]. *)
Definition session_active (self : t) : bool := _is_initialized self && client self.

End TankClaudeController.

(** ** [TankHandler] *)

Module TankHandler.

Record t : Type := mkHandler {
  _is_initialized : bool;
  _model_initialized : bool;
  controller : TankClaudeController.t;
  tool_stats : kwargs
}.

Definition set_controller (h : t) (c : TankClaudeController.t) : t :=
  mkHandler (_is_initialized h) (_model_initialized h) c (tool_stats h).

(** [init_session()]: on the handler and the events so far. *)
Definition init_session (env : Env) (h : t) (tr : list event)
  : res unit * t * list event :=
  let st := TankClaudeController.mkState (controller h) tr [] [] in
  match TankClaudeController.init_session env st with
  | (Ok _, st') =>
      (Ok tt,
       mkHandler true true (TankClaudeController.self st') (tool_stats h),
       TankClaudeController.trace st')
  | (Raise e, st') =>
      let h' := set_controller h (TankClaudeController.self st') in
      if is_Exception e
      then (Raise (RuntimeError ("Session initialization failed: " ++ str_exn e)%string),
            h', TankClaudeController.trace st')
      else (Raise e, h', TankClaudeController.trace st')
  end.

(** The body of [async for result in self.controller.execute_command]:
    which results go on to the caller.  [asyncio.current_task().cancelled()]
    is false of a task that is running, so that branch never runs.  A set of
    hashes of [f"{cleaned_result}_{time.time()}"] is the set of the pairs of
    a text and a reading of the clock. *)
Fixpoint relay (env : Env) (results : list string) (reading : nat)
  (seen_messages : list (string * Z)) : list string :=
  match results with
  | [] => []
  | result :: rest =>
      let cleaned_result := strip result in
      if negb (nonempty cleaned_result) then relay env rest reading seen_messages
      else
        let now := time_reading env reading in
        if existsb (fun k => String.eqb (fst k) cleaned_result && (snd k =? now))
             seen_messages
        then relay env rest (S reading) seen_messages
        else cleaned_result
             :: relay env rest (S reading) ((cleaned_result, now) :: seen_messages)
  end.

(** What [execute_command] leaves: the chunks it yields (it never raises: a
    cancellation becomes the marker, an exception an error chunk), how the
    controller's loop ended, the handler and the events. *)
Record run : Type := mkRun {
  chunks : list string;
  ended : option loop_end;
  after : t;
  events : list event
}.

(** [execute_command(command)]. *)
Definition execute_command (env : Env) (fuel : nat) (h : t) (tr : list event)
  (command : string) : run :=
  let error_chunk e := ("Command execution error: " ++ str_exn e)%string in
  match (if _is_initialized h then (Ok tt, h, tr) else init_session env h tr) with
  | (Raise e, h', tr') =>
      mkRun [if is_Exception e then error_chunk e else CANCEL_MARKER] None h' tr'
  | (Ok _, h', tr') =>
      let command := strip command in
      let st := TankClaudeController.mkState (controller h') tr' [] [] in
      let (r, st') := TankClaudeController.execute_command env fuel command st in
      let relayed := relay env (TankClaudeController.out st') 0 [] in
      let h'' := set_controller h' (TankClaudeController.self st') in
      let tr'' := TankClaudeController.trace st' in
      match r with
      | Ok e => mkRun relayed e h'' tr''
      | Raise e =>
          mkRun (relayed ++ [if is_Exception e then error_chunk e else CANCEL_MARKER])
            None h'' tr''
      end
  end.

(** [cancel_current()]: the controller's call raises, so [tool_stats] is
    not cleared; [except Exception] logs and raises again. *)
Definition cancel_current (h : t) : res unit * t :=
  match TankClaudeController.cancel_current (controller h) with
  | (Ok _, c') =>
      (Ok tt, mkHandler (_is_initialized h) (_model_initialized h) c' [])
  | (Raise e, c') => (Raise e, set_controller h c')
  end.

End TankHandler.

(** ** [AsyncCommandManager] *)

(** What the manager asks of its handler besides the stream of
    [execute_command], which the functions below take as an argument. *)
Class Handler (H : Type) : Type := {
  handler_cancel_current : H -> res unit * H
}.

#[export] Instance tank_handler : Handler TankHandler.t := {|
  handler_cancel_current := TankHandler.cancel_current
|}.

(** The chunks an async generator yields and how it ends. *)
Definition stream : Type := (list string * res unit)%type.

Module AsyncCommandManager.

Inductive CommandState : Type :=
| QUEUED
| EXECUTING
| COMPLETED
| CANCELLED
| FAILED.

Definition CommandState_eqb (a b : CommandState) : bool :=
  match a, b with
  | QUEUED, QUEUED | EXECUTING, EXECUTING | COMPLETED, COMPLETED
  | CANCELLED, CANCELLED | FAILED, FAILED => true
  | _, _ => false
  end.

(** A terminal state is final. *)
Definition is_terminal (s : CommandState) : bool :=
  match s with
  | COMPLETED | CANCELLED | FAILED => true
  | QUEUED | EXECUTING => false
  end.

(** [CommandContext].  [callback] names the callable, if any; the field
    [task] is never assigned and is left out. *)
Record CommandContext : Type := mkContext {
  command : string;
  callback : option nat;
  timestamp : Z;
  state : CommandState;
  error : option string;
  result : option string
}.

Definition set_state (ctx : CommandContext) (s : CommandState) : CommandContext :=
  mkContext (command ctx) (callback ctx) (timestamp ctx) s (error ctx) (result ctx).

Definition set_error (ctx : CommandContext) (e : option string) : CommandContext :=
  mkContext (command ctx) (callback ctx) (timestamp ctx) (state ctx) e (result ctx).

Definition set_result (ctx : CommandContext) (r : option string) : CommandContext :=
  mkContext (command ctx) (callback ctx) (timestamp ctx) (state ctx) (error ctx) r.

(** Where the coroutine [process_queue] stands.  In [TaskEnded id r] the
    task of the command [id], the local [ctx] of the coroutine, is done with
    the outcome [r], and the coroutine has not resumed from its [await]
    yet. *)
Inductive processor : Type :=
| AtLoopTop      (* about to test [while not self._shutdown] *)
| InGet          (* suspended in [await self.queue.get()] *)
| AwaitingTask   (* suspended in [await self._current_task], the task running *)
| TaskEnded (id : nat) (r : res unit)
                 (* suspended in [await self._current_task], the task done *)
| Exited         (* left the loop: [_shutdown] was set *)
| Killed.        (* a [CancelledError] left the coroutine *)

(** The manager.  The [CommandContext] objects live in [contexts] and are
    named by their position there: the queue, [current_command], the running
    task and the history hold the same objects.  [calls] lists the callback
    invocations, each with the context as the callback saw it.  [proc] says
    where the coroutine [process_queue] of the manager stands: one
    coroutine, as the method is written for. *)
Record t (H : Type) : Type := mkManager {
  handler : H;
  queue : list nat;
  unfinished_tasks : Z;
  current_command : option nat;
  is_processing : bool;
  _shutdown : bool;
  _current_task : option nat;
  command_history : list nat;
  max_history : Z;
  contexts : list CommandContext;
  calls : list (nat * CommandContext);
  proc : processor
}.
Arguments mkManager {H}.
Arguments handler {H}.
Arguments queue {H}.
Arguments unfinished_tasks {H}.
Arguments current_command {H}.
Arguments is_processing {H}.
Arguments _shutdown {H}.
Arguments _current_task {H}.
Arguments command_history {H}.
Arguments max_history {H}.
Arguments contexts {H}.
Arguments calls {H}.
Arguments proc {H}.

(** What a callback does when it is called: return, or raise. *)
Definition callbacks : Type := nat -> CommandContext -> res unit.

(** The manager when [cancel_current] resumes after [self._current_task
    .cancel()] and [await self._current_task], and the exception the
    [await] raised if any: the event loop decides what ran meanwhile. *)
Class EventLoop (H : Type) : Type := {
  cancel_and_await : t H -> res unit * t H
}.

Section Manager.

Context {H : Type} {handler_ops : Handler H} {event_loop : EventLoop H}.
Context (cbs : callbacks).

Definition with_handler (m : t H) (h : H) : t H :=
  mkManager h (queue m) (unfinished_tasks m) (current_command m)
    (is_processing m) (_shutdown m) (_current_task m) (command_history m)
    (max_history m) (contexts m) (calls m) (proc m).

Definition with_queue (m : t H) (q : list nat) (unfinished : Z) : t H :=
  mkManager (handler m) q unfinished (current_command m)
    (is_processing m) (_shutdown m) (_current_task m) (command_history m)
    (max_history m) (contexts m) (calls m) (proc m).

Definition with_current (m : t H) (cur : option nat) (processing : bool)
  (task : option nat) : t H :=
  mkManager (handler m) (queue m) (unfinished_tasks m) cur
    processing (_shutdown m) task (command_history m)
    (max_history m) (contexts m) (calls m) (proc m).

Definition with_shutdown (m : t H) (b : bool) : t H :=
  mkManager (handler m) (queue m) (unfinished_tasks m) (current_command m)
    (is_processing m) b (_current_task m) (command_history m)
    (max_history m) (contexts m) (calls m) (proc m).

Definition with_history (m : t H) (h : list nat) : t H :=
  mkManager (handler m) (queue m) (unfinished_tasks m) (current_command m)
    (is_processing m) (_shutdown m) (_current_task m) h
    (max_history m) (contexts m) (calls m) (proc m).

Definition with_contexts (m : t H) (cs : list CommandContext) : t H :=
  mkManager (handler m) (queue m) (unfinished_tasks m) (current_command m)
    (is_processing m) (_shutdown m) (_current_task m) (command_history m)
    (max_history m) cs (calls m) (proc m).

Definition with_calls (m : t H) (l : list (nat * CommandContext)) : t H :=
  mkManager (handler m) (queue m) (unfinished_tasks m) (current_command m)
    (is_processing m) (_shutdown m) (_current_task m) (command_history m)
    (max_history m) (contexts m) l (proc m).

Definition with_proc (m : t H) (p : processor) : t H :=
  mkManager (handler m) (queue m) (unfinished_tasks m) (current_command m)
    (is_processing m) (_shutdown m) (_current_task m) (command_history m)
    (max_history m) (contexts m) (calls m) p.

(** The context object named [id]. *)
Definition ctx_of (m : t H) (id : nat) : option CommandContext :=
  nth_error (contexts m) id.

Fixpoint update_nth {A : Type} (l : list A) (n : nat) (f : A -> A) : list A :=
  match l, n with
  | [], _ => []
  | x :: rest, O => f x :: rest
  | x :: rest, S n' => x :: update_nth rest n' f
  end.

(** An assignment to fields of the context object named [id]. *)
Definition update_ctx (m : t H) (id : nat) (f : CommandContext -> CommandContext)
  : t H :=
  with_contexts m (update_nth (contexts m) id f).

Definition state_of (m : t H) (id : nat) : option CommandState :=
  option_map state (ctx_of m id).

(** [if ctx.callback: ctx.callback(ctx)]. *)
Definition invoke_callback (id : nat) (m : t H) : res unit * t H :=
  match ctx_of m id with
  | Some ctx =>
      match callback ctx with
      | Some cb => (cbs cb ctx, with_calls m (calls m ++ [(id, ctx)]))
      | None => (Ok tt, m)
      end
  | None => (Ok tt, m)
  end.

(** [add_command(command, callback)], [now] being [time.time()]. *)
Definition add_command (m : t H) (cmd : string) (cb : option nat) (now : Z) : t H :=
  let ctx := mkContext cmd cb now QUEUED None None in
  let id := List.length (contexts m) in
  with_queue (with_contexts m (contexts m ++ [ctx]))
    (queue m ++ [id]) (unfinished_tasks m + 1).

(** *** [_execute_command] *)

Definition CANCELLED_BY_USER : string := "Command cancelled by user".

(** The body of [async for result in self.handler.execute_command(...)] over
    the chunks of the stream: [last_result], or the exception a callback
    raised. *)
Fixpoint consume (id : nat) (results : list string) (last_result : option string)
  (m : t H) : res (option string) * t H :=
  match results with
  | [] => (Ok last_result, m)
  | result :: rest =>
      let (last_result', m1) :=
        if nonempty result
        then (Some result, update_ctx m id (fun c => set_result c (Some result)))
        else (last_result, m) in
      match invoke_callback id m1 with
      | (Ok _, m2) => consume id rest last_result' m2
      | (Raise e, m2) => (Raise e, m2)
      end
  end.

(** The two [except] clauses of [_execute_command]. *)
Definition on_exception (id : nat) (e : exn) (m : t H) : res unit * t H :=
  if is_Exception e then
    let m1 :=
      update_ctx m id (fun c => set_error (set_state c FAILED) (Some (str_exn e))) in
    invoke_callback id m1
  else
    let m1 :=
      update_ctx m id
        (fun c => set_error (set_state c CANCELLED) (Some CANCELLED_BY_USER)) in
    match invoke_callback id m1 with
    | (Ok _, m2) => (Raise e, m2)
    | (Raise e', m2) => (Raise e', m2)
    end.

Definition is_marker (last_result : option string) : bool :=
  match last_result with
  | Some r => String.eqb r CANCEL_MARKER
  | None => false
  end.

(** [_execute_command(ctx)], [s] being the stream of
    [self.handler.execute_command(ctx.command)]. *)
Definition _execute_command (id : nat) (s : stream) (m : t H) : res unit * t H :=
  match consume id (fst s) None m with
  | (Ok last_result, m1) =>
      match snd s with
      | Ok _ =>
          if is_marker last_result
          then (Ok tt,
                update_ctx m1 id
                  (fun c => set_error (set_state c CANCELLED) (Some CANCELLED_BY_USER)))
          else (Ok tt, update_ctx m1 id (fun c => set_state c COMPLETED))
      | Raise e => on_exception id e m1
      end
  | (Raise e, m1) => on_exception id e m1
  end.

(** *** [process_queue] *)

(** [ctx = await self.queue.get()] and the lines up to
    [await self._current_task]; an empty queue suspends the coroutine. *)
Definition dequeue (m : t H) : t H :=
  match queue m with
  | [] => with_proc m InGet
  | id :: q =>
      let m1 := with_queue m q (unfinished_tasks m) in
      let m2 := with_current m1 (Some id) true (_current_task m1) in
      let m3 := update_ctx m2 id (fun c => set_state c EXECUTING) in
      with_proc (with_current m3 (Some id) true (Some id)) AwaitingTask
  end.

(** The coroutine from where it stands to its next suspension. *)
Definition process_queue_step (m : t H) : t H :=
  match proc m with
  | AtLoopTop =>
      if _shutdown m then with_proc m Exited
      else if is_processing m then m
      else dequeue m
  | InGet => dequeue m
  | _ => m
  end.

(** [self.queue.task_done()]. *)
Definition task_done (m : t H) : res unit * t H :=
  if unfinished_tasks m <=? 0
  then (Raise (ValueError "task_done() called too many times"), m)
  else (Ok tt, with_queue m (queue m) (unfinished_tasks m - 1)).

(** The [finally] block of [process_queue]. *)
Definition finally_block (id : nat) (m : t H) : res unit * t H :=
  let popped :=
    if Z.of_nat (List.length (command_history m)) >=? max_history m
    then match command_history m with
         | [] => Raise (IndexError "pop from empty list")
         | _ :: rest => Ok rest
         end
    else Ok (command_history m) in
  match popped with
  | Raise e => (Raise e, m)
  | Ok h =>
      let m1 := with_history m (h ++ [id]) in
      let m2 := with_current m1 None false None in
      task_done m2
  end.

(** The running task ends, having consumed the stream [s]: the command
    has its final state, and [process_queue] is still suspended in
    [await self._current_task].  The task touches its own context object
    and calls its callback, nothing else of the manager, so what the event
    loop runs between two chunks of the stream is taken to run before the
    first. *)
Definition task_ends (s : stream) (m : t H) : t H :=
  match proc m, _current_task m with
  | AwaitingTask, Some id =>
      let (r, m1) := _execute_command id s m in
      with_proc m1 (TaskEnded id r)
  | _, _ => m
  end.

(** [process_queue] resumes from [await self._current_task] with the
    outcome of the task: the [finally] block, then the clause the outcome
    selects. *)
Definition resume (m : t H) : t H :=
  match proc m with
  | TaskEnded id r =>
      let (f, m2) := finally_block id m in
      match f, r with
      | Ok _, Raise e =>
          if is_Exception e then with_proc m2 AtLoopTop else with_proc m2 Killed
      | _, _ => with_proc m2 AtLoopTop
      end
  | _ => m
  end.

(** The two in a row: the running task ends and [process_queue] resumes
    before anything else runs. *)
Definition task_finished (s : stream) (m : t H) : t H :=
  match proc m, _current_task m with
  | AwaitingTask, Some _ => resume (task_ends s m)
  | _, _ => m
  end.

(** *** [cancel_current] and [shutdown] *)

Definition is_executing (m : t H) : bool :=
  match current_command m with
  | Some id =>
      match state_of m id with
      | Some EXECUTING => true
      | _ => false
      end
  | None => false
  end.

(** [cancel_current()].  The task held in [_current_task] while the
    current command is [EXECUTING] is not done: [_execute_command] gives
    the command its final state before it returns. *)
Definition cancel_current (m : t H) : res unit * t H :=
  if negb (is_executing m) then (Ok tt, m)
  else
    match handler_cancel_current (handler m) with
    | (Raise e, h') => (Raise e, with_handler m h')
    | (Ok _, h') =>
        let m1 := with_handler m h' in
        let (r, m2) :=
          match _current_task m1 with
          | Some _ =>
              match cancel_and_await m1 with
              | (Raise e, m') =>
                  if is_Exception e then (Raise e, m') else (Ok tt, m')
              | (Ok _, m') => (Ok tt, m')
              end
          | None => (Ok tt, m1)
          end in
        match r with
        | Raise e => (Raise e, m2)
        | Ok _ =>
            let m3 :=
              with_current m2 (current_command m2) false (_current_task m2) in
            match current_command m3 with
            | Some id =>
                invoke_callback id
                  (update_ctx m3 id
                     (fun c => set_error (set_state c CANCELLED)
                                 (Some CANCELLED_BY_USER)))
            | None => (Ok tt, m3)
            end
        end
    end.

(** [while not self.queue.empty(): ...] of [shutdown], over the queue. *)
Fixpoint drain (q : list nat) (m : t H) : res unit * t H :=
  match q with
  | [] => (Ok tt, m)
  | id :: rest =>
      let m1 := with_queue m rest (unfinished_tasks m) in
      let m2 :=
        update_ctx m1 id
          (fun c => set_error (set_state c CANCELLED)
                      (Some "Command manager shutdown"%string)) in
      match task_done m2 with
      | (Raise e, m3) => (Raise e, m3)
      | (Ok _, m3) => drain rest m3
      end
  end.

(** [shutdown()]. *)
Definition shutdown (m : t H) : res unit * t H :=
  let m1 := with_shutdown m true in
  match cancel_current m1 with
  | (Raise e, m2) => (Raise e, m2)
  | (Ok _, m2) => drain (queue m2) m2
  end.

(** *** The manager as a transition system *)

(** What can happen to a manager: a caller adds a command, cancels or shuts
    down; the coroutine [process_queue] runs to its next suspension; the
    running task ends. *)
Inductive action : Type :=
| Add (cmd : string) (cb : option nat) (now : Z)
| Advance
| Finish (s : stream)
| Cancel
| Shutdown.

Definition perform (m : t H) (a : action) : t H :=
  match a with
  | Add cmd cb now => add_command m cmd cb now
  | Advance => process_queue_step m
  | Finish s => task_finished s m
  | Cancel => snd (cancel_current m)
  | Shutdown => snd (shutdown m)
  end.

Definition run_actions (m : t H) (l : list action) : t H := fold_left perform l m.

(** A manager as [__init__] leaves it, its processor started. *)
Definition init (h : H) (capacity : Z) : t H :=
  mkManager h [] 0 None false false None [] capacity [] [] AtLoopTop.

(** The commands whose task ended in the course of [l], oldest first. *)
Fixpoint retired (m : t H) (l : list action) : list nat :=
  match l with
  | [] => []
  | a :: rest =>
      match a, proc m, _current_task m with
      | Finish _, AwaitingTask, Some id => id :: retired (perform m a) rest
      | _, _, _ => retired (perform m a) rest
      end
  end.

(** The same transition system with the end of a task in its two parts:
    between the end of the task and the resumption of [process_queue] the
    event loop may run anything else. *)
Inductive step : Type :=
| Act (a : action)
| TaskEnds (s : stream)
| Resume.

Definition perform_step (m : t H) (st : step) : t H :=
  match st with
  | Act a => perform m a
  | TaskEnds s => task_ends s m
  | Resume => resume m
  end.

Definition run_steps (m : t H) (l : list step) : t H := fold_left perform_step l m.

End Manager.

End AsyncCommandManager.

(** ** The shipped configuration *)

Module Shipped.

Local Open Scope string_scope.

(** The configuration [TankHandler.__init__] builds, on the fallback screen
    of the controller (1920x1080 at the origin). *)
Definition scaling_config : ScalingConfig := mkScalingConfig true 85 true 1366 768.

Definition command_config : CommandConfig :=
  mkCommandConfig 3 1024 10 1024 768 1 scaling_config.

Definition controller : TankClaudeController.t :=
  TankClaudeController.mkController command_config false false
    (TankClaudeController.mkToolStats 0 0 0 (S754_zero false))
    0 0 1920 1080 [] false.

Definition tank : TankHandler.t := TankHandler.mkHandler false false controller [].

(** The same controller with scaling switched off. *)
Definition unscaled_controller : TankClaudeController.t :=
  TankClaudeController.mkController
    (mkCommandConfig 3 1024 10 1024 768 1 (mkScalingConfig false 85 true 1366 768))
    false false (TankClaudeController.mkToolStats 0 0 0 (S754_zero false))
    0 0 1920 1080 [] false.

(** A controller whose logical and real resolutions are both 4:3: XGA
    (the default of [ScalingConfig]) on a screen of 1920x1440. *)
Definition four_by_three : TankClaudeController.t :=
  TankClaudeController.mkController
    (mkCommandConfig 3 1024 100 1024 768 1 (mkScalingConfig true 85 true 1024 768))
    false false (TankClaudeController.mkToolStats 0 0 0 (S754_zero false))
    0 0 1920 1440 [] false.

(** A manager over that handler with the default capacity of the history. *)
Definition manager : AsyncCommandManager.t TankHandler.t :=
  AsyncCommandManager.init tank 100.

(** Two commands are submitted, the first with a callback, and the
    processor takes the first: it is [EXECUTING], the second is queued. *)
Definition busy_manager : AsyncCommandManager.t TankHandler.t :=
  AsyncCommandManager.process_queue_step
    (AsyncCommandManager.add_command
       (AsyncCommandManager.add_command manager "click the button" (Some 0%nat) 0)
       "open the menu" None 1).

(** An environment in which nothing fails and nobody cancels; the model
    answers every request with an empty response. *)
Definition calm_env : Env :=
  mkEnv (Ok tt) (fun _ _ => Ok []) (fun _ => Ok EmptyString)
    (fun _ => Ok (0, 0)) (fun _ _ => Ok tt) (fun _ => S754_zero false)
    (fun _ => false) (fun _ => EmptyString) (fun n => Z.of_nat n).

(** The scripted model of the spec's scenario: the first response asks for a
    click and says "done", the second says "Task completed". *)
Definition scripted_env : Env :=
  mkEnv (Ok tt)
    (fun n _ =>
       match n with
       | O => Ok [BetaToolUseBlock "toolu_1" "computer" [("action", PStr "left_click")];
                  BetaTextBlock "done"]
       | _ => Ok [BetaTextBlock "Task completed"]
       end)
    (fun _ => Ok EmptyString)
    (fun _ => Ok (0, 0)) (fun _ _ => Ok tt) (fun _ => S754_zero false)
    (fun _ => false) (fun _ => "{'action': 'left_click'}"%string)
    (fun n => Z.of_nat n).

(** The controller with its session open, about to run the loop on the
    command "click the button". *)
Definition scripted_start : TankClaudeController.State :=
  TankClaudeController.mkState
    (TankClaudeController.set_session controller true true) [] []
    [TankClaudeController.user_message "click the button"].

(** Callbacks that return. *)
Definition quiet : AsyncCommandManager.callbacks := fun _ _ => Ok tt.

(** An event loop for the examples: awaiting the cancelled task returns at
    once on an unchanged manager.  The Tank handler never lets
    [cancel_current] reach that [await]. *)
Definition inert_loop : AsyncCommandManager.EventLoop TankHandler.t :=
  {| AsyncCommandManager.cancel_and_await := fun m => (Ok tt, m) |}.

(** Three commands are submitted and run one after the other, each to the
    end of its stream. *)
Definition three_commands : list AsyncCommandManager.action :=
  [AsyncCommandManager.Add "click the button" None 0;
   AsyncCommandManager.Add "open the menu" None 1;
   AsyncCommandManager.Add "close the window" None 2;
   AsyncCommandManager.Advance;
   AsyncCommandManager.Finish (["Task completed"], Ok tt);
   AsyncCommandManager.Advance;
   AsyncCommandManager.Finish (["Task completed"], Ok tt);
   AsyncCommandManager.Advance;
   AsyncCommandManager.Finish (["Command cancelled"], Ok tt)]%string.

(** A command is submitted while the task of the first one is done and
    [process_queue] has not resumed; a cancellation arrives at that moment
    too. *)
Definition command_between : list AsyncCommandManager.step :=
  [AsyncCommandManager.Act (AsyncCommandManager.Add "click the button" None 0);
   AsyncCommandManager.Act AsyncCommandManager.Advance;
   AsyncCommandManager.TaskEnds (["Task completed"], Ok tt);
   AsyncCommandManager.Act (AsyncCommandManager.Add "open the menu" None 1);
   AsyncCommandManager.Act AsyncCommandManager.Cancel]%string.

(** One command is submitted and the manager is shut down before the
    processor takes it. *)
Definition submit_then_shutdown : list AsyncCommandManager.action :=
  [AsyncCommandManager.Add "click the button" None 0; AsyncCommandManager.Shutdown].

End Shipped.

(** ** Further environments *)

Module Examples.

Local Open Scope string_scope.

(** A keyboard on which the key "shift" cannot be pressed. *)
Definition stuck_shift_env : Env :=
  mkEnv (Ok tt) (fun _ _ => Ok []) (fun _ => Ok EmptyString)
    (fun _ => Ok (0, 0)%Z)
    (fun _ call =>
       match call with
       | KeyDown k =>
           if String.eqb k "shift" then Raise (OtherException "key is stuck") else Ok tt
       | _ => Ok tt
       end)
    (fun _ => S754_zero false)
    (fun _ => false) (fun _ => EmptyString) (fun n => Z.of_nat n).

(** An environment whose model cannot be reached. *)
Definition offline_env : Env :=
  mkEnv (Ok tt) (fun _ _ => Raise (RuntimeError "connection refused"))
    (fun _ => Ok EmptyString)
    (fun _ => Ok (0, 0)%Z) (fun _ _ => Ok tt) (fun _ => S754_zero false)
    (fun _ => false) (fun _ => EmptyString) (fun n => Z.of_nat n).

(** An environment whose model answers every request with a remark. *)
Definition chatty_env : Env :=
  mkEnv (Ok tt) (fun _ _ => Ok [BetaTextBlock "I can see the desktop."])
    (fun _ => Ok EmptyString)
    (fun _ => Ok (0, 0)%Z) (fun _ _ => Ok tt) (fun _ => S754_zero false)
    (fun _ => false) (fun _ => EmptyString) (fun n => Z.of_nat n).

(** An environment in which the client cannot be created. *)
Definition keyless_env : Env :=
  mkEnv (Raise (OtherException "invalid x-api-key")) (fun _ _ => Ok [])
    (fun _ => Ok EmptyString)
    (fun _ => Ok (0, 0)%Z) (fun _ _ => Ok tt) (fun _ => S754_zero false)
    (fun _ => false) (fun _ => EmptyString) (fun n => Z.of_nat n).

(** An environment whose model answers with a remark and whose user
    cancels as soon as the first chunk is out. *)
Definition cancelling_env : Env :=
  mkEnv (Ok tt) (fun _ _ => Ok [BetaTextBlock "I can see the desktop."])
    (fun _ => Ok EmptyString)
    (fun _ => Ok (0, 0)%Z) (fun _ _ => Ok tt) (fun _ => S754_zero false)
    (fun n => Nat.eqb n 1) (fun _ => EmptyString) (fun n => Z.of_nat n).

(** The Tank handler with its session open. *)
Definition open_tank : TankHandler.t :=
  TankHandler.mkHandler true true
    (TankClaudeController.set_session Shipped.controller true true) [].

(** The shipped configuration on a screen of 3840x2160. *)
Definition four_k : TankClaudeController.t :=
  TankClaudeController.mkController Shipped.command_config false false
    (TankClaudeController.mkToolStats 0 0 0 (S754_zero false))
    0 0 3840 2160 [] false.

(** The shipped configuration on a monitor to the left of the primary one:
    its offset is negative. *)
Definition left_monitor : TankClaudeController.t :=
  TankClaudeController.mkController Shipped.command_config false false
    (TankClaudeController.mkToolStats 0 0 0 (S754_zero false))
    (-1920) 0 1920 1080 [] false.

(** A logical width beyond the integers a double holds exactly. *)
Definition huge_base : TankClaudeController.t :=
  TankClaudeController.mkController
    (mkCommandConfig 3 1024 10 1024 768 1
       (mkScalingConfig true 85 true (2 ^ 53 + 3) 768))
    false false (TankClaudeController.mkToolStats 0 0 0 (S754_zero false))
    0 0 1920 1080 [] false.

End Examples.

(** ** The terms of the properties *)

(** An entry that is not a screenshot. *)
Definition not_image (c : item) : bool := negb (is_image c).


(** The last chunk of a stream that is not empty, [d] if there is none. *)
Definition last_chunk (chunks : list string) (d : option string) : option string :=
  last (map Some (filter nonempty chunks)) d.

(** The last [n] entries of a list. *)
Definition lastn {A : Type} (n : nat) (l : list A) : list A :=
  skipn (List.length l - n) l.

(** [m'] differs from [m] in its context objects and its callback log at
    most. *)
Definition frame {H : Type} (m m' : AsyncCommandManager.t H) : Prop :=
  let same {A : Type} (field : AsyncCommandManager.t H -> A) := field m' = field m in
  same AsyncCommandManager.handler
  /\ same AsyncCommandManager.queue
  /\ same AsyncCommandManager.unfinished_tasks
  /\ same AsyncCommandManager.current_command
  /\ same AsyncCommandManager.is_processing
  /\ same AsyncCommandManager._shutdown
  /\ same AsyncCommandManager._current_task
  /\ same AsyncCommandManager.command_history
  /\ same AsyncCommandManager.max_history
  /\ same AsyncCommandManager.proc.

(** What the [finally] block does to the history. *)
Definition push_history (capacity : Z) (h : list nat) (id : nat) : list nat :=
  if Z.of_nat (List.length h) >=? capacity
  then match h with
       | [] => h
       | _ :: rest => rest ++ [id]
       end
  else h ++ [id].

(** A sequence of length 2: what [coordinate] has to be. *)
Definition len2_sequence (v : pyval) : bool :=
  match v with
  | PList [_; _] => true
  | PStr s => (String.length s =? 2)%nat
  | _ => false
  end.

(** The exception a malformed [coordinate] ends in: the [ValueError] of the
    check when the value is missing, falsy or has another length; the
    [TypeError] of [len] on a number; the [KeyError] of [coordinate[0]] on a
    dict of two entries, which passes the check. *)
Definition coordinate_failure (action : string) (coordinate : pyval) : exn :=
  let invalid := ValueError ("Invalid coordinate for " ++ action ++ ".")%string in
  if negb (truthy coordinate) then invalid
  else match coordinate with
       | PBool _ => TypeError "object of type 'bool' has no len()"
       | PInt _ => TypeError "object of type 'int' has no len()"
       | PDict [_; _] => KeyError "0"
       | _ => invalid
       end.

(** The state after a call that failed: one more call, one more error. *)
Definition after_failed_call (st : TankClaudeController.State)
  : TankClaudeController.State :=
  let c := TankClaudeController.self st in
  let ts := TankClaudeController.tool_stats c in
  TankClaudeController.mkState
    (TankClaudeController.set_tool_stats c
       (TankClaudeController.mkToolStats
          (TankClaudeController.success_count ts)
          (TankClaudeController.error_count ts + 1)
          (TankClaudeController.total_calls ts + 1)
          (TankClaudeController.average_duration ts)))
    (TankClaudeController.trace st) (TankClaudeController.out st)
    (TankClaudeController.messages st).

(** A computation that adds calls to the OS to the events and nothing
    else. *)
Definition os_only {A : Type} (m : TankClaudeController.M A) : Prop :=
  forall st, exists l,
    TankClaudeController.trace (snd (m st)) = (TankClaudeController.trace st ++ l)%list
    /\ forallb is_os_call l = true.

(** The content blocks the termination rule looks at. *)
Definition is_tool_use (content : content_block) : bool :=
  match content with
  | BetaToolUseBlock _ _ _ => true
  | _ => false
  end.

(** A text block with one of the completion phrases in its lowered text. *)
Definition is_completion_block (content : content_block) : bool :=
  match content with
  | BetaTextBlock text => is_completion_text text
  | _ => false
  end.

(** The latest request to the model among the events, with its response. *)
Fixpoint last_model_call (tr : list event)
  : option (list message * res (list content_block)) :=
  match tr with
  | [] => None
  | e :: rest =>
      match last_model_call rest with
      | Some call => Some call
      | None =>
          match e with
          | ModelCall request response => Some (request, response)
          | _ => None
          end
      end
  end.

(** What the end of a turn says about the turn. *)
Definition turn_end_condition (e : loop_end) (st' : TankClaudeController.State)
  : Prop :=
  match e with
  | TurnCompleted =>
      exists request response,
        last_model_call (TankClaudeController.trace st') = Some (request, Ok response)
        /\ existsb is_tool_use response = false
        /\ existsb is_completion_block response = true
  | MessageLimit =>
      Z.of_nat (List.length (TankClaudeController.messages st'))
      > history_size (TankClaudeController.config (TankClaudeController.self st')) * 10
      /\ last (TankClaudeController.out st') EmptyString
         = TankClaudeController.MESSAGE_LIMIT_WARNING
  | ErrorReported | OutOfFuel => True
  end.

(** [scale_coordinates] works on the two axes one after the other; these are
    its computations on one axis. *)
Definition nonneg (v : Z) : Z := if v <? 0 then 0 else v.

(** Toward the OS, with scaling enabled: logical [v] to the screen. *)
Definition screen_axis (fa : FloatArith) (base real off v : Z) : res Z :=
  let? q := int_truediv fa (nonneg v) base in
  let? s := float_mul_int fa q real in
  let? t := float_add_int fa s off in
  let? f := int_of_float fa t in
  Ok (Z.min (Z.max f off) (off + real - 1)).

(** Toward the model, with scaling enabled: screen [v] to logical. *)
Definition logical_axis (fa : FloatArith) (real base off v : Z) : res Z :=
  let r := nonneg v - off in
  let r := if r <? 0 then 0 else r in
  let r := if r >? real then real else r in
  let? q := int_truediv fa r real in
  let? s := float_mul_int fa q base in
  int_of_float fa s.

(** [toScreen], [toLogical], [toScreen] on one axis: the first and the last
    screen coordinate. *)
Definition axis_round_trip (fa : FloatArith) (base real off v : Z) : res (Z * Z) :=
  let? s1 := screen_axis fa base real off v in
  let? l := logical_axis fa real base off s1 in
  let? s2 := screen_axis fa base real off l in
  Ok (s1, s2).

(** *** Binary64 as rational numbers *)

(** [2^e] for an exponent of either sign, and the number [m * 2^e]. *)
Definition pow2 (e : Z) : Q := Qpower 2 e.

Definition F2Q (m e : Z) : Q := inject_Z m * pow2 e.

(** The magnitude of a float; an infinity and a NaN have none. *)
Definition mag (f : spec_float) : Q :=
  match f with
  | S754_finite _ m e => F2Q (Zpos m) e
  | _ => 0
  end.

(** A float that is a number: a zero or finite. *)
Definition is_number (f : spec_float) : bool :=
  match f with
  | S754_zero _ | S754_finite _ _ _ => true
  | _ => false
  end.

(** The sign bit of a float that is a number. *)
Definition sign_of (f : spec_float) : bool :=
  match f with
  | S754_zero s | S754_finite s _ _ | S754_infinity s => s
  | S754_nan => false
  end.

(** The exponent of the format at the magnitude [2^e], and the least one. *)
Definition fexp64 (e : Z) : Z := Z.max (e - 53) (-1074).

(** A number of the format: [M * 2^E] with a mantissa of 53 bits at most and
    an exponent in range. *)
Definition representable (u : Q) : Prop :=
  exists M E : Z,
    u == F2Q M E /\ 0 <= M < 2 ^ 53 /\ -1074 <= E <= 971.

(** What [binary_round_aux] returns for the mantissa [m] and the exponent
    [e] it arrives at. *)
Definition pack (s : bool) (m e : Z) : spec_float :=
  match m with
  | Z0 => S754_zero s
  | Zpos p => if e <=? 971 then S754_finite s p e else S754_infinity s
  | Zneg _ => S754_nan
  end.

(** A float as the format stores it: the mantissa fills the 53 bits, or the
    exponent is the least one. *)
Definition canonical64 (f : spec_float) : Prop :=
  match f with
  | S754_finite _ m e =>
      Zpos m < 2 ^ 53 /\ -1074 <= e /\ (e = -1074 \/ 2 ^ 52 <= Zpos m)
  | _ => True
  end.

(** The float [f] is the number [v] rounded: a number of the format that
    bounds [v] bounds [f], and [f] is off by one step of the grid at most. *)
Definition rounds (v : Q) (f : spec_float) : Prop :=
  canonical64 f
  /\ (forall u, representable u -> (v <= u)%Q -> is_number f = true /\ (mag f <= u)%Q)
  /\ (is_number f = true ->
      (forall u, representable u -> (u <= v)%Q -> (u <= mag f)%Q)
      /\ (forall K : Z, (v < pow2 K)%Q ->
            (mag f - v <= pow2 (fexp64 K))%Q /\ (v - mag f <= pow2 (fexp64 K))%Q)).

(** What [shutdown()] assigns to a drained command. *)
Definition shut_down (ctx : AsyncCommandManager.CommandContext)
  : AsyncCommandManager.CommandContext :=
  AsyncCommandManager.set_error
    (AsyncCommandManager.set_state ctx AsyncCommandManager.CANCELLED)
    (Some "Command manager shutdown"%string).

(** ** The terms of the further properties *)

(** The commands in waiting are the most recent ones, in the order of their
    submission. *)
Definition queue_is_recent {H : Type} (m : AsyncCommandManager.t H) : Prop :=
  exists a,
    (a <= List.length (AsyncCommandManager.contexts m))%nat
    /\ AsyncCommandManager.queue m
       = seq a (List.length (AsyncCommandManager.contexts m) - a).

(** 1 when a command is current, 0 otherwise. *)
Definition running {H : Type} (m : AsyncCommandManager.t H) : Z :=
  match AsyncCommandManager.current_command m with
  | Some _ => 1
  | None => 0
  end.

(** The fields of a manager agree with one another and with the states of
    its commands. *)
Definition consistent {H : Type} (m : AsyncCommandManager.t H) : Prop :=
  queue_is_recent m
  /\ AsyncCommandManager._current_task m = AsyncCommandManager.current_command m
  /\ (AsyncCommandManager.proc m = AsyncCommandManager.AwaitingTask
      <-> AsyncCommandManager.current_command m <> None)
  /\ (AsyncCommandManager.is_processing m = true
      <-> AsyncCommandManager.current_command m <> None)
  /\ AsyncCommandManager.unfinished_tasks m
     = Z.of_nat (List.length (AsyncCommandManager.queue m)) + running m
  /\ 1 <= AsyncCommandManager.max_history m
  /\ (forall id ctx,
         AsyncCommandManager.ctx_of m id = Some ctx ->
         (AsyncCommandManager.state ctx = AsyncCommandManager.QUEUED
          <-> In id (AsyncCommandManager.queue m))
         /\ (AsyncCommandManager.state ctx = AsyncCommandManager.EXECUTING
             <-> AsyncCommandManager.current_command m = Some id))
  /\ (forall id,
         AsyncCommandManager.current_command m = Some id ->
         (id < List.length (AsyncCommandManager.contexts m))%nat).

(** The same at any moment, also between the end of a task and the
    resumption of [process_queue]: the current command is [EXECUTING] while
    its task runs, and the command whose task is done is still the current
    one. *)
Definition coherent {H : Type} (m : AsyncCommandManager.t H) : Prop :=
  queue_is_recent m
  /\ AsyncCommandManager._current_task m = AsyncCommandManager.current_command m
  /\ match AsyncCommandManager.proc m with
     | AsyncCommandManager.AwaitingTask =>
         AsyncCommandManager.current_command m <> None
     | AsyncCommandManager.TaskEnded id _ =>
         AsyncCommandManager.current_command m = Some id
     | _ => AsyncCommandManager.current_command m = None
     end
  /\ (AsyncCommandManager.is_processing m = true
      <-> AsyncCommandManager.current_command m <> None)
  /\ AsyncCommandManager.unfinished_tasks m
     = Z.of_nat (List.length (AsyncCommandManager.queue m)) + running m
  /\ 1 <= AsyncCommandManager.max_history m
  /\ (forall id ctx,
         AsyncCommandManager.ctx_of m id = Some ctx ->
         (AsyncCommandManager.state ctx = AsyncCommandManager.QUEUED
          <-> In id (AsyncCommandManager.queue m))
         /\ (AsyncCommandManager.state ctx = AsyncCommandManager.EXECUTING
             <-> AsyncCommandManager.current_command m = Some id
                 /\ AsyncCommandManager.proc m = AsyncCommandManager.AwaitingTask))
  /\ (forall id,
         AsyncCommandManager.current_command m = Some id ->
         (id < List.length (AsyncCommandManager.contexts m))%nat).

(** [m'] differs from [m] in the context object [id] and the callback log
    at most. *)
Definition only_ctx {H : Type} (id : nat) (m m' : AsyncCommandManager.t H) : Prop :=
  frame m m'
  /\ List.length (AsyncCommandManager.contexts m')
     = List.length (AsyncCommandManager.contexts m)
  /\ forall k, k <> id -> AsyncCommandManager.ctx_of m' k = AsyncCommandManager.ctx_of m k.

(** The values [ctx.result] takes in the course of a stream, one for each
    chunk: the latest chunk that is not empty. *)
Fixpoint running_results (chunks : list string) (r : option string)
  : list (option string) :=
  match chunks with
  | [] => []
  | chunk :: rest =>
      let r' := if nonempty chunk then Some chunk else r in
      r' :: running_results rest r'
  end.

(** The calls of the callback of [ctx] in the course of a stream: the
    context as each call sees it. *)
Definition chunk_calls (id : nat) (ctx : AsyncCommandManager.CommandContext)
  (chunks : list string) : list (nat * AsyncCommandManager.CommandContext) :=
  match AsyncCommandManager.callback ctx with
  | Some _ =>
      map (fun r => (id, AsyncCommandManager.set_result ctx r))
        (running_results chunks (AsyncCommandManager.result ctx))
  | None => []
  end.

(** The one call after the stream has raised. *)
Definition final_call (id : nat) (ctx : AsyncCommandManager.CommandContext)
  : list (nat * AsyncCommandManager.CommandContext) :=
  match AsyncCommandManager.callback ctx with
  | Some _ => [(id, ctx)]
  | None => []
  end.

(** The processor is suspended on the task of the command [id]. *)
Definition awaiting {H : Type} (m : AsyncCommandManager.t H) (id : nat) : Prop :=
  AsyncCommandManager.proc m = AsyncCommandManager.AwaitingTask
  /\ AsyncCommandManager._current_task m = Some id
  /\ (exists ctx, AsyncCommandManager.ctx_of m id = Some ctx)
  /\ 1 <= AsyncCommandManager.max_history m
  /\ 0 < AsyncCommandManager.unfinished_tasks m
  /\ forall k ctx,
       k <> id -> AsyncCommandManager.ctx_of m k = Some ctx ->
       AsyncCommandManager.state ctx <> AsyncCommandManager.EXECUTING.

(** No command is [EXECUTING]. *)
Definition none_executing {H : Type} (m : AsyncCommandManager.t H) : Prop :=
  forall id ctx,
    AsyncCommandManager.ctx_of m id = Some ctx ->
    AsyncCommandManager.state ctx <> AsyncCommandManager.EXECUTING.

(** A command that was never taken: it waits, or a shutdown cancelled it. *)
Definition never_ran (ctx : AsyncCommandManager.CommandContext) : Prop :=
  (AsyncCommandManager.state ctx = AsyncCommandManager.QUEUED
   /\ AsyncCommandManager.error ctx = None)
  \/ (AsyncCommandManager.state ctx = AsyncCommandManager.CANCELLED
      /\ AsyncCommandManager.error ctx = Some "Command manager shutdown"%string).

(** The first command has ended, the [finally] block has failed on the
    empty history: [is_processing] is still set. *)
Definition wedged_at {H : Type} (m : AsyncCommandManager.t H) : Prop :=
  AsyncCommandManager.is_processing m = true
  /\ (AsyncCommandManager.proc m = AsyncCommandManager.AtLoopTop
      \/ AsyncCommandManager.proc m = AsyncCommandManager.Exited)
  /\ AsyncCommandManager.command_history m = []
  /\ AsyncCommandManager.max_history m <= 0
  /\ AsyncCommandManager.current_command m = Some 0%nat
  /\ none_executing m
  /\ forall id ctx,
       id <> 0%nat -> AsyncCommandManager.ctx_of m id = Some ctx -> never_ran ctx.

(** Two controllers with the same configuration and the same screen. *)
Definition same_screen (c c' : TankClaudeController.t) : Prop :=
  TankClaudeController.config c' = TankClaudeController.config c
  /\ TankClaudeController.offset_x c' = TankClaudeController.offset_x c
  /\ TankClaudeController.offset_y c' = TankClaudeController.offset_y c
  /\ TankClaudeController.screen_width c' = TankClaudeController.screen_width c
  /\ TankClaudeController.screen_height c' = TankClaudeController.screen_height c.

(** A point of the screen of [c]. *)
Definition within_screen (c : TankClaudeController.t) (x y : Z) : bool :=
  (TankClaudeController.offset_x c <=? x)
  && (x <=? TankClaudeController.offset_x c + TankClaudeController.screen_width c - 1)
  && (TankClaudeController.offset_y c <=? y)
  && (y <=? TankClaudeController.offset_y c + TankClaudeController.screen_height c - 1).

(** An event that moves the pointer moves it to a point of the screen. *)
Definition on_screen (c : TankClaudeController.t) (e : event) : bool :=
  match e with
  | OsCall (MoveTo x y _) => within_screen c x y
  | _ => true
  end.

(** A computation that keeps the configuration and the screen of the
    controller and moves the pointer to points of the screen only. *)
Definition moves_on_screen {A : Type} (c : TankClaudeController.t)
  (m : TankClaudeController.M A) : Prop :=
  forall st,
    same_screen c (TankClaudeController.self st) ->
    (exists l,
        TankClaudeController.trace (snd (m st))
        = (TankClaudeController.trace st ++ l)%list
        /\ forallb (on_screen c) l = true)
    /\ same_screen c (TankClaudeController.self (snd (m st))).

(** The actions [_execute_tool] knows. *)
Definition TOOL_ACTIONS : list string :=
  ["screenshot"; "mouse_move"; "left_click_drag"; "left_click"; "right_click";
   "middle_click"; "double_click"; "key"; "type"; "cursor_position"]%string.

Definition known_action (action : pyval) : bool := existsb (is_str action) TOOL_ACTIONS.

(** The tool inputs that name no action [_execute_tool] can start, and the
    exception each ends in. *)
Definition dispatch_failure (env : Env) (kw : kwargs) : option exn :=
  let action := get_or_none "action" kw in
  if negb (truthy action)
  then Some (ValueError "No action specified in tool input")
  else if negb (known_action action)
  then Some (ValueError ("Unknown action: " ++ format_value env action)%string)
  else if (is_str action "key" || is_str action "type")
          && negb (truthy (get_or_none "text" kw))
  then Some (ValueError "No text provided for keyboard action.")
  else None.

(** The key names of a combination, as they go to the keyboard. *)
Definition key_names (text : string) : list string :=
  map (fun k => lower (strip k)) (split_plus text).

Definition key_down (k : string) : event := OsCall (KeyDown k).
Definition key_up (k : string) : event := OsCall (KeyUp k).
Definition typewrite (chunk : string) : event := OsCall (Typewrite (PStr chunk)).

(** The chunks of a text, put together again. *)
Definition joined (chunks : list string) : string :=
  fold_right String.append EmptyString chunks.

(** A computation that leaves the controller as it is. *)
Definition keeps_self {A : Type} (m : TankClaudeController.M A) : Prop :=
  forall st, TankClaudeController.self (snd (m st)) = TankClaudeController.self st.



(** The request [_process_message_loop] sends for the conversation
    [messages]: the old screenshots pruned, a last message of the assistant
    dropped. *)
Definition next_request (messages : list message) : list message :=
  let pruned :=
    match _maybe_filter_to_n_most_recent_images messages 2 2 with
    | Ok ms => ms
    | Raise _ => messages
    end in
  match last (map Some pruned) None with
  | Some m => if is_assistant m then removelast pruned else pruned
  | None => pruned
  end.

(** A request to the model carries three screenshots at most. *)
Definition request_is_small (e : event) : bool :=
  match e with
  | ModelCall request _ => total_images request <=? 3
  | _ => true
  end.

(** What follows the request in one turn of [_process_message_loop]. *)
Definition after_response (env : Env) (response : list content_block)
  : TankClaudeController.M (option loop_end) :=
  TankClaudeController.bind
    (TankClaudeController.process_content env response (false, false))
    (fun flags =>
       let (has_tool_use, response_complete) := flags : bool * bool in
       if negb has_tool_use && response_complete
       then TankClaudeController.ret (Some TurnCompleted)
       else
         TankClaudeController.bind TankClaudeController.get_messages (fun ms =>
         TankClaudeController.bind TankClaudeController.get_self (fun c =>
         if Z.of_nat (List.length ms)
            >? history_size (TankClaudeController.config c) * 10
         then TankClaudeController.bind
                (TankClaudeController.yield env
                   TankClaudeController.MESSAGE_LIMIT_WARNING)
                (fun _ => TankClaudeController.ret (Some MessageLimit))
         else TankClaudeController.ret None))).

(** The [except Exception] clause of the loop. *)
Definition report_error (env : Env) (e : exn)
  : TankClaudeController.M (option loop_end) :=
  TankClaudeController.bind
    (TankClaudeController.yield env ("Error: " ++ str_exn e)%string)
    (fun _ => TankClaudeController.ret (Some ErrorReported)).

(** The state of a run with the conversation replaced. *)
Definition with_messages (st : TankClaudeController.State) (ms : list message)
  : TankClaudeController.State :=
  TankClaudeController.mkState (TankClaudeController.self st)
    (TankClaudeController.trace st) (TankClaudeController.out st) ms.

(** The index [_init_screen_offset] takes from the monitors, left to right:
    [display_number - 1] when the display exists, else 0. *)
Definition chosen_index (display_number : Z) (count : nat) : Z :=
  if (1 <=? display_number)%Z && (display_number <=? Z.of_nat count)%Z
  then (display_number - 1)%Z else 0%Z.

(** [a] is not to the right of [b]. *)
Definition left_of (a b : TankClaudeController.Monitor) : Prop :=
  (TankClaudeController.mon_x a <= TankClaudeController.mon_x b)%Z.


(** The clock of [TankHandler.execute_command] never reads the same
    twice. *)
Definition clock_advances (env : Env) : Prop :=
  forall i j : nat, time_reading env i = time_reading env j -> i = j.

(* ===================================================================== *)
(** * Properties *)

Lemma lstrip_all_space (s : string) : all_space s = true -> lstrip s = EmptyString.
Proof.
  induction s as [|c s IH]; simpl; [reflexivity|].
  intros H. apply andb_true_iff in H. destruct H as [Hc Hs].
  rewrite Hc. exact (IH Hs).
Qed.

Lemma strip_all_space (s : string) : all_space s = true -> strip s = EmptyString.
Proof.
  intros H. unfold strip. rewrite (lstrip_all_space s H). reflexivity.
Qed.

(** ** Screenshot pruning *)

Lemma count_images_length (c : list item) :
  count_images c = Z.of_nat (List.length (filter is_image c)).
Proof.
  induction c as [|x c IH]; simpl; [reflexivity|].
  destruct (is_image x); simpl List.length; rewrite IH; lia.
Qed.

Lemma total_images_of_length (l : list (list item)) :
  total_images_of l = Z.of_nat (List.length (filter is_image (List.concat l))).
Proof.
  induction l as [|c l IH]; simpl; [reflexivity|].
  rewrite filter_app, length_app, count_images_length, IH. lia.
Qed.

(** One block: the first [n] screenshots go, nothing else does. *)
Lemma remove_images_spec (c : list item) :
  forall n, 0 <= n ->
    let (c', n') := remove_images c n in
    filter is_image c' = skipn (Z.to_nat n) (filter is_image c)
    /\ filter not_image c' = filter not_image c
    /\ n' = Z.max 0 (n - count_images c).
Proof.
  induction c as [|x c IH]; intros n Hn.
  - cbn [remove_images filter count_images]. rewrite skipn_nil. repeat split. lia.
  - cbn [remove_images filter count_images]. unfold not_image in *.
    destruct (is_image x) eqn:Hx; cbn [andb negb].
    + destruct (n >? 0) eqn:Hpos.
      * apply Z.gtb_lt in Hpos.
        specialize (IH (n - 1) ltac:(lia)).
        destruct (remove_images c (n - 1)) as [c' n'].
        destruct IH as (Hi & Hk & Hn').
        replace (Z.to_nat n) with (S (Z.to_nat (n - 1))) by lia.
        cbn [skipn]. repeat split; try assumption. lia.
      * assert (n = 0) by (rewrite Z.gtb_ltb in Hpos; apply Z.ltb_ge in Hpos; lia).
        subst n. specialize (IH 0 ltac:(lia)).
        destruct (remove_images c 0) as [c' n'].
        destruct IH as (Hi & Hk & Hn').
        cbn [filter]. rewrite Hx. cbn [negb Z.to_nat skipn] in *. rewrite Hi.
        repeat split; try assumption.
        pose proof (count_images_length c). lia.
    + specialize (IH n Hn).
      destruct (remove_images c n) as [c' n'].
      destruct IH as (Hi & Hk & Hn').
      cbn [filter]. rewrite Hx. cbn [negb]. rewrite Hk. repeat split; try assumption; lia.
Qed.

Lemma skipn_app_Z {A : Type} (l1 l2 : list A) (n : Z) :
  0 <= n ->
  skipn (Z.to_nat n) (l1 ++ l2)
  = skipn (Z.to_nat n) l1
    ++ skipn (Z.to_nat (Z.max 0 (n - Z.of_nat (List.length l1)))) l2.
Proof.
  intros Hn. rewrite skipn_app. f_equal. f_equal. lia.
Qed.

Lemma prune_blocks_spec (content : list block) :
  forall n, 0 <= n ->
    let (content', n') := prune_blocks content n in
    filter is_image (List.concat (tool_results_of_blocks content'))
    = skipn (Z.to_nat n) (filter is_image (List.concat (tool_results_of_blocks content)))
    /\ map strip_images_block content' = map strip_images_block content
    /\ n' = Z.max 0 (n - total_images_of (tool_results_of_blocks content)).
Proof.
  induction content as [|b content IH]; intros n Hn.
  - cbn. rewrite skipn_nil. repeat split. lia.
  - destruct b as [t|i nm inp|i c].
    + cbn [prune_blocks]. specialize (IH n Hn). destruct (prune_blocks content n) as [r n'].
      destruct IH as (Hi & Hs & Hn').
      cbn [tool_results_of_blocks map]. rewrite Hs. repeat split; assumption.
    + cbn [prune_blocks]. specialize (IH n Hn). destruct (prune_blocks content n) as [r n'].
      destruct IH as (Hi & Hs & Hn').
      cbn [tool_results_of_blocks map]. rewrite Hs. repeat split; assumption.
    + cbn [prune_blocks]. destruct (n <=? 0) eqn:Hz.
      * apply Z.leb_le in Hz. assert (n = 0) by lia. subst n.
        cbn [Z.to_nat skipn]. repeat split.
        cbn [tool_results_of_blocks total_images_of].
        pose proof (total_images_of_length (tool_results_of_blocks content)).
        pose proof (count_images_length c). lia.
      * pose proof (remove_images_spec c n Hn) as Hc.
        destruct (remove_images c n) as [c' k].
        destruct Hc as (Hci & Hck & Hk).
        specialize (IH k ltac:(lia)).
        destruct (prune_blocks content k) as [r n'].
        destruct IH as (Hi & Hs & Hn').
        cbn [tool_results_of_blocks total_images_of List.concat map strip_images_block].
        rewrite !filter_app, Hci, Hi, Hs.
        rewrite (skipn_app_Z _ _ n Hn).
        fold not_image. rewrite Hck.
        rewrite <- count_images_length, <- Hk.
        pose proof (total_images_of_length (tool_results_of_blocks content)).
        repeat split. lia.
Qed.

Lemma prune_messages_spec (messages : list message) :
  forall n, 0 <= n ->
    all_images (prune_messages messages n) = skipn (Z.to_nat n) (all_images messages)
    /\ strip_images (prune_messages messages n) = strip_images messages.
Proof.
  unfold all_images, strip_images.
  induction messages as [|m messages IH]; intros n Hn.
  - cbn. rewrite skipn_nil. split; reflexivity.
  - destruct m as [r [t|content]]; cbn [prune_messages msg_content_of msg_role].
    + destruct (IH n Hn) as [Hi Hs].
      cbn [tool_result_blocks msg_content_of map]. rewrite Hi, Hs. split; reflexivity.
    + pose proof (prune_blocks_spec content n Hn) as Hb.
      destruct (prune_blocks content n) as [content' k].
      destruct Hb as (Hbi & Hbs & Hk).
      destruct (IH k ltac:(lia)) as [Hi Hs].
      cbn [tool_result_blocks msg_content_of map].
      rewrite !List.concat_app, !filter_app, Hbi, Hi, Hs.
      rewrite (skipn_app_Z _ _ n Hn).
      rewrite <- total_images_of_length, <- Hk.
      unfold strip_images_message. cbn [msg_content_of msg_role]. rewrite Hbs.
      split; reflexivity.
Qed.


(** ** Cancellation in the manager *)

Import AsyncCommandManager.

Lemma cancel_current_idle {H : Type} {ho : Handler H} {el : EventLoop H}
  (cbs : callbacks) (m : t H) :
  is_executing m = false -> cancel_current cbs m = (Ok tt, m).
Proof.
  intros Hidle. unfold cancel_current. rewrite Hidle. reflexivity.
Qed.

(** With the Tank handler, [cancel_current] on a manager whose command is
    [EXECUTING] never gets past its first step: the handler sets the flag of
    the controller and raises. *)
Lemma cancel_current_tank {el : EventLoop TankHandler.t}
  (cbs : callbacks) (m : t TankHandler.t) :
  is_executing m = true ->
  cancel_current cbs m
  = (Raise (CancelledError "Command cancelled by user"),
     with_handler m
       (TankHandler.set_controller (handler m)
          (TankClaudeController.request_cancel
             (TankHandler.controller (handler m))))).
Proof.
  intros Hexec. unfold cancel_current. rewrite Hexec. reflexivity.
Qed.

(** C1. With the Tank handler and a command [EXECUTING],
    [cancel_current()] raises the [CancelledError] of the controller out of
    its first step.  The flag of the controller is set, and nothing else has
    happened: the task is still held and was not cancelled, the command is
    still [EXECUTING] with its state, error and result as they were, and no
    callback has been called.  With no command [EXECUTING] the call returns
    and changes nothing. *)
Theorem cancel_current_leaves_command_executing
  (el : EventLoop TankHandler.t) (cbs : callbacks) (m : t TankHandler.t) :
  is_executing m = true ->
  exists m',
    cancel_current cbs m
    = (Raise (CancelledError "Command cancelled by user"), m')
    /\ TankClaudeController._cancelled (TankHandler.controller (handler m')) = true
    /\ current_command m' = current_command m
    /\ _current_task m' = _current_task m
    /\ is_processing m' = is_processing m
    /\ proc m' = proc m
    /\ contexts m' = contexts m
    /\ is_executing m' = true
    /\ calls m' = calls m.
Proof.
  intros Hexec. eexists. split; [exact (cancel_current_tank cbs m Hexec)|].
  repeat split. exact Hexec.
Qed.

Lemma cancel_current_leaves_command_executing_witness :
  is_executing Shipped.busy_manager = true
  /\ exists m',
       cancel_current (event_loop := Shipped.inert_loop) Shipped.quiet Shipped.busy_manager
       = (Raise (CancelledError "Command cancelled by user"), m')
       /\ option_map state (ctx_of m' 0) = Some EXECUTING
       /\ option_map error (ctx_of m' 0) = Some None
       /\ _current_task m' = Some 0%nat
       /\ calls m' = [].
Proof.
  split; [reflexivity|].
  destruct (cancel_current_leaves_command_executing
              Shipped.inert_loop Shipped.quiet Shipped.busy_manager eq_refl)
    as (m' & Hrun & _ & _ & Htask & _ & _ & Hctx & _ & Hcalls).
  exists m'. split; [exact Hrun|].
  unfold ctx_of. rewrite Hctx, Htask, Hcalls. repeat split.
Defined.

(** ** Shutdown *)

(** C8. With the Tank handler and a command [EXECUTING], [shutdown()] sets
    the flag and then raises the [CancelledError] of [cancel_current()]: it
    does not return, the running command was not cancelled, the queue was
    not drained and every queued command is in the state it had. *)
Theorem shutdown_raises_before_draining
  (el : EventLoop TankHandler.t) (cbs : callbacks) (m : t TankHandler.t) :
  is_executing m = true ->
  exists m',
    shutdown cbs m = (Raise (CancelledError "Command cancelled by user"), m')
    /\ _shutdown m' = true
    /\ queue m' = queue m
    /\ unfinished_tasks m' = unfinished_tasks m
    /\ current_command m' = current_command m
    /\ _current_task m' = _current_task m
    /\ contexts m' = contexts m
    /\ is_executing m' = true
    /\ calls m' = calls m.
Proof.
  intros Hexec. unfold shutdown.
  rewrite (cancel_current_tank cbs (with_shutdown m true) Hexec).
  eexists. split; [reflexivity|]. repeat split. exact Hexec.
Qed.

Lemma shutdown_raises_before_draining_witness :
  is_executing Shipped.busy_manager = true
  /\ exists m',
       shutdown (event_loop := Shipped.inert_loop) Shipped.quiet Shipped.busy_manager
       = (Raise (CancelledError "Command cancelled by user"), m')
       /\ _shutdown m' = true
       /\ queue m' = [1%nat]
       /\ option_map state (ctx_of m' 1) = Some QUEUED
       /\ option_map state (ctx_of m' 0) = Some EXECUTING.
Proof.
  split; [reflexivity|].
  destruct (shutdown_raises_before_draining
              Shipped.inert_loop Shipped.quiet Shipped.busy_manager eq_refl)
    as (m' & Hrun & Hflag & Hq & _ & _ & _ & Hctx & _ & _).
  exists m'. split; [exact Hrun|]. split; [exact Hflag|].
  unfold ctx_of. rewrite Hq, Hctx. repeat split.
Defined.

(** ** The context objects of the manager *)

Lemma nth_error_update_nth {A : Type} (f : A -> A) (l : list A) :
  forall n k,
    nth_error (update_nth l n f) k
    = if Nat.eqb n k then option_map f (nth_error l k) else nth_error l k.
Proof.
  induction l as [|x l IH]; intros n k.
  - destruct n, k; simpl; try reflexivity; destruct (Nat.eqb n k); reflexivity.
  - destruct n as [|n], k as [|k]; simpl; try reflexivity. apply IH.
Qed.

Lemma length_update_nth {A : Type} (f : A -> A) (l : list A) :
  forall n, List.length (update_nth l n f) = List.length l.
Proof.
  induction l as [|x l IH]; intros [|n]; simpl; try reflexivity.
  now rewrite IH.
Qed.

Lemma ctx_of_update_ctx {H : Type} (m : t H) (id k : nat)
  (f : CommandContext -> CommandContext) :
  ctx_of (update_ctx m id f) k
  = if Nat.eqb id k then option_map f (ctx_of m k) else ctx_of m k.
Proof. unfold ctx_of, update_ctx. simpl. apply nth_error_update_nth. Qed.

Lemma ctx_of_update_same {H : Type} (m : t H) (id : nat)
  (f : CommandContext -> CommandContext) (ctx : CommandContext) :
  ctx_of m id = Some ctx -> ctx_of (update_ctx m id f) id = Some (f ctx).
Proof.
  intros Hc. rewrite ctx_of_update_ctx, Nat.eqb_refl, Hc. reflexivity.
Qed.

(** The [finally] block does not look at where the coroutine stands. *)
Lemma finally_block_with_proc {H : Type} (id : nat) (m : t H) (p : processor) :
  finally_block id (with_proc m p)
  = (fst (finally_block id m), with_proc (snd (finally_block id m)) p).
Proof.
  unfold finally_block, task_done.
  cbn [command_history max_history with_proc with_history with_current with_queue
       unfinished_tasks queue].
  destruct (Z.of_nat (List.length (command_history m)) >=? max_history m);
    [destruct (command_history m)|];
    try reflexivity;
    destruct (unfinished_tasks m <=? 0); reflexivity.
Qed.

(** The end of a task and the resumption of [process_queue] in one step. *)
Lemma task_finished_unfold {H : Type} (cbs : callbacks) (s : stream) (m : t H) :
  task_finished cbs s m
  = match proc m, _current_task m with
    | AwaitingTask, Some id =>
        let (r, m1) := _execute_command cbs id s m in
        let (f, m2) := finally_block id m1 in
        match f, r with
        | Ok _, Raise e =>
            if is_Exception e then with_proc m2 AtLoopTop else with_proc m2 Killed
        | _, _ => with_proc m2 AtLoopTop
        end
    | _, _ => m
    end.
Proof.
  unfold task_finished, task_ends, resume.
  destruct (proc m); try reflexivity.
  destruct (_current_task m) as [id|]; [|reflexivity].
  destruct (_execute_command cbs id s m) as [r m1].
  cbn [proc with_proc]. rewrite finally_block_with_proc.
  destruct (finally_block id m1) as [f m2]. cbn [fst snd].
  destruct f, r; try destruct (is_Exception e); reflexivity.
Qed.

Lemma last_cons {A : Type} (a d : A) (l : list A) : last (a :: l) d = last l a.
Proof.
  revert a d. induction l as [|b l IH]; intros a d; [reflexivity|].
  change (last (a :: b :: l) d) with (last (b :: l) d).
  rewrite (IH b d), (IH b a). reflexivity.
Qed.

(** ** The outcome of [_execute_command] *)

Section Outcome.

Context {H : Type} (cbs : callbacks).

Hypothesis callbacks_return : forall cb ctx, cbs cb ctx = Ok tt.

Lemma invoke_callback_returns (id : nat) (m : t H) :
  exists l, invoke_callback cbs id m = (Ok tt, with_calls m (calls m ++ l)).
Proof.
  unfold invoke_callback.
  destruct (ctx_of m id) as [ctx|].
  - destruct (callback ctx) as [cb|].
    + rewrite callbacks_return. eexists. reflexivity.
    + exists []. rewrite app_nil_r. destruct m; reflexivity.
  - exists []. rewrite app_nil_r. destruct m; reflexivity.
Qed.

Lemma consume_returns (id : nat) (chunks : list string) :
  forall (last_result : option string) (m : t H) (ctx : CommandContext),
    ctx_of m id = Some ctx ->
    exists m',
      consume cbs id chunks last_result m = (Ok (last_chunk chunks last_result), m')
      /\ ctx_of m' id
         = Some (set_result ctx (last_chunk chunks (result ctx))).
Proof.
  unfold last_chunk.
  induction chunks as [|chunk chunks IH]; intros last_result m ctx Hctx.
  - exists m. split; [reflexivity|]. simpl. rewrite Hctx. destruct ctx; reflexivity.
  - cbn [consume filter].
    destruct (nonempty chunk) eqn:Hne.
    + destruct (invoke_callback_returns id
                  (update_ctx m id (fun c => set_result c (Some chunk)))) as [l Hl].
      rewrite Hl.
      destruct (IH (Some chunk)
                  (with_calls (update_ctx m id (fun c => set_result c (Some chunk)))
                     (calls (update_ctx m id (fun c => set_result c (Some chunk))) ++ l))
                  (set_result ctx (Some chunk))) as (m' & Hm' & Hc').
      { change (ctx_of (update_ctx m id (fun c => set_result c (Some chunk))) id
                = Some (set_result ctx (Some chunk))).
        exact (ctx_of_update_same m id (fun c => set_result c (Some chunk)) ctx Hctx). }
      exists m'. cbn [map]. rewrite !last_cons. split; [exact Hm'|].
      rewrite Hc'. reflexivity.
    + destruct (invoke_callback_returns id m) as [l Hl]. rewrite Hl.
      destruct (IH last_result (with_calls m (calls m ++ l)) ctx Hctx)
        as (m' & Hm' & Hc').
      exists m'. split; assumption.
Qed.

End Outcome.

(** C2. When the stream of the handler ends without raising (and no
    callback raises), [_execute_command] returns and the last chunk that is
    not empty decides the state: the marker "Command cancelled" gives
    [CANCELLED] with the error "Command cancelled by user", whatever the
    flags of the manager say; anything else, or no chunk at all, gives
    [COMPLETED] and leaves the error as it was. *)
Theorem marker_decides_final_state {H : Type} (cbs : callbacks) (m : t H)
  (id : nat) (ctx : CommandContext) (chunks : list string) :
  ctx_of m id = Some ctx ->
  (forall cb c, cbs cb c = Ok tt) ->
  exists m' ctx',
    _execute_command cbs id (chunks, Ok tt) m = (Ok tt, m')
    /\ ctx_of m' id = Some ctx'
    /\ result ctx' = last_chunk chunks (result ctx)
    /\ (last_chunk chunks None = Some "Command cancelled"%string ->
        state ctx' = CANCELLED
        /\ error ctx' = Some "Command cancelled by user"%string)
    /\ (last_chunk chunks None <> Some "Command cancelled"%string ->
        state ctx' = COMPLETED /\ error ctx' = error ctx).
Proof.
  intros Hctx Hcb.
  destruct (consume_returns cbs Hcb id chunks None m ctx Hctx) as (m1 & Hm1 & Hc1).
  unfold _execute_command. cbn [fst snd]. rewrite Hm1.
  destruct (is_marker (last_chunk chunks None)) eqn:Hmark.
  - eexists. eexists. split; [reflexivity|]. split.
    + exact (ctx_of_update_same m1 id _ _ Hc1).
    + split; [reflexivity|]. split; [intros _; split; reflexivity|].
      intros Hne. exfalso. apply Hne.
      unfold is_marker in Hmark. destruct (last_chunk chunks None) as [r|]; [|discriminate].
      apply String.eqb_eq in Hmark. now subst r.
  - eexists. eexists. split; [reflexivity|]. split.
    + exact (ctx_of_update_same m1 id _ _ Hc1).
    + split; [reflexivity|]. split; [|intros _; split; reflexivity].
      intros Heq. rewrite Heq in Hmark. discriminate.
Qed.

(** The stream "Working", "", "Command cancelled" on the running command of
    the busy manager. *)
Lemma marker_decides_final_state_witness :
  exists m' ctx',
    _execute_command (fun _ _ => Ok tt) 0
      (["Working"; ""; "Command cancelled"]%string, Ok tt) Shipped.busy_manager
    = (Ok tt, m')
    /\ ctx_of m' 0 = Some ctx'
    /\ result ctx' = Some "Command cancelled"%string
    /\ (Some "Command cancelled"%string = Some "Command cancelled"%string ->
        state ctx' = CANCELLED
        /\ error ctx' = Some "Command cancelled by user"%string)
    /\ (Some "Command cancelled"%string <> Some "Command cancelled"%string ->
        state ctx' = COMPLETED /\ error ctx' = None).
Proof.
  exact (marker_decides_final_state (fun _ _ => Ok tt) Shipped.busy_manager 0
           (mkContext "click the button" (Some 0%nat) 0 EXECUTING None None)
           ["Working"; ""; "Command cancelled"]%string
           eq_refl (fun _ _ => eq_refl)).
Defined.

(** ** Blank commands *)

Lemma blank_command_controller (env : Env) (fuel : nat) (command : string)
  (st : TankClaudeController.State) :
  all_space command = true ->
  TankClaudeController.execute_command env fuel command st = (Ok None, st).
Proof.
  intros Hs. unfold TankClaudeController.execute_command.
  rewrite (strip_all_space command Hs). reflexivity.
Qed.

Lemma tank_init_session_ok (env : Env) (h : TankHandler.t) (tr : list event) :
  create_client env = Ok tt ->
  exists h' l,
    TankHandler.init_session env h tr = (Ok tt, h', tr ++ l)
    /\ (l = [] \/ l = [SessionCreated]).
Proof.
  intros Hclient.
  unfold TankHandler.init_session, TankClaudeController.init_session.
  unfold TankClaudeController.bind, TankClaudeController.get_self,
    TankClaudeController.try_except, TankClaudeController.lift,
    TankClaudeController.ret, TankClaudeController.log_event,
    TankClaudeController.put_self.
  cbn [TankClaudeController.self TankClaudeController.trace].
  destruct (TankClaudeController._is_initialized (TankHandler.controller h)).
  - eexists. exists []. rewrite app_nil_r. split; [reflexivity|now left].
  - rewrite Hclient. cbn. eexists. exists [SessionCreated].
    split; [reflexivity|now right].
Qed.

(** C10. A command that is empty or all white space makes the controller's
    [execute_command] return at once: no chunk, no event (hence no request
    to the model and no tool call), the controller untouched.  Through the
    Tank handler the stream is empty as well, once the session exists or can
    be created, and creating it is the only event.  On an empty stream the
    manager's [_execute_command] returns, sets the state to [COMPLETED],
    leaves result and error as they were ([None] on a context fresh from
    [add_command]) and calls no callback. *)
Theorem blank_command_completes_silently (env : Env) (fuel : nat)
  (command : string) :
  all_space command = true ->
  (forall st, TankClaudeController.execute_command env fuel command st = (Ok None, st))
  /\ (forall h tr,
        TankHandler._is_initialized h = true ->
        TankHandler.execute_command env fuel h tr command
        = TankHandler.mkRun [] None h tr)
  /\ (forall h tr,
        TankHandler._is_initialized h = false ->
        create_client env = Ok tt ->
        let r := TankHandler.execute_command env fuel h tr command in
        TankHandler.chunks r = []
        /\ filter is_model_call (TankHandler.events r) = filter is_model_call tr
        /\ filter is_os_call (TankHandler.events r) = filter is_os_call tr)
  /\ (forall (H : Type) (cbs : callbacks) (m : t H) (id : nat) (ctx : CommandContext),
        ctx_of m id = Some ctx ->
        exists m',
          _execute_command cbs id ([], Ok tt) m = (Ok tt, m')
          /\ ctx_of m' id = Some (set_state ctx COMPLETED)
          /\ calls m' = calls m).
Proof.
  intros Hs.
  assert (Hstrip : all_space (strip command) = true)
    by (rewrite (strip_all_space command Hs); reflexivity).
  split; [|split; [|split]].
  - intros st. now apply blank_command_controller.
  - intros h tr Hinit. unfold TankHandler.execute_command. rewrite Hinit.
    rewrite (blank_command_controller env fuel _ _ Hstrip).
    destruct h; reflexivity.
  - intros h tr Hinit Hclient. unfold TankHandler.execute_command. rewrite Hinit.
    destruct (tank_init_session_ok env h tr Hclient) as (h' & l & Hi & Hl).
    rewrite Hi, (blank_command_controller env fuel _ _ Hstrip).
    cbn. rewrite !filter_app.
    destruct Hl as [-> | ->]; cbn; rewrite !app_nil_r; repeat split.
  - intros H cbs m id ctx Hctx. eexists. split; [reflexivity|]. split.
    + exact (ctx_of_update_same m id _ _ Hctx).
    + reflexivity.
Qed.

Lemma blank_command_completes_silently_witness :
  all_space "  " = true
  /\ exists m',
       _execute_command (fun _ _ => Ok tt) 0 ([], Ok tt) Shipped.busy_manager
       = (Ok tt, m')
       /\ ctx_of m' 0
          = Some (mkContext "click the button" (Some 0%nat) 0 COMPLETED None None)
       /\ calls m' = [].
Proof.
  split; [reflexivity|].
  exact (proj2 (proj2 (proj2
          (blank_command_completes_silently
             Shipped.calm_env
             0%nat "  "%string eq_refl)))
          _ Shipped.quiet Shipped.busy_manager 0%nat
          (mkContext "click the button" (Some 0%nat) 0 EXECUTING None None) eq_refl).
Defined.

(** ** Shutdown of an idle manager *)

Lemma drain_idle {H : Type} (q : list nat) :
  forall m : t H,
    Z.of_nat (List.length q) <= unfinished_tasks m ->
    exists m',
      drain q m = (Ok tt, m')
      /\ queue m' = match q with [] => queue m | _ => [] end
      /\ _shutdown m' = _shutdown m
      /\ current_command m' = current_command m
      /\ command_history m' = command_history m
      /\ calls m' = calls m
      /\ forall id,
           ctx_of m' id
           = if existsb (Nat.eqb id) q then option_map shut_down (ctx_of m id)
             else ctx_of m id.
Proof.
  induction q as [|k q IH]; intros m Hlen.
  - exists m. repeat split.
  - cbn [drain]. unfold task_done.
    cbn [unfinished_tasks with_queue update_ctx with_contexts].
    cbn [List.length] in Hlen.
    replace (unfinished_tasks m <=? 0) with false
      by (symmetry; apply Z.leb_gt; lia).
    match goal with
    | |- context [drain q ?x] => destruct (IH x) as (m' & Hd & Hq & Hs & Hc & Hh & Hl & Hctx)
    end.
    { cbn. lia. }
    exists m'. split; [exact Hd|].
    split; [destruct q; [rewrite Hq; reflexivity|exact Hq]|].
    repeat (split; [assumption|]).
    intros id. rewrite Hctx. cbn [existsb].
    match goal with
    | |- context [ctx_of ?x id] =>
        change (ctx_of x id)
          with (ctx_of (update_ctx m k
                          (fun c => set_error (set_state c CANCELLED)
                                      (Some "Command manager shutdown"%string))) id)
    end.
    rewrite ctx_of_update_ctx. rewrite (Nat.eqb_sym k id).
    destruct (Nat.eqb id k); cbn [orb].
    + destruct (existsb (Nat.eqb id) q); [|reflexivity].
      destruct (ctx_of m id) as [[? ? ? ? ? ?]|]; reflexivity.
    + reflexivity.
Qed.

(** X9. With nothing [EXECUTING], [shutdown()] returns with the flag set
    and the queue empty, every command that was queued is [CANCELLED] with
    the error "Command manager shutdown" and none was taken by the processor
    or reported to a callback; a second call returns and changes nothing. *)
Lemma shutdown_idle {H : Type} {ho : Handler H} {el : EventLoop H}
  (cbs : callbacks) (m : t H) :
  is_executing m = false ->
  Z.of_nat (List.length (queue m)) <= unfinished_tasks m ->
  exists m',
    shutdown cbs m = (Ok tt, m')
    /\ _shutdown m' = true
    /\ queue m' = []
    /\ calls m' = calls m
    /\ (forall id ctx,
          In id (queue m) -> ctx_of m id = Some ctx ->
          ctx_of m' id = Some (shut_down ctx))
    /\ shutdown cbs m' = (Ok tt, m').
Proof.
  intros Hidle Hlen. unfold shutdown.
  rewrite (cancel_current_idle cbs (with_shutdown m true)) by exact Hidle.
  destruct (drain_idle (queue (with_shutdown m true)) (with_shutdown m true) Hlen)
    as (m' & Hd & Hq & Hs & Hc & Hh & Hl & Hctx).
  cbn [queue with_shutdown _shutdown current_command calls] in *.
  exists m'. split; [exact Hd|].
  assert (Hq' : queue m' = []) by (rewrite Hq; destruct (queue m); reflexivity).
  split; [exact Hs|]. split; [exact Hq'|]. split; [exact Hl|]. split.
  - intros id ctx Hin Hget. rewrite Hctx.
    replace (existsb (Nat.eqb id) (queue m)) with true.
    + change (ctx_of (with_shutdown m true) id) with (ctx_of m id).
      rewrite Hget. reflexivity.
    + symmetry. apply existsb_exists. exists id. split; [exact Hin|apply Nat.eqb_refl].
  - assert (Hsame : with_shutdown m' true = m').
    { destruct m'. cbn in Hs. subst. reflexivity. }
    rewrite Hsame.
    assert (Hidle' : is_executing m' = false).
    { unfold is_executing, state_of in *. rewrite Hc.
      destruct (current_command m) as [id|]; [|reflexivity].
      rewrite Hctx. change (ctx_of (with_shutdown m true) id) with (ctx_of m id).
      destruct (existsb (Nat.eqb id) (queue m)).
      - destruct (ctx_of m id); reflexivity.
      - exact Hidle. }
    rewrite (cancel_current_idle cbs m' Hidle'), Hq'. reflexivity.
Qed.

(** ** The history of the manager *)

Lemma frame_refl {H : Type} (m : t H) : frame m m.
Proof. unfold frame. repeat split. Qed.

Lemma frame_trans {H : Type} (m1 m2 m3 : t H) :
  frame m1 m2 -> frame m2 m3 -> frame m1 m3.
Proof.
  unfold frame. intros F G.
  destruct F as (F1 & F2 & F3 & F4 & F5 & F6 & F7 & F8 & F9 & F10).
  destruct G as (G1 & G2 & G3 & G4 & G5 & G6 & G7 & G8 & G9 & G10).
  repeat split; congruence.
Qed.

Lemma frame_update_ctx {H : Type} (m : t H) id f : frame m (update_ctx m id f).
Proof. unfold frame. repeat split. Qed.

Lemma frame_invoke_callback {H : Type} (cbs : callbacks) (m : t H) id :
  frame m (snd (invoke_callback cbs id m)).
Proof.
  unfold invoke_callback.
  destruct (ctx_of m id) as [ctx|]; [destruct (callback ctx)|];
    unfold frame; repeat split.
Qed.

Lemma frame_consume {H : Type} (cbs : callbacks) id chunks :
  forall lr (m : t H), frame m (snd (consume cbs id chunks lr m)).
Proof.
  induction chunks as [|c chunks IH]; intros lr m; [apply frame_refl|].
  cbn [consume].
  destruct (nonempty c).
  - pose proof (frame_invoke_callback cbs
                  (update_ctx m id (fun x => set_result x (Some c))) id) as Fi.
    destruct (invoke_callback cbs id (update_ctx m id (fun x => set_result x (Some c))))
      as [[u|e] m2]; cbn [snd] in *.
    + eapply frame_trans; [apply frame_update_ctx|].
      eapply frame_trans; [exact Fi|apply IH].
    + eapply frame_trans; [apply frame_update_ctx|exact Fi].
  - pose proof (frame_invoke_callback cbs m id) as Fi.
    destruct (invoke_callback cbs id m) as [[u|e] m2]; cbn [snd] in *.
    + eapply frame_trans; [exact Fi|apply IH].
    + exact Fi.
Qed.

Lemma frame_on_exception {H : Type} (cbs : callbacks) id e (m : t H) :
  frame m (snd (on_exception cbs id e m)).
Proof.
  unfold on_exception. destruct (is_Exception e).
  - eapply frame_trans; [apply frame_update_ctx|apply frame_invoke_callback].
  - match goal with
    | |- context [invoke_callback cbs id ?x] =>
        pose proof (frame_invoke_callback cbs x id) as Fi;
        destruct (invoke_callback cbs id x) as [[u|e'] m2]
    end; cbn [snd] in *;
      (eapply frame_trans; [apply frame_update_ctx|exact Fi]).
Qed.

Lemma frame_execute_command {H : Type} (cbs : callbacks) id s (m : t H) :
  frame m (snd (_execute_command cbs id s m)).
Proof.
  unfold _execute_command.
  pose proof (frame_consume cbs id (fst s) None m) as Fc.
  destruct (consume cbs id (fst s) None m) as [[lr|e] m1]; cbn [snd] in Fc.
  - destruct (snd s) as [u|e].
    + destruct (is_marker lr); cbn [snd];
        (eapply frame_trans; [exact Fc|apply frame_update_ctx]).
    + eapply frame_trans; [exact Fc|apply frame_on_exception].
  - eapply frame_trans; [exact Fc|apply frame_on_exception].
Qed.

Lemma tl_skipn {A : Type} (k : nat) :
  forall l : list A, tl (skipn k l) = skipn (S k) l.
Proof.
  induction k as [|k IH]; intros l.
  - destruct l; reflexivity.
  - destruct l as [|x l]; [reflexivity|]. exact (IH l).
Qed.

Lemma lastn_snoc_full {A : Type} (n : nat) (log : list A) (x : A) :
  (1 <= n)%nat -> (n <= List.length log)%nat ->
  tl (lastn n log) ++ [x] = lastn n (log ++ [x]).
Proof.
  intros Hn Hlen. unfold lastn. rewrite length_app. cbn [List.length].
  replace (List.length log + 1 - n)%nat with (S (List.length log - n)) by lia.
  rewrite skipn_app, tl_skipn.
  replace (S (List.length log - n) - List.length log)%nat with 0%nat by lia.
  reflexivity.
Qed.

Lemma lastn_snoc_room {A : Type} (n : nat) (log : list A) (x : A) :
  (List.length log < n)%nat ->
  lastn n log ++ [x] = lastn n (log ++ [x]).
Proof.
  intros Hlen. unfold lastn. rewrite length_app. cbn [List.length].
  replace (List.length log - n)%nat with 0%nat by lia.
  replace (List.length log + 1 - n)%nat with 0%nat by lia.
  reflexivity.
Qed.

Lemma length_lastn {A : Type} (n : nat) (log : list A) :
  List.length (lastn n log) = Nat.min n (List.length log).
Proof. unfold lastn. rewrite length_skipn. lia. Qed.

Lemma history_task_done {H : Type} (m : t H) :
  command_history (snd (task_done m)) = command_history m
  /\ max_history (snd (task_done m)) = max_history m.
Proof. unfold task_done. destruct (unfinished_tasks m <=? 0); split; reflexivity. Qed.

Lemma history_finally_block {H : Type} (id : nat) (m : t H) :
  command_history (snd (finally_block id m))
  = push_history (max_history m) (command_history m) id
  /\ max_history (snd (finally_block id m)) = max_history m.
Proof.
  unfold finally_block, push_history.
  destruct (Z.of_nat (List.length (command_history m)) >=? max_history m).
  - destruct (command_history m) as [|x rest] eqn:Hh.
    + cbn [snd]. rewrite Hh. split; reflexivity.
    + match goal with
      | |- context [task_done ?x] => destruct (history_task_done x) as [E1 E2]
      end.
      rewrite E1, E2. split; reflexivity.
  - match goal with
    | |- context [task_done ?x] => destruct (history_task_done x) as [E1 E2]
    end.
    rewrite E1, E2. split; reflexivity.
Qed.

Lemma history_drain {H : Type} (q : list nat) :
  forall m : t H,
    command_history (snd (drain q m)) = command_history m
    /\ max_history (snd (drain q m)) = max_history m.
Proof.
  induction q as [|id q IH]; intros m; [split; reflexivity|].
  cbn [drain].
  match goal with
  | |- context [task_done ?x] =>
      pose proof (history_task_done x) as [E1 E2]; destruct (task_done x) as [[u|e] m3]
  end; cbn [snd] in *.
  - destruct (IH m3) as [I1 I2]. rewrite I1, I2, E1, E2. split; reflexivity.
  - rewrite E1, E2. split; reflexivity.
Qed.

Section TankManager.

Context {el : EventLoop TankHandler.t} (cbs : callbacks).

Lemma history_cancel_current (m : t TankHandler.t) :
  command_history (snd (cancel_current cbs m)) = command_history m
  /\ max_history (snd (cancel_current cbs m)) = max_history m.
Proof.
  destruct (is_executing m) eqn:E.
  - rewrite (cancel_current_tank cbs m E). split; reflexivity.
  - rewrite (cancel_current_idle cbs m E). split; reflexivity.
Qed.

Lemma history_shutdown (m : t TankHandler.t) :
  command_history (snd (shutdown cbs m)) = command_history m
  /\ max_history (snd (shutdown cbs m)) = max_history m.
Proof.
  unfold shutdown.
  destruct (history_cancel_current (with_shutdown m true)) as [E1 E2].
  destruct (cancel_current cbs (with_shutdown m true)) as [[u|e] m2]; cbn [snd] in *.
  - destruct (history_drain (queue m2) m2) as [D1 D2].
    rewrite D1, D2, E1, E2. split; reflexivity.
  - rewrite E1, E2. split; reflexivity.
Qed.

Lemma history_process_queue_step (m : t TankHandler.t) :
  command_history (process_queue_step m) = command_history m
  /\ max_history (process_queue_step m) = max_history m.
Proof.
  unfold process_queue_step, dequeue.
  destruct (proc m); try (split; reflexivity);
    [destruct (_shutdown m); [split; reflexivity|];
     destruct (is_processing m); [split; reflexivity|]|];
    destruct (queue m); split; reflexivity.
Qed.

Lemma history_task_finished (s : stream) (m : t TankHandler.t) (id : nat) :
  proc m = AwaitingTask -> _current_task m = Some id ->
  command_history (task_finished cbs s m)
  = push_history (max_history m) (command_history m) id
  /\ max_history (task_finished cbs s m) = max_history m.
Proof.
  intros Hp Ht. rewrite task_finished_unfold. rewrite Hp, Ht.
  pose proof (frame_execute_command cbs id s m) as F.
  destruct (_execute_command cbs id s m) as [r m1]; cbn [snd] in F.
  destruct F as (_ & _ & _ & _ & _ & _ & _ & F8 & F9 & _).
  destruct (history_finally_block id m1) as [E1 E2].
  destruct (finally_block id m1) as [f m2]; cbn [snd] in *.
  rewrite <- F8, <- F9, <- E1, <- E2.
  destruct f, r; try destruct (is_Exception e); split; reflexivity.
Qed.

(** One action: only the end of the running task touches the history. *)
Lemma history_perform (m : t TankHandler.t) (a : action) :
  max_history (perform cbs m a) = max_history m
  /\ command_history (perform cbs m a)
     = match a, proc m, _current_task m with
       | Finish _, AwaitingTask, Some id =>
           push_history (max_history m) (command_history m) id
       | _, _, _ => command_history m
       end.
Proof.
  destruct a as [cmd cb now| |s| |]; cbn [perform].
  - split; reflexivity.
  - destruct (history_process_queue_step m) as [E1 E2]. rewrite E1, E2.
    split; reflexivity.
  - destruct (proc m) eqn:Hp; try (rewrite task_finished_unfold; rewrite Hp; split; reflexivity).
    destruct (_current_task m) as [id|] eqn:Ht;
      [|rewrite task_finished_unfold; rewrite Hp, Ht; split; reflexivity].
    destruct (history_task_finished s m id Hp Ht) as [E1 E2]. rewrite E1, E2.
    split; reflexivity.
  - destruct (history_cancel_current m) as [E1 E2]. rewrite E1, E2.
    destruct (proc m), (_current_task m); split; reflexivity.
  - destruct (history_shutdown m) as [E1 E2]. rewrite E1, E2.
    destruct (proc m), (_current_task m); split; reflexivity.
Qed.

Lemma push_history_lastn (capacity : Z) (log : list nat) (id : nat) :
  1 <= capacity ->
  push_history capacity (lastn (Z.to_nat capacity) log) id
  = lastn (Z.to_nat capacity) (log ++ [id]).
Proof.
  intros Hc. unfold push_history. rewrite length_lastn.
  destruct (Z.of_nat (Nat.min (Z.to_nat capacity) (List.length log)) >=? capacity) eqn:E;
    rewrite Z.geb_leb in E; [apply Z.leb_le in E|apply Z.leb_gt in E].
  - assert (Hlen : (Z.to_nat capacity <= List.length log)%nat) by lia.
    rewrite <- (lastn_snoc_full (Z.to_nat capacity) log id) by lia.
    pose proof (length_lastn (Z.to_nat capacity) log) as L.
    destruct (lastn (Z.to_nat capacity) log); [cbn in L; lia|reflexivity].
  - apply lastn_snoc_room. lia.
Qed.

Lemma history_run_actions (capacity : Z) (l : list action) :
  1 <= capacity ->
  forall (m : t TankHandler.t) (log : list nat),
    max_history m = capacity ->
    command_history m = lastn (Z.to_nat capacity) log ->
    max_history (run_actions cbs m l) = capacity
    /\ command_history (run_actions cbs m l)
       = lastn (Z.to_nat capacity) (log ++ retired cbs m l).
Proof.
  intros Hc. induction l as [|a l IH]; intros m log Hmax Hh.
  - cbn. rewrite app_nil_r. split; assumption.
  - cbn [run_actions fold_left retired].
    destruct (history_perform m a) as [E1 E2].
    fold (run_actions cbs (perform cbs m a) l).
    destruct a as [cmd cb now| |s| |];
      try (apply IH; [congruence|rewrite E2; destruct (proc m), (_current_task m); exact Hh]).
    destruct (proc m) eqn:Hp;
      try (apply IH; [congruence|rewrite E2; exact Hh]).
    destruct (_current_task m) as [id|] eqn:Ht;
      [|apply IH; [congruence|rewrite E2; exact Hh]].
    replace (log ++ id :: retired cbs (perform cbs m (Finish s)) l)
      with ((log ++ [id]) ++ retired cbs (perform cbs m (Finish s)) l)
      by (rewrite <- app_assoc; reflexivity).
    apply IH; [congruence|].
    rewrite E2, Hmax, Hh. now apply push_history_lastn.
Qed.

End TankManager.

(** C9, as amended.  With the Tank handler and a capacity of at least 1, in
    every state the manager reaches from its initial state the history is
    no longer than [max_history] and holds exactly the most recent commands
    whose task has ended, oldest first: each such command is appended by the
    [finally] block, and the entries evicted are the oldest.  (A command that
    [shutdown()] drains from the queue is not among them.) *)
Theorem history_holds_most_recent_retired (el : EventLoop TankHandler.t)
  (cbs : callbacks) (h : TankHandler.t) (capacity : Z) (l : list action) :
  1 <= capacity ->
  let m := run_actions cbs (init h capacity) l in
  let ended := retired cbs (init h capacity) l in
  Z.of_nat (List.length (command_history m)) <= capacity
  /\ command_history m = lastn (Z.to_nat capacity) ended
  /\ ended
     = firstn (List.length ended - Z.to_nat capacity) ended ++ command_history m.
Proof.
  intros Hc m ended.
  destruct (history_run_actions cbs capacity l Hc (init h capacity) []
              eq_refl eq_refl) as [_ Hh].
  cbn [app] in Hh. fold m ended in Hh.
  split; [|split].
  - rewrite Hh, length_lastn. lia.
  - exact Hh.
  - rewrite Hh. unfold lastn. symmetry. apply firstn_skipn.
Qed.

(** Three commands through a history of capacity 2: the first is evicted. *)
Lemma history_holds_most_recent_retired_witness :
  1 <= 2
  /\ command_history
       (@run_actions _ _ Shipped.inert_loop Shipped.quiet
          (init Shipped.tank 2) Shipped.three_commands)
     = [1; 2]%nat.
Proof.
  split; [lia|].
  exact (proj1 (proj2
           (history_holds_most_recent_retired Shipped.inert_loop Shipped.quiet
              Shipped.tank 2 Shipped.three_commands ltac:(lia)))).
Defined.

(** C9 as stated fails: a command that [shutdown()] drains from the queue
    reaches the terminal state [CANCELLED] and is not appended to the
    history. *)
Lemma drained_command_is_not_recorded :
  let m := @run_actions _ _ Shipped.inert_loop Shipped.quiet
             Shipped.manager Shipped.submit_then_shutdown in
  ~ (forall id ctx,
        ctx_of m id = Some ctx ->
        is_terminal (state ctx) = true ->
        In id (command_history m)).
Proof.
  intros m Hall.
  exact (Hall 0%nat
           (mkContext "click the button" None 0 CANCELLED
              (Some "Command manager shutdown"%string) None)
           eq_refl eq_refl).
Qed.

(** ** Malformed coordinates *)

Import TankClaudeController.

Lemma dict_get_remove_other (k k' : string) (d : kwargs) :
  String.eqb k k' = false -> dict_get k (dict_remove k' d) = dict_get k d.
Proof.
  intros Hne. induction d as [|[k0 v] d IH]; [reflexivity|].
  cbn [dict_remove dict_get].
  destruct (String.eqb k' k0) eqn:E1.
  - apply String.eqb_eq in E1. subst k0. rewrite Hne. exact IH.
  - cbn [dict_get]. destruct (String.eqb k k0); [reflexivity|exact IH].
Qed.

Lemma coordinate_failure_is_Exception (action : string) (c : pyval) :
  is_Exception (coordinate_failure action c) = true.
Proof.
  unfold coordinate_failure. destruct (negb (truthy c)); [reflexivity|].
  destruct c as [| | | |l|d]; try reflexivity.
  destruct d as [|? [|? [|? ?]]]; reflexivity.
Qed.

Lemma len2_list (l : list pyval) :
  len2_sequence (PList l) = (Z.of_nat (List.length l) =? 2).
Proof.
  destruct l as [|a [|b [|c l]]]; try reflexivity.
  cbn [len2_sequence List.length]. symmetry. apply Z.eqb_neq. lia.
Qed.

Lemma mouse_action_malformed (env : Env) (action : string) (kw : kwargs) (st : State) :
  len2_sequence (get_or_none "coordinate" kw) = false ->
  mouse_action env (PStr action) kw st
  = (Raise (coordinate_failure action (get_or_none "coordinate" kw)), st).
Proof.
  unfold mouse_action, check_coordinate, coordinate_failure.
  generalize (get_or_none "coordinate" kw). intros c Hlen.
  destruct c as [|b|z|s|l|d]; cbn [truthy negb].
  - reflexivity.
  - destruct b; reflexivity.
  - destruct (z =? 0); reflexivity.
  - destruct (String.eqb s "") eqn:Es; [reflexivity|].
    cbn [negb py_len]. unfold bind at 1 2, lift at 1.
    cbn [len2_sequence] in Hlen.
    replace (Z.of_nat (String.length s) =? 2) with false; [reflexivity|].
    symmetry. apply Z.eqb_neq. apply Nat.eqb_neq in Hlen. lia.
  - rewrite len2_list in Hlen.
    destruct l as [|a l]; [reflexivity|].
    cbn [negb py_len]. unfold bind at 1 2, lift at 1. rewrite Hlen. reflexivity.
  - destruct d as [|a [|b [|c d]]]; try reflexivity.
    cbn [negb py_len]. unfold bind at 1 2, lift at 1.
    replace (Z.of_nat (List.length (a :: b :: c :: d)) =? 2) with false;
      [reflexivity|].
    symmetry. apply Z.eqb_neq. cbn [List.length]. lia.
Qed.

(** C7. A call of [_execute_tool] for "mouse_move" or "left_click_drag"
    whose [coordinate] is missing or is not a sequence of length 2 raises an
    exception of class [Exception] before anything reaches the OS: the
    events and the chunks are as before, [total_calls] and [error_count] are
    one more each, [success_count] and [average_duration] are unchanged. *)
Theorem malformed_coordinate_fails_before_os (env : Env) (st : State)
  (kw : kwargs) (action : string) :
  action = "mouse_move"%string \/ action = "left_click_drag"%string ->
  dict_get "action" kw = Some (PStr action) ->
  len2_sequence (get_or_none "coordinate" kw) = false ->
  _execute_tool env kw st
  = (Raise (coordinate_failure action (get_or_none "coordinate" kw)),
     after_failed_call st)
  /\ is_Exception (coordinate_failure action (get_or_none "coordinate" kw)) = true
  /\ trace (after_failed_call st) = trace st
  /\ total_calls (tool_stats (self (after_failed_call st)))
     = total_calls (tool_stats (self st)) + 1
  /\ error_count (tool_stats (self (after_failed_call st)))
     = error_count (tool_stats (self st)) + 1
  /\ success_count (tool_stats (self (after_failed_call st)))
     = success_count (tool_stats (self st))
  /\ average_duration (tool_stats (self (after_failed_call st)))
     = average_duration (tool_stats (self st)).
Proof.
  intros Hact Hget Hlen.
  split; [|split; [apply coordinate_failure_is_Exception|repeat split]].
  assert (Hc : get_or_none "coordinate" (dict_remove "action" kw)
               = get_or_none "coordinate" kw).
  { unfold get_or_none. rewrite dict_get_remove_other; reflexivity. }
  assert (Ha : get_or_none "action" kw = PStr action).
  { unfold get_or_none. rewrite Hget. reflexivity. }
  assert (Hbody : forall s,
             execute_action env kw s
             = (Raise (coordinate_failure action (get_or_none "coordinate" kw)), s)).
  { intros s. unfold execute_action, pop_or_none. rewrite Ha.
    rewrite <- Hc in Hlen |- *.
    destruct Hact as [-> | ->]; cbn [truthy negb is_str String.eqb Ascii.eqb Bool.eqb orb];
      apply mouse_action_malformed; exact Hlen. }
  unfold _execute_tool, try_except, bind, get_self, put_self, raise.
  rewrite Hbody, coordinate_failure_is_Exception.
  reflexivity.
Qed.

(** The spec's scenario: [{action: "left_click_drag", coordinate: [10]}]. *)
Lemma malformed_coordinate_fails_before_os_witness :
  _execute_tool
    Shipped.calm_env
    [("action", PStr "left_click_drag"); ("coordinate", PList [PInt 10])]%string
    (mkState Shipped.controller [] [] [])
  = (Raise (ValueError "Invalid coordinate for left_click_drag."),
     mkState
       (set_tool_stats Shipped.controller (mkToolStats 0 1 1 (S754_zero false)))
       [] [] []).
Proof.
  exact (proj1
           (malformed_coordinate_fails_before_os
              Shipped.calm_env
              (mkState Shipped.controller [] [] [])
              [("action", PStr "left_click_drag"); ("coordinate", PList [PInt 10])]%string
              "left_click_drag" (or_intror eq_refl) eq_refl eq_refl)).
Defined.

(** ** The events of a tool call *)

Lemma os_only_same {A : Type} (m : M A) :
  (forall st, trace (snd (m st)) = trace st) -> os_only m.
Proof.
  intros Hm st. exists []. rewrite app_nil_r. split; [apply Hm|reflexivity].
Qed.

Lemma os_only_ret {A : Type} (a : A) : os_only (ret a).
Proof. now apply os_only_same. Qed.

Lemma os_only_raise {A : Type} (e : exn) : os_only (raise (A := A) e).
Proof. now apply os_only_same. Qed.

Lemma os_only_lift {A : Type} (r : res A) : os_only (lift r).
Proof. now apply os_only_same. Qed.

Lemma os_only_get_self : os_only get_self.
Proof. now apply os_only_same. Qed.

Lemma os_only_put_self (c : TankClaudeController.t) : os_only (put_self c).
Proof. now apply os_only_same. Qed.

Lemma os_only_get_messages : os_only get_messages.
Proof. now apply os_only_same. Qed.

Lemma os_only_put_messages (ms : list message) : os_only (put_messages ms).
Proof. now apply os_only_same. Qed.

Lemma os_only_event_index : os_only event_index.
Proof. now apply os_only_same. Qed.

Lemma os_only_yield (env : Env) (chunk : string) : os_only (yield env chunk).
Proof. now apply os_only_same. Qed.

Lemma os_only_log (call : os_call) : os_only (log_event (OsCall call)).
Proof. intros st. exists [OsCall call]. split; reflexivity. Qed.

Lemma os_only_bind {A B : Type} (m : M A) (k : A -> M B) :
  os_only m -> (forall a, os_only (k a)) -> os_only (bind m k).
Proof.
  intros Hm Hk st. unfold bind.
  destruct (Hm st) as (l1 & E1 & F1).
  destruct (m st) as [[a|e] st1]; cbn [snd] in *.
  - destruct (Hk a st1) as (l2 & E2 & F2).
    exists (l1 ++ l2)%list. rewrite E2, E1, app_assoc, forallb_app, F1, F2.
    split; reflexivity.
  - exists l1. split; assumption.
Qed.

Lemma os_only_try_except {A : Type} (body : M A) (handler : exn -> M A) :
  os_only body -> (forall e, os_only (handler e)) -> os_only (try_except body handler).
Proof.
  intros Hb Hh st. unfold try_except.
  destruct (Hb st) as (l1 & E1 & F1).
  destruct (body st) as [[a|e] st1]; cbn [snd] in *.
  - exists l1. split; assumption.
  - destruct (is_Exception e).
    + destruct (Hh e st1) as (l2 & E2 & F2).
      exists (l1 ++ l2)%list. rewrite E2, E1, app_assoc, forallb_app, F1, F2.
      split; reflexivity.
    + exists l1. split; assumption.
Qed.

(** The steps that discharge [os_only] along the structure of a
    computation. *)
Ltac os_only_step :=
  match goal with
  | |- os_only (bind _ _) => apply os_only_bind; [|intros ?]
  | |- os_only (try_except _ _) => apply os_only_try_except; [|intros ?]
  | |- os_only (ret _) => apply os_only_ret
  | |- os_only (raise _) => apply os_only_raise
  | |- os_only (lift _) => apply os_only_lift
  | |- os_only get_self => apply os_only_get_self
  | |- os_only (put_self _) => apply os_only_put_self
  | |- os_only get_messages => apply os_only_get_messages
  | |- os_only (put_messages _) => apply os_only_put_messages
  | |- os_only event_index => apply os_only_event_index
  | |- os_only (yield _ _) => apply os_only_yield
  | |- os_only (log_event (OsCall _)) => apply os_only_log
  | |- os_only (if ?b then _ else _) => destruct b
  | |- os_only (let (_, _) := ?p in _) => destruct p
  | |- os_only (match ?v with _ => _ end) => destruct v
  | H : _ |- _ => apply H
  end.

Ltac os_only_auto := repeat os_only_step.

Section ToolEvents.

Context (env : Env).

Lemma os_only_os_input (call : os_call) : os_only (os_input env call).
Proof. unfold os_input. os_only_auto. Qed.

Lemma os_only_os_position : os_only (os_position env).
Proof. unfold os_position. os_only_auto. Qed.

Lemma os_only_capture : os_only (_capture_screenshot env).
Proof. unfold _capture_screenshot. os_only_auto. Qed.

Lemma os_only_record_success : os_only (record_success env).
Proof. unfold record_success, _update_tool_success_stats. os_only_auto. Qed.

Lemma os_only_keys_down (keys : list string) : os_only (keys_down env keys).
Proof.
  induction keys as [|k keys IH]; cbn [keys_down]; os_only_auto.
  apply os_only_os_input.
Qed.

Lemma os_only_keys_up (keys : list string) : os_only (keys_up env keys).
Proof.
  induction keys as [|k keys IH]; cbn [keys_up]; os_only_auto.
  apply os_only_os_input.
Qed.

Lemma os_only_type_chunks (chunks : list pyval) : os_only (type_chunks env chunks).
Proof.
  induction chunks as [|c chunks IH]; cbn [type_chunks]; os_only_auto.
  apply os_only_os_input.
Qed.

Lemma os_only_execute_action (kw : kwargs) : os_only (execute_action env kw).
Proof.
  pose proof os_only_os_input. pose proof os_only_os_position.
  pose proof os_only_capture. pose proof os_only_record_success.
  pose proof os_only_keys_down. pose proof os_only_keys_up.
  pose proof os_only_type_chunks.
  unfold execute_action, pop_or_none, mouse_action, check_coordinate,
    click_action, keyboard_action, cursor_position_action, scale_values.
  os_only_auto.
Qed.

Lemma os_only_execute_tool (kw : kwargs) : os_only (_execute_tool env kw).
Proof.
  pose proof os_only_execute_action.
  unfold _execute_tool. os_only_auto.
Qed.

Lemma os_only_process_block (content : content_block) (flags : bool * bool) :
  os_only (process_block env content flags).
Proof.
  pose proof os_only_execute_tool.
  unfold process_block, check_cancelled, call_execute_tool, append_message.
  os_only_auto.
Qed.

Lemma os_only_process_content (response : list content_block) :
  forall flags, os_only (process_content env response flags).
Proof.
  pose proof os_only_process_block.
  induction response as [|content rest IH]; intros flags; cbn [process_content];
    os_only_auto.
Qed.

End ToolEvents.

(** ** How a turn ends *)

Lemma last_model_call_os (l : list event) :
  forallb is_os_call l = true -> last_model_call l = None.
Proof.
  induction l as [|e l IH]; [reflexivity|].
  cbn [forallb last_model_call]. intros Hl.
  apply andb_true_iff in Hl. destruct Hl as [He Hl].
  rewrite (IH Hl). destruct e; try reflexivity; discriminate He.
Qed.

Lemma last_model_call_app (tr l : list event) :
  last_model_call (tr ++ l)
  = match last_model_call l with
    | Some call => Some call
    | None => last_model_call tr
    end.
Proof.
  induction tr as [|e tr IH]; cbn [app last_model_call].
  - destruct (last_model_call l); reflexivity.
  - rewrite IH. destruct (last_model_call l); reflexivity.
Qed.

Lemma bind_Ok {A B : Type} (m : M A) (k : A -> M B) (st st' : State) (b : B) :
  bind m k st = (Ok b, st') ->
  exists a st1, m st = (Ok a, st1) /\ k a st1 = (Ok b, st').
Proof.
  unfold bind. destruct (m st) as [[a|e] st1]; intros Hk.
  - exists a, st1. split; [reflexivity|exact Hk].
  - discriminate Hk.
Qed.

(** Inverts the binds of a run that returned. *)
Ltac invert_run H :=
  repeat match type of H with
         | bind _ _ _ = (Ok _, _) =>
             let a := fresh "a" in
             let s := fresh "s" in
             let Hm := fresh "Hm" in
             apply bind_Ok in H; destruct H as (a & s & Hm & H)
         end.

Section TurnEnd.

Context (env : Env).

Lemma process_block_flags (content : content_block) (flags flags' : bool * bool)
  (st st' : State) :
  process_block env content flags st = (Ok flags', st') ->
  fst flags' = fst flags || is_tool_use content
  /\ snd flags' = snd flags || is_completion_block content.
Proof.
  unfold process_block. destruct flags as [h c]. intros Hrun.
  invert_run Hrun.
  destruct content as [text|id name input|].
  - invert_run Hrun. inversion Hrun; subst.
    cbn [fst snd is_tool_use is_completion_block].
    rewrite orb_false_r. split; [reflexivity|].
    destruct (is_completion_text text), c; reflexivity.
  - invert_run Hrun. inversion Hrun; subst.
    cbn [fst snd is_tool_use is_completion_block].
    rewrite orb_true_r, orb_false_r. split; reflexivity.
  - inversion Hrun; subst. cbn [fst snd is_tool_use is_completion_block].
    rewrite !orb_false_r. split; reflexivity.
Qed.

Lemma process_content_flags (response : list content_block) :
  forall (flags flags' : bool * bool) (st st' : State),
    process_content env response flags st = (Ok flags', st') ->
    fst flags' = fst flags || existsb is_tool_use response
    /\ snd flags' = snd flags || existsb is_completion_block response.
Proof.
  induction response as [|content rest IH]; intros flags flags' st st' Hrun.
  - inversion Hrun; subst. rewrite !orb_false_r. split; reflexivity.
  - cbn [process_content existsb] in *. invert_run Hrun.
    destruct (process_block_flags _ _ _ _ _ Hm) as [E1 E2].
    destruct (IH _ _ _ _ Hrun) as [F1 F2].
    rewrite F1, F2, E1, E2, !orb_assoc. split; reflexivity.
Qed.

Lemma create_message_trace (st st' : State) (response : list content_block) :
  create_message env st = (Ok response, st') ->
  exists request, trace st' = (trace st ++ [ModelCall request (Ok response)])%list.
Proof.
  unfold create_message. intros Hrun. invert_run Hrun.
  inversion Hm; subst. destruct (negb (client (self s))); [discriminate Hrun|].
  invert_run Hrun. inversion Hm0; subst. inversion Hm1; subst.
  inversion Hm2; subst. unfold lift in Hrun. inversion Hrun; subst.
  eexists. cbn [trace].
  match goal with
  | E : model_reply _ _ _ = Ok _ |- _ => rewrite E
  end.
  reflexivity.
Qed.

Lemma yield_effect (chunk : string) (st st' : State) (u : unit) :
  yield env chunk st = (Ok u, st') ->
  out st' = (out st ++ [chunk])%list
  /\ messages st' = messages st
  /\ trace st' = trace st
  /\ config (self st') = config (self st).
Proof.
  unfold yield. intros Hrun. inversion Hrun; subst. cbn.
  destruct (cancel_request env _); repeat split.
Qed.

Lemma loop_iteration_end (st st' : State) (e : loop_end) :
  loop_iteration env st = (Ok (Some e), st') -> turn_end_condition e st'.
Proof.
  unfold loop_iteration, try_except. intros Hrun.
  match type of Hrun with
  | match ?body st with _ => _ end = _ => destruct (body st) as [[r|x] st1] eqn:Hbody
  end.
  - inversion Hrun; subst. clear Hrun.
    invert_run Hbody.
    destruct (create_message_trace _ _ _ Hm3) as [request Htr].
    destruct (os_only_process_content env a3 (false, false) s3) as (l & Hl & Hos).
    rewrite Hm4 in Hl. cbn [snd] in Hl.
    destruct (process_content_flags _ _ _ _ _ Hm4) as [Hh Hc].
    destruct a4 as [h c]. cbn [fst snd orb] in Hh, Hc.
    destruct (negb h && c) eqn:Hdone.
    + inversion Hbody; subst.
      apply andb_true_iff in Hdone. destruct Hdone as [Hh' Hc'].
      apply negb_true_iff in Hh'.
      exists request, a3.
      rewrite Hl, Htr, last_model_call_app, (last_model_call_os l Hos).
      rewrite last_model_call_app. cbn [last_model_call].
      repeat split; congruence.
    + invert_run Hbody. inversion Hm5; subst. inversion Hm6; subst.
      destruct (Z.of_nat (List.length (messages s6)) >? history_size (config (self s6)) * 10)
        eqn:Hlim.
      * invert_run Hbody. inversion Hbody; subst.
        destruct (yield_effect _ _ _ _ Hm7) as (Ho & Hms & _ & Hcfg).
        cbn [turn_end_condition]. rewrite Hms, Hcfg, Ho.
        split; [apply Z.gtb_lt in Hlim; lia|].
        rewrite last_last. reflexivity.
      * inversion Hbody.
  - destruct (is_Exception x); [|discriminate Hrun].
    invert_run Hrun. inversion Hrun; subst. exact I.
Qed.

Lemma process_message_loop_end (fuel : nat) :
  forall (st st' : State) (e : loop_end),
    _process_message_loop env fuel st = (Ok e, st') -> turn_end_condition e st'.
Proof.
  induction fuel as [|fuel IH]; intros st st' e Hrun.
  - inversion Hrun; subst. exact I.
  - cbn [_process_message_loop] in Hrun. invert_run Hrun.
    destruct a0 as [e'|].
    + inversion Hrun; subst. now apply (loop_iteration_end s st').
    + now apply (IH s0 st').
Qed.

End TurnEnd.

(** C3. A run of [_process_message_loop] that returns with the turn
    complete has, as its latest response of the model, one with no tool-use
    block and with a text block whose lowered text contains one of
    "completed", "finished", "done", "task accomplished".  A run that
    returns on the message ceiling holds more than [history_size * 10]
    messages and yielded the warning last.  These are the two normal ends
    (the others report an exception or raise the cancellation); hence a
    latest response with a tool-use block never completes the turn, whatever
    its text blocks say. *)
Theorem turn_ends_on_completion_or_ceiling (env : Env) (fuel : nat)
  (st st' : State) (e : loop_end) :
  _process_message_loop env fuel st = (Ok e, st') ->
  (e = TurnCompleted ->
   exists request response,
     last_model_call (trace st') = Some (request, Ok response)
     /\ existsb is_tool_use response = false
     /\ existsb is_completion_block response = true)
  /\ (e = MessageLimit ->
      Z.of_nat (List.length (messages st')) > history_size (config (self st')) * 10
      /\ last (out st') EmptyString = MESSAGE_LIMIT_WARNING)
  /\ (forall request response,
        last_model_call (trace st') = Some (request, Ok response) ->
        existsb is_tool_use response = true ->
        e <> TurnCompleted).
Proof.
  intros Hrun. pose proof (process_message_loop_end env fuel st st' e Hrun) as Hend.
  split; [|split].
  - intros ->. exact Hend.
  - intros ->. exact Hend.
  - intros request response Hlast Htool ->.
    destruct Hend as (rq & rs & Hl & Hno & _).
    rewrite Hl in Hlast. inversion Hlast; subst. congruence.
Qed.

(** The spec's scenario: the response with the click does not end the turn
    although its text says "done"; the next one, "Task completed", does. *)
Lemma turn_ends_on_completion_or_ceiling_witness :
  let run := _process_message_loop Shipped.scripted_env 5 Shipped.scripted_start in
  fst run = Ok TurnCompleted
  /\ out (snd run)
     = ["Tool Use: computer" ++ newline ++ "Input: {'action': 'left_click'}";
        "Tool executed: left_click"; "done"; "Task completed"]%string
  /\ exists request response,
       last_model_call (trace (snd run)) = Some (request, Ok response)
       /\ existsb is_tool_use response = false
       /\ existsb is_completion_block response = true.
Proof.
  intros run. split; [vm_compute; reflexivity|]. split; [vm_compute; reflexivity|].
  assert (Hrun : run = (Ok TurnCompleted, snd run)) by (vm_compute; reflexivity).
  exact (proj1 (turn_ends_on_completion_or_ceiling
                  Shipped.scripted_env 5 Shipped.scripted_start (snd run)
                  TurnCompleted Hrun) eq_refl).
Defined.

(** ** Rounding in binary64 *)

Section Dyadic.

Local Open Scope Q_scope.

Lemma pow2_pos (e : Z) : 0 < pow2 e.
Proof. apply Qpower_0_lt. reflexivity. Qed.

Lemma pow2_add (a b : Z) : pow2 (a + b) == pow2 a * pow2 b.
Proof. apply Qpower_plus. discriminate. Qed.

Lemma pow2_0 : pow2 0 == 1.
Proof. reflexivity. Qed.

Lemma pow2_nonneg (n : Z) : (0 <= n)%Z -> pow2 n == inject_Z (2 ^ n).
Proof. intros Hn. unfold pow2. rewrite Zpower_Qpower by exact Hn. reflexivity. Qed.

Lemma pow2_le (a b : Z) : (a <= b)%Z -> pow2 a <= pow2 b.
Proof.
  intros Hab. unfold pow2. apply Qpower_le_compat_l; [exact Hab|].
  discriminate.
Qed.

Lemma pow2_lt (a b : Z) : (a < b)%Z -> pow2 a < pow2 b.
Proof.
  intros Hab. unfold pow2. apply Qpower_lt_compat_l; [exact Hab|].
  reflexivity.
Qed.


Lemma F2Q_0 (e : Z) : F2Q 0 e == 0.
Proof. unfold F2Q. ring. Qed.

Lemma F2Q_nonneg (m e : Z) : (0 <= m)%Z -> 0 <= F2Q m e.
Proof.
  intros Hm. unfold F2Q. apply Qmult_le_0_compat.
  - change 0 with (inject_Z 0). rewrite <- Zle_Qle. exact Hm.
  - apply Qlt_le_weak, pow2_pos.
Qed.

Lemma F2Q_le (a b e : Z) : (a <= b)%Z <-> F2Q a e <= F2Q b e.
Proof.
  unfold F2Q. pose proof (pow2_pos e) as Hp. split.
  - intros Hab. apply Qmult_le_compat_r; [rewrite <- Zle_Qle; exact Hab|].
    apply Qlt_le_weak, Hp.
  - intros H. apply Qmult_le_r in H; [|exact Hp]. rewrite <- Zle_Qle in H. exact H.
Qed.

Lemma F2Q_lt (a b e : Z) : (a < b)%Z <-> F2Q a e < F2Q b e.
Proof.
  unfold F2Q. pose proof (pow2_pos e) as Hp. split.
  - intros Hab. apply Qmult_lt_compat_r; [exact Hp|rewrite <- Zlt_Qlt; exact Hab].
  - intros H. apply Qmult_lt_r in H; [|exact Hp]. rewrite <- Zlt_Qlt in H. exact H.
Qed.

(** Moving a factor [2^n] between the mantissa and the exponent. *)
Lemma F2Q_shift (m e n : Z) : (0 <= n)%Z -> F2Q (m * 2 ^ n) e == F2Q m (e + n).
Proof.
  intros Hn. unfold F2Q. rewrite inject_Z_mult, pow2_add, <- (pow2_nonneg n Hn). ring.
Qed.

Lemma F2Q_1 (e : Z) : F2Q 1 e == pow2 e.
Proof. unfold F2Q. ring. Qed.

Lemma F2Q_add (a b e : Z) : F2Q (a + b) e == F2Q a e + F2Q b e.
Proof. unfold F2Q. rewrite inject_Z_plus. ring. Qed.

Lemma F2Q_int (m : Z) : F2Q m 0 == inject_Z m.
Proof. unfold F2Q. rewrite pow2_0. ring. Qed.

(** A power of two as a number of the format. *)
Lemma F2Q_pow2 (d e : Z) : (0 <= d)%Z -> F2Q (2 ^ d) e == pow2 (d + e).
Proof.
  intros Hd. rewrite <- (Z.mul_1_l (2 ^ d)), F2Q_shift by exact Hd.
  rewrite F2Q_1, Z.add_comm. reflexivity.
Qed.

End Dyadic.

(** *** The number of digits *)

Lemma digits2_size (p : positive) : digits2_pos p = Pos.size p.
Proof. induction p; cbn; congruence. Qed.

Lemma Zdigits2_log2 (m : Z) : 0 < m -> Zdigits2 m = Z.log2 m + 1.
Proof.
  destruct m as [|p|p]; try lia. intros _. cbn [Zdigits2]. rewrite digits2_size.
  destruct p; cbn [Z.log2 Pos.size]; lia.
Qed.

Lemma Zdigits2_bounds (m : Z) :
  0 < m -> 1 <= Zdigits2 m /\ 2 ^ (Zdigits2 m - 1) <= m < 2 ^ Zdigits2 m.
Proof.
  intros Hm. rewrite (Zdigits2_log2 m Hm).
  pose proof (Z.log2_nonneg m). pose proof (Z.log2_spec m Hm).
  replace (Z.log2 m + 1 - 1) with (Z.log2 m) by lia.
  replace (Z.log2 m + 1) with (Z.succ (Z.log2 m)) by lia. lia.
Qed.

Lemma Zdigits2_unique (m d : Z) :
  2 ^ (d - 1) <= m < 2 ^ d -> 1 <= d -> Zdigits2 m = d.
Proof.
  intros Hm Hd.
  assert (0 < m) by (pose proof (Z.pow_pos_nonneg 2 (d - 1)); lia).
  rewrite (Zdigits2_log2 m) by assumption.
  rewrite (Z.log2_unique m (d - 1)); [lia|lia|].
  replace (Z.succ (d - 1)) with d by lia. exact Hm.
Qed.

Lemma Zdigits2_0 : Zdigits2 0 = 0.
Proof. reflexivity. Qed.

Lemma Zdigits2_nonneg (m : Z) : 0 <= m -> 0 <= Zdigits2 m.
Proof.
  intros Hm. destruct (Z.eq_dec m 0) as [->|Hn]; [cbn; lia|].
  pose proof (Zdigits2_bounds m). lia.
Qed.

(** A mantissa below [2^d] has [d] digits at most. *)
Lemma Zdigits2_le (m d : Z) : 0 <= m < 2 ^ d -> 0 <= d -> Zdigits2 m <= d.
Proof.
  intros Hm Hd. destruct (Z.eq_dec m 0) as [->|Hn]; [cbn; lia|].
  destruct (Zdigits2_bounds m ltac:(lia)) as (H1 & H2 & _).
  destruct (Z_lt_le_dec d (Zdigits2 m)) as [Hlt|]; [|lia].
  pose proof (Z.pow_le_mono_r 2 d (Zdigits2 m - 1)). lia.
Qed.

(** A mantissa of at least [2^(d-1)] has [d] digits at least. *)
Lemma Zdigits2_ge (m d : Z) : 2 ^ (d - 1) <= m -> 1 <= d -> d <= Zdigits2 m.
Proof.
  intros Hm Hd.
  assert (0 < m) by (pose proof (Z.pow_pos_nonneg 2 (d - 1)); lia).
  destruct (Zdigits2_bounds m ltac:(lia)) as (H1 & _ & H3).
  destruct (Z_lt_le_dec (Zdigits2 m) d) as [Hlt|]; [|lia].
  pose proof (Z.pow_le_mono_r 2 (Zdigits2 m) (d - 1)). lia.
Qed.

Lemma Zdigits2_shift (m k : Z) :
  0 < m -> 0 <= k -> Zdigits2 (m * 2 ^ k) = Zdigits2 m + k.
Proof.
  intros Hm Hk. destruct (Zdigits2_bounds m Hm) as (H1 & H2 & H3).
  apply Zdigits2_unique; [|lia].
  replace (Zdigits2 m + k - 1) with (Zdigits2 m - 1 + k) by lia.
  rewrite !Z.pow_add_r by lia.
  pose proof (Z.pow_pos_nonneg 2 k). nia.
Qed.

(** The digits of a quotient by a power of two. *)
Lemma Zdigits2_div (m k : Z) :
  0 < m -> 0 <= k -> k < Zdigits2 m -> Zdigits2 (m / 2 ^ k) = Zdigits2 m - k.
Proof.
  intros Hm Hk Hd. destruct (Zdigits2_bounds m Hm) as (H1 & H2 & H3).
  assert (Hp : 0 < 2 ^ k) by (apply Z.pow_pos_nonneg; lia).
  apply Zdigits2_unique; [|lia]. split.
  - apply Z.div_le_lower_bound; [exact Hp|].
    rewrite <- Z.pow_add_r by lia. replace (k + (Zdigits2 m - k - 1)) with (Zdigits2 m - 1) by lia.
    exact H2.
  - apply Z.div_lt_upper_bound; [exact Hp|].
    rewrite <- Z.pow_add_r by lia. replace (k + (Zdigits2 m - k)) with (Zdigits2 m) by lia.
    exact H3.
Qed.

Lemma Zdigits2_div_small (m k : Z) :
  0 <= m -> 0 <= k -> Zdigits2 m <= k -> m / 2 ^ k = 0.
Proof.
  intros Hm Hk Hd. apply Z.div_small. split; [exact Hm|].
  destruct (Z.eq_dec m 0) as [->|Hn]; [apply Z.pow_pos_nonneg; lia|].
  destruct (Zdigits2_bounds m ltac:(lia)) as (H1 & H2 & H3).
  pose proof (Z.pow_le_mono_r 2 (Zdigits2 m) k). lia.
Qed.

(** The digits of a product. *)
Lemma Zdigits2_mul (a b : Z) :
  0 < a -> 0 < b -> Zdigits2 a + Zdigits2 b - 1 <= Zdigits2 (a * b).
Proof.
  intros Ha Hb. destruct (Zdigits2_bounds a Ha) as (A1 & A2 & A3).
  destruct (Zdigits2_bounds b Hb) as (B1 & B2 & B3).
  apply Zdigits2_ge; [|lia].
  replace (Zdigits2 a + Zdigits2 b - 1 - 1) with ((Zdigits2 a - 1) + (Zdigits2 b - 1)) by lia.
  rewrite Z.pow_add_r by lia.
  pose proof (Z.pow_pos_nonneg 2 (Zdigits2 a - 1)). pose proof (Z.pow_pos_nonneg 2 (Zdigits2 b - 1)).
  nia.
Qed.

(** *** Shifting a mantissa to the right *)

(** [iter_pos f p] applies [f] [p] times. *)
Lemma iter_pos_invariant {A : Type} (f : A -> A) (P : Z -> A -> Prop) :
  (forall k x, 0 <= k -> P k x -> P (k + 1) (f x)) ->
  forall p k x, 0 <= k -> P k x -> P (k + Zpos p) (SpecFloat.iter_pos f p x).
Proof.
  intros Hstep. induction p as [p IH|p IH|]; intros k x Hk Hx; cbn [SpecFloat.iter_pos].
  - replace (k + Zpos p~1) with (k + 1 + Zpos p + Zpos p) by lia.
    apply IH; [lia|]. apply IH; [lia|]. apply Hstep; assumption.
  - replace (k + Zpos p~0) with (k + Zpos p + Zpos p) by lia.
    apply IH; [lia|]. apply IH; assumption.
  - apply Hstep; assumption.
Qed.

(** One step: the mantissa is halved, the bit that leaves becomes the round
    bit, the old round bit joins the sticky bit. *)
Lemma shr_1_spec (m : Z) (r s : bool) :
  0 <= m ->
  shr_1 (Build_shr_record m r s) = Build_shr_record (m / 2) (Z.odd m) (r || s).
Proof.
  intros Hm. destruct m as [|p|p]; [reflexivity| |lia].
  destruct p as [p|p|]; cbn [shr_1].
  - f_equal. change (Zpos p~1) with (2 * Zpos p + 1).
    rewrite Z.add_comm, Z.mul_comm, Z.div_add by lia. reflexivity.
  - f_equal. change (Zpos p~0) with (2 * Zpos p).
    rewrite Z.mul_comm, Z.div_mul by lia. reflexivity.
  - reflexivity.
Qed.

(** [k] steps: the mantissa is divided by [2^k]; a bit set in the result
    witnesses that something was lost, now or before. *)
Lemma shr_iter_spec (m : Z) (r s : bool) (p : positive) :
  0 <= m ->
  let mrs := SpecFloat.iter_pos shr_1 p (Build_shr_record m r s) in
  shr_m mrs = m / 2 ^ Zpos p
  /\ (shr_r mrs || shr_s mrs = true -> m mod 2 ^ Zpos p <> 0 \/ r || s = true).
Proof.
  intros Hm.
  pose (P := fun (k : Z) (x : shr_record) =>
               shr_m x = m / 2 ^ k
               /\ (shr_r x || shr_s x = true -> m mod 2 ^ k <> 0 \/ r || s = true)).
  assert (H0 : P 0 (Build_shr_record m r s)).
  { split; cbn [shr_m shr_r shr_s]; [rewrite Z.div_1_r; reflexivity|]. intros H. right. exact H. }
  assert (Hstep : forall k x, 0 <= k -> P k x -> P (k + 1) (shr_1 x)).
  { intros k [m' r' s'] Hk [Hm' Hrs]. cbn [shr_m shr_r shr_s] in *.
    assert (Hp : 0 < 2 ^ k) by (apply Z.pow_pos_nonneg; lia).
    assert (Hm'0 : 0 <= m') by (rewrite Hm'; apply Z.div_pos; lia).
    rewrite (shr_1_spec m' r' s' Hm'0). cbn [shr_m shr_r shr_s]. split.
    - rewrite Hm', Z.pow_add_r, Z.pow_1_r by lia. rewrite Z.div_div by lia. reflexivity.
    - intros H. cbn [shr_r shr_s] in H. apply orb_true_iff in H.
      assert (Hmod : m mod 2 ^ (k + 1) = m mod 2 ^ k + 2 ^ k * ((m / 2 ^ k) mod 2)).
      { rewrite Z.pow_add_r, Z.pow_1_r by lia. rewrite Z.rem_mul_r by lia. reflexivity. }
      pose proof (Z.mod_pos_bound m (2 ^ k) Hp) as Hb.
      destruct H as [Hodd|H].
      + left. rewrite Hmod. rewrite <- Hm'.
        rewrite Zmod_odd, Hodd. lia.
      + destruct (Hrs H) as [Hl|Hr]; [|right; exact Hr].
        left. rewrite Hmod. pose proof (Z.mod_pos_bound (m / 2 ^ k) 2 ltac:(lia)). nia. }
  pose proof (iter_pos_invariant shr_1 P Hstep p 0 _ ltac:(lia) H0) as H.
  exact H.
Qed.

Lemma fexp64_eq (e : Z) : fexp 53 1024 e = fexp64 e.
Proof. reflexivity. Qed.

Lemma loc_of_shr_record_of_loc (m : Z) (l : location) :
  loc_of_shr_record (shr_record_of_loc m l) = l.
Proof. destruct l as [|[]]; reflexivity. Qed.

Lemma shr_m_of_loc (m : Z) (l : location) : shr_m (shr_record_of_loc m l) = m.
Proof. destruct l as [|[]]; reflexivity. Qed.

Lemma loc_inexact_bits (mrs : shr_record) :
  loc_of_shr_record mrs <> loc_Exact -> shr_r mrs || shr_s mrs = true.
Proof. destruct mrs as [m [] []]; cbn; intros H; try reflexivity. now elim H. Qed.

(** [shr_fexp]: the mantissa is cut down to the exponent of the format; an
    inexact location witnesses a loss, now or before. *)
Lemma shr_fexp_spec (m e : Z) (l : location) :
  0 <= m ->
  let n := Z.max (fexp64 (Zdigits2 m + e) - e) 0 in
  exists mrs,
    shr_fexp 53 1024 m e l = (mrs, e + n)
    /\ shr_m mrs = m / 2 ^ n
    /\ (loc_of_shr_record mrs <> loc_Exact -> m mod 2 ^ n <> 0 \/ l <> loc_Exact).
Proof.
  intros Hm n. unfold shr_fexp. rewrite fexp64_eq. unfold shr.
  destruct (fexp64 (Zdigits2 m + e) - e) as [|p|p] eqn:Hn; subst n.
  - exists (shr_record_of_loc m l). cbn [Z.max Z.compare].
    rewrite Z.add_0_r, shr_m_of_loc, loc_of_shr_record_of_loc, Z.pow_0_r, Z.div_1_r.
    repeat split. intros H. right. exact H.
  - replace (Z.max (Zpos p) 0) with (Zpos p) by lia.
    assert (Hrec : exists r s, shr_record_of_loc m l = Build_shr_record m r s
                               /\ (r || s = true -> l <> loc_Exact)).
    { destruct l as [|[]]; cbn; do 2 eexists; (split; [reflexivity|]);
        intros H; discriminate. }
    destruct Hrec as (r & s & -> & Hrs).
    destruct (shr_iter_spec m r s p Hm) as [H1 H2].
    eexists. split; [reflexivity|]. split; [exact H1|].
    intros Hl. apply loc_inexact_bits in Hl. destruct (H2 Hl) as [H|H].
    + left. exact H.
    + right. apply Hrs, H.
  - exists (shr_record_of_loc m l). replace (Z.max (Zneg p) 0) with 0 by lia.
    rewrite Z.add_0_r, shr_m_of_loc, loc_of_shr_record_of_loc, Z.pow_0_r, Z.div_1_r.
    repeat split. intros H. right. exact H.
Qed.

Lemma round_nearest_even_spec (m : Z) (l : location) :
  round_nearest_even m l = m
  \/ (round_nearest_even m l = m + 1 /\ l <> loc_Exact).
Proof.
  destruct l as [|[]]; cbn [round_nearest_even]; try (left; reflexivity).
  - destruct (Z.even m); [left; reflexivity|right; split; [reflexivity|discriminate]].
  - right. split; [reflexivity|discriminate].
Qed.

(** The exponent of the format at a mantissa that fills it. *)
Lemma fexp64_canonical (m e : Z) :
  0 < m < 2 ^ 53 -> -1074 <= e -> e = -1074 \/ 2 ^ 52 <= m ->
  fexp64 (Zdigits2 m + e) = e.
Proof.
  intros Hm He Hc. unfold fexp64.
  pose proof (Zdigits2_le m 53 ltac:(lia) ltac:(lia)).
  destruct Hc as [->|Hc]; [lia|].
  pose proof (Zdigits2_ge m 53 ltac:(exact Hc) ltac:(lia)). lia.
Qed.

Section RoundAux.

Local Open Scope Q_scope.

(** [binary_round_aux] rounds faithfully.  The mantissa [m] and the location
    [l] place the number [v] in [[m * 2^e, (m+1) * 2^e)], with enough digits
    for the format.  The result is one of the two neighbours of [v] on the
    grid of the format, [m1 * 2^e1] and [(m1 + 1) * 2^e1], and not the upper
    one when [v] is the lower one. *)
Lemma round_aux_spec (s : bool) (m e : Z) (l : location) (v : Q) :
  (0 <= m)%Z ->
  F2Q m e <= v -> v < F2Q (m + 1) e ->
  (l <> loc_Exact -> F2Q m e < v) ->
  (e <= fexp64 (Zdigits2 m + e))%Z ->
  exists m1 m3 e3 : Z,
    let e1 := fexp64 (Zdigits2 m + e) in
    (0 <= m1 < 2 ^ 53)%Z /\ (e1 = -1074 \/ 2 ^ 52 <= m1)%Z
    /\ F2Q m1 e1 <= v /\ v < F2Q (m1 + 1) e1
    /\ (F2Q m3 e3 == F2Q m1 e1
        \/ (F2Q m3 e3 == F2Q (m1 + 1) e1 /\ F2Q m1 e1 < v))
    /\ (0 <= m3 < 2 ^ 53)%Z /\ (e3 = -1074 \/ 2 ^ 52 <= m3)%Z /\ (-1074 <= e3)%Z
    /\ binary_round_aux 53 1024 s m e l = pack s m3 e3.
Proof.
  intros Hm Hlo Hhi Hstrict Hprec.
  set (d := Zdigits2 m) in *. set (e1 := fexp64 (d + e)) in *.
  assert (He1 : (-1074 <= e1)%Z) by (unfold e1, fexp64; lia).
  set (n1 := (e1 - e)%Z).
  assert (Hn1 : (0 <= n1)%Z) by (unfold n1; lia).
  destruct (shr_fexp_spec m e l Hm) as (mrs1 & Hshr1 & Hm1 & Hloc1).
  fold d in Hshr1, Hm1, Hloc1. fold e1 in Hshr1, Hm1, Hloc1. fold n1 in Hshr1, Hm1, Hloc1.
  replace (Z.max n1 0) with n1 in * by lia.
  replace (e + n1)%Z with e1 in Hshr1 by (unfold n1; lia).
  set (m1 := shr_m mrs1) in *.
  assert (Hp : (0 < 2 ^ n1)%Z) by (apply Z.pow_pos_nonneg; lia).
  assert (Hm1n : (0 <= m1)%Z) by (rewrite Hm1; apply Z.div_pos; lia).
  assert (Hdiv : (m1 * 2 ^ n1 <= m < (m1 + 1) * 2 ^ n1)%Z).
  { rewrite Hm1. pose proof (Z.div_mod m (2 ^ n1) ltac:(lia)).
    pose proof (Z.mod_pos_bound m (2 ^ n1) Hp). nia. }
  assert (Hshift : forall k : Z, F2Q k e1 == F2Q (k * 2 ^ n1) e).
  { intros k. rewrite F2Q_shift by exact Hn1. unfold n1.
    replace (e + (e1 - e))%Z with e1 by lia. reflexivity. }
  assert (Hlo1 : F2Q m1 e1 <= v).
  { rewrite Hshift. eapply Qle_trans; [|exact Hlo]. apply F2Q_le. lia. }
  assert (Hhi1 : v < F2Q (m1 + 1) e1).
  { rewrite Hshift. eapply Qlt_le_trans; [exact Hhi|]. apply F2Q_le. lia. }
  assert (Hstrict1 : loc_of_shr_record mrs1 <> loc_Exact -> F2Q m1 e1 < v).
  { intros Hl. destruct (Hloc1 Hl) as [Hmod|Hl'].
    - rewrite Hshift. eapply Qlt_le_trans; [|exact Hlo]. apply F2Q_lt.
      rewrite Hm1. pose proof (Z.div_mod m (2 ^ n1) ltac:(lia)).
      pose proof (Z.mod_pos_bound m (2 ^ n1) Hp). nia.
    - eapply Qle_lt_trans; [|exact (Hstrict Hl')]. rewrite Hshift. apply F2Q_le. lia. }
  assert (Hm1hi : (m1 < 2 ^ 53)%Z).
  { destruct (Z.eq_dec m 0) as [Hz|Hnz].
    - rewrite Hm1, Hz. cbn. lia.
    - destruct (Zdigits2_bounds m ltac:(lia)) as (D1 & D2 & D3). fold d in D1, D2, D3.
      destruct (Z_lt_le_dec n1 d) as [Hlt|Hge].
      + pose proof (Zdigits2_div m n1 ltac:(lia) Hn1 Hlt) as Hd1.
        rewrite <- Hm1 in Hd1. fold d in Hd1.
        destruct (Z.eq_dec m1 0) as [->|Hm10]; [lia|].
        destruct (Zdigits2_bounds m1 ltac:(lia)) as (_ & _ & B3).
        assert (d - n1 <= 53)%Z by (unfold n1, e1, fexp64; lia).
        pose proof (Z.pow_le_mono_r 2 (Zdigits2 m1) 53 ltac:(lia) ltac:(lia)). lia.
      + rewrite Hm1, (Zdigits2_div_small m n1) by (fold d; lia). lia. }
  assert (Hcan1 : (e1 = -1074 \/ 2 ^ 52 <= m1)%Z).
  { destruct (Z.eq_dec e1 (-1074)) as [Heq|Hne]; [left; exact Heq|right].
    assert (He1' : e1 = (d + e - 53)%Z) by (unfold e1, fexp64 in *; lia).
    assert (Hmpos : (0 < m)%Z).
    { destruct (Z.eq_dec m 0) as [Hz|]; [|lia].
      exfalso. unfold d in *. rewrite Hz in *. cbn [Zdigits2] in *.
      unfold e1, fexp64 in *. lia. }
    destruct (Zdigits2_bounds m Hmpos) as (D1 & D2 & D3). fold d in D1, D2, D3.
    assert (Hn1d : n1 = (d - 53)%Z) by (unfold n1; lia).
    rewrite Hm1. apply Z.div_le_lower_bound; [exact Hp|].
    rewrite Hn1d, <- Z.pow_add_r by lia. replace (d - 53 + 52)%Z with (d - 1)%Z by lia.
    exact D2. }
  (* rounding *)
  set (m2 := round_nearest_even m1 (loc_of_shr_record mrs1)).
  assert (Hm2 : m2 = m1 \/ (m2 = (m1 + 1)%Z /\ F2Q m1 e1 < v)).
  { destruct (round_nearest_even_spec m1 (loc_of_shr_record mrs1)) as [H|[H Hl]].
    - left. exact H.
    - right. split; [exact H|apply Hstrict1, Hl]. }
  assert (Hm2n : (0 <= m2 <= 2 ^ 53)%Z) by (destruct Hm2 as [->|[-> _]]; lia).
  (* the second shift *)
  destruct (shr_fexp_spec m2 e1 loc_Exact ltac:(lia)) as (mrs2 & Hshr2 & Hm3 & _).
  assert (Hres : binary_round_aux 53 1024 s m e l
                 = pack s (shr_m mrs2)
                     (e1 + Z.max (fexp64 (Zdigits2 m2 + e1) - e1) 0)).
  { unfold binary_round_aux. rewrite Hshr1. fold m1. fold m2. rewrite Hshr2.
    reflexivity. }
  destruct (Z_lt_le_dec m2 (2 ^ 53)) as [Hsmall|Hbig].
  - (* no second shift *)
    assert (Hn2 : (Z.max (fexp64 (Zdigits2 m2 + e1) - e1) 0 = 0)%Z).
    { destruct (Z.eq_dec m2 0) as [Hz|Hnz].
      - rewrite Hz. cbn [Zdigits2].
        assert (e1 = -1074)%Z by (destruct Hcan1 as [H|H]; [exact H|];
                                  destruct Hm2 as [E|[E _]]; lia).
        unfold fexp64. lia.
      - rewrite (fexp64_canonical m2 e1); [lia|lia|exact He1|].
        destruct Hcan1 as [H|H]; [left; exact H|right].
        destruct Hm2 as [->|[-> _]]; lia. }
    rewrite Hn2 in *. rewrite Z.pow_0_r, Z.div_1_r in Hm3. rewrite Z.add_0_r in Hres.
    exists m1, m2, e1. cbv zeta.
    split; [lia|]. split; [exact Hcan1|]. split; [exact Hlo1|]. split; [exact Hhi1|].
    split.
    { destruct Hm2 as [->|[-> Hs]]; [left; reflexivity|right; split; [reflexivity|exact Hs]]. }
    split; [lia|]. split.
    { destruct Hcan1 as [H|H]; [left; exact H|right].
      destruct Hm2 as [->|[-> _]]; lia. }
    split; [exact He1|]. rewrite Hres, Hm3. reflexivity.
  - (* the mantissa has overflowed to [2^53] *)
    assert (Hm2eq : m2 = (2 ^ 53)%Z) by lia.
    assert (Hup : m2 = (m1 + 1)%Z /\ F2Q m1 e1 < v).
    { destruct Hm2 as [E|E]; [lia|exact E]. }
    assert (Hn2 : (Z.max (fexp64 (Zdigits2 m2 + e1) - e1) 0 = 1)%Z).
    { rewrite Hm2eq. change (Zdigits2 (2 ^ 53)) with 54%Z. unfold fexp64. lia. }
    rewrite Hn2 in *. rewrite Hm2eq in Hm3. change (2 ^ 53 / 2 ^ 1)%Z with (2 ^ 52)%Z in Hm3.
    exists m1, (2 ^ 52)%Z, (e1 + 1)%Z. cbv zeta.
    split; [lia|]. split; [exact Hcan1|]. split; [exact Hlo1|]. split; [exact Hhi1|].
    split.
    { right. split; [|apply Hup].
      rewrite <- (F2Q_shift (2 ^ 52) e1 1) by lia.
      replace (m1 + 1)%Z with (2 ^ 53)%Z by lia. reflexivity. }
    split; [lia|]. split; [right; lia|]. split; [lia|].
    rewrite Hres, Hm3. reflexivity.
Qed.

End RoundAux.

Section Bounds.

Local Open Scope Q_scope.

(** No number of the format lies between two neighbours of its grid. *)
Lemma grid_gap (m1 e1 : Z) (u : Q) :
  (0 <= m1 < 2 ^ 53)%Z -> (-1074 <= e1)%Z -> (e1 = -1074 \/ 2 ^ 52 <= m1)%Z ->
  representable u ->
  F2Q m1 e1 < u -> F2Q (m1 + 1) e1 <= u.
Proof.
  intros Hm1 He1 Hcan (M & E & Hu & HM & HE) Hlt. rewrite Hu in *.
  destruct (Z_le_gt_dec e1 E) as [Hle|Hgt].
  - assert (Hs : F2Q M E == F2Q (M * 2 ^ (E - e1)) e1).
    { rewrite F2Q_shift by lia. replace (e1 + (E - e1))%Z with E by lia. reflexivity. }
    rewrite Hs in *. apply F2Q_lt in Hlt. apply F2Q_le. lia.
  - exfalso. destruct Hcan as [Hc|Hc]; [lia|].
    assert (Hs : F2Q m1 e1 == F2Q (m1 * 2 ^ (e1 - E)) E).
    { rewrite F2Q_shift by lia. replace (E + (e1 - E))%Z with e1 by lia. reflexivity. }
    rewrite Hs in Hlt. apply F2Q_lt in Hlt.
    assert (2 ^ 1 <= 2 ^ (e1 - E))%Z by (apply Z.pow_le_mono_r; lia).
    change (2 ^ 1)%Z with 2%Z in *. nia.
Qed.

Lemma representable_lt_pow2_1024 (u : Q) : representable u -> u < pow2 1024.
Proof.
  intros (M & E & Hu & HM & HE). rewrite Hu.
  apply Qlt_le_trans with (F2Q (2 ^ 53) E).
  - apply F2Q_lt. lia.
  - rewrite F2Q_pow2 by lia. apply pow2_le. lia.
Qed.

Lemma mag_pack (s : bool) (m e : Z) :
  (0 <= m)%Z -> is_number (pack s m e) = true -> mag (pack s m e) == F2Q m e.
Proof.
  intros Hm Hn. destruct m as [|p|p]; cbn [pack] in *.
  - cbn [mag]. rewrite F2Q_0. reflexivity.
  - destruct (e <=? 971)%Z; [reflexivity|discriminate Hn].
  - lia.
Qed.

Lemma sign_of_pack (s : bool) (m e : Z) : (0 <= m)%Z -> sign_of (pack s m e) = s.
Proof.
  intros Hm. destruct m as [|p|p]; cbn [pack]; [reflexivity| |lia].
  destruct (e <=? 971)%Z; reflexivity.
Qed.

Lemma canonical64_pack (s : bool) (m e : Z) :
  (0 <= m < 2 ^ 53)%Z -> (-1074 <= e)%Z -> (e = -1074 \/ 2 ^ 52 <= m)%Z ->
  canonical64 (pack s m e).
Proof.
  intros Hm He Hc. destruct m as [|p|p]; cbn [pack]; [exact I| |exact I].
  destruct (e <=? 971)%Z; [|exact I]. cbn [canonical64].
  split; [lia|]. split; [exact He|exact Hc].
Qed.

(** What follows from faithful rounding: a bound of the format on the number
    is a bound on the result, from above and from below, and the result is
    off by one step of the grid at most. *)
Lemma round_aux_bounds (s : bool) (m e : Z) (l : location) (v : Q) :
  (0 <= m)%Z ->
  F2Q m e <= v -> v < F2Q (m + 1) e ->
  (l <> loc_Exact -> F2Q m e < v) ->
  (e <= fexp64 (Zdigits2 m + e))%Z ->
  let f := binary_round_aux 53 1024 s m e l in
  canonical64 f /\ sign_of f = s
  /\ (forall u, representable u -> v <= u -> is_number f = true /\ mag f <= u)
  /\ (is_number f = true ->
      (forall u, representable u -> u <= v -> u <= mag f)
      /\ (forall K : Z, v < pow2 K ->
            mag f - v <= pow2 (fexp64 K) /\ v - mag f <= pow2 (fexp64 K))).
Proof.
  intros Hm Hlo Hhi Hstrict Hprec f.
  destruct (round_aux_spec s m e l v Hm Hlo Hhi Hstrict Hprec)
    as (m1 & m3 & e3 & Hm1 & Hcan1 & Hlo1 & Hhi1 & Hround & Hm3 & Hcan3 & He3 & Hf).
  cbv zeta in *. fold f in Hf.
  set (e1 := fexp64 (Zdigits2 m + e)) in *.
  assert (He1 : (-1074 <= e1)%Z) by (unfold e1, fexp64; lia).
  assert (Hup : forall u, representable u -> v <= u -> F2Q m3 e3 <= u).
  { intros u Hu Hvu. destruct Hround as [->|[-> Hs]].
    - eapply Qle_trans; eassumption.
    - apply grid_gap; try assumption. eapply Qlt_le_trans; eassumption. }
  split; [rewrite Hf; apply canonical64_pack; assumption|].
  split; [rewrite Hf; apply sign_of_pack; lia|].
  split.
  - intros u Hu Hvu. pose proof (Hup u Hu Hvu) as Hle.
    assert (Hnum : is_number f = true).
    { rewrite Hf. destruct m3 as [|p|p]; cbn [pack]; [reflexivity| |lia].
      destruct (e3 <=? 971)%Z eqn:E; [reflexivity|]. exfalso.
      apply Z.leb_gt in E. destruct Hcan3 as [Hc|Hc]; [lia|].
      pose proof (representable_lt_pow2_1024 u Hu) as Hlt.
      assert (pow2 1024 <= F2Q (Zpos p) e3).
      { apply Qle_trans with (F2Q (2 ^ 52) e3); [|apply F2Q_le; exact Hc].
        rewrite F2Q_pow2 by lia. apply pow2_le. lia. }
      lra. }
    split; [exact Hnum|]. rewrite Hf, mag_pack; [exact Hle|lia|rewrite <- Hf; exact Hnum].
  - intros Hnum. assert (Hmag : mag f == F2Q m3 e3).
    { rewrite Hf. apply mag_pack; [lia|rewrite <- Hf; exact Hnum]. }
    split.
    + intros u Hu Huv. rewrite Hmag. destruct Hround as [->|[-> Hs]].
      * destruct (Qlt_le_dec (F2Q m1 e1) u) as [Hlt|Hle]; [|exact Hle].
        pose proof (grid_gap m1 e1 u Hm1 He1 Hcan1 Hu Hlt). lra.
      * lra.
    + intros K HK. rewrite Hmag.
      assert (Hstep : F2Q (m1 + 1) e1 == F2Q m1 e1 + pow2 e1).
      { rewrite F2Q_add, F2Q_1. reflexivity. }
      assert (He1K : pow2 e1 <= pow2 (fexp64 K)).
      { apply pow2_le. unfold e1, fexp64.
        destruct (Z.eq_dec m 0) as [Hz|Hnz].
        - clear Hf Hround. unfold e1 in Hprec |- *. rewrite Hz in Hprec |- *.
          cbn [Zdigits2] in Hprec |- *. unfold fexp64 in Hprec. lia.
        - destruct (Zdigits2_bounds m ltac:(lia)) as (D1 & D2 & _).
          assert (Hd : (Zdigits2 m + e <= K)%Z).
          { destruct (Z_le_gt_dec (Zdigits2 m + e) K) as [|Hgt]; [assumption|exfalso].
            assert (pow2 K <= F2Q m e).
            { apply Qle_trans with (F2Q (2 ^ (Zdigits2 m - 1)) e); [|apply F2Q_le; exact D2].
              rewrite F2Q_pow2 by lia. apply pow2_le. lia. }
            lra. }
          lia. }
      destruct Hround as [->|[-> Hs]]; lra.
Qed.

End Bounds.

Section Operations.

Local Open Scope Q_scope.

Lemma round_aux_rounds (s : bool) (m e : Z) (l : location) (v : Q) :
  (0 <= m)%Z ->
  F2Q m e <= v -> v < F2Q (m + 1) e ->
  (l <> loc_Exact -> F2Q m e < v) ->
  (e <= fexp64 (Zdigits2 m + e))%Z ->
  rounds v (binary_round_aux 53 1024 s m e l)
  /\ sign_of (binary_round_aux 53 1024 s m e l) = s.
Proof.
  intros Hm Hlo Hhi Hs Hp.
  destruct (round_aux_bounds s m e l v Hm Hlo Hhi Hs Hp) as (H1 & H2 & H3 & H4).
  split; [|exact H2]. split; [exact H1|]. split; [exact H3|exact H4].
Qed.

(** A float stands for itself. *)
Lemma rounds_exact (v : Q) (f : spec_float) :
  is_number f = true -> canonical64 f -> mag f == v -> rounds v f.
Proof.
  intros Hn Hc Hv. split; [exact Hc|]. split.
  - intros u _ Hu. split; [exact Hn|]. rewrite Hv. exact Hu.
  - intros _. split.
    + intros u _ Hu. rewrite Hv. exact Hu.
    + intros K _. pose proof (pow2_pos (fexp64 K)). rewrite Hv. split; lra.
Qed.

Lemma rounds_proper (v w : Q) (f : spec_float) : v == w -> rounds v f -> rounds w f.
Proof.
  intros E (H1 & H2 & H3). split; [exact H1|]. split.
  - intros u Hu Hw. apply H2; [exact Hu|]. rewrite E. exact Hw.
  - intros Hn. destruct (H3 Hn) as [H4 H5]. split.
    + intros u Hu Hw. apply H4; [exact Hu|]. rewrite E. exact Hw.
    + intros K HK. destruct (H5 K) as [A B]; [rewrite E; exact HK|]. split; lra.
Qed.

(** *** Division of two integers *)

Lemma new_location_inexact (n r : Z) : new_location n r <> loc_Exact -> r <> 0%Z.
Proof.
  intros H Hr. apply H. subst r. unfold new_location, new_location_even, new_location_odd.
  destruct (Z.even n); reflexivity.
Qed.

Lemma div_core_located (a b : positive) :
  let v := inject_Z (Zpos a) / inject_Z (Zpos b) in
  exists (q e' : Z) (l : location),
    SFdiv_core_binary 53 1024 (Zpos a) 0 (Zpos b) 0 = (q, e', l)
    /\ (0 <= q)%Z /\ F2Q q e' <= v /\ v < F2Q (q + 1) e'
    /\ (l <> loc_Exact -> F2Q q e' < v)
    /\ (e' <= fexp64 (Zdigits2 q + e'))%Z.
Proof.
  intros v. unfold SFdiv_core_binary. rewrite fexp64_eq.
  set (d1 := Zdigits2 (Zpos a)). set (d2 := Zdigits2 (Zpos b)).
  replace (d1 + 0 - (d2 + 0))%Z with (d1 - d2)%Z by lia.
  change (0 - 0)%Z with 0%Z.
  set (e' := Z.min (fexp64 (d1 - d2)) 0).
  set (s := (0 - e')%Z).
  assert (Hs : (0 <= s)%Z) by (unfold s, e'; lia).
  set (m' := match s with
             | 0%Z => Zpos a
             | Zpos _ => Z.shiftl (Zpos a) s
             | Zneg _ => 0%Z
             end).
  assert (Hm' : m' = (Zpos a * 2 ^ s)%Z).
  { unfold m'. destruct s as [|p|p] eqn:Es.
    - rewrite Z.pow_0_r. lia.
    - apply Z.shiftl_mul_pow2. lia.
    - lia. }
  clearbody m'.
  destruct (Z.div_eucl m' (Zpos b)) as [q r] eqn:Ediv.
  pose proof (Z_div_mod m' (Zpos b) ltac:(lia)) as Hdm. rewrite Ediv in Hdm.
  destruct Hdm as [Heq Hr].
  assert (Hp : (0 < 2 ^ s)%Z) by (apply Z.pow_pos_nonneg; lia).
  assert (Hq : (0 <= q)%Z) by nia.
  assert (Hb : 0 < inject_Z (Zpos b)) by (change 0 with (inject_Z 0); rewrite <- Zlt_Qlt; lia).
  assert (Ha : inject_Z (Zpos a) == F2Q m' e').
  { rewrite Hm', F2Q_shift by exact Hs. replace (e' + s)%Z with 0%Z by (unfold s; lia).
    rewrite F2Q_int. reflexivity. }
  assert (Hmul : forall k : Z, F2Q k e' * inject_Z (Zpos b) == F2Q (k * Zpos b) e').
  { intros k. unfold F2Q. rewrite inject_Z_mult. ring. }
  exists q, e', (new_location (Zpos b) r). split; [reflexivity|].
  split; [exact Hq|]. split; [|split; [|split]].
  - unfold v. apply Qle_shift_div_l; [exact Hb|]. rewrite Hmul, Ha. apply F2Q_le. lia.
  - unfold v. apply Qlt_shift_div_r; [exact Hb|]. rewrite Hmul, Ha. apply F2Q_lt. lia.
  - intros Hl. apply new_location_inexact in Hl.
    unfold v. apply Qlt_shift_div_l; [exact Hb|]. rewrite Hmul, Ha. apply F2Q_lt. lia.
  - destruct (Zdigits2_bounds (Zpos a) ltac:(lia)) as (A1 & A2 & A3). fold d1 in A1, A2, A3.
    destruct (Zdigits2_bounds (Zpos b) ltac:(lia)) as (B1 & B2 & B3). fold d2 in B1, B2, B3.
    assert (Hdq : (d1 + s - d2 <= Zdigits2 q)%Z).
    { pose proof (Zdigits2_nonneg q Hq) as Hn.
      assert (Hq1 : (q + 1 <= 2 ^ Zdigits2 q)%Z).
      { destruct (Z.eq_dec q 0) as [->|Hq0]; [cbn; lia|].
        pose proof (Zdigits2_bounds q ltac:(lia)). lia. }
      destruct (Z_le_gt_dec (d1 + s - d2) (Zdigits2 q)) as [|Hgt]; [assumption|exfalso].
      assert (H1 : (2 ^ (d1 - 1 + s) <= m')%Z).
      { rewrite Hm', Z.pow_add_r by lia. nia. }
      assert (H2 : (m' < 2 ^ (d2 + Zdigits2 q))%Z).
      { rewrite Z.pow_add_r by lia.
        pose proof (Z.pow_pos_nonneg 2 (Zdigits2 q) ltac:(lia) Hn). nia. }
      pose proof (Z.pow_le_mono_r 2 (d2 + Zdigits2 q) (d1 - 1 + s) ltac:(lia)). lia. }
    unfold fexp64 in *. unfold e', s in *. unfold fexp64. lia.
Qed.

Lemma pow2_representable (k : Z) : (-1074 <= k <= 1023)%Z -> representable (pow2 k).
Proof.
  intros Hk. destruct (Z_le_gt_dec k 971) as [Hle|Hgt].
  - exists 1%Z, k. rewrite F2Q_1. split; [reflexivity|]. lia.
  - exists (2 ^ (k - 971))%Z, 971%Z. split.
    + rewrite F2Q_pow2 by lia. replace (k - 971 + 971)%Z with k by lia. reflexivity.
    + split; [|lia]. split; [apply Z.pow_nonneg; lia|].
      apply Z.pow_lt_mono_r; lia.
Qed.

Lemma int_representable (n : Z) : (0 <= n <= 2 ^ 53)%Z -> representable (inject_Z n).
Proof.
  intros Hn. destruct (Z.eq_dec n (2 ^ 53)) as [->|Hne].
  - exists 1%Z, 53%Z. split; [|lia]. rewrite F2Q_1, pow2_nonneg by lia. reflexivity.
  - exists n, 0%Z. split; [|lia]. rewrite F2Q_int. reflexivity.
Qed.

(** [a / b] for [a >= 0] and [b > 0], the quotient being in the range of the
    format. *)
Lemma truediv_rounds (a b : Z) (u : Q) :
  (0 <= a)%Z -> (0 < b)%Z ->
  representable u -> inject_Z a / inject_Z b <= u ->
  exists f,
    Binary64.truediv a b = Ok f
    /\ rounds (inject_Z a / inject_Z b) f
    /\ is_number f = true /\ sign_of f = false.
Proof.
  intros Ha Hb Hu Hle. unfold Binary64.truediv.
  replace (b =? 0)%Z with false by (symmetry; apply Z.eqb_neq; lia).
  destruct b as [|b|b]; try lia. destruct a as [|a|a]; try lia.
  - exists (S754_zero false). split; [reflexivity|]. split; [|split; reflexivity].
    apply rounds_exact; [reflexivity|exact I|]. cbn [mag]. unfold Qdiv. ring.
  - cbn [Binary64.exact_int SFdiv].
    destruct (div_core_located a b) as (q & e' & l & Hcore & Hq & Hlo & Hhi & Hs & Hp).
    change Binary64.prec with 53%Z. change Binary64.emax with 1024%Z.
    rewrite Hcore. cbn [xorb].
    destruct (round_aux_rounds false q e' l _ Hq Hlo Hhi Hs Hp) as [Hr Hsign].
    destruct Hr as (Hc & Hup & Hrest).
    destruct (Hup u Hu Hle) as [Hn Hm].
    exists (binary_round_aux 53 1024 false q e' l).
    split; [|split; [split; [exact Hc|split; [exact Hup|exact Hrest]]|split; assumption]].
    destruct (binary_round_aux 53 1024 false q e' l); try reflexivity; discriminate Hn.
Qed.

(** *** Conversion of an integer *)

Lemma iter_xO (m d : positive) : Zpos (Pos.iter xO m d) = (Zpos m * 2 ^ Zpos d)%Z.
Proof.
  induction d as [|d IH] using Pos.peano_ind.
  - cbn [Pos.iter]. change (2 ^ 1)%Z with 2%Z. lia.
  - rewrite Pos.iter_succ, Pos2Z.inj_succ, Z.pow_succ_r by lia.
    change (Zpos (Pos.iter xO m d)~0) with (2 * Zpos (Pos.iter xO m d))%Z.
    rewrite IH. ring.
Qed.

(** [shl_align] toward a smaller exponent keeps the number. *)
Lemma shl_align_spec (m : positive) (e e' : Z) :
  let (mz, ez) := shl_align m e e' in
  (ez = Z.min e e') /\ Zpos mz = (Zpos m * 2 ^ (e - ez))%Z.
Proof.
  unfold shl_align. destruct (e' - e)%Z as [|d|d] eqn:Ed.
  - split; [lia|]. rewrite Z.sub_diag. lia.
  - split; [lia|]. rewrite Z.sub_diag. lia.
  - split; [lia|]. rewrite iter_xO. f_equal. f_equal. lia.
Qed.

Lemma binary_round_rounds (s : bool) (m : positive) (e : Z) :
  rounds (F2Q (Zpos m) e) (binary_round 53 1024 s m e)
  /\ sign_of (binary_round 53 1024 s m e) = s.
Proof.
  unfold binary_round. rewrite fexp64_eq.
  change (Zpos (digits2_pos m)) with (Zdigits2 (Zpos m)).
  pose proof (shl_align_spec m e (fexp64 (Zdigits2 (Zpos m) + e))) as Hal.
  destruct (shl_align m e (fexp64 (Zdigits2 (Zpos m) + e))) as [mz ez].
  destruct Hal as [Hez Hmz].
  assert (Hk : (0 <= e - ez)%Z) by lia.
  assert (Hv : F2Q (Zpos mz) ez == F2Q (Zpos m) e).
  { rewrite Hmz, F2Q_shift by exact Hk. replace (ez + (e - ez))%Z with e by lia.
    reflexivity. }
  assert (Hd : (Zdigits2 (Zpos mz) + ez = Zdigits2 (Zpos m) + e)%Z).
  { rewrite Hmz, Zdigits2_shift by lia. lia. }
  destruct (round_aux_rounds s (Zpos mz) ez loc_Exact (F2Q (Zpos m) e)) as [Hr Hs].
  - lia.
  - rewrite Hv. apply Qle_refl.
  - rewrite <- Hv. apply F2Q_lt. lia.
  - intros H. now elim H.
  - rewrite Hd. lia.
  - split; assumption.
Qed.

Lemma of_int_rounds (n : Z) (u : Q) :
  representable u -> inject_Z (Z.abs n) <= u ->
  exists f,
    Binary64.of_int n = Ok f
    /\ rounds (inject_Z (Z.abs n)) f
    /\ is_number f = true /\ sign_of f = (n <? 0)%Z.
Proof.
  intros Hu Hle. unfold Binary64.of_int, binary_normalize.
  change Binary64.prec with 53%Z. change Binary64.emax with 1024%Z.
  destruct n as [|p|p].
  - exists (S754_zero false). split; [reflexivity|]. split; [|split; reflexivity].
    apply rounds_exact; [reflexivity|exact I|reflexivity].
  - destruct (binary_round_rounds false p 0) as [Hr Hs].
    apply (rounds_proper _ (inject_Z (Z.abs (Zpos p)))) in Hr; [|apply F2Q_int].
    destruct Hr as (Hc & Hup & Hrest). destruct (Hup u Hu Hle) as [Hn Hm].
    exists (binary_round 53 1024 false p 0).
    split; [|split; [split; [exact Hc|split; [exact Hup|exact Hrest]]|split; assumption]].
    destruct (binary_round 53 1024 false p 0); try reflexivity; discriminate Hn.
  - destruct (binary_round_rounds true p 0) as [Hr Hs].
    apply (rounds_proper _ (inject_Z (Z.abs (Zneg p)))) in Hr; [|apply F2Q_int].
    destruct Hr as (Hc & Hup & Hrest). destruct (Hup u Hu Hle) as [Hn Hm].
    exists (binary_round 53 1024 true p 0).
    split; [|split; [split; [exact Hc|split; [exact Hup|exact Hrest]]|split; assumption]].
    destruct (binary_round 53 1024 true p 0); try reflexivity; discriminate Hn.
Qed.

(** *** Multiplication *)

Lemma SFmul_rounds (x y : spec_float) :
  is_number x = true -> is_number y = true -> canonical64 x -> canonical64 y ->
  rounds (mag x * mag y) (SFmul 53 1024 x y)
  /\ sign_of (SFmul 53 1024 x y) = xorb (sign_of x) (sign_of y).
Proof.
  intros Hx Hy Cx Cy.
  destruct x as [sx|sx| |sx mx ex]; try discriminate Hx;
    destruct y as [sy|sy| |sy my ey]; try discriminate Hy; cbn [SFmul sign_of mag].
  - split; [|reflexivity]. apply rounds_exact; [reflexivity|exact I|cbn; ring].
  - split; [|reflexivity]. apply rounds_exact; [reflexivity|exact I|cbn [mag]; ring].
  - split; [|reflexivity]. apply rounds_exact; [reflexivity|exact I|cbn [mag]; ring].
  - cbn [canonical64] in Cx, Cy. destruct Cx as (X1 & X2 & X3). destruct Cy as (Y1 & Y2 & Y3).
    assert (Hv : F2Q (Zpos (mx * my)) (ex + ey) == F2Q (Zpos mx) ex * F2Q (Zpos my) ey).
    { unfold F2Q. rewrite Pos2Z.inj_mul, inject_Z_mult, pow2_add. ring. }
    apply round_aux_rounds.
    + lia.
    + rewrite Hv. apply Qle_refl.
    + rewrite <- Hv. apply F2Q_lt. lia.
    + intros H. now elim H.
    + rewrite Pos2Z.inj_mul.
      pose proof (Zdigits2_mul (Zpos mx) (Zpos my) ltac:(lia) ltac:(lia)) as Hd.
      destruct (Zdigits2_bounds (Zpos mx) ltac:(lia)) as (Dx & _ & _).
      destruct (Zdigits2_bounds (Zpos my) ltac:(lia)) as (Dy & _ & _).
      unfold fexp64.
      destruct X3 as [X3|X3]; destruct Y3 as [Y3|Y3].
      * lia.
      * pose proof (Zdigits2_ge (Zpos my) 53 ltac:(exact Y3) ltac:(lia)). lia.
      * pose proof (Zdigits2_ge (Zpos mx) 53 ltac:(exact X3) ltac:(lia)). lia.
      * pose proof (Zdigits2_ge (Zpos mx) 53 ltac:(exact X3) ltac:(lia)). lia.
Qed.

(** *** Truncation *)

Lemma to_int_number (f : spec_float) :
  is_number f = true -> exists t, Binary64.to_int f = Ok t.
Proof.
  destruct f; try discriminate; intros _; cbn [Binary64.to_int]; eexists; reflexivity.
Qed.

Lemma to_int_floor (f : spec_float) :
  is_number f = true -> sign_of f = false ->
  exists t,
    Binary64.to_int f = Ok t /\ (0 <= t)%Z
    /\ inject_Z t <= mag f /\ mag f < inject_Z t + 1.
Proof.
  destruct f as [s|s| |s m e]; try discriminate; intros _ Hs; cbn [sign_of] in Hs; subst s.
  - exists 0%Z. split; [reflexivity|]. split; [lia|].
    cbn [mag]. change (inject_Z 0) with 0. split; lra.
  - cbn [Binary64.to_int SpecFloat.cond_Zopp mag]. exists (Z.shiftl (Zpos m) e).
    split; [reflexivity|].
    destruct (Z_le_gt_dec 0 e) as [He|He].
    + rewrite Z.shiftl_mul_pow2 by exact He.
      assert (Hv : F2Q (Zpos m) e == inject_Z (Zpos m * 2 ^ e)).
      { rewrite <- F2Q_int, F2Q_shift by exact He. reflexivity. }
      pose proof (Z.pow_pos_nonneg 2 e ltac:(lia) He).
      split; [nia|]. rewrite Hv. split; lra.
    + replace e with (- (- e))%Z by lia. rewrite Z.shiftl_opp_r.
      rewrite Z.shiftr_div_pow2 by lia.
      set (k := (- e)%Z). assert (Hk : (0 <= k)%Z) by (unfold k; lia).
      assert (Hp : (0 < 2 ^ k)%Z) by (apply Z.pow_pos_nonneg; lia).
      set (t := (Zpos m / 2 ^ k)%Z).
      assert (Ht : (t * 2 ^ k <= Zpos m < (t + 1) * 2 ^ k)%Z).
      { unfold t. pose proof (Z.div_mod (Zpos m) (2 ^ k) ltac:(lia)).
        pose proof (Z.mod_pos_bound (Zpos m) (2 ^ k) Hp). nia. }
      assert (Hsh : forall j : Z, inject_Z j == F2Q (j * 2 ^ k) (- k)).
      { intros j. rewrite F2Q_shift by exact Hk. replace (- k + k)%Z with 0%Z by lia.
        rewrite F2Q_int. reflexivity. }
      split; [unfold t; apply Z.div_pos; lia|].
      replace (inject_Z t + 1) with (inject_Z (t + 1)) by (rewrite inject_Z_plus; reflexivity).
      rewrite !Hsh. split; [apply F2Q_le; lia|apply F2Q_lt; lia].
Qed.

(** *** Addition *)

Lemma shl_align_fst (m : positive) (e ez : Z) :
  (ez <= e)%Z -> Zpos (fst (shl_align m e ez)) = (Zpos m * 2 ^ (e - ez))%Z.
Proof.
  intros Hle. pose proof (shl_align_spec m e ez) as H.
  destruct (shl_align m e ez) as [mz ez']. destruct H as [H1 H2]. cbn [fst].
  rewrite H2. f_equal. f_equal. lia.
Qed.

Lemma F2Q_aligned (m : positive) (e ez : Z) :
  (ez <= e)%Z -> F2Q (Zpos (fst (shl_align m e ez))) ez == F2Q (Zpos m) e.
Proof.
  intros Hle. rewrite shl_align_fst, F2Q_shift by lia.
  replace (ez + (e - ez))%Z with e by lia. reflexivity.
Qed.

Lemma SFadd_nonneg_rounds (x y : spec_float) :
  is_number x = true -> is_number y = true -> canonical64 x -> canonical64 y ->
  sign_of x = false -> sign_of y = false ->
  rounds (mag x + mag y) (SFadd 53 1024 x y)
  /\ sign_of (SFadd 53 1024 x y) = false.
Proof.
  intros Hx Hy Cx Cy Sx Sy.
  destruct x as [sx|sx| |sx mx ex]; try discriminate Hx;
    destruct y as [sy|sy| |sy my ey]; try discriminate Hy;
    cbn [sign_of] in Sx, Sy; subst sx sy; cbn [SFadd].
  - split; [|reflexivity]. apply rounds_exact; [reflexivity|exact I|cbn [mag]; ring].
  - split; [|reflexivity]. apply rounds_exact; [reflexivity|exact Cy|cbn [mag]; ring].
  - split; [|reflexivity]. apply rounds_exact; [reflexivity|exact Cx|cbn [mag]; ring].
  - cbn [SpecFloat.cond_Zopp].
    set (ez := Z.min ex ey).
    set (a := fst (shl_align mx ex ez)). set (b := fst (shl_align my ey ez)).
    change (Zpos a + Zpos b)%Z with (Zpos (a + b)). cbn [binary_normalize].
    destruct (binary_round_rounds false (a + b) ez) as [Hr Hs].
    split; [|exact Hs]. eapply rounds_proper; [|exact Hr].
    rewrite Pos2Z.inj_add, F2Q_add. unfold a, b.
    rewrite !F2Q_aligned by (unfold ez; lia). reflexivity.
Qed.

(** A sum of two numbers below [2^a] is a number, whatever their signs. *)
Lemma SFadd_number (x y : spec_float) (a : Z) :
  is_number x = true -> is_number y = true ->
  mag x <= pow2 a -> mag y <= pow2 a -> (-1074 <= a <= 1022)%Z ->
  is_number (SFadd 53 1024 x y) = true.
Proof.
  intros Hx Hy Mx My Ha.
  destruct x as [sx|sx| |sx mx ex]; try discriminate Hx;
    destruct y as [sy|sy| |sy my ey]; try discriminate Hy; cbn [SFadd].
  - destruct sx, sy; reflexivity.
  - reflexivity.
  - reflexivity.
  - set (ez := Z.min ex ey).
    set (X := Zpos (fst (shl_align mx ex ez))). set (Y := Zpos (fst (shl_align my ey ez))).
    assert (HX : F2Q X ez == F2Q (Zpos mx) ex) by (apply F2Q_aligned; unfold ez; lia).
    assert (HY : F2Q Y ez == F2Q (Zpos my) ey) by (apply F2Q_aligned; unfold ez; lia).
    cbn [mag] in Mx, My.
    set (z := (SpecFloat.cond_Zopp sx X + SpecFloat.cond_Zopp sy Y)%Z).
    assert (Hz : (Z.abs z <= X + Y)%Z).
    { unfold z, X, Y. destruct sx, sy; cbn [SpecFloat.cond_Zopp]; lia. }
    assert (Hb : F2Q (Z.abs z) ez <= pow2 (a + 1)).
    { apply Qle_trans with (F2Q (X + Y) ez); [apply F2Q_le; exact Hz|].
      rewrite F2Q_add, HX, HY, pow2_add. change (pow2 1) with 2. lra. }
    assert (Hrep : representable (pow2 (a + 1))) by (apply pow2_representable; lia).
    destruct z as [|p|p] eqn:Ez; cbn [binary_normalize].
    + reflexivity.
    + destruct (binary_round_rounds false p ez) as [(_ & Hup & _) _].
      exact (proj1 (Hup _ Hrep Hb)).
    + destruct (binary_round_rounds true p ez) as [(_ & Hup & _) _].
      exact (proj1 (Hup _ Hrep Hb)).
Qed.

End Operations.
(** ** Coordinates *)

Ltac destruct_res_binds :=
  repeat match goal with
         | H : res_bind ?r _ = Ok _ |- _ =>
             let E := fresh "E" in
             destruct r eqn:E; cbn [res_bind] in H; [|discriminate H]
         end.

Ltac rewrite_res_binds :=
  cbn [res_bind];
  repeat match goal with
         | E : ?r = Ok _ |- context [res_bind ?r _] => rewrite E; cbn [res_bind]
         end.

Lemma scale_api_axes (fa : FloatArith) (self : t) (x y a b : Z) :
  enabled (scaling (config self)) = true ->
  screen_axis fa (base_width (scaling (config self))) (screen_width self)
    (offset_x self) x = Ok a ->
  screen_axis fa (base_height (scaling (config self))) (screen_height self)
    (offset_y self) y = Ok b ->
  scale_coordinates_with fa self API x y = Ok (a, b).
Proof.
  unfold screen_axis, scale_coordinates_with, nonneg. intros He Hx Hy.
  rewrite He. cbn [negb].
  destruct_res_binds. rewrite_res_binds. congruence.
Qed.

Lemma scale_api_axes_inv (fa : FloatArith) (self : t) (x y : Z) (p : Z * Z) :
  enabled (scaling (config self)) = true ->
  scale_coordinates_with fa self API x y = Ok p ->
  screen_axis fa (base_width (scaling (config self))) (screen_width self)
    (offset_x self) x = Ok (fst p)
  /\ screen_axis fa (base_height (scaling (config self))) (screen_height self)
       (offset_y self) y = Ok (snd p).
Proof.
  unfold screen_axis, scale_coordinates_with, nonneg. intros He Hp.
  rewrite He in Hp. cbn [negb] in Hp.
  destruct_res_binds. rewrite_res_binds. inversion Hp; subst. split; reflexivity.
Qed.

Lemma scale_computer_axes (fa : FloatArith) (self : t) (x y a b : Z) :
  enabled (scaling (config self)) = true ->
  logical_axis fa (screen_width self) (base_width (scaling (config self)))
    (offset_x self) x = Ok a ->
  logical_axis fa (screen_height self) (base_height (scaling (config self)))
    (offset_y self) y = Ok b ->
  scale_coordinates_with fa self COMPUTER x y = Ok (a, b).
Proof.
  unfold logical_axis, scale_coordinates_with, nonneg. intros He Hx Hy.
  rewrite He. cbn [negb].
  destruct_res_binds. rewrite_res_binds. congruence.
Qed.

(** Toward the OS the result is clamped, whatever the arithmetic. *)
Lemma screen_axis_range (fa : FloatArith) (base real off v a : Z) :
  1 <= real -> screen_axis fa base real off v = Ok a -> off <= a <= off + real - 1.
Proof.
  unfold screen_axis. intros Hr Ha. destruct_res_binds. inversion Ha. lia.
Qed.

Lemma scale_disabled (fa : FloatArith) (self : t) (x y : Z) :
  enabled (scaling (config self)) = false ->
  scale_coordinates_with fa self API x y
  = Ok (Z.min (Z.max (Z.max x 0 + offset_x self) (offset_x self))
          (offset_x self + screen_width self - 1),
        Z.min (Z.max (Z.max y 0 + offset_y self) (offset_y self))
          (offset_y self + screen_height self - 1))
  /\ scale_coordinates_with fa self COMPUTER x y = Ok (Z.max x 0, Z.max y 0).
Proof.
  unfold scale_coordinates_with. intros He. rewrite He. cbn [negb].
  assert (Hm : forall v, (if v <? 0 then 0 else v) = Z.max v 0).
  { intros v. destruct (v <? 0) eqn:E; [apply Z.ltb_lt in E|apply Z.ltb_ge in E]; lia. }
  rewrite !Hm. split; reflexivity.
Qed.

(** *** The arithmetic of one axis on binary64 *)

Section Axis.

Local Open Scope Q_scope.

Lemma mag_nonneg (f : spec_float) : 0 <= mag f.
Proof. destruct f; cbn [mag]; try apply Qle_refl. apply F2Q_nonneg. lia. Qed.

Lemma inject_Z_pow2 (n : Z) : (0 <= n)%Z -> inject_Z (2 ^ n) == pow2 n.
Proof. intros Hn. symmetry. apply pow2_nonneg, Hn. Qed.

(** [float(c)] is [c] for an integer of 53 bits. *)
Lemma of_int_exact (c : Z) :
  (0 <= c <= 2 ^ 53)%Z ->
  exists g,
    Binary64.of_int c = Ok g /\ is_number g = true /\ sign_of g = false
    /\ canonical64 g /\ mag g == inject_Z c.
Proof.
  intros Hc. assert (Habs : Z.abs c = c) by lia.
  pose proof (int_representable c Hc) as Hrep.
  destruct (of_int_rounds c (inject_Z c) Hrep) as (g & Hg & Hr & Hn & Hs).
  { rewrite Habs. apply Qle_refl. }
  rewrite Habs in Hr. destruct Hr as (Hcan & Hup & Hrest).
  exists g. split; [exact Hg|]. split; [exact Hn|].
  split; [rewrite Hs; apply Z.ltb_ge; lia|]. split; [exact Hcan|].
  apply Qle_antisym.
  - apply (Hup _ Hrep), Qle_refl.
  - apply (proj1 (Hrest Hn) _ Hrep), Qle_refl.
Qed.

(** [(a / b) * c] for [0 <= a <= b]: the result does not exceed [c], and
    for moderate [b] and [c] it is [a * c / b] to within [2^-27]. *)
Lemma scaled_rounds (a b c : Z) :
  (0 <= a <= b)%Z -> (1 <= b)%Z -> (0 <= c <= 2 ^ 53)%Z ->
  exists q p,
    Binary64.truediv a b = Ok q /\ Binary64.mul_int q c = Ok p
    /\ is_number p = true /\ sign_of p = false /\ canonical64 p
    /\ mag p <= inject_Z c
    /\ ((b <= 2 ^ 24)%Z -> (c <= 2 ^ 24)%Z ->
        mag p - inject_Z (a * c) / inject_Z b <= pow2 (-27)
        /\ inject_Z (a * c) / inject_Z b - mag p <= pow2 (-27)).
Proof.
  intros Ha Hb Hc.
  set (v := inject_Z a / inject_Z b).
  assert (HB : 0 < inject_Z b) by (change 0 with (inject_Z 0); rewrite <- Zlt_Qlt; lia).
  assert (Hv0 : 0 <= v).
  { unfold v. apply Qle_shift_div_l; [exact HB|]. rewrite Qmult_0_l.
    change 0 with (inject_Z 0). rewrite <- Zle_Qle. lia. }
  assert (Hv1 : v <= 1).
  { unfold v. apply Qle_shift_div_r; [exact HB|]. rewrite Qmult_1_l.
    rewrite <- Zle_Qle. lia. }
  destruct (truediv_rounds a b (inject_Z 1) ltac:(lia) ltac:(lia)
              (int_representable 1 ltac:(lia)) Hv1)
    as (q & Hq & (Cq & Uq & Rq) & Nq & Sq).
  fold v in Uq, Rq.
  destruct (Uq _ (int_representable 1 ltac:(lia)) Hv1) as [_ Mq1].
  destruct (Rq Nq) as [_ Eq]. destruct (Eq 1%Z) as [Eq1 Eq2].
  { change (pow2 1) with 2. lra. }
  change (pow2 (fexp64 1)) with (pow2 (-52)) in Eq1, Eq2.
  destruct (of_int_exact c Hc) as (g & Hg & Ng & Sg & Cg & Mg).
  destruct (SFmul_rounds q g Nq Ng Cq Cg) as [(Cp & Up & Rp) Sp].
  rewrite Sq, Sg in Sp. cbn [xorb] in Sp.
  assert (HC : 0 <= inject_Z c) by (change 0 with (inject_Z 0); rewrite <- Zle_Qle; lia).
  pose proof (mag_nonneg q) as Hq0.
  assert (Hprod : mag q * mag g <= inject_Z c).
  { rewrite Mg. rewrite <- (Qmult_1_l (inject_Z c)) at 2.
    apply Qmult_le_compat_r; assumption. }
  destruct (Up _ (int_representable c Hc) Hprod) as [Np Mp].
  exists q, (SFmul 53 1024 q g).
  split; [exact Hq|]. split.
  { unfold Binary64.mul_int. rewrite Hg. reflexivity. }
  split; [exact Np|]. split; [exact Sp|]. split; [exact Cp|]. split; [exact Mp|].
  intros Hb24 Hc24.
  destruct (Rp Np) as [_ Ep]. destruct (Ep 25%Z) as [Ep1 Ep2].
  { apply Qle_lt_trans with (inject_Z c); [exact Hprod|].
    rewrite <- (inject_Z_pow2 25) by lia. rewrite <- Zlt_Qlt.
    change (2 ^ 25)%Z with (2 * 2 ^ 24)%Z. lia. }
  change (pow2 (fexp64 25)) with (pow2 (-28)) in Ep1, Ep2.
  rewrite Mg in Ep1, Ep2.
  assert (HV : inject_Z (a * c) / inject_Z b == v * inject_Z c).
  { unfold v. rewrite inject_Z_mult. field. intros H. rewrite H in HB. lra. }
  rewrite HV.
  assert (HC24 : inject_Z c <= pow2 24).
  { rewrite <- (inject_Z_pow2 24) by lia. rewrite <- Zle_Qle. exact Hc24. }
  assert (Hs1 : (mag q - v) * inject_Z c <= pow2 (-52) * pow2 24).
  { apply Qle_trans with (pow2 (-52) * inject_Z c).
    - apply Qmult_le_compat_r; assumption.
    - apply Qmult_le_l; [apply pow2_pos|exact HC24]. }
  assert (Hs2 : (v - mag q) * inject_Z c <= pow2 (-52) * pow2 24).
  { apply Qle_trans with (pow2 (-52) * inject_Z c).
    - apply Qmult_le_compat_r; assumption.
    - apply Qmult_le_l; [apply pow2_pos|exact HC24]. }
  assert (H28 : pow2 (-52) * pow2 24 == pow2 (-28)) by reflexivity.
  assert (H27 : pow2 (-28) + pow2 (-28) == pow2 (-27)) by reflexivity.
  rewrite H28 in Hs1, Hs2. split; lra.
Qed.

(** An integer [t] with [t <= x < t + 1], for [x] within [2^-26] of the
    quotient [n / b], is the quotient or the integer below it when [b]
    divides [n]. *)
Lemma floor_close (n b t : Z) (x : Q) :
  (1 <= b <= 2 ^ 24)%Z ->
  inject_Z t <= x -> x < inject_Z t + 1 ->
  x - inject_Z n / inject_Z b <= pow2 (-26) ->
  inject_Z n / inject_Z b - x <= pow2 (-26) ->
  (b * t <= n <= b * t + b)%Z.
Proof.
  intros Hb Ht1 Ht2 Hx1 Hx2.
  set (V := inject_Z n / inject_Z b) in *.
  assert (HB : 0 < inject_Z b) by (change 0 with (inject_Z 0); rewrite <- Zlt_Qlt; lia).
  assert (HVB : V * inject_Z b == inject_Z n).
  { unfold V. field. intros H. rewrite H in HB. lra. }
  assert (HB24 : inject_Z b <= pow2 24).
  { rewrite <- (inject_Z_pow2 24) by lia. rewrite <- Zle_Qle. lia. }
  assert (Hd : pow2 (-26) * inject_Z b <= 1 # 4).
  { apply Qle_trans with (pow2 (-26) * pow2 24).
    - apply Qmult_le_l; [apply pow2_pos|exact HB24].
    - apply Qle_lteq. right. reflexivity. }
  assert (H1 : inject_Z t * inject_Z b <= (V + pow2 (-26)) * inject_Z b).
  { apply Qmult_le_compat_r; [lra|apply Qlt_le_weak, HB]. }
  assert (H2 : (V - pow2 (-26)) * inject_Z b < (inject_Z t + 1) * inject_Z b).
  { apply Qmult_lt_compat_r; [exact HB|lra]. }
  assert (E1 : (V + pow2 (-26)) * inject_Z b == inject_Z n + pow2 (-26) * inject_Z b).
  { rewrite <- HVB. ring. }
  assert (E2 : (V - pow2 (-26)) * inject_Z b == inject_Z n - pow2 (-26) * inject_Z b).
  { rewrite <- HVB. ring. }
  assert (E3 : (inject_Z t + 1) * inject_Z b == inject_Z (b * t + b)).
  { rewrite inject_Z_plus, inject_Z_mult. ring. }
  assert (E4 : inject_Z t * inject_Z b == inject_Z (b * t)).
  { rewrite inject_Z_mult. ring. }
  rewrite E1, E4 in H1. rewrite E2, E3 in H2.
  split.
  - destruct (Z_le_gt_dec (b * t) n) as [H|H]; [exact H|exfalso].
    assert (H' : inject_Z (n + 1) <= inject_Z (b * t)) by (rewrite <- Zle_Qle; lia).
    rewrite inject_Z_plus in H'. change (inject_Z 1) with 1 in H'. lra.
  - destruct (Z_le_gt_dec n (b * t + b)) as [H|H]; [exact H|exfalso].
    assert (H' : inject_Z (b * t + b + 1) <= inject_Z n) by (rewrite <- Zle_Qle; lia).
    rewrite inject_Z_plus in H'. change (inject_Z 1) with 1 in H'. lra.
Qed.

(** Toward the model the screen coordinate is first brought into
    [0, real]. *)
Lemma logical_axis_steps (fa : FloatArith) (real base off v : Z) :
  (0 <= real)%Z ->
  logical_axis fa real base off v
  = (let? q := int_truediv fa (Z.min (Z.max (nonneg v - off) 0) real) real in
     let? s := float_mul_int fa q base in
     int_of_float fa s).
Proof.
  intros Hr. unfold logical_axis.
  set (r0 := (nonneg v - off)%Z).
  replace (if (r0 <? 0)%Z then 0%Z else r0) with (Z.max r0 0).
  2:{ destruct (r0 <? 0)%Z eqn:E; [apply Z.ltb_lt in E|apply Z.ltb_ge in E]; lia. }
  replace (if (Z.max r0 0 >? real)%Z then real else Z.max r0 0)
    with (Z.min (Z.max r0 0) real).
  2:{ rewrite Z.gtb_ltb.
      destruct (real <? Z.max r0 0)%Z eqn:E;
        [apply Z.ltb_lt in E|apply Z.ltb_ge in E]; lia. }
  reflexivity.
Qed.

(** Toward the model, on binary64: a result, and within [0, base]. *)
Lemma logical_axis_in_range (real base off v : Z) :
  (1 <= real)%Z -> (0 <= base <= 2 ^ 53)%Z ->
  exists a, logical_axis binary64 real base off v = Ok a /\ (0 <= a <= base)%Z.
Proof.
  intros Hr Hb. rewrite logical_axis_steps by lia.
  set (r := Z.min (Z.max (nonneg v - off) 0) real).
  destruct (scaled_rounds r real base ltac:(lia) Hr Hb)
    as (q & p & Hq & Hp & Np & Sp & _ & Mp & _).
  destruct (to_int_floor p Np Sp) as (t & Ht & Ht0 & Ht1 & _).
  exists t. cbn [binary64 int_truediv float_mul_int int_of_float].
  rewrite Hq. cbn [res_bind]. rewrite Hp. cbn [res_bind].
  split; [exact Ht|]. split; [exact Ht0|].
  rewrite Zle_Qle. lra.
Qed.

(** Toward the model, for screens and logical sizes up to [2^24]: the
    result is the exact quotient [r * base / real] rounded down, or one
    less when the quotient is an integer. *)
Lemma logical_axis_close (real base off v : Z) :
  (1 <= real <= 2 ^ 24)%Z -> (0 <= base <= 2 ^ 24)%Z ->
  exists l,
    logical_axis binary64 real base off v = Ok l /\ (0 <= l <= base)%Z
    /\ (real * l <= Z.min (Z.max (nonneg v - off) 0) real * base
        <= real * l + real)%Z.
Proof.
  intros Hr Hb. rewrite logical_axis_steps by lia.
  set (r := Z.min (Z.max (nonneg v - off) 0) real).
  assert (Hb53 : (0 <= base <= 2 ^ 53)%Z).
  { change (2 ^ 53)%Z with (2 ^ 24 * 2 ^ 29)%Z. lia. }
  destruct (scaled_rounds r real base ltac:(lia) ltac:(lia) Hb53)
    as (q & p & Hq & Hp & Np & Sp & _ & Mp & Hclose).
  destruct (Hclose ltac:(lia) ltac:(lia)) as [Hc1 Hc2].
  destruct (to_int_floor p Np Sp) as (t & Ht & Ht0 & Ht1 & Ht2).
  exists t. cbn [binary64 int_truediv float_mul_int int_of_float].
  rewrite Hq. cbn [res_bind]. rewrite Hp. cbn [res_bind].
  split; [exact Ht|]. split.
  { split; [exact Ht0|]. rewrite Zle_Qle. lra. }
  assert (H26 : pow2 (-27) <= pow2 (-26)) by (apply pow2_le; lia).
  apply (floor_close (r * base) real t (mag p)); try assumption; lra.
Qed.

(** [(v / base) * real] returns whenever the logical size is positive and
    the numbers are below [2^300]. *)
Lemma scaled_returns (base real v : Z) :
  (1 <= base)%Z -> (0 <= real <= 2 ^ 300)%Z -> (v <= 2 ^ 300)%Z ->
  exists q p,
    Binary64.truediv (nonneg v) base = Ok q /\ Binary64.mul_int q real = Ok p
    /\ is_number p = true /\ mag p <= pow2 600.
Proof.
  intros Hb Hr Hv.
  set (x := nonneg v).
  assert (Hx : (0 <= x <= 2 ^ 300)%Z).
  { unfold x, nonneg. destruct (v <? 0)%Z eqn:E;
      [apply Z.ltb_lt in E|apply Z.ltb_ge in E]; lia. }
  assert (H300 : representable (pow2 300)) by (apply pow2_representable; lia).
  assert (HB : 0 < inject_Z base) by (change 0 with (inject_Z 0); rewrite <- Zlt_Qlt; lia).
  assert (Hq300 : inject_Z x / inject_Z base <= pow2 300).
  { apply Qle_shift_div_r; [exact HB|].
    apply Qle_trans with (pow2 300 * 1).
    - rewrite Qmult_1_r, pow2_nonneg by lia. rewrite <- Zle_Qle. lia.
    - apply Qmult_le_l; [apply pow2_pos|].
      change 1 with (inject_Z 1). rewrite <- Zle_Qle. lia. }
  destruct (truediv_rounds x base (pow2 300) ltac:(lia) ltac:(lia) H300 Hq300)
    as (q & Hq & (Cq & Uq & _) & Nq & Sq).
  destruct (Uq _ H300 Hq300) as [_ Mq].
  assert (Hreal : inject_Z (Z.abs real) <= pow2 300).
  { rewrite pow2_nonneg by lia. rewrite <- Zle_Qle. lia. }
  destruct (of_int_rounds real (pow2 300) H300 Hreal)
    as (g & Hg & (Cg & Ug & _) & Ng & Sg).
  destruct (Ug _ H300 Hreal) as [_ Mg].
  destruct (SFmul_rounds q g Nq Ng Cq Cg) as [(Cp & Up & _) Sp].
  assert (H600 : representable (pow2 600)) by (apply pow2_representable; lia).
  assert (Hprod : mag q * mag g <= pow2 600).
  { change 600%Z with (300 + 300)%Z. rewrite pow2_add.
    apply Qle_trans with (pow2 300 * mag g).
    - apply Qmult_le_compat_r; [exact Mq|apply mag_nonneg].
    - apply Qmult_le_l; [apply pow2_pos|exact Mg]. }
  destruct (Up _ H600 Hprod) as [Np Mp].
  exists q, (SFmul 53 1024 q g). split; [exact Hq|].
  split; [unfold Binary64.mul_int; rewrite Hg; reflexivity|].
  split; [exact Np|exact Mp].
Qed.

(** Toward the OS, on binary64: a result whenever the logical size is
    positive and the numbers are below [2^300]. *)
Lemma screen_axis_returns (base real off v : Z) :
  (1 <= base)%Z -> (0 <= real <= 2 ^ 300)%Z -> (v <= 2 ^ 300)%Z ->
  (- 2 ^ 300 <= off <= 2 ^ 300)%Z ->
  exists a, screen_axis binary64 base real off v = Ok a.
Proof.
  intros Hb Hr Hv Ho. unfold screen_axis.
  destruct (scaled_returns base real v Hb Hr Hv) as (q & p & Hq & Hp & Np & Mp).
  assert (H300 : representable (pow2 300)) by (apply pow2_representable; lia).
  assert (Hoff : inject_Z (Z.abs off) <= pow2 300).
  { rewrite pow2_nonneg by lia. rewrite <- Zle_Qle. lia. }
  destruct (of_int_rounds off (pow2 300) H300 Hoff)
    as (h & Hh & (Ch & Uh & _) & Nh & Sh).
  destruct (Uh _ H300 Hoff) as [_ Mh].
  assert (Mh' : mag h <= pow2 600).
  { apply Qle_trans with (pow2 300); [exact Mh|]. apply pow2_le. lia. }
  pose proof (SFadd_number p h 600 Np Nh Mp Mh' ltac:(lia)) as Nt.
  destruct (to_int_number _ Nt) as (t & Ht).
  exists (Z.min (Z.max t off) (off + real - 1)).
  cbn [binary64 int_truediv float_mul_int float_add_int int_of_float].
  rewrite Hq. cbn [res_bind]. rewrite Hp. cbn [res_bind].
  unfold Binary64.add_int. rewrite Hh. cbn [res_bind].
  change Binary64.prec with 53%Z. change Binary64.emax with 1024%Z.
  rewrite Ht. reflexivity.
Qed.

(** Toward the OS, for sizes and offsets up to [2^24] and a logical
    coordinate within the logical size: the unclamped result [u] is the
    exact value [off + v * real / base] rounded down, or one less when that
    value is an integer. *)
Lemma screen_axis_close (base real off v : Z) :
  (1 <= base <= 2 ^ 24)%Z -> (0 <= real <= 2 ^ 24)%Z ->
  (0 <= off <= 2 ^ 24)%Z -> (0 <= v <= base)%Z ->
  exists u,
    screen_axis binary64 base real off v
    = Ok (Z.min (Z.max u off) (off + real - 1))
    /\ (base * (u - off) <= v * real <= base * (u - off) + base)%Z.
Proof.
  intros Hb Hr Ho Hv. unfold screen_axis.
  replace (nonneg v) with v
    by (unfold nonneg; replace (v <? 0)%Z with false
          by (symmetry; apply Z.ltb_ge; lia); reflexivity).
  assert (H53 : (2 ^ 53 = 2 ^ 24 * 2 ^ 29)%Z) by reflexivity.
  destruct (scaled_rounds v base real ltac:(lia) ltac:(lia) ltac:(lia))
    as (q & p & Hq & Hp & Np & Sp & Cp & Mp & Hclose).
  destruct (Hclose ltac:(lia) ltac:(lia)) as [Hc1 Hc2].
  destruct (of_int_exact off ltac:(lia)) as (h & Hh & Nh & Sh & Ch & Mh).
  destruct (SFadd_nonneg_rounds p h Np Nh Cp Ch Sp Sh) as [(Ct & Ut & Rt) St].
  assert (HR : inject_Z real <= pow2 24).
  { rewrite pow2_nonneg by lia. rewrite <- Zle_Qle. lia. }
  assert (HO : inject_Z off <= pow2 24).
  { rewrite pow2_nonneg by lia. rewrite <- Zle_Qle. lia. }
  assert (H25 : pow2 24 + pow2 24 == pow2 25) by reflexivity.
  assert (Hsum : mag p + mag h <= pow2 25) by (rewrite Mh; lra).
  destruct (Ut _ (pow2_representable 25 ltac:(lia)) Hsum) as [Nt _].
  destruct (Rt Nt) as [_ Et]. destruct (Et 26%Z) as [Et1 Et2].
  { apply Qle_lt_trans with (pow2 25); [exact Hsum|]. apply pow2_lt. lia. }
  change (pow2 (fexp64 26)) with (pow2 (-27)) in Et1, Et2.
  destruct (to_int_floor _ Nt St) as (u & Hu & Hu0 & Hu1 & Hu2).
  exists u.
  cbn [binary64 int_truediv float_mul_int float_add_int int_of_float].
  rewrite Hq. cbn [res_bind]. rewrite Hp. cbn [res_bind].
  unfold Binary64.add_int. rewrite Hh. cbn [res_bind].
  change Binary64.prec with 53%Z. change Binary64.emax with 1024%Z.
  rewrite Hu. split; [reflexivity|].
  assert (HB : 0 < inject_Z base) by (change 0 with (inject_Z 0); rewrite <- Zlt_Qlt; lia).
  assert (HV : inject_Z (v * real + off * base) / inject_Z base
               == inject_Z (v * real) / inject_Z base + inject_Z off).
  { rewrite inject_Z_plus, (inject_Z_mult off base). field.
    intros H. rewrite H in HB. lra. }
  assert (H26 : pow2 (-27) + pow2 (-27) == pow2 (-26)) by reflexivity.
  rewrite Mh in Et1, Et2.
  pose proof (floor_close (v * real + off * base) base u
                (mag (SFadd 53 1024 p h)) ltac:(lia) Hu1 Hu2) as Hfl.
  rewrite HV in Hfl.
  destruct Hfl as [F1 F2]; [lra|lra|]. lia.
Qed.

End Axis.

(** *** The ranges of the results *)

Lemma scale_api_zero_base (self : t) (x y : Z) :
  enabled (scaling (config self)) = true ->
  base_width (scaling (config self)) = 0
  \/ (base_height (scaling (config self)) = 0
      /\ 1 <= base_width (scaling (config self))
      /\ 0 <= screen_width self <= 2 ^ 300 /\ x <= 2 ^ 300) ->
  scale_coordinates self API x y = Raise (ZeroDivisionError "division by zero").
Proof.
  intros He [Hb|(Hb & Hbw & Hsw & Hx)];
    unfold scale_coordinates, scale_coordinates_with; rewrite He, Hb.
  - reflexivity.
  - destruct (scaled_returns _ _ x Hbw Hsw Hx) as (q & p & Hq & Hp & _).
    unfold nonneg in Hq. cbn [negb binary64 int_truediv float_mul_int].
    rewrite Hq. cbn [res_bind]. rewrite Hp. reflexivity.
Qed.

(** C5, as amended.  On a screen of at least one pixel on each axis, in
    the arithmetic of the program:
    - toward the OS, a result lies on the screen:
      [offset <= v <= offset + real - 1] on each axis;
    - with scaling disabled both directions return, and toward the model
      the result is the coordinates with negative ones replaced by 0,
      whatever the logical dimensions are;
    - with scaling enabled, toward the OS the call returns when the logical
      dimensions are positive and the coordinates, the screen dimensions
      and the offsets are [2^300] at most in magnitude, and raises
      [ZeroDivisionError] when the logical width is 0, or the logical
      height is 0 and the x axis is within these bounds;
    - with scaling enabled, toward the model the call returns when the
      logical dimensions are between 0 and [2^53], and the result lies in
      [0, base_width] and [0, base_height]. *)
Theorem scale_coordinates_ranges (self : t) (x y : Z) :
  1 <= screen_width self ->
  1 <= screen_height self ->
  (forall p,
      scale_coordinates self API x y = Ok p ->
      offset_x self <= fst p <= offset_x self + screen_width self - 1
      /\ offset_y self <= snd p <= offset_y self + screen_height self - 1)
  /\ (enabled (scaling (config self)) = false ->
      (exists p, scale_coordinates self API x y = Ok p)
      /\ scale_coordinates self COMPUTER x y = Ok (Z.max x 0, Z.max y 0))
  /\ (enabled (scaling (config self)) = true ->
      1 <= base_width (scaling (config self)) ->
      1 <= base_height (scaling (config self)) ->
      screen_width self <= 2 ^ 300 ->
      screen_height self <= 2 ^ 300 ->
      x <= 2 ^ 300 ->
      y <= 2 ^ 300 ->
      - 2 ^ 300 <= offset_x self <= 2 ^ 300 ->
      - 2 ^ 300 <= offset_y self <= 2 ^ 300 ->
      exists p, scale_coordinates self API x y = Ok p)
  /\ (enabled (scaling (config self)) = true ->
      base_width (scaling (config self)) = 0
      \/ (base_height (scaling (config self)) = 0
          /\ 1 <= base_width (scaling (config self))
          /\ screen_width self <= 2 ^ 300 /\ x <= 2 ^ 300) ->
      scale_coordinates self API x y
      = Raise (ZeroDivisionError "division by zero"))
  /\ (enabled (scaling (config self)) = true ->
      0 <= base_width (scaling (config self)) <= 2 ^ 53 ->
      0 <= base_height (scaling (config self)) <= 2 ^ 53 ->
      exists p,
        scale_coordinates self COMPUTER x y = Ok p
        /\ 0 <= fst p <= base_width (scaling (config self))
        /\ 0 <= snd p <= base_height (scaling (config self))).
Proof.
  intros Hw Hh. unfold scale_coordinates. split; [|split; [|split; [|split]]].
  - intros p Hp. destruct (enabled (scaling (config self))) eqn:He.
    + destruct (scale_api_axes_inv binary64 self x y p He Hp) as [Hx Hy].
      split; eapply screen_axis_range; eassumption.
    + destruct (scale_disabled binary64 self x y He) as [Hapi _].
      rewrite Hapi in Hp. inversion Hp; subst. cbn [fst snd]. lia.
  - intros He. destruct (scale_disabled binary64 self x y He) as [Hapi Hcomp].
    split; [eexists; exact Hapi|exact Hcomp].
  - intros He Hbw Hbh Hsw Hsh Hx Hy Hox Hoy.
    destruct (screen_axis_returns (base_width (scaling (config self)))
                (screen_width self) (offset_x self) x Hbw ltac:(lia) Hx Hox)
      as (a & Ha).
    destruct (screen_axis_returns (base_height (scaling (config self)))
                (screen_height self) (offset_y self) y Hbh ltac:(lia) Hy Hoy)
      as (b & Hb).
    exists (a, b). exact (scale_api_axes binary64 self x y a b He Ha Hb).
  - intros He Hb. apply (scale_api_zero_base self x y He).
    destruct Hb as [Hb|(Hb & Hbw & Hsw & Hx)]; [left; exact Hb|right].
    repeat split; try assumption; lia.
  - intros He Hbw Hbh.
    destruct (logical_axis_in_range (screen_width self)
                (base_width (scaling (config self))) (offset_x self) x Hw Hbw)
      as (a & Ha & Hra).
    destruct (logical_axis_in_range (screen_height self)
                (base_height (scaling (config self))) (offset_y self) y Hh Hbh)
      as (b & Hb & Hrb).
    exists (a, b). split; [|split; assumption].
    exact (scale_computer_axes binary64 self x y a b He Ha Hb).
Qed.

(** The pointer at (5000, 400) on the shipped configuration: the logical
    position is the right edge, within bounds. *)
Lemma scale_coordinates_ranges_witness :
  1 <= 1920 /\ 1 <= 1080
  /\ exists p,
       scale_coordinates Shipped.controller COMPUTER 5000 400 = Ok p
       /\ 0 <= fst p <= 1366 /\ 0 <= snd p <= 768.
Proof.
  split; [lia|]. split; [lia|].
  exact (proj2 (proj2 (proj2 (proj2
           (scale_coordinates_ranges Shipped.controller 5000 400
              ltac:(cbn; lia) ltac:(cbn; lia)))))
           eq_refl ltac:(cbn; lia) ltac:(cbn; lia)).
Defined.

(** C5 as stated fails: with scaling disabled a screen coordinate goes to
    the model as it is, beyond the logical dimension. *)
Lemma unscaled_logical_not_clamped :
  ~ (exists p,
        scale_coordinates Shipped.unscaled_controller COMPUTER 5000 5000 = Ok p
        /\ 0 <= fst p <= base_width (scaling (config Shipped.unscaled_controller))
        /\ 0 <= snd p <= base_height (scaling (config Shipped.unscaled_controller))).
Proof.
  intros (p & Hp & Hx & _).
  assert (Hv : scale_coordinates Shipped.unscaled_controller COMPUTER 5000 5000
               = Ok (5000, 5000)) by reflexivity.
  rewrite Hv in Hp. inversion Hp; subst. cbn in Hx. lia.
Qed.

(** Beyond the bounds of C5 the program does not return, or leaves the
    range: a coordinate too large for a double raises [OverflowError], and
    a logical width that no double holds is exceeded. *)
Lemma scale_overflows_beyond_doubles :
  scale_coordinates Shipped.controller API (10 ^ 400) 0
  = Raise (OverflowError "integer division result too large for a float").
Proof. vm_compute. reflexivity. Qed.

Lemma logical_exceeds_a_huge_base :
  scale_coordinates Examples.huge_base COMPUTER 1920 0
  = Ok (2 ^ 53 + 4, 0)
  /\ base_width (scaling (config Examples.huge_base)) = 2 ^ 53 + 3.
Proof. split; vm_compute; reflexivity. Qed.

(** *** The round trip *)

Lemma round_trip_axes (fa : FloatArith) (self : t) (x y a1 a2 b1 b2 : Z) :
  enabled (scaling (config self)) = true ->
  axis_round_trip fa (base_width (scaling (config self))) (screen_width self)
    (offset_x self) x = Ok (a1, a2) ->
  axis_round_trip fa (base_height (scaling (config self))) (screen_height self)
    (offset_y self) y = Ok (b1, b2) ->
  round_trip fa self x y = Ok ((a1, b1), (a2, b2)).
Proof.
  unfold axis_round_trip, round_trip, toScreen, toLogical. intros He Hx Hy.
  destruct_res_binds. inversion Hx; subst. inversion Hy; subst.
  cbn [fst snd].
  rewrite (scale_api_axes fa self x y a1 b1 He) by assumption. cbn [res_bind fst snd].
  rewrite (scale_computer_axes fa self a1 b1 _ _ He) by eassumption.
  cbn [res_bind fst snd].
  rewrite (scale_api_axes fa self _ _ a2 b2 He) by assumption.
  reflexivity.
Qed.

(** The round trip on one axis: the screen coordinate comes back no
    larger, and smaller by [real / base + 1] at most. *)
Lemma axis_round_trip_close (base real off v : Z) :
  1 <= base <= 2 ^ 24 -> 1 <= real <= 2 ^ 24 -> 0 <= off <= 2 ^ 24 ->
  0 <= v <= base ->
  exists s1 s2,
    axis_round_trip binary64 base real off v = Ok (s1, s2)
    /\ 0 <= s1 - s2 <= real / base + 1.
Proof.
  intros Hb Hr Ho Hv. unfold axis_round_trip.
  destruct (screen_axis_close base real off v Hb ltac:(lia) Ho Hv) as (u1 & H1 & _).
  set (s1 := Z.min (Z.max u1 off) (off + real - 1)) in *.
  assert (Hs1 : off <= s1 <= off + real - 1) by (subst s1; lia).
  destruct (logical_axis_close real base off s1 Hr ltac:(lia)) as (l & Hl & Hl0 & Hlr).
  assert (Hn : nonneg s1 = s1).
  { unfold nonneg. replace (s1 <? 0) with false; [reflexivity|].
    symmetry. apply Z.ltb_ge. lia. }
  rewrite Hn in Hlr.
  replace (Z.min (Z.max (s1 - off) 0) real) with (s1 - off) in Hlr by lia.
  destruct (screen_axis_close base real off l Hb ltac:(lia) Ho Hl0) as (u2 & H2 & Hu2).
  exists s1, (Z.min (Z.max u2 off) (off + real - 1)).
  rewrite H1. cbn [res_bind]. rewrite Hl. cbn [res_bind]. rewrite H2.
  cbn [res_bind]. split; [reflexivity|].
  set (t1 := s1 - off) in *. set (w := u2 - off) in *.
  assert (Hw1 : w <= t1) by nia.
  assert (Hw2 : base * (t1 - w) <= real + base) by nia.
  assert (Hd : t1 - w <= real / base + 1).
  { replace (real / base + 1) with ((real + 1 * base) / base)
      by (rewrite Z.div_add by lia; reflexivity).
    apply Z.div_le_lower_bound; lia. }
  subst t1 w. lia.
Qed.

(** C6, as amended.  With scaling enabled, logical and screen dimensions
    between 1 and [2^24], offsets between 0 and [2^24], whether the two
    resolutions have the same aspect ratio or not, for every (x, y) within
    the logical bounds: [toScreen] of [toLogical] of [toScreen (x, y)]
    returns, it is not larger than [toScreen (x, y)] on either axis, and it
    is smaller by [real / base + 1] at most on each axis, the quotient
    rounded down: by 1 at most when the screen is smaller than the logical
    resolution, by 2 at most when it is less than twice as large. *)
Theorem round_trip_tolerance (self : t) (x y : Z) :
  enabled (scaling (config self)) = true ->
  1 <= base_width (scaling (config self)) <= 2 ^ 24 ->
  1 <= base_height (scaling (config self)) <= 2 ^ 24 ->
  1 <= screen_width self <= 2 ^ 24 ->
  1 <= screen_height self <= 2 ^ 24 ->
  0 <= offset_x self <= 2 ^ 24 ->
  0 <= offset_y self <= 2 ^ 24 ->
  0 <= x <= base_width (scaling (config self)) ->
  0 <= y <= base_height (scaling (config self)) ->
  exists s1 s2,
    round_trip binary64 self x y = Ok (s1, s2)
    /\ 0 <= fst s1 - fst s2
       <= screen_width self / base_width (scaling (config self)) + 1
    /\ 0 <= snd s1 - snd s2
       <= screen_height self / base_height (scaling (config self)) + 1.
Proof.
  intros He Hbw Hbh Hsw Hsh Hox Hoy Hx Hy.
  destruct (axis_round_trip_close _ _ _ x Hbw Hsw Hox Hx) as (a1 & a2 & Ha & Hda).
  destruct (axis_round_trip_close _ _ _ y Hbh Hsh Hoy Hy) as (b1 & b2 & Hb & Hdb).
  exists (a1, b1), (a2, b2). split; [|split; assumption].
  exact (round_trip_axes binary64 self x y a1 a2 b1 b2 He Ha Hb).
Qed.

(** The shipped configuration at (3, 3): the screen coordinate (4, 4) comes
    back as (2, 2). *)
Lemma round_trip_tolerance_witness :
  0 <= 3 <= 1366 /\ 0 <= 3 <= 768
  /\ exists s1 s2,
       round_trip binary64 Shipped.controller 3 3 = Ok (s1, s2)
       /\ 0 <= fst s1 - fst s2 <= 1920 / 1366 + 1
       /\ 0 <= snd s1 - snd s2 <= 1080 / 768 + 1.
Proof.
  split; [lia|]. split; [lia|].
  exact (round_trip_tolerance Shipped.controller 3 3 eq_refl
           ltac:(cbn; lia) ltac:(cbn; lia) ltac:(cbn; lia) ltac:(cbn; lia)
           ltac:(cbn; lia) ltac:(cbn; lia) ltac:(cbn; lia) ltac:(cbn; lia)).
Defined.

(** C6 as stated fails: scaling enabled, logical 1024x768 and real
    1920x1440 (both 4:3), the point (2, 2) within the logical bounds: the
    screen coordinate (3, 3) comes back as (1, 1). *)
Lemma round_trip_misses_by_two :
  enabled (scaling (config Shipped.four_by_three)) = true
  /\ maintain_aspect_ratio (scaling (config Shipped.four_by_three)) = true
  /\ base_width (scaling (config Shipped.four_by_three))
     * screen_height Shipped.four_by_three
     = base_height (scaling (config Shipped.four_by_three))
       * screen_width Shipped.four_by_three
  /\ 0 <= 2 <= base_width (scaling (config Shipped.four_by_three))
  /\ 0 <= 2 <= base_height (scaling (config Shipped.four_by_three))
  /\ ~ (exists s1 s2,
          round_trip binary64 Shipped.four_by_three 2 2 = Ok (s1, s2)
          /\ Z.abs (fst s1 - fst s2) <= 1
          /\ Z.abs (snd s1 - snd s2) <= 1).
Proof.
  repeat (split; [reflexivity || (cbn; lia)|]).
  intros (s1 & s2 & Hrt & Hx & _).
  assert (Hv : round_trip binary64 Shipped.four_by_three 2 2 = Ok ((3, 3), (1, 1)))
    by (vm_compute; reflexivity).
  rewrite Hv in Hrt. inversion Hrt; subst. cbn in Hx. lia.
Qed.

(** The bound of C6 is reached: 2 on the shipped configuration, 3 on a
    screen of 3840x2160, where the quotient is 2. *)
Lemma round_trip_bound_is_reached :
  round_trip binary64 Shipped.controller 3 3 = Ok ((4, 4), (2, 2))
  /\ round_trip binary64 Examples.four_k 4 0 = Ok ((11, 0), (8, 0)).
Proof. split; vm_compute; reflexivity. Qed.

(** Rounding alone costs units: with equal logical and real widths of 1920
    the logical 247 goes to the screen as 246 and comes back as 244, where
    the exact quotients give 247 and 247. *)
Lemma identity_scaling_loses_units :
  axis_round_trip binary64 1920 1920 0 247 = Ok (246, 244)
  /\ axis_round_trip exact_arith 1920 1920 0 247 = Ok (247, 247).
Proof. split; vm_compute; reflexivity. Qed.

(** A negative offset is outside C6: on a monitor to the left of the
    primary one the screen coordinate is negative, [toLogical] replaces it
    by 0 before it subtracts the offset, and the round trip ends at the
    right edge. *)
Lemma negative_offset_breaks_the_round_trip :
  offset_x Examples.left_monitor = -1920
  /\ round_trip binary64 Examples.left_monitor 0 0 = Ok ((-1920, 0), (-1, 0)).
Proof. split; vm_compute; reflexivity. Qed.
(* ===================================================================== *)
(** * Further properties of the code *)

Lemma only_ctx_refl {H : Type} id (m : AsyncCommandManager.t H) : only_ctx id m m.
Proof. split; [apply frame_refl|split; [reflexivity|intros; reflexivity]]. Qed.

Lemma only_ctx_trans {H : Type} id (m1 m2 m3 : AsyncCommandManager.t H) :
  only_ctx id m1 m2 -> only_ctx id m2 m3 -> only_ctx id m1 m3.
Proof.
  intros (F1 & L1 & K1) (F2 & L2 & K2).
  split; [eapply frame_trans; eassumption|].
  split; [congruence|]. intros k Hk. rewrite (K2 k Hk). exact (K1 k Hk).
Qed.

Lemma only_ctx_update_ctx {H : Type} id f (m : AsyncCommandManager.t H) :
  only_ctx id m (update_ctx m id f).
Proof.
  split; [apply frame_update_ctx|]. split.
  - unfold update_ctx. cbn. apply length_update_nth.
  - intros k Hk. rewrite ctx_of_update_ctx.
    destruct (Nat.eqb id k) eqn:E; [apply Nat.eqb_eq in E; congruence|reflexivity].
Qed.

Lemma contexts_invoke_callback {H : Type} (cbs : callbacks) id (m : AsyncCommandManager.t H) :
  contexts (snd (invoke_callback cbs id m)) = contexts m.
Proof.
  unfold invoke_callback.
  destruct (ctx_of m id) as [ctx|]; [destruct (callback ctx)|]; reflexivity.
Qed.

Lemma only_ctx_invoke_callback {H : Type} (cbs : callbacks) id (m : AsyncCommandManager.t H) :
  only_ctx id m (snd (invoke_callback cbs id m)).
Proof.
  split; [apply frame_invoke_callback|].
  unfold ctx_of. rewrite contexts_invoke_callback. split; [reflexivity|intros; reflexivity].
Qed.

Lemma only_ctx_consume {H : Type} (cbs : callbacks) id chunks :
  forall lr (m : AsyncCommandManager.t H), only_ctx id m (snd (consume cbs id chunks lr m)).
Proof.
  induction chunks as [|c chunks IH]; intros lr m; [apply only_ctx_refl|].
  cbn [consume].
  destruct (nonempty c).
  - pose proof (only_ctx_invoke_callback cbs id
                  (update_ctx m id (fun x => set_result x (Some c)))) as Fi.
    destruct (invoke_callback cbs id (update_ctx m id (fun x => set_result x (Some c))))
      as [[u|e] m2]; cbn [snd] in *.
    + eapply only_ctx_trans; [apply only_ctx_update_ctx|].
      eapply only_ctx_trans; [exact Fi|apply IH].
    + eapply only_ctx_trans; [apply only_ctx_update_ctx|exact Fi].
  - pose proof (only_ctx_invoke_callback cbs id m) as Fi.
    destruct (invoke_callback cbs id m) as [[u|e] m2]; cbn [snd] in *.
    + eapply only_ctx_trans; [exact Fi|apply IH].
    + exact Fi.
Qed.

Lemma only_ctx_on_exception {H : Type} (cbs : callbacks) id e (m : AsyncCommandManager.t H) :
  only_ctx id m (snd (on_exception cbs id e m)).
Proof.
  unfold on_exception. destruct (is_Exception e).
  - eapply only_ctx_trans; [apply only_ctx_update_ctx|apply only_ctx_invoke_callback].
  - match goal with
    | |- context [invoke_callback cbs id ?x] =>
        pose proof (only_ctx_invoke_callback cbs id x) as Fi;
        destruct (invoke_callback cbs id x) as [[u|e'] m2]
    end; cbn [snd] in *;
      (eapply only_ctx_trans; [apply only_ctx_update_ctx|exact Fi]).
Qed.

Lemma only_ctx_execute_command {H : Type} (cbs : callbacks) id s (m : AsyncCommandManager.t H) :
  only_ctx id m (snd (_execute_command cbs id s m)).
Proof.
  unfold _execute_command.
  pose proof (only_ctx_consume cbs id (fst s) None m) as Fc.
  destruct (consume cbs id (fst s) None m) as [[lr|e] m1]; cbn [snd] in Fc.
  - destruct (snd s) as [u|e].
    + destruct (is_marker lr); cbn [snd];
        (eapply only_ctx_trans; [exact Fc|apply only_ctx_update_ctx]).
    + eapply only_ctx_trans; [exact Fc|apply only_ctx_on_exception].
  - eapply only_ctx_trans; [exact Fc|apply only_ctx_on_exception].
Qed.

(** The context object stays where it is. *)
Lemma ctx_of_consume {H : Type} (cbs : callbacks) id chunks :
  forall lr (m : AsyncCommandManager.t H) ctx,
    ctx_of m id = Some ctx ->
    exists ctx', ctx_of (snd (consume cbs id chunks lr m)) id = Some ctx'.
Proof.
  induction chunks as [|c chunks IH]; intros lr m ctx Hctx; [exists ctx; exact Hctx|].
  cbn [consume].
  destruct (nonempty c).
  - pose proof (contexts_invoke_callback cbs id
                  (update_ctx m id (fun x => set_result x (Some c)))) as Ci.
    pose proof (ctx_of_update_same m id (fun x => set_result x (Some c)) ctx Hctx) as Hu.
    destruct (invoke_callback cbs id (update_ctx m id (fun x => set_result x (Some c))))
      as [[u|e] m2]; cbn [snd] in *.
    + eapply IH. unfold ctx_of in *. rewrite Ci. exact Hu.
    + eexists. unfold ctx_of in *. rewrite Ci. exact Hu.
  - pose proof (contexts_invoke_callback cbs id m) as Ci.
    destruct (invoke_callback cbs id m) as [[u|e] m2]; cbn [snd] in *.
    + eapply IH. unfold ctx_of in *. rewrite Ci. exact Hctx.
    + eexists. unfold ctx_of in *. rewrite Ci. exact Hctx.
Qed.

Lemma terminal_on_exception {H : Type} (cbs : callbacks) id e (m : AsyncCommandManager.t H) ctx :
  ctx_of m id = Some ctx ->
  exists ctx', ctx_of (snd (on_exception cbs id e m)) id = Some ctx'
               /\ is_terminal (state ctx') = true.
Proof.
  intros Hctx. unfold on_exception. destruct (is_Exception e).
  - match goal with
    | |- context [invoke_callback cbs id (update_ctx m id ?f)] =>
        pose proof (contexts_invoke_callback cbs id (update_ctx m id f)) as Ci;
        pose proof (ctx_of_update_same m id f ctx Hctx) as Hu
    end.
    eexists. unfold ctx_of in *. rewrite Ci. split; [exact Hu|reflexivity].
  - match goal with
    | |- context [invoke_callback cbs id (update_ctx m id ?f)] =>
        pose proof (contexts_invoke_callback cbs id (update_ctx m id f)) as Ci;
        pose proof (ctx_of_update_same m id f ctx Hctx) as Hu;
        destruct (invoke_callback cbs id (update_ctx m id f)) as [[u|e'] m2]
    end; cbn [snd] in *;
      (eexists; unfold ctx_of in *; rewrite Ci; split; [exact Hu|reflexivity]).
Qed.

(** Whatever the stream and the callbacks do, [_execute_command] leaves
    its command in a terminal state. *)
Lemma terminal_execute_command {H : Type} (cbs : callbacks) id s
  (m : AsyncCommandManager.t H) ctx :
  ctx_of m id = Some ctx ->
  exists ctx', ctx_of (snd (_execute_command cbs id s m)) id = Some ctx'
               /\ is_terminal (state ctx') = true.
Proof.
  intros Hctx. unfold _execute_command.
  destruct (ctx_of_consume cbs id (fst s) None m ctx Hctx) as [ctx1 H1].
  destruct (consume cbs id (fst s) None m) as [[lr|e] m1]; cbn [snd] in H1.
  - destruct (snd s) as [u|e].
    + destruct (is_marker lr); cbn [snd]; eexists;
        (split; [exact (ctx_of_update_same m1 id _ ctx1 H1)|reflexivity]).
    + now apply (terminal_on_exception cbs id e m1 ctx1).
  - now apply (terminal_on_exception cbs id e m1 ctx1).
Qed.

(** [shutdown]'s loop over a queue whose entries are all accounted for. *)
Lemma drain_effect {H : Type} (q : list nat) :
  forall m : AsyncCommandManager.t H,
    Z.of_nat (List.length q) <= unfinished_tasks m ->
    exists m',
      drain q m = (Ok tt, m')
      /\ queue m' = match q with [] => queue m | _ => [] end
      /\ unfinished_tasks m' = unfinished_tasks m - Z.of_nat (List.length q)
      /\ handler m' = handler m
      /\ current_command m' = current_command m
      /\ is_processing m' = is_processing m
      /\ _shutdown m' = _shutdown m
      /\ _current_task m' = _current_task m
      /\ command_history m' = command_history m
      /\ max_history m' = max_history m
      /\ calls m' = calls m
      /\ proc m' = proc m
      /\ List.length (contexts m') = List.length (contexts m)
      /\ forall id,
           ctx_of m' id
           = if existsb (Nat.eqb id) q then option_map shut_down (ctx_of m id)
             else ctx_of m id.
Proof.
  induction q as [|k q IH]; intros m Hlen.
  - exists m. cbn [List.length drain existsb Z.of_nat]. repeat split. lia.
  - cbn [drain]. unfold task_done.
    cbn [unfinished_tasks with_queue update_ctx with_contexts].
    cbn [List.length] in Hlen.
    replace (unfinished_tasks m <=? 0) with false
      by (symmetry; apply Z.leb_gt; lia).
    match goal with
    | |- context [drain q ?x] =>
        destruct (IH x) as (m' & Hd & Hq & Hu & Hh & Hc & Hp & Hs & Ht & Hy & Hx & Hl & Hr & Hn & Hctx)
    end.
    { cbn. lia. }
    exists m'. split; [exact Hd|].
    split; [destruct q; [rewrite Hq; reflexivity|exact Hq]|].
    split; [rewrite Hu; cbn [unfinished_tasks with_queue update_ctx with_contexts List.length]; lia|].
    repeat (split; [assumption|]).
    split; [rewrite Hn; cbn [contexts]; apply length_update_nth|].
    intros id. rewrite Hctx. cbn [existsb].
    match goal with
    | |- context [ctx_of ?x id] =>
        change (ctx_of x id)
          with (ctx_of (update_ctx m k
                          (fun c => set_error (set_state c CANCELLED)
                                      (Some "Command manager shutdown"%string))) id)
    end.
    rewrite ctx_of_update_ctx. rewrite (Nat.eqb_sym k id).
    destruct (Nat.eqb id k); cbn [orb].
    + destruct (existsb (Nat.eqb id) q); [|reflexivity].
      destruct (ctx_of m id) as [[? ? ? ? ? ?]|]; reflexivity.
    + reflexivity.
Qed.

Lemma existsb_eqb_In (id : nat) (q : list nat) :
  existsb (Nat.eqb id) q = true <-> In id q.
Proof.
  rewrite existsb_exists. split.
  - intros (x & Hx & E). apply Nat.eqb_eq in E. now subst.
  - intros Hin. exists id. split; [exact Hin|apply Nat.eqb_refl].
Qed.

Lemma existsb_eqb_not_In (id : nat) (q : list nat) :
  existsb (Nat.eqb id) q = false <-> ~ In id q.
Proof.
  rewrite <- existsb_eqb_In. destruct (existsb (Nat.eqb id) q); split; congruence.
Qed.

Lemma seq_cons_inv (a k : nat) (id : nat) (q : list nat) :
  seq a k = id :: q -> id = a /\ q = seq (S a) (k - 1) /\ (1 <= k)%nat.
Proof.
  destruct k as [|k]; cbn [seq]; intros E; [discriminate E|].
  inversion E; subst. repeat split; [f_equal; lia|lia].
Qed.

Section TankConsistency.

Context {el : EventLoop TankHandler.t} (cbs : callbacks).

Lemma consistent_init (h : TankHandler.t) (capacity : Z) :
  1 <= capacity -> consistent (init h capacity).
Proof.
  intros Hc. unfold consistent, init, queue_is_recent, running, ctx_of. cbn.
  split; [exists 0%nat; split; [lia|reflexivity]|].
  split; [reflexivity|].
  split; [split; [discriminate|congruence]|].
  split; [split; [discriminate|congruence]|].
  split; [reflexivity|]. split; [exact Hc|].
  split; [intros [|id] ctx E; discriminate E|intros id E; discriminate E].
Qed.

Lemma consistent_add_command (m : AsyncCommandManager.t TankHandler.t) cmd cb now :
  consistent m -> consistent (add_command m cmd cb now).
Proof.
  intros ((a & Ha & Hq) & Ht & Hp & Hi & Hu & Hmax & Hst & Hcur).
  unfold consistent, add_command, queue_is_recent, running, ctx_of in *.
  cbn [queue contexts with_queue with_contexts current_command _current_task proc
       is_processing unfinished_tasks max_history].
  rewrite !length_app. cbn [List.length].
  split.
  { exists a. split; [lia|].
    replace (List.length (contexts m) + 1 - a)%nat
      with (S (List.length (contexts m) - a)) by lia.
    rewrite seq_S, Hq. f_equal. f_equal. lia. }
  split; [exact Ht|]. split; [exact Hp|]. split; [exact Hi|].
  split; [rewrite Hu; lia|]. split; [exact Hmax|].
  split.
  - intros id ctx Hctx.
    destruct (Nat.lt_ge_cases id (List.length (contexts m))) as [Hlt|Hge].
    + rewrite nth_error_app1 in Hctx by exact Hlt.
      destruct (Hst id ctx Hctx) as [Q E]. split; [|exact E].
      rewrite Q, in_app_iff. cbn [In]. split; [tauto|].
      intros [Hin|[Heq|[]]]; [exact Hin|lia].
    + rewrite nth_error_app2 in Hctx by exact Hge.
      destruct (id - List.length (contexts m))%nat as [|d] eqn:Hd;
        [|destruct d; discriminate Hctx].
      cbn in Hctx. inversion Hctx; subst ctx. cbn [state].
      assert (id = List.length (contexts m)) by lia. subst id.
      split.
      * split; [intros _; apply in_app_iff; right; left; reflexivity|reflexivity].
      * split; [discriminate|]. intros E. apply Hcur in E. lia.
  - intros id E. apply Hcur in E. lia.
Qed.


Lemma not_awaiting_no_current (m : AsyncCommandManager.t TankHandler.t) :
  consistent m -> proc m <> AwaitingTask -> current_command m = None.
Proof.
  intros (_ & _ & Hp & _) Hn.
  destruct (current_command m) as [id|] eqn:E; [|reflexivity].
  exfalso. apply Hn, Hp. discriminate.
Qed.

Lemma consistent_with_proc (m : AsyncCommandManager.t TankHandler.t) (p : processor) :
  consistent m -> proc m <> AwaitingTask -> p <> AwaitingTask ->
  consistent (with_proc m p).
Proof.
  intros Hc Hn Hp'. pose proof (not_awaiting_no_current m Hc Hn) as Hcur.
  destruct Hc as (Hq & Ht & Hp & Hi & Hu & Hmax & Hst & Hlt).
  unfold consistent, queue_is_recent, running, ctx_of in *.
  cbn [with_proc queue contexts current_command _current_task proc is_processing
       unfinished_tasks max_history].
  repeat (split; [assumption|]).
  split; [|repeat (split; [assumption|]); assumption].
  rewrite Hcur. split; [intros E; contradiction|intros E; congruence].
Qed.

Lemma consistent_dequeue (m : AsyncCommandManager.t TankHandler.t) :
  consistent m -> proc m <> AwaitingTask -> consistent (dequeue m).
Proof.
  intros Hc Hn. pose proof (not_awaiting_no_current m Hc Hn) as Hcur.
  unfold dequeue. destruct (queue m) as [|id q] eqn:Hqueue.
  - apply consistent_with_proc; [exact Hc|exact Hn|discriminate].
  - destruct Hc as ((a & Ha & Hq) & Ht & Hp & Hi & Hu & Hmax & Hst & Hlt).
    rewrite Hqueue in Hq. symmetry in Hq.
    destruct (seq_cons_inv _ _ _ _ Hq) as (-> & Hq' & Hk).
    unfold consistent, queue_is_recent, running.
    cbn [with_proc with_current with_queue update_ctx with_contexts queue contexts
         current_command _current_task proc is_processing unfinished_tasks
         max_history].
    rewrite length_update_nth.
    split; [exists (S a); split; [lia|rewrite Hq'; f_equal; lia]|].
    split; [reflexivity|].
    split; [split; [discriminate|reflexivity]|].
    split; [split; [discriminate|reflexivity]|].
    split.
    { rewrite Hu, Hqueue. unfold running. rewrite Hcur. cbn [List.length]. lia. }
    split; [exact Hmax|].
    assert (Hnotin : ~ In a q).
    { rewrite Hq'. rewrite in_seq. lia. }
    split.
    + intros k ctx Hctx.
      match type of Hctx with
      | ctx_of ?x k = _ =>
          change (ctx_of x k)
            with (ctx_of (update_ctx m a (fun c => set_state c EXECUTING)) k) in Hctx
      end.
      rewrite ctx_of_update_ctx in Hctx.
      destruct (Nat.eqb a k) eqn:E.
      * apply Nat.eqb_eq in E. subst k.
        destruct (ctx_of m a) as [c0|]; [|discriminate Hctx].
        cbn [option_map] in Hctx. inversion Hctx; subst ctx. cbn [state set_state].
        split; [split; [discriminate|intros Hin; contradiction]|].
        split; reflexivity.
      * apply Nat.eqb_neq in E.
        destruct (Hst k ctx Hctx) as [Q X].
        rewrite Hqueue in Q. cbn [In] in Q.
        split.
        -- rewrite Q. split; [intros [Heq|Hin]; [congruence|exact Hin]|tauto].
        -- rewrite X, Hcur. split; [discriminate|intros Heq; inversion Heq; congruence].
    + intros k Heq. inversion Heq; subst k. lia.
Qed.

Lemma consistent_process_queue_step (m : AsyncCommandManager.t TankHandler.t) :
  consistent m -> consistent (process_queue_step m).
Proof.
  intros Hc. unfold process_queue_step.
  destruct (proc m) eqn:Hp; try exact Hc.
  - destruct (_shutdown m).
    + apply consistent_with_proc; [exact Hc|congruence|discriminate].
    + destruct (is_processing m); [exact Hc|].
      apply consistent_dequeue; [exact Hc|congruence].
  - apply consistent_dequeue; [exact Hc|congruence].
Qed.

(** The [finally] block when the history has room or an entry to evict and
    the queue counts the running task. *)
Lemma finally_block_ok {H : Type} (id : nat) (m : AsyncCommandManager.t H) :
  1 <= max_history m -> 0 < unfinished_tasks m ->
  finally_block id m
  = (Ok tt,
     with_queue
       (with_current
          (with_history m (push_history (max_history m) (command_history m) id))
          None false None)
       (queue m) (unfinished_tasks m - 1)).
Proof.
  intros Hmax Hu. unfold finally_block, push_history, task_done.
  destruct (Z.of_nat (List.length (command_history m)) >=? max_history m) eqn:E.
  - destruct (command_history m) as [|x rest] eqn:Hh.
    + rewrite Z.geb_leb in E. apply Z.leb_le in E. cbn in E. lia.
    + cbn [unfinished_tasks with_current with_history queue].
      replace (unfinished_tasks m <=? 0) with false by (symmetry; apply Z.leb_gt; lia).
      reflexivity.
  - cbn [unfinished_tasks with_current with_history queue].
    replace (unfinished_tasks m <=? 0) with false by (symmetry; apply Z.leb_gt; lia).
    reflexivity.
Qed.

Lemma consistent_task_finished (s : stream) (m : AsyncCommandManager.t TankHandler.t) :
  consistent m -> consistent (task_finished cbs s m).
Proof.
  intros Hc. rewrite task_finished_unfold.
  destruct (proc m) eqn:Hproc; try exact Hc.
  destruct (_current_task m) as [id|] eqn:Htask; [|exact Hc].
  destruct Hc as ((a & Ha & Hq) & Ht & Hp & Hi & Hu & Hmax & Hst & Hlt).
  rewrite Htask in Ht. symmetry in Ht.
  pose proof (Hlt id Ht) as Hid.
  destruct (nth_error (contexts m) id) as [ctx|] eqn:Hctx;
    [|apply nth_error_None in Hctx; lia].
  pose proof (only_ctx_execute_command cbs id s m) as (F & Hlen & Hoth).
  destruct (terminal_execute_command cbs id s m ctx Hctx) as (ctx' & Hctx' & Hterm).
  destruct (_execute_command cbs id s m) as [r m1]; cbn [snd] in *.
  destruct F as (F1 & F2 & F3 & F4 & F5 & F6 & F7 & F8 & F9 & F10).
  assert (Hmax1 : 1 <= max_history m1) by (rewrite F9; exact Hmax).
  assert (Hu1 : 0 < unfinished_tasks m1)
    by (rewrite F3, Hu; unfold running; rewrite Ht; lia).
  rewrite (finally_block_ok id m1 Hmax1 Hu1).
  assert (Hgoal : forall p, p <> AwaitingTask ->
            consistent
              (with_proc
                 (with_queue
                    (with_current
                       (with_history m1
                          (push_history (max_history m1) (command_history m1) id))
                       None false None) (queue m1) (unfinished_tasks m1 - 1)) p)).
  { intros p Hp'. unfold consistent, queue_is_recent, running, ctx_of.
    cbn [with_proc with_current with_queue with_history queue contexts
         current_command _current_task proc is_processing unfinished_tasks
         max_history].
    rewrite Hlen, F2, F3, F9.
    split; [exists a; split; assumption|].
    split; [reflexivity|].
    split; [split; [intros E; contradiction|intros E; congruence]|].
    split; [split; [discriminate|intros E; congruence]|].
    split; [rewrite Hu; unfold running; rewrite Ht; lia|].
    split; [exact Hmax|].
    split; [|intros k E; discriminate E].
    intros k c Hk.
    destruct (Nat.eq_dec k id) as [->|Hne].
    - unfold ctx_of in Hctx'. rewrite Hctx' in Hk. inversion Hk; subst c.
      destruct (Hst id ctx Hctx) as [Q X].
      assert (Hex : state ctx = EXECUTING) by (apply X; exact Ht).
      assert (Hnq : ~ In id (queue m)) by (rewrite <- Q, Hex; discriminate).
      split.
      + split; [intros E; rewrite E in Hterm; discriminate Hterm|intros Hin; contradiction].
      + split; [intros E; rewrite E in Hterm; discriminate Hterm|discriminate].
    - pose proof (Hoth k Hne) as Hko. unfold ctx_of in Hko. rewrite Hko in Hk.
      destruct (Hst k c Hk) as [Q X]. split; [exact Q|].
      rewrite X, Ht. split; [intros E; inversion E; congruence|discriminate]. }
  destruct r as [u|e]; [|destruct (is_Exception e)]; apply Hgoal; discriminate.
Qed.

Lemma consistent_with_handler (m : AsyncCommandManager.t TankHandler.t) h :
  consistent m -> consistent (with_handler m h).
Proof. intros Hc. exact Hc. Qed.

Lemma consistent_with_shutdown (m : AsyncCommandManager.t TankHandler.t) b :
  consistent m -> consistent (with_shutdown m b).
Proof. intros Hc. exact Hc. Qed.

Lemma consistent_cancel_current (m : AsyncCommandManager.t TankHandler.t) :
  consistent m -> consistent (snd (AsyncCommandManager.cancel_current cbs m)).
Proof.
  intros Hc. destruct (is_executing m) eqn:E.
  - rewrite (cancel_current_tank cbs m E). exact Hc.
  - rewrite (cancel_current_idle cbs m E). exact Hc.
Qed.

Lemma consistent_drain (m : AsyncCommandManager.t TankHandler.t) :
  consistent m -> consistent (snd (drain (queue m) m)).
Proof.
  intros ((a & Ha & Hq) & Ht & Hp & Hi & Hu & Hmax & Hst & Hlt).
  destruct (drain_effect (queue m) m) as
    (m' & Hd & Hq' & Hu' & Hh & Hc & Hpr & Hs & Htk & Hy & Hx & Hl & Hr & Hn & Hctx).
  { rewrite Hu. unfold running. destruct (current_command m); lia. }
  rewrite Hd. cbn [snd].
  assert (Hqe : queue m' = []) by (rewrite Hq'; destruct (queue m); reflexivity).
  unfold consistent, queue_is_recent, running.
  rewrite Hqe, Hn, Htk, Hc, Hr, Hpr, Hu', Hx. cbn [List.length].
  split; [exists (List.length (contexts m)); split; [lia|rewrite Nat.sub_diag; reflexivity]|].
  repeat (split; [assumption|]).
  split; [rewrite Hu; unfold running; lia|].
  split; [exact Hmax|].
  split; [|exact Hlt].
  intros k c Hk. rewrite Hctx in Hk. cbn [In].
  destruct (existsb (Nat.eqb k) (queue m)) eqn:E.
  - apply existsb_eqb_In in E.
    destruct (ctx_of m k) as [c0|] eqn:Hc0; [|discriminate Hk].
    cbn [option_map] in Hk. inversion Hk; subst c.
    destruct (Hst k c0 Hc0) as [Q X].
    assert (Hqd : state c0 = QUEUED) by (apply Q; exact E).
    cbn [shut_down state set_error set_state].
    split; [split; [discriminate|contradiction]|].
    split; [discriminate|]. intros Hcur. apply X in Hcur. congruence.
  - apply existsb_eqb_not_In in E.
    destruct (Hst k c Hk) as [Q X]. split; [|exact X].
    rewrite Q. tauto.
Qed.

Lemma consistent_shutdown (m : AsyncCommandManager.t TankHandler.t) :
  consistent m -> consistent (snd (AsyncCommandManager.shutdown cbs m)).
Proof.
  intros Hc. unfold AsyncCommandManager.shutdown.
  destruct (is_executing (with_shutdown m true)) eqn:E.
  - rewrite (cancel_current_tank cbs _ E). exact Hc.
  - rewrite (cancel_current_idle cbs _ E).
    exact (consistent_drain (with_shutdown m true) Hc).
Qed.

Lemma consistent_perform (m : AsyncCommandManager.t TankHandler.t) (a : action) :
  consistent m -> consistent (perform cbs m a).
Proof.
  intros Hc. destruct a as [cmd cb now| |s| |]; cbn [perform].
  - now apply consistent_add_command.
  - now apply consistent_process_queue_step.
  - now apply consistent_task_finished.
  - now apply consistent_cancel_current.
  - now apply consistent_shutdown.
Qed.

Lemma consistent_run_actions (l : list action) :
  forall m : AsyncCommandManager.t TankHandler.t,
    consistent m -> consistent (run_actions cbs m l).
Proof.
  induction l as [|a l IH]; intros m Hc; [exact Hc|].
  cbn [run_actions fold_left]. apply IH. now apply consistent_perform.
Qed.

End TankConsistency.

Section TankCoherence.

Context {el : EventLoop TankHandler.t} (cbs : callbacks).

Lemma coherent_init (h : TankHandler.t) (capacity : Z) :
  1 <= capacity -> coherent (init h capacity).
Proof.
  intros Hc. unfold coherent, init, queue_is_recent, running, ctx_of. cbn.
  split; [exists 0%nat; split; [lia|reflexivity]|].
  split; [reflexivity|]. split; [reflexivity|].
  split; [split; [discriminate|congruence]|].
  split; [reflexivity|]. split; [exact Hc|].
  split; [intros [|id] ctx E; discriminate E|intros id E; discriminate E].
Qed.

Lemma coherent_add_command (m : AsyncCommandManager.t TankHandler.t) cmd cb now :
  coherent m -> coherent (add_command m cmd cb now).
Proof.
  intros ((a & Ha & Hq) & Ht & Hp & Hi & Hu & Hmax & Hst & Hcur).
  unfold coherent, add_command, queue_is_recent, running, ctx_of in *.
  cbn [queue contexts with_queue with_contexts current_command _current_task proc
       is_processing unfinished_tasks max_history].
  rewrite !length_app. cbn [List.length].
  split.
  { exists a. split; [lia|].
    replace (List.length (contexts m) + 1 - a)%nat
      with (S (List.length (contexts m) - a)) by lia.
    rewrite seq_S, Hq. f_equal. f_equal. lia. }
  split; [exact Ht|]. split; [exact Hp|]. split; [exact Hi|].
  split; [rewrite Hu; lia|]. split; [exact Hmax|].
  split.
  - intros id ctx Hctx.
    destruct (Nat.lt_ge_cases id (List.length (contexts m))) as [Hlt|Hge].
    + rewrite nth_error_app1 in Hctx by exact Hlt.
      destruct (Hst id ctx Hctx) as [Q E]. split; [|exact E].
      rewrite Q, in_app_iff. cbn [In]. split; [tauto|].
      intros [Hin|[Heq|[]]]; [exact Hin|lia].
    + rewrite nth_error_app2 in Hctx by exact Hge.
      destruct (id - List.length (contexts m))%nat as [|d] eqn:Hd;
        [|destruct d; discriminate Hctx].
      cbn in Hctx. inversion Hctx; subst ctx. cbn [state].
      assert (id = List.length (contexts m)) by lia. subst id.
      split.
      * split; [intros _; apply in_app_iff; right; left; reflexivity|reflexivity].
      * split; [discriminate|]. intros [E _]. apply Hcur in E. lia.
  - intros id E. apply Hcur in E. lia.
Qed.

(** A processor that holds no task. *)
Lemma coherent_with_proc (m : AsyncCommandManager.t TankHandler.t) (p : processor) :
  coherent m -> current_command m = None ->
  p = AtLoopTop \/ p = InGet \/ p = Exited \/ p = Killed ->
  coherent (with_proc m p).
Proof.
  intros (Hq & Ht & Hp & Hi & Hu & Hmax & Hst & Hlt) Hcur Hidle.
  unfold coherent, queue_is_recent, running, ctx_of in *.
  cbn [with_proc queue contexts current_command _current_task proc is_processing
       unfinished_tasks max_history].
  split; [exact Hq|]. split; [exact Ht|].
  split; [destruct Hidle as [-> | [-> | [-> | ->]]]; exact Hcur|].
  split; [exact Hi|]. split; [exact Hu|]. split; [exact Hmax|].
  split; [|exact Hlt].
  intros id ctx Hctx. destruct (Hst id ctx Hctx) as [Q X]. split; [exact Q|].
  rewrite X, Hcur. split; intros [E _]; discriminate E.
Qed.

Lemma coherent_dequeue (m : AsyncCommandManager.t TankHandler.t) :
  coherent m -> current_command m = None -> coherent (dequeue m).
Proof.
  intros Hc Hcur.
  unfold dequeue. destruct (queue m) as [|id q] eqn:Hqueue.
  - apply coherent_with_proc; [exact Hc|exact Hcur|right; left; reflexivity].
  - destruct Hc as ((a & Ha & Hq) & Ht & Hp & Hi & Hu & Hmax & Hst & Hlt).
    rewrite Hqueue in Hq. symmetry in Hq.
    destruct (seq_cons_inv _ _ _ _ Hq) as (-> & Hq' & Hk).
    unfold coherent, queue_is_recent, running.
    cbn [with_proc with_current with_queue update_ctx with_contexts queue contexts
         current_command _current_task proc is_processing unfinished_tasks
         max_history].
    rewrite length_update_nth.
    split; [exists (S a); split; [lia|rewrite Hq'; f_equal; lia]|].
    split; [reflexivity|].
    split; [discriminate|].
    split; [split; [discriminate|reflexivity]|].
    split.
    { rewrite Hu, Hqueue. unfold running. rewrite Hcur. cbn [List.length]. lia. }
    split; [exact Hmax|].
    assert (Hnotin : ~ In a q).
    { rewrite Hq'. rewrite in_seq. lia. }
    split.
    + intros k ctx Hctx.
      match type of Hctx with
      | ctx_of ?x k = _ =>
          change (ctx_of x k)
            with (ctx_of (update_ctx m a (fun c => set_state c EXECUTING)) k) in Hctx
      end.
      rewrite ctx_of_update_ctx in Hctx.
      destruct (Nat.eqb a k) eqn:E.
      * apply Nat.eqb_eq in E. subst k.
        destruct (ctx_of m a) as [c0|]; [|discriminate Hctx].
        cbn [option_map] in Hctx. inversion Hctx; subst ctx. cbn [state set_state].
        split; [split; [discriminate|intros Hin; contradiction]|].
        split; [intros _; split; reflexivity|reflexivity].
      * apply Nat.eqb_neq in E.
        destruct (Hst k ctx Hctx) as [Q X].
        rewrite Hqueue in Q. cbn [In] in Q.
        split.
        -- rewrite Q. split; [intros [Heq|Hin]; [congruence|exact Hin]|tauto].
        -- rewrite X, Hcur.
           split; [intros [Heq _]; discriminate Heq
                  |intros [Heq _]; inversion Heq; congruence].
    + intros k Heq. inversion Heq; subst k. lia.
Qed.

Lemma coherent_process_queue_step (m : AsyncCommandManager.t TankHandler.t) :
  coherent m -> coherent (process_queue_step m).
Proof.
  intros Hc. unfold process_queue_step.
  pose proof Hc as (_ & _ & Hp & _).
  destruct (proc m) eqn:Hproc; try exact Hc.
  - destruct (_shutdown m).
    + apply coherent_with_proc; [exact Hc|exact Hp|right; right; left; reflexivity].
    + destruct (is_processing m); [exact Hc|].
      apply coherent_dequeue; [exact Hc|exact Hp].
  - apply coherent_dequeue; [exact Hc|exact Hp].
Qed.

(** The task ends: the command has its final state and is still the
    current one. *)
Lemma coherent_task_ends (s : stream) (m : AsyncCommandManager.t TankHandler.t) :
  coherent m -> coherent (task_ends cbs s m).
Proof.
  intros Hc. unfold task_ends.
  destruct (proc m) eqn:Hproc; try exact Hc.
  destruct (_current_task m) as [id|] eqn:Htask; [|exact Hc].
  destruct Hc as ((a & Ha & Hq) & Ht & Hp & Hi & Hu & Hmax & Hst & Hlt).
  rewrite Htask in Ht. symmetry in Ht.
  pose proof (Hlt id Ht) as Hid.
  destruct (nth_error (contexts m) id) as [ctx|] eqn:Hctx;
    [|apply nth_error_None in Hctx; lia].
  pose proof (only_ctx_execute_command cbs id s m) as (F & Hlen & Hoth).
  destruct (terminal_execute_command cbs id s m ctx Hctx) as (ctx' & Hctx' & Hterm).
  destruct (_execute_command cbs id s m) as [r m1]; cbn [snd] in *.
  destruct F as (F1 & F2 & F3 & F4 & F5 & F6 & F7 & F8 & F9 & F10).
  unfold coherent, queue_is_recent, running, ctx_of.
  cbn [with_proc queue contexts current_command _current_task proc is_processing
       unfinished_tasks max_history].
  rewrite Hlen, F2, F3, F4, F5, F7, F9.
  split; [exists a; split; assumption|].
  split; [congruence|]. split; [exact Ht|]. split; [exact Hi|].
  split; [exact Hu|]. split; [exact Hmax|]. split; [|exact Hlt].
  intros k c Hk.
  destruct (Hst id ctx Hctx) as [Q X].
  assert (Hex : state ctx = EXECUTING) by (apply X; split; [exact Ht|exact Hproc]).
  assert (Hnq : ~ In id (queue m)) by (rewrite <- Q, Hex; discriminate).
  destruct (Nat.eq_dec k id) as [->|Hne].
  - unfold ctx_of in Hctx'. rewrite Hctx' in Hk. inversion Hk; subst c.
    split.
    + split; [intros E; rewrite E in Hterm; discriminate Hterm|intros Hin; contradiction].
    + split; [intros E; rewrite E in Hterm; discriminate Hterm|intros [_ E]; discriminate E].
  - pose proof (Hoth k Hne) as Hko. unfold ctx_of in Hko. rewrite Hko in Hk.
    destruct (Hst k c Hk) as [Q' X']. split; [exact Q'|].
    rewrite X', Ht. split; [intros [E _]; inversion E; congruence|intros [_ E]; discriminate E].
Qed.

(** [process_queue] resumes: the command leaves its place as the current
    one for the history. *)
Lemma coherent_resume (m : AsyncCommandManager.t TankHandler.t) :
  coherent m -> coherent (resume m).
Proof.
  intros Hc. unfold resume.
  destruct (proc m) as [| | |id r| |] eqn:Hproc; try exact Hc.
  destruct Hc as ((a & Ha & Hq) & Ht & Hp & Hi & Hu & Hmax & Hst & Hlt).
  rewrite Hproc in Hp.
  assert (Hu1 : 0 < unfinished_tasks m) by (rewrite Hu; unfold running; rewrite Hp; lia).
  rewrite (finally_block_ok id m Hmax Hu1).
  assert (Hgoal : forall p, p = AtLoopTop \/ p = Killed ->
            coherent
              (with_proc
                 (with_queue
                    (with_current
                       (with_history m
                          (push_history (max_history m) (command_history m) id))
                       None false None) (queue m) (unfinished_tasks m - 1)) p)).
  { intros p Hp'. unfold coherent, queue_is_recent, running, ctx_of.
    cbn [with_proc with_current with_queue with_history queue contexts
         current_command _current_task proc is_processing unfinished_tasks
         max_history].
    split; [exists a; split; assumption|].
    split; [reflexivity|].
    split; [destruct Hp' as [->| ->]; reflexivity|].
    split; [split; [discriminate|intros E; congruence]|].
    split; [rewrite Hu; unfold running; rewrite Hp; lia|].
    split; [exact Hmax|].
    split; [|intros k E; discriminate E].
    intros k c Hk. destruct (Hst k c Hk) as [Q X]. split; [exact Q|].
    rewrite X, Hproc.
    split; [intros [_ E]; discriminate E|intros [E _]; discriminate E]. }
  destruct r as [u|e]; [|destruct (is_Exception e)]; apply Hgoal; auto.
Qed.

Lemma coherent_task_finished (s : stream) (m : AsyncCommandManager.t TankHandler.t) :
  coherent m -> coherent (task_finished cbs s m).
Proof.
  intros Hc. unfold task_finished.
  destruct (proc m); try exact Hc.
  destruct (_current_task m); [|exact Hc].
  apply coherent_resume, coherent_task_ends, Hc.
Qed.

Lemma coherent_cancel_current (m : AsyncCommandManager.t TankHandler.t) :
  coherent m -> coherent (snd (AsyncCommandManager.cancel_current cbs m)).
Proof.
  intros Hc. destruct (is_executing m) eqn:E.
  - rewrite (cancel_current_tank cbs m E). exact Hc.
  - rewrite (cancel_current_idle cbs m E). exact Hc.
Qed.

Lemma coherent_drain (m : AsyncCommandManager.t TankHandler.t) :
  coherent m -> coherent (snd (drain (queue m) m)).
Proof.
  intros ((a & Ha & Hq) & Ht & Hp & Hi & Hu & Hmax & Hst & Hlt).
  destruct (drain_effect (queue m) m) as
    (m' & Hd & Hq' & Hu' & Hh & Hc & Hpr & Hs & Htk & Hy & Hx & Hl & Hr & Hn & Hctx).
  { rewrite Hu. unfold running. destruct (current_command m); lia. }
  rewrite Hd. cbn [snd].
  assert (Hqe : queue m' = []) by (rewrite Hq'; destruct (queue m); reflexivity).
  unfold coherent, queue_is_recent, running.
  rewrite Hqe, Hn, Htk, Hc, Hr, Hpr, Hu', Hx. cbn [List.length].
  split; [exists (List.length (contexts m)); split; [lia|rewrite Nat.sub_diag; reflexivity]|].
  split; [exact Ht|]. split; [exact Hp|]. split; [exact Hi|].
  split; [rewrite Hu; unfold running; lia|].
  split; [exact Hmax|].
  split; [|exact Hlt].
  intros k c Hk. rewrite Hctx in Hk. cbn [In].
  destruct (existsb (Nat.eqb k) (queue m)) eqn:E.
  - apply existsb_eqb_In in E.
    destruct (ctx_of m k) as [c0|] eqn:Hc0; [|discriminate Hk].
    cbn [option_map] in Hk. inversion Hk; subst c.
    destruct (Hst k c0 Hc0) as [Q X].
    assert (Hqd : state c0 = QUEUED) by (apply Q; exact E).
    cbn [shut_down state set_error set_state].
    split; [split; [discriminate|contradiction]|].
    split; [discriminate|]. intros Hcur. apply X in Hcur. congruence.
  - apply existsb_eqb_not_In in E.
    destruct (Hst k c Hk) as [Q X]. split; [|exact X].
    rewrite Q. tauto.
Qed.

Lemma coherent_shutdown (m : AsyncCommandManager.t TankHandler.t) :
  coherent m -> coherent (snd (AsyncCommandManager.shutdown cbs m)).
Proof.
  intros Hc. unfold AsyncCommandManager.shutdown.
  destruct (is_executing (with_shutdown m true)) eqn:E.
  - rewrite (cancel_current_tank cbs _ E). exact Hc.
  - rewrite (cancel_current_idle cbs _ E).
    exact (coherent_drain (with_shutdown m true) Hc).
Qed.

Lemma coherent_perform_step (m : AsyncCommandManager.t TankHandler.t) (st : step) :
  coherent m -> coherent (perform_step cbs m st).
Proof.
  intros Hc. destruct st as [[cmd cb now| |s| |]|s|]; cbn [perform_step perform].
  - now apply coherent_add_command.
  - now apply coherent_process_queue_step.
  - now apply coherent_task_finished.
  - now apply coherent_cancel_current.
  - now apply coherent_shutdown.
  - now apply coherent_task_ends.
  - now apply coherent_resume.
Qed.

Lemma coherent_run_steps (l : list step) :
  forall m : AsyncCommandManager.t TankHandler.t,
    coherent m -> coherent (run_steps cbs m l).
Proof.
  induction l as [|st l IH]; intros m Hc; [exact Hc|].
  cbn [run_steps fold_left]. apply IH. now apply coherent_perform_step.
Qed.

(** A task that is done has given its command a final state. *)
Lemma ended_is_terminal (m : AsyncCommandManager.t TankHandler.t) (st : step) :
  (forall id r, proc m = TaskEnded id r ->
     exists ctx, ctx_of m id = Some ctx /\ is_terminal (state ctx) = true) ->
  coherent m ->
  forall id r, proc (perform_step cbs m st) = TaskEnded id r ->
    exists ctx, ctx_of (perform_step cbs m st) id = Some ctx
                /\ is_terminal (state ctx) = true.
Proof.
  intros Hinv Hc id r Hp.
  assert (Hterm : forall m' : AsyncCommandManager.t TankHandler.t,
             proc m' = proc m ->
             (forall k c, ctx_of m k = Some c -> is_terminal (state c) = true ->
                ctx_of m' k = Some c) ->
             proc m' = TaskEnded id r ->
             exists ctx, ctx_of m' id = Some ctx /\ is_terminal (state ctx) = true).
  { intros m' Hpm Hk Hp'. rewrite Hpm in Hp'.
    destruct (Hinv id r Hp') as (ctx & Hctx & Ht). exists ctx. split; [|exact Ht].
    now apply Hk. }
  destruct st as [[cmd cb now| |s| |]|s|]; cbn [perform_step perform] in *.
  - apply Hterm; [reflexivity| |exact Hp].
    intros k c Hk _. unfold ctx_of, add_command in *.
    cbn [contexts with_queue with_contexts].
    rewrite nth_error_app1; [exact Hk|]. apply nth_error_Some. congruence.
  - unfold process_queue_step, dequeue in *.
    destruct (proc m) eqn:Hproc.
    + destruct (_shutdown m); [discriminate Hp|].
      destruct (is_processing m); [congruence|].
      destruct (queue m); discriminate Hp.
    + destruct (queue m); discriminate Hp.
    + congruence.
    + apply (Hinv id r). congruence.
    + congruence.
    + congruence.
  - rewrite task_finished_unfold in Hp |- *.
    destruct (proc m) eqn:Hproc; try congruence.
    + destruct (_current_task m) as [k|]; [|congruence].
      destruct (_execute_command cbs k s m) as [r0 m1].
      destruct (finally_block k m1) as [f m2].
      destruct f, r0; try destruct (is_Exception e); discriminate Hp.
    + apply (Hinv id r). congruence.
  - destruct (is_executing m) eqn:E.
    + rewrite (cancel_current_tank cbs m E) in Hp |- *. cbn [snd] in *.
      apply (Hinv id r). exact Hp.
    + rewrite (cancel_current_idle cbs m E) in Hp |- *. apply (Hinv id r). exact Hp.
  - destruct Hc as (_ & _ & Hpm & _ & Hu & _ & Hst & _).
    unfold AsyncCommandManager.shutdown in *.
    destruct (is_executing (with_shutdown m true)) eqn:E.
    + rewrite (cancel_current_tank cbs _ E) in Hp |- *. cbn [snd] in *.
      apply (Hinv id r). exact Hp.
    + rewrite (cancel_current_idle cbs _ E) in Hp |- *.
      destruct (drain_effect (queue (with_shutdown m true)) (with_shutdown m true)) as
        (m' & Hd & _ & _ & _ & _ & _ & _ & _ & _ & _ & _ & Hr & _ & Hctx).
      { cbn [queue with_shutdown unfinished_tasks]. rewrite Hu. unfold running.
        destruct (current_command m); lia. }
      rewrite Hd in Hp |- *. cbn [snd] in *.
      rewrite Hr in Hp. cbn [proc with_shutdown] in Hp.
      destruct (Hinv id r Hp) as (ctx & Hcx & Ht).
      exists ctx. split; [|exact Ht]. rewrite Hctx.
      cbn [queue with_shutdown].
      change (ctx_of (with_shutdown m true) id) with (ctx_of m id).
      destruct (existsb (Nat.eqb id) (queue m)) eqn:Eq; [|exact Hcx].
      apply existsb_eqb_In in Eq. apply (Hst id ctx Hcx) in Eq.
      rewrite Eq in Ht. discriminate Ht.
  - unfold task_ends in *.
    destruct (proc m) eqn:Hproc; try congruence.
    + destruct (_current_task m) as [k|] eqn:Htask; [|congruence].
      destruct Hc as (_ & Ht & _ & _ & _ & _ & _ & Hlt).
      rewrite Htask in Ht. symmetry in Ht. pose proof (Hlt k Ht) as Hk.
      destruct (nth_error (contexts m) k) as [ctx|] eqn:Hctx;
        [|apply nth_error_None in Hctx; lia].
      destruct (terminal_execute_command cbs k s m ctx Hctx) as (ctx' & Hctx' & Hterm').
      destruct (_execute_command cbs k s m) as [r0 m1]; cbn [snd] in *.
      cbn [proc with_proc] in Hp. inversion Hp; subst k r0.
      exists ctx'. split; [exact Hctx'|exact Hterm'].
    + apply (Hinv id r). congruence.
  - unfold resume in *.
    destruct (proc m) as [| | |k r0| |] eqn:Hproc; try congruence.
    destruct (finally_block k m) as [f m2].
    destruct f, r0; try destruct (is_Exception e); discriminate Hp.
Qed.

Lemma ended_is_terminal_run (l : list step) :
  forall m : AsyncCommandManager.t TankHandler.t,
    coherent m ->
    (forall id r, proc m = TaskEnded id r ->
       exists ctx, ctx_of m id = Some ctx /\ is_terminal (state ctx) = true) ->
    forall id r, proc (run_steps cbs m l) = TaskEnded id r ->
      exists ctx, ctx_of (run_steps cbs m l) id = Some ctx
                  /\ is_terminal (state ctx) = true.
Proof.
  induction l as [|st l IH]; intros m Hc Hinv; [exact Hinv|].
  cbn [run_steps fold_left]. apply IH.
  - now apply coherent_perform_step.
  - now apply ended_is_terminal.
Qed.

End TankCoherence.

(** X1. One [process_queue] coroutine, the Tank handler and a history
    capacity of at least 1.  In every state the manager reaches, also
    between the end of a task and the resumption of [process_queue], each
    command is in one place: it is [QUEUED] exactly when it waits in the
    queue, [EXECUTING] exactly when it is the current command and its task
    runs, and in a terminal state otherwise.  A command whose task is done
    is terminal and stays the current one until [process_queue] resumes.
    Hence at most one command is [EXECUTING]; [is_processing] is set
    exactly when there is a current command, whose task is the one held;
    there is a current command exactly when the coroutine is suspended on a
    task; no command waits twice; and the queue's count of unfinished tasks
    is the number of commands waiting plus the current one. *)
Theorem every_command_has_one_place (el : EventLoop TankHandler.t)
  (cbs : callbacks) (h : TankHandler.t) (capacity : Z) (l : list step) :
  1 <= capacity ->
  let m := run_steps cbs (init h capacity) l in
  (forall id ctx,
      ctx_of m id = Some ctx ->
      (state ctx = QUEUED <-> In id (queue m))
      /\ (state ctx = EXECUTING
          <-> current_command m = Some id /\ proc m = AwaitingTask)
      /\ (is_terminal (state ctx) = true
          <-> ~ In id (queue m)
              /\ ~ (current_command m = Some id /\ proc m = AwaitingTask)))
  /\ (forall id r,
         proc m = TaskEnded id r ->
         current_command m = Some id
         /\ exists ctx, ctx_of m id = Some ctx /\ is_terminal (state ctx) = true)
  /\ (forall id id' ctx ctx',
         ctx_of m id = Some ctx -> ctx_of m id' = Some ctx' ->
         state ctx = EXECUTING -> state ctx' = EXECUTING -> id = id')
  /\ (is_processing m = true <-> current_command m <> None)
  /\ (current_command m <> None
      <-> proc m = AwaitingTask \/ exists id r, proc m = TaskEnded id r)
  /\ _current_task m = current_command m
  /\ NoDup (queue m)
  /\ unfinished_tasks m = Z.of_nat (List.length (queue m)) + running m.
Proof.
  intros Hc m.
  pose proof (coherent_run_steps cbs l (init h capacity) (coherent_init h capacity Hc))
    as ((a & Ha & Hq) & Ht & Hp & Hi & Hu & Hmax & Hst & Hlt).
  pose proof (ended_is_terminal_run cbs l (init h capacity) (coherent_init h capacity Hc))
    as Hend.
  fold m in Hq, Ht, Hp, Hi, Hu, Hmax, Hst, Hlt, Ha, Hend.
  split; [|split; [|split; [|split; [exact Hi|split; [|split; [exact Ht|split; [|exact Hu]]]]]]].
  - intros id ctx Hctx. destruct (Hst id ctx Hctx) as [Q X].
    split; [exact Q|]. split; [exact X|].
    rewrite <- Q, <- X. destruct (state ctx); cbn [is_terminal];
      split; try discriminate; try (intros [A B]; congruence);
      intros _; split; discriminate.
  - intros id r Hpr. split.
    + rewrite Hpr in Hp. exact Hp.
    + apply (Hend ltac:(intros ? ? E; discriminate E) id r Hpr).
  - intros id id' ctx ctx' Hctx Hctx' E E'.
    apply (Hst id ctx Hctx) in E. apply (Hst id' ctx' Hctx') in E'.
    destruct E as [E _], E' as [E' _]. congruence.
  - split.
    + intros Hcur. destruct (proc m) as [| | |id r| |];
        try contradiction; [left; reflexivity|right; eauto].
    + intros [E|(id & r & E)]; rewrite E in Hp; [exact Hp|congruence].
  - rewrite Hq. apply seq_NoDup.
Qed.

(** A second command arrives and a cancellation is tried while the first
    command, its task done, is still the current one. *)
Lemma every_command_has_one_place_witness :
  1 <= 100
  /\ let m := @run_steps _ _ Shipped.inert_loop Shipped.quiet
                (init Shipped.tank 100) Shipped.command_between in
     proc m = TaskEnded 0 (Ok tt)
     /\ (is_processing m = true <-> current_command m <> None)
     /\ _current_task m = current_command m.
Proof.
  split; [lia|].
  pose proof (every_command_has_one_place Shipped.inert_loop Shipped.quiet
                Shipped.tank 100 Shipped.command_between ltac:(lia)) as W.
  cbv zeta in W. split; [reflexivity|].
  split; [exact (proj1 (proj2 (proj2 (proj2 W))))
         |exact (proj1 (proj2 (proj2 (proj2 (proj2 (proj2 W))))))].
Defined.

(** X1 is about one coroutine.  A second [process_queue] on the same
    manager, suspended on the empty queue like the first, takes the second
    command while the first is running: two commands are [EXECUTING], and
    the manager knows the second only. *)
Lemma second_processor_runs_a_second_command :
  let waiting := process_queue_step Shipped.manager in
  let submitted :=
    add_command (add_command waiting "click the button" None 0)
      "open the menu" None 1 in
  let first := process_queue_step submitted in
  let second := process_queue_step (with_proc first InGet) in
  proc waiting = InGet
  /\ state_of first 0 = Some EXECUTING
  /\ state_of second 0 = Some EXECUTING
  /\ state_of second 1 = Some EXECUTING
  /\ current_command second = Some 1%nat.
Proof. repeat split. Qed.

Section TankFinal.

Context {el : EventLoop TankHandler.t} (cbs : callbacks).

Lemma contexts_task_finished (s : stream) (m : AsyncCommandManager.t TankHandler.t) :
  contexts (task_finished cbs s m)
  = match proc m, _current_task m with
    | AwaitingTask, Some id => contexts (snd (_execute_command cbs id s m))
    | _, _ => contexts m
    end.
Proof.
  rewrite task_finished_unfold.
  destruct (proc m); try reflexivity.
  destruct (_current_task m) as [id|]; [|reflexivity].
  destruct (_execute_command cbs id s m) as [r m1]. cbn [snd].
  unfold finally_block.
  destruct (Z.of_nat (List.length (command_history m1)) >=? max_history m1).
  - destruct (command_history m1) as [|x rest].
    + destruct r as [u|e]; reflexivity.
    + unfold task_done. cbn [unfinished_tasks with_current with_history].
      destruct (unfinished_tasks m1 <=? 0); destruct r as [u|e];
        try destruct (is_Exception e); reflexivity.
  - unfold task_done. cbn [unfinished_tasks with_current with_history].
    destruct (unfinished_tasks m1 <=? 0); destruct r as [u|e];
      try destruct (is_Exception e); reflexivity.
Qed.

(** One step leaves a command that is in a terminal state as it is. *)
Lemma terminal_perform (m : AsyncCommandManager.t TankHandler.t) (a : action)
  (id : nat) (ctx : CommandContext) :
  consistent m ->
  ctx_of m id = Some ctx -> is_terminal (state ctx) = true ->
  ctx_of (perform cbs m a) id = Some ctx.
Proof.
  intros Hc Hctx Hterm.
  pose proof Hc as ((a0 & Ha & Hq) & Ht & Hp & Hi & Hu & Hmax & Hst & Hlt).
  destruct (Hst id ctx Hctx) as [Q X].
  assert (Hnq : ~ In id (queue m))
    by (rewrite <- Q; intros E; rewrite E in Hterm; discriminate Hterm).
  assert (Hnc : current_command m <> Some id)
    by (rewrite <- X; intros E; rewrite E in Hterm; discriminate Hterm).
  destruct a as [cmd cb now| |s| |]; cbn [perform].
  - unfold add_command, ctx_of in *. cbn [contexts with_queue with_contexts].
    rewrite nth_error_app1; [exact Hctx|].
    apply nth_error_Some. congruence.
  - unfold process_queue_step.
    assert (Hd : ctx_of (dequeue m) id = Some ctx).
    { unfold dequeue. destruct (queue m) as [|k q] eqn:Hqueue; [exact Hctx|].
      match goal with
      | |- ctx_of ?x id = _ =>
          change (ctx_of x id)
            with (ctx_of (update_ctx m k (fun c => set_state c EXECUTING)) id)
      end.
      rewrite ctx_of_update_ctx.
      destruct (Nat.eqb k id) eqn:E; [|exact Hctx].
      apply Nat.eqb_eq in E. subst k. exfalso. apply Hnq. left. reflexivity. }
    destruct (proc m); try exact Hctx; [|exact Hd].
    destruct (_shutdown m); [exact Hctx|].
    destruct (is_processing m); [exact Hctx|exact Hd].
  - unfold ctx_of. rewrite contexts_task_finished.
    destruct (proc m); try exact Hctx.
    destruct (_current_task m) as [k|] eqn:Htask; [|exact Hctx].
    destruct (only_ctx_execute_command cbs k s m) as (_ & _ & Hoth).
    assert (Hne : id <> k) by (intros ->; apply Hnc; congruence).
    rewrite <- Hctx. exact (Hoth id Hne).
  - destruct (is_executing m) eqn:E.
    + rewrite (cancel_current_tank cbs m E). exact Hctx.
    + rewrite (cancel_current_idle cbs m E). exact Hctx.
  - unfold AsyncCommandManager.shutdown.
    destruct (is_executing (with_shutdown m true)) eqn:E.
    + rewrite (cancel_current_tank cbs _ E). exact Hctx.
    + rewrite (cancel_current_idle cbs _ E).
      destruct (drain_effect (queue (with_shutdown m true)) (with_shutdown m true)) as
        (m' & Hd & _ & _ & _ & _ & _ & _ & _ & _ & _ & _ & _ & _ & Hc').
      { cbn [queue unfinished_tasks with_shutdown]. rewrite Hu. unfold running.
        destruct (current_command m); lia. }
      rewrite Hd. cbn [snd]. rewrite Hc'.
      cbn [queue with_shutdown].
      replace (existsb (Nat.eqb id) (queue m)) with false
        by (symmetry; apply existsb_eqb_not_In; exact Hnq).
      exact Hctx.
Qed.

Lemma terminal_run_actions (l : list action) :
  forall (m : AsyncCommandManager.t TankHandler.t) (id : nat) (ctx : CommandContext),
    consistent m ->
    ctx_of m id = Some ctx -> is_terminal (state ctx) = true ->
    ctx_of (run_actions cbs m l) id = Some ctx.
Proof.
  induction l as [|a l IH]; intros m id ctx Hc Hctx Hterm; [exact Hctx|].
  cbn [run_actions fold_left]. apply IH.
  - now apply consistent_perform.
  - now apply terminal_perform.
  - exact Hterm.
Qed.

End TankFinal.

(** X2. With the Tank handler and a capacity of at least 1, a terminal state
    is final: once a command is [COMPLETED], [CANCELLED] or [FAILED], nothing
    that happens to the manager changes its state, its error or its
    result. *)
Theorem terminal_state_is_final (el : EventLoop TankHandler.t)
  (cbs : callbacks) (h : TankHandler.t) (capacity : Z) (l l' : list action)
  (id : nat) (ctx : CommandContext) :
  1 <= capacity ->
  let m := run_actions cbs (init h capacity) l in
  ctx_of m id = Some ctx ->
  is_terminal (state ctx) = true ->
  ctx_of (run_actions cbs m l') id = Some ctx.
Proof.
  intros Hc m Hctx Hterm.
  apply terminal_run_actions; [|exact Hctx|exact Hterm].
  apply consistent_run_actions. now apply consistent_init.
Qed.

(** X3. The processor takes the commands in the order of their submission:
    the command it makes current is the one that has been [QUEUED]
    longest. *)
Theorem processor_takes_oldest_queued (el : EventLoop TankHandler.t)
  (cbs : callbacks) (h : TankHandler.t) (capacity : Z) (l : list action)
  (id : nat) :
  1 <= capacity ->
  let m := run_actions cbs (init h capacity) l in
  current_command m = None ->
  current_command (process_queue_step m) = Some id ->
  state_of m id = Some QUEUED
  /\ state_of (process_queue_step m) id = Some EXECUTING
  /\ forall k ctx, ctx_of m k = Some ctx -> state ctx = QUEUED -> (id <= k)%nat.
Proof.
  intros Hc m Hnone Hsome.
  pose proof (consistent_run_actions cbs l (init h capacity) (consistent_init h capacity Hc))
    as Hm. fold m in Hm.
  pose proof (consistent_process_queue_step m Hm) as Hm'.
  destruct Hm as ((a & Ha & Hq) & Ht & Hp & Hi & Hu & Hmax & Hst & Hlt).
  assert (Hd : process_queue_step m = dequeue m /\ exists q, queue m = id :: q).
  { unfold process_queue_step in *.
    assert (Hdq : current_command (dequeue m) = Some id -> exists q, queue m = id :: q).
    { unfold dequeue. destruct (queue m) as [|k q].
      - cbn. rewrite Hnone. discriminate.
      - cbn. intros E. inversion E. exists q. reflexivity. }
    destruct (proc m).
    - destruct (_shutdown m); [cbn in Hsome; congruence|].
      destruct (is_processing m); [congruence|]. split; [reflexivity|auto].
    - split; [reflexivity|auto].
    - congruence.
    - congruence.
    - congruence.
    - congruence. }
  destruct Hd as (Hstep & q & Hqueue).
  rewrite Hqueue in Hq. symmetry in Hq.
  destruct (seq_cons_inv _ _ _ _ Hq) as (-> & Hq' & Hk).
  assert (Hex : exists c, ctx_of m a = Some c).
  { unfold ctx_of. destruct (nth_error (contexts m) a) eqn:E; [eauto|].
    apply nth_error_None in E. lia. }
  destruct Hex as [c Hcx].
  split; [|split].
  - unfold state_of. rewrite Hcx. cbn. f_equal.
    apply (Hst a c Hcx). rewrite Hqueue. left. reflexivity.
  - destruct Hm' as (_ & _ & _ & _ & _ & _ & Hst' & Hlt').
    pose proof (Hlt' a Hsome) as Hlt2.
    unfold state_of, ctx_of in *.
    destruct (nth_error (contexts (process_queue_step m)) a) as [c'|] eqn:E;
      [|apply nth_error_None in E; lia].
    cbn. f_equal. apply (Hst' a c' E). exact Hsome.
  - intros k ctx Hctx Hqd. apply (Hst k ctx Hctx) in Hqd.
    rewrite Hqueue in Hqd. destruct Hqd as [->|Hin]; [lia|].
    rewrite Hq' in Hin. apply in_seq in Hin. lia.
Qed.

Section StreamOutcome.

Context {H : Type} (cbs : callbacks).

Hypothesis callbacks_return : forall cb ctx, cbs cb ctx = Ok tt.

Lemma invoke_callback_calls (id : nat) (m : AsyncCommandManager.t H) (ctx : CommandContext) :
  ctx_of m id = Some ctx ->
  invoke_callback cbs id m = (Ok tt, with_calls m (calls m ++ final_call id ctx)).
Proof.
  intros Hctx. unfold invoke_callback, final_call. rewrite Hctx.
  destruct (callback ctx) as [cb|].
  - rewrite callbacks_return. reflexivity.
  - rewrite app_nil_r. destruct m; reflexivity.
Qed.

Lemma last_running_results (chunks : list string) :
  forall r, last (running_results chunks r) r = last_chunk chunks r.
Proof.
  unfold last_chunk.
  induction chunks as [|c chunks IH]; intros r; [reflexivity|].
  cbn [running_results filter].
  destruct (nonempty c).
  - cbn [map]. rewrite !last_cons. apply IH.
  - rewrite last_cons. apply IH.
Qed.

Lemma consume_calls (id : nat) (chunks : list string) :
  forall (lr : option string) (m : AsyncCommandManager.t H) (ctx : CommandContext),
    ctx_of m id = Some ctx ->
    exists m',
      consume cbs id chunks lr m = (Ok (last_chunk chunks lr), m')
      /\ ctx_of m' id = Some (set_result ctx (last_chunk chunks (result ctx)))
      /\ calls m' = calls m ++ chunk_calls id ctx chunks.
Proof.
  induction chunks as [|c chunks IH]; intros lr m ctx Hctx.
  - exists m. split; [reflexivity|]. split.
    + rewrite Hctx. destruct ctx; reflexivity.
    + unfold chunk_calls. cbn. destruct (callback ctx); rewrite app_nil_r; reflexivity.
  - cbn [consume].
    destruct (nonempty c) eqn:Hne.
    + pose proof (ctx_of_update_same m id (fun x => set_result x (Some c)) ctx Hctx) as Hu.
      rewrite (invoke_callback_calls id _ _ Hu).
      match goal with
      | |- context [consume cbs id chunks (Some c) ?x] =>
          destruct (IH (Some c) x (set_result ctx (Some c))) as (m' & Hm' & Hc' & Hl')
      end.
      { exact Hu. }
      exists m'. split.
      { rewrite Hm'. unfold last_chunk. cbn [filter]. rewrite Hne. cbn [map].
        rewrite !last_cons. reflexivity. }
      split.
      { rewrite Hc'. unfold last_chunk. cbn [filter]. rewrite Hne. cbn [map].
        rewrite !last_cons. reflexivity. }
      rewrite Hl'. cbn [calls with_calls update_ctx with_contexts].
      unfold chunk_calls, final_call. cbn [callback set_result result running_results].
      rewrite Hne.
      destruct (callback ctx); cbn [map]; rewrite <- app_assoc; reflexivity.
    + rewrite (invoke_callback_calls id _ _ Hctx).
      match goal with
      | |- context [consume cbs id chunks lr ?x] =>
          destruct (IH lr x ctx) as (m' & Hm' & Hc' & Hl')
      end.
      { exact Hctx. }
      exists m'. split.
      { rewrite Hm'. unfold last_chunk. cbn [filter]. rewrite Hne. reflexivity. }
      split.
      { rewrite Hc'. unfold last_chunk. cbn [filter]. rewrite Hne. reflexivity. }
      rewrite Hl'. cbn [calls with_calls].
      unfold chunk_calls, final_call. cbn [running_results]. rewrite Hne.
      destruct (callback ctx) eqn:Hcb; cbn [map]; rewrite <- app_assoc.
      * destruct ctx; cbn in *. reflexivity.
      * reflexivity.
Qed.

End StreamOutcome.

Lemma length_running_results (chunks : list string) :
  forall r, List.length (running_results chunks r) = List.length chunks.
Proof.
  induction chunks as [|c cs IH]; intros r; [reflexivity|].
  cbn [running_results List.length]. now rewrite IH.
Qed.

(** X4. On a stream that ends without raising, [_execute_command] calls the
    callback of the command once for every chunk, empty chunks included, in
    order; each call sees the context with [result] at the latest chunk that
    is not empty and with the state and the error it had before the stream.
    The final state is assigned after the last call: no call of the callback
    sees it.  A command without a callback causes no call. *)
Theorem callback_once_per_chunk {H : Type} (cbs : callbacks)
  (m : AsyncCommandManager.t H) (id : nat) (ctx : CommandContext)
  (chunks : list string) :
  (forall cb c, cbs cb c = Ok tt) ->
  ctx_of m id = Some ctx ->
  exists m',
    _execute_command cbs id (chunks, Ok tt) m = (Ok tt, m')
    /\ calls m' = calls m ++ chunk_calls id ctx chunks
    /\ List.length (chunk_calls id ctx chunks)
       = match callback ctx with Some _ => List.length chunks | None => 0%nat end
    /\ Forall (fun call => fst call = id
                           /\ state (snd call) = state ctx
                           /\ error (snd call) = error ctx)
         (chunk_calls id ctx chunks)
    /\ option_map result (ctx_of m' id) = Some (last_chunk chunks (result ctx)).
Proof.
  intros Hret Hctx. unfold _execute_command. cbn [fst snd].
  destruct (consume_calls cbs Hret id chunks None m ctx Hctx) as (m1 & Hm1 & Hc1 & Hl1).
  rewrite Hm1.
  assert (Hall : Forall (fun call => fst call = id
                                     /\ state (snd call) = state ctx
                                     /\ error (snd call) = error ctx)
                   (chunk_calls id ctx chunks)).
  { unfold chunk_calls. destruct (callback ctx); [|constructor].
    apply Forall_forall. intros call Hin. apply in_map_iff in Hin.
    destruct Hin as (r & <- & _). repeat split. }
  assert (Hcount : List.length (chunk_calls id ctx chunks)
                   = match callback ctx with
                     | Some _ => List.length chunks
                     | None => 0%nat
                     end).
  { unfold chunk_calls. destruct (callback ctx); [|reflexivity].
    rewrite length_map. apply length_running_results. }
  destruct (is_marker (last_chunk chunks None)); eexists;
    (split; [reflexivity|]); cbn [calls update_ctx with_contexts];
    (split; [exact Hl1|]); (split; [exact Hcount|]); (split; [exact Hall|]);
    match goal with
    | |- option_map result (ctx_of (update_ctx m1 id ?f) id) = _ =>
        rewrite (ctx_of_update_same m1 id f _ Hc1)
    end; reflexivity.
Qed.

Lemma callback_once_per_chunk_witness :
  exists m',
    _execute_command Shipped.quiet 0 (["Working"; ""; "Task completed"]%string, Ok tt)
      Shipped.busy_manager = (Ok tt, m')
    /\ map (fun call => (state (snd call), result (snd call))) (calls m')
       = [(EXECUTING, Some "Working"%string); (EXECUTING, Some "Working"%string);
          (EXECUTING, Some "Task completed"%string)]
    /\ option_map state (ctx_of m' 0) = Some COMPLETED.
Proof.
  destruct (callback_once_per_chunk Shipped.quiet Shipped.busy_manager 0
              (mkContext "click the button" (Some 0%nat) 0 EXECUTING None None)
              ["Working"; ""; "Task completed"]%string
              (fun _ _ => eq_refl) eq_refl) as (m' & Hrun & Hcalls & _).
  exists m'. split; [exact Hrun|]. split.
  - rewrite Hcalls. reflexivity.
  - assert (E : snd (_execute_command Shipped.quiet 0
                       (["Working"; ""; "Task completed"]%string, Ok tt)
                       Shipped.busy_manager) = m') by (rewrite Hrun; reflexivity).
    rewrite <- E. reflexivity.
Defined.

(** A stream that ends with a [CancelledError]: the command is marked and
    the exception goes on. *)
Lemma cancelled_stream_outcome {H : Type} (cbs : callbacks)
  (m : AsyncCommandManager.t H) (id : nat) (ctx : CommandContext)
  (chunks : list string) (msg : string) :
  (forall cb c, cbs cb c = Ok tt) ->
  ctx_of m id = Some ctx ->
  exists m',
    _execute_command cbs id (chunks, Raise (CancelledError msg)) m
    = (Raise (CancelledError msg), m')
    /\ ctx_of m' id
       = Some (set_error
                 (set_state (set_result ctx (last_chunk chunks (result ctx))) CANCELLED)
                 (Some CANCELLED_BY_USER)).
Proof.
  intros Hret Hctx. unfold _execute_command. cbn [fst snd].
  destruct (consume_calls cbs Hret id chunks None m ctx Hctx) as (m1 & Hm1 & Hc1 & Hl1).
  rewrite Hm1. unfold on_exception. cbn [is_Exception].
  pose proof (ctx_of_update_same m1 id
                (fun c => set_error (set_state c CANCELLED) (Some CANCELLED_BY_USER))
                _ Hc1) as Hu.
  rewrite (invoke_callback_calls cbs Hret id _ _ Hu).
  eexists. split; [reflexivity|exact Hu].
Qed.

(** X5. When the stream of the handler raises, [_execute_command] records it
    on the command and calls the callback once more with the outcome.  An
    exception of class [Exception] is swallowed: the state becomes [FAILED]
    and the error its text.  A [CancelledError] makes the state [CANCELLED]
    with the error "Command cancelled by user" and is raised again.  In both
    cases [result] stays at the latest chunk that was not empty. *)
Theorem stream_exception_is_recorded {H : Type} (cbs : callbacks)
  (m : AsyncCommandManager.t H) (id : nat) (ctx : CommandContext)
  (chunks : list string) (e : exn) :
  (forall cb c, cbs cb c = Ok tt) ->
  ctx_of m id = Some ctx ->
  let seen := set_result ctx (last_chunk chunks (result ctx)) in
  let failed := set_error (set_state seen FAILED) (Some (str_exn e)) in
  let cancelled := set_error (set_state seen CANCELLED) (Some CANCELLED_BY_USER) in
  exists m',
    _execute_command cbs id (chunks, Raise e) m
    = (if is_Exception e then Ok tt else Raise e, m')
    /\ ctx_of m' id = Some (if is_Exception e then failed else cancelled)
    /\ calls m'
       = calls m ++ chunk_calls id ctx chunks
         ++ final_call id (if is_Exception e then failed else cancelled).
Proof.
  intros Hret Hctx seen failed cancelled. unfold _execute_command. cbn [fst snd].
  destruct (consume_calls cbs Hret id chunks None m ctx Hctx) as (m1 & Hm1 & Hc1 & Hl1).
  rewrite Hm1. unfold on_exception.
  destruct (is_Exception e).
  - pose proof (ctx_of_update_same m1 id
                  (fun c => set_error (set_state c FAILED) (Some (str_exn e))) _ Hc1) as Hu.
    rewrite (invoke_callback_calls cbs Hret id _ _ Hu).
    eexists. split; [reflexivity|]. split; [exact Hu|].
    cbn [calls with_calls update_ctx with_contexts]. rewrite Hl1, <- app_assoc.
    reflexivity.
  - pose proof (ctx_of_update_same m1 id
                  (fun c => set_error (set_state c CANCELLED) (Some CANCELLED_BY_USER))
                  _ Hc1) as Hu.
    rewrite (invoke_callback_calls cbs Hret id _ _ Hu).
    eexists. split; [reflexivity|]. split; [exact Hu|].
    cbn [calls with_calls update_ctx with_contexts]. rewrite Hl1, <- app_assoc.
    reflexivity.
Qed.

Lemma stream_exception_is_recorded_witness :
  exists m',
    _execute_command Shipped.quiet 0
      (["Working"]%string, Raise (RuntimeError "connection lost"))
      Shipped.busy_manager = (Ok tt, m')
    /\ ctx_of m' 0
       = Some (mkContext "click the button" (Some 0%nat) 0 FAILED
                 (Some "connection lost"%string) (Some "Working"%string))
    /\ map (fun call => state (snd call)) (calls m') = [EXECUTING; FAILED].
Proof.
  destruct (stream_exception_is_recorded Shipped.quiet Shipped.busy_manager 0
              (mkContext "click the button" (Some 0%nat) 0 EXECUTING None None)
              ["Working"]%string (RuntimeError "connection lost")
              (fun _ _ => eq_refl) eq_refl) as (m' & Hrun & Hctx & Hcalls).
  exists m'. split; [exact Hrun|]. split; [exact Hctx|].
  rewrite Hcalls. reflexivity.
Defined.

Section AnyHandler.

Context {H : Type} {ho : Handler H} {el : EventLoop H} (cbs : callbacks).

(** [shutdown]'s loop, whether it comes to its end or not: the processor
    and the current command are as before, and each context is as before or
    has been marked by the loop. *)
Lemma drain_keeps (q : list nat) :
  forall m : AsyncCommandManager.t H,
    let m' := snd (drain q m) in
    proc m' = proc m
    /\ current_command m' = current_command m
    /\ is_processing m' = is_processing m
    /\ command_history m' = command_history m
    /\ max_history m' = max_history m
    /\ (_shutdown m' = _shutdown m)
    /\ List.length (contexts m') = List.length (contexts m)
    /\ forall id, ctx_of m' id = ctx_of m id
                  \/ ctx_of m' id = option_map shut_down (ctx_of m id).
Proof.
  induction q as [|k q IH]; intros m; [cbn; repeat split; intros; now left|].
  cbn [drain]. unfold task_done.
  cbn [unfinished_tasks with_queue update_ctx with_contexts].
  set (m1 := update_ctx m k (fun c => set_error (set_state c CANCELLED)
                                        (Some "Command manager shutdown"%string))).
  assert (Hone : forall id, ctx_of m1 id = ctx_of m id
                            \/ ctx_of m1 id = option_map shut_down (ctx_of m id)).
  { intros id. unfold m1. rewrite ctx_of_update_ctx.
    destruct (Nat.eqb k id); [right; reflexivity|left; reflexivity]. }
  assert (Hl1 : List.length (contexts m1) = List.length (contexts m))
    by (unfold m1, update_ctx; cbn; apply length_update_nth).
  destruct (unfinished_tasks m <=? 0).
  - cbn [snd proc current_command is_processing command_history max_history _shutdown
         contexts].
    repeat split; try exact Hl1. exact Hone.
  - match goal with
    | |- context [drain q ?x] =>
        destruct (IH x) as (I1 & I2 & I3 & I4 & I5 & I6 & I7 & I8)
    end.
    cbv zeta. rewrite I1, I2, I3, I4, I5, I6, I7.
    repeat split; try exact Hl1.
    intros id. destruct (I8 id) as [E|E]; rewrite E;
      match goal with
      | |- context [ctx_of ?x id] => change (ctx_of x id) with (ctx_of m1 id)
      end.
    + exact (Hone id).
    + destruct (Hone id) as [E1|E1]; rewrite E1; [right; reflexivity|].
      right. destruct (ctx_of m id) as [[? ? ? ? ? ?]|]; reflexivity.
Qed.

Lemma idle_without_current (m : AsyncCommandManager.t H) :
  current_command m = None -> is_executing m = false.
Proof. intros E. unfold is_executing. rewrite E. reflexivity. Qed.

Lemma idle_none_executing (m : AsyncCommandManager.t H) :
  none_executing m -> is_executing m = false.
Proof.
  intros Hn. unfold is_executing, state_of.
  destruct (current_command m) as [id|]; [|reflexivity].
  destruct (ctx_of m id) as [ctx|] eqn:E; [|reflexivity].
  cbn. pose proof (Hn id ctx E). destruct (state ctx); congruence.
Qed.

Lemma none_executing_shut_down (m m' : AsyncCommandManager.t H) :
  none_executing m ->
  (forall id, ctx_of m' id = ctx_of m id
              \/ ctx_of m' id = option_map shut_down (ctx_of m id)) ->
  none_executing m'.
Proof.
  intros Hn Hc id ctx Hctx. destruct (Hc id) as [E|E]; rewrite E in Hctx.
  - exact (Hn id ctx Hctx).
  - destruct (ctx_of m id); [|discriminate Hctx]. inversion Hctx. discriminate.
Qed.

Lemma none_executing_add (m : AsyncCommandManager.t H) cmd cb now :
  none_executing m -> none_executing (add_command m cmd cb now).
Proof.
  intros Hn id ctx Hctx. unfold add_command, ctx_of in Hctx.
  cbn [contexts with_queue with_contexts] in Hctx.
  destruct (Nat.lt_ge_cases id (List.length (contexts m))) as [Hlt|Hge].
  - rewrite nth_error_app1 in Hctx by exact Hlt. exact (Hn id ctx Hctx).
  - rewrite nth_error_app2 in Hctx by exact Hge.
    destruct (id - List.length (contexts m))%nat as [|[|d]]; try discriminate Hctx.
    inversion Hctx. discriminate.
Qed.

(** A processor that has stopped, with no command current and none
    [EXECUTING], stays so whatever happens. *)
Lemma stopped_perform (m : AsyncCommandManager.t H) (a : action) (p : processor) :
  p = Killed \/ p = Exited ->
  proc m = p -> current_command m = None -> none_executing m ->
  proc (perform cbs m a) = p
  /\ current_command (perform cbs m a) = None
  /\ none_executing (perform cbs m a).
Proof.
  intros Hp Hproc Hcur Hn.
  destruct a as [cmd cb now| |s| |]; cbn [perform].
  - repeat split; try assumption. now apply none_executing_add.
  - unfold process_queue_step. rewrite Hproc.
    destruct Hp as [-> | ->]; repeat split; assumption.
  - rewrite task_finished_unfold. rewrite Hproc.
    destruct Hp as [-> | ->]; repeat split; assumption.
  - rewrite (cancel_current_idle cbs m (idle_without_current m Hcur)).
    repeat split; assumption.
  - unfold AsyncCommandManager.shutdown.
    rewrite (cancel_current_idle cbs (with_shutdown m true)
               (idle_without_current (with_shutdown m true) Hcur)).
    destruct (drain_keeps (queue (with_shutdown m true)) (with_shutdown m true))
      as (D1 & D2 & _ & _ & _ & _ & _ & D8).
    rewrite D1, D2. repeat split; try assumption.
    eapply none_executing_shut_down; [|exact D8]. exact Hn.
Qed.

Lemma stopped_run_actions (l : list action) (p : processor) :
  p = Killed \/ p = Exited ->
  forall m : AsyncCommandManager.t H,
    proc m = p -> current_command m = None -> none_executing m ->
    proc (run_actions cbs m l) = p
    /\ current_command (run_actions cbs m l) = None
    /\ none_executing (run_actions cbs m l).
Proof.
  intros Hp. induction l as [|a l IH]; intros m Hproc Hcur Hn;
    [repeat split; assumption|].
  cbn [run_actions fold_left].
  destruct (stopped_perform m a p Hp Hproc Hcur Hn) as (S1 & S2 & S3).
  now apply IH.
Qed.

End AnyHandler.

(** X6. When the task of a command ends with a [CancelledError], the
    [finally] block of [process_queue] runs and the exception leaves the
    coroutine: the command is [CANCELLED] and in the history, and the
    processor is gone.  Whatever happens to the manager afterwards, no
    command is made current or [EXECUTING] again. *)
Theorem cancelled_task_ends_the_processor {H : Type} {ho : Handler H}
  {el : EventLoop H} (cbs : callbacks) (m : AsyncCommandManager.t H)
  (id : nat) (chunks : list string) (msg : string) (l : list action) :
  (forall cb c, cbs cb c = Ok tt) ->
  awaiting m id ->
  let m1 := task_finished cbs (chunks, Raise (CancelledError msg)) m in
  let m2 := run_actions cbs m1 l in
  proc m1 = Killed
  /\ state_of m1 id = Some CANCELLED
  /\ command_history m1 = push_history (max_history m) (command_history m) id
  /\ proc m2 = Killed
  /\ current_command m2 = None
  /\ none_executing m2.
Proof.
  intros Hret (Hproc & Htask & (ctx & Hctx) & Hmax & Hu & Hoth) m1 m2.
  assert (Hm1 : proc m1 = Killed /\ current_command m1 = None
                /\ state_of m1 id = Some CANCELLED
                /\ command_history m1
                   = push_history (max_history m) (command_history m) id
                /\ none_executing m1).
  { unfold m1. rewrite task_finished_unfold. rewrite Hproc, Htask.
    destruct (cancelled_stream_outcome cbs m id ctx chunks msg Hret Hctx)
      as (m' & Hrun & Hc').
    pose proof (only_ctx_execute_command cbs id (chunks, Raise (CancelledError msg)) m)
      as (F & Hlen & Hk).
    cbn [is_Exception] in Hrun, Hc'. rewrite Hrun in *. cbn [snd] in F, Hlen, Hk.
    destruct F as (F1 & F2 & F3 & F4 & F5 & F6 & F7 & F8 & F9 & F10).
    rewrite finally_block_ok by (rewrite ?F9, ?F3; assumption).
    cbn [is_Exception proc with_proc current_command with_queue with_current
         command_history with_history].
    unfold none_executing, state_of, ctx_of.
    cbn [contexts with_proc with_queue with_current with_history].
    rewrite F8, F9. unfold ctx_of in Hc'. rewrite Hc'.
    repeat split.
    intros k c Hkc. destruct (Nat.eq_dec k id) as [->|Hne].
    - rewrite Hc' in Hkc. inversion Hkc. discriminate.
    - apply (Hoth k c Hne). rewrite <- (Hk k Hne). exact Hkc. }
  destruct Hm1 as (P1 & P2 & P3 & P4 & P5).
  destruct (stopped_run_actions cbs l Killed (or_introl eq_refl) m1 P1 P2 P5)
    as (S1 & S2 & S3).
  repeat split; assumption.
Qed.

Lemma cancelled_task_ends_the_processor_witness :
  awaiting Shipped.busy_manager 0
  /\ let m1 := @task_finished _ Shipped.quiet
                 (["Working"]%string, Raise (CancelledError "")) Shipped.busy_manager in
     let m2 := @run_actions _ _ Shipped.inert_loop Shipped.quiet m1
                 [Add "close the window" None 2; Advance] in
     proc m2 = Killed /\ current_command m2 = None.
Proof.
  assert (W : awaiting Shipped.busy_manager 0).
  { unfold awaiting. split; [reflexivity|]. split; [reflexivity|].
    split; [eexists; reflexivity|]. split; [cbn; lia|]. split; [cbn; lia|].
    intros [|[|k]] ctx Hk Hctx.
    - congruence.
    - cbn in Hctx. inversion Hctx. discriminate.
    - cbn in Hctx. destruct k; discriminate Hctx. }
  split; [exact W|].
  pose proof (cancelled_task_ends_the_processor (el := Shipped.inert_loop)
                Shipped.quiet Shipped.busy_manager 0 ["Working"]%string ""%string
                [Add "close the window" None 2; Advance] (fun _ _ => eq_refl) W) as T.
  cbv zeta in T |- *. split; [exact (proj1 (proj2 (proj2 (proj2 T))))
                             |exact (proj1 (proj2 (proj2 (proj2 (proj2 T)))))].
Defined.

Section Wedged.

Context {H : Type} {ho : Handler H} {el : EventLoop H} (cbs : callbacks).

Lemma never_ran_shut_down (ctx : CommandContext) : never_ran (shut_down ctx).
Proof. right. split; reflexivity. Qed.

Lemma wedged_perform (m : AsyncCommandManager.t H) (a : action) :
  wedged_at m -> wedged_at (perform cbs m a).
Proof.
  intros (W1 & W2 & W3 & W4 & W5 & W6 & W7).
  destruct a as [cmd cb now| |s| |]; cbn [perform].
  - unfold wedged_at.
    cbn [add_command is_processing proc command_history max_history current_command
         with_queue with_contexts].
    repeat (split; [assumption|]).
    split; [now apply none_executing_add|].
    intros id ctx Hid Hctx. unfold add_command, ctx_of in Hctx.
    cbn [contexts with_queue with_contexts] in Hctx.
    destruct (Nat.lt_ge_cases id (List.length (contexts m))) as [Hlt|Hge].
    + rewrite nth_error_app1 in Hctx by exact Hlt. exact (W7 id ctx Hid Hctx).
    + rewrite nth_error_app2 in Hctx by exact Hge.
      destruct (id - List.length (contexts m))%nat as [|[|d]]; try discriminate Hctx.
      inversion Hctx. left. split; reflexivity.
  - unfold process_queue_step.
    destruct W2 as [E|E]; rewrite E.
    + destruct (_shutdown m).
      * unfold wedged_at. cbn [with_proc is_processing proc command_history
                               max_history current_command].
        repeat (split; [assumption|]).
        split; [right; reflexivity|].
        repeat (split; [assumption|]). exact W7.
      * rewrite W1. unfold wedged_at. rewrite E. repeat (split; [assumption|]).
        split; [now left|]. repeat (split; [assumption|]). exact W7.
    + unfold wedged_at. rewrite E. repeat (split; [assumption|]).
      split; [now right|]. repeat (split; [assumption|]). exact W7.
  - rewrite task_finished_unfold.
    destruct W2 as [E|E]; rewrite E; unfold wedged_at; rewrite E;
      (repeat (split; [assumption|])); (split; [auto|]);
      (repeat (split; [assumption|])); exact W7.
  - rewrite (cancel_current_idle cbs m (idle_none_executing m W6)).
    unfold wedged_at. repeat (split; [assumption|]). exact W7.
  - unfold AsyncCommandManager.shutdown.
    rewrite (cancel_current_idle cbs (with_shutdown m true)
               (idle_none_executing (with_shutdown m true) W6)).
    destruct (drain_keeps (queue (with_shutdown m true)) (with_shutdown m true))
      as (D1 & D2 & D3 & D4 & D5 & _ & _ & D8).
    unfold wedged_at. rewrite D1, D2, D3, D4, D5.
    cbn [with_shutdown is_processing proc command_history max_history current_command].
    repeat (split; [assumption|]).
    split; [eapply none_executing_shut_down; [exact W6|exact D8]|].
    intros id ctx Hid Hctx. destruct (D8 id) as [E|E]; rewrite E in Hctx.
    + exact (W7 id ctx Hid Hctx).
    + change (ctx_of (with_shutdown m true) id) with (ctx_of m id) in Hctx.
      destruct (ctx_of m id); [|discriminate Hctx].
      inversion Hctx. apply never_ran_shut_down.
Qed.

Lemma wedged_run_actions (l : list action) :
  forall m : AsyncCommandManager.t H, wedged_at m -> wedged_at (run_actions cbs m l).
Proof.
  induction l as [|a l IH]; intros m W; [exact W|].
  cbn [run_actions fold_left]. apply IH. now apply wedged_perform.
Qed.

Lemma wedged_after_first (h : H) (capacity : Z) cmd cb now (s : stream) :
  capacity <= 0 ->
  wedged_at (run_actions cbs (init h capacity) [Add cmd cb now; Advance; Finish s]).
Proof.
  intros Hc. cbn [run_actions fold_left perform].
  set (m := process_queue_step (add_command (init h capacity) cmd cb now)).
  assert (Hp : proc m = AwaitingTask) by reflexivity.
  assert (Ht : _current_task m = Some 0%nat) by reflexivity.
  assert (Hh : command_history m = []) by reflexivity.
  assert (Hx : max_history m = capacity) by reflexivity.
  assert (Hi : is_processing m = true) by reflexivity.
  assert (Hcur : current_command m = Some 0%nat) by reflexivity.
  assert (Hn : List.length (contexts m) = 1%nat) by reflexivity.
  assert (Hc0 : ctx_of m 0 = Some (mkContext cmd cb now EXECUTING None None))
    by reflexivity.
  clearbody m.
  rewrite task_finished_unfold. rewrite Hp, Ht.
  pose proof (only_ctx_execute_command cbs 0 s m) as (F & Hlen & Hk).
  destruct (terminal_execute_command cbs 0 s m _ Hc0) as (ctx' & Hctx' & Hterm).
  destruct (_execute_command cbs 0 s m) as [r m1]; cbn [snd] in *.
  destruct F as (F1 & F2 & F3 & F4 & F5 & F6 & F7 & F8 & F9 & F10).
  rewrite Hh in F8. rewrite Hx in F9. rewrite Hi in F5. rewrite Hcur in F4.
  rewrite Hn in Hlen.
  unfold finally_block. rewrite F8, F9. cbn [List.length Z.of_nat].
  replace (0 >=? capacity) with true by (symmetry; rewrite Z.geb_leb; apply Z.leb_le; lia).
  assert (Hshape : wedged_at (with_proc m1 AtLoopTop)).
  { unfold wedged_at.
    cbn [with_proc is_processing proc command_history max_history current_command].
    rewrite F5, F8, F9, F4.
    split; [reflexivity|]. split; [now left|]. split; [reflexivity|].
    split; [exact Hc|]. split; [reflexivity|].
    assert (Honly : forall id ctx, ctx_of (with_proc m1 AtLoopTop) id = Some ctx ->
                      id = 0%nat /\ ctx = ctx').
    { intros id ctx Hctx. unfold ctx_of in *. cbn [with_proc contexts] in Hctx.
      destruct id as [|id].
      - rewrite Hctx' in Hctx. inversion Hctx. split; reflexivity.
      - assert (Hnone : nth_error (contexts m1) (S id) = None)
          by (apply nth_error_None; lia).
        rewrite Hnone in Hctx. discriminate Hctx. }
    split.
    - intros id ctx Hctx. destruct (Honly id ctx Hctx) as [-> ->].
      intros E. rewrite E in Hterm. discriminate Hterm.
    - intros id ctx Hid Hctx. destruct (Honly id ctx Hctx) as [-> _]. congruence. }
  destruct r as [u|e]; exact Hshape.
Qed.

End Wedged.

(** X7. With a history capacity of 0 or less the manager runs one command
    and no more.  When the task of the first command ends, the [finally]
    block pops from the empty history, the [IndexError] skips the rest of
    the block, and [is_processing] stays set with the first command as the
    current one.  Whatever happens afterwards, the history stays empty, no
    command is [EXECUTING], and every later command waits as [QUEUED] until
    a shutdown cancels it. *)
Theorem nonpositive_capacity_wedges_the_manager {H : Type} {ho : Handler H}
  {el : EventLoop H} (cbs : callbacks) (h : H) (capacity : Z)
  (cmd : string) (cb : option nat) (now : Z) (s : stream) (l : list action) :
  capacity <= 0 ->
  let m := run_actions cbs (init h capacity)
             (Add cmd cb now :: Advance :: Finish s :: l) in
  is_processing m = true
  /\ current_command m = Some 0%nat
  /\ command_history m = []
  /\ none_executing m
  /\ forall id ctx, id <> 0%nat -> ctx_of m id = Some ctx -> never_ran ctx.
Proof.
  intros Hc m.
  pose proof (wedged_run_actions cbs l _ (wedged_after_first cbs h capacity cmd cb now s Hc))
    as (W1 & W2 & W3 & W4 & W5 & W6 & W7).
  repeat split; assumption.
Qed.

Lemma nonpositive_capacity_wedges_the_manager_witness :
  0 <= 0
  /\ let m := @run_actions _ _ Shipped.inert_loop Shipped.quiet (init Shipped.tank 0)
                [Add "click the button" None 0; Advance;
                 Finish (["Task completed"], Ok tt);
                 Add "open the menu" None 1; Advance; Advance]%string in
     is_processing m = true /\ current_command m = Some 0%nat
     /\ command_history m = [].
Proof.
  split; [lia|].
  pose proof (nonpositive_capacity_wedges_the_manager (el := Shipped.inert_loop)
                Shipped.quiet Shipped.tank 0 "click the button" None 0
                (["Task completed"]%string, Ok tt)
                [Add "open the menu" None 1; Advance; Advance]%string ltac:(lia)) as T.
  cbv zeta in T |- *.
  split; [exact (proj1 T)|]. split; [exact (proj1 (proj2 T))|exact (proj1 (proj2 (proj2 T)))].
Defined.

(** X8. [shutdown()] does not stop a processor that is suspended on the
    empty queue: the flag is tested at the top of the loop only.  The call
    returns with the flag set, and the next command that is added is taken
    and becomes [EXECUTING] all the same. *)
Theorem waiting_processor_outlives_shutdown {H : Type} {ho : Handler H}
  {el : EventLoop H} (cbs : callbacks) (m : AsyncCommandManager.t H)
  (cmd : string) (cb : option nat) (now : Z) :
  proc m = InGet -> queue m = [] -> current_command m = None ->
  let id := List.length (contexts m) in
  let m1 := snd (AsyncCommandManager.shutdown cbs m) in
  let m2 := process_queue_step (add_command m1 cmd cb now) in
  fst (AsyncCommandManager.shutdown cbs m) = Ok tt
  /\ _shutdown m1 = true
  /\ proc m1 = InGet
  /\ _shutdown m2 = true
  /\ current_command m2 = Some id
  /\ ctx_of m2 id = Some (mkContext cmd cb now EXECUTING None None).
Proof.
  intros Hp Hq Hcur id m1 m2.
  assert (Hs : AsyncCommandManager.shutdown cbs m = (Ok tt, with_shutdown m true)).
  { unfold AsyncCommandManager.shutdown.
    rewrite (cancel_current_idle cbs (with_shutdown m true)
               (idle_without_current (with_shutdown m true) Hcur)).
    cbn [queue with_shutdown]. rewrite Hq. reflexivity. }
  unfold m2, m1. rewrite Hs. cbn [fst snd].
  unfold process_queue_step, add_command, dequeue.
  cbn [proc with_queue with_contexts with_shutdown queue]. rewrite Hp, Hq.
  cbn [app with_proc with_current with_queue update_ctx with_contexts _shutdown
       current_command contexts proc with_shutdown].
  repeat split.
  unfold ctx_of, update_ctx.
  cbn [contexts with_proc with_current with_contexts with_queue with_shutdown].
  rewrite nth_error_update_nth, Nat.eqb_refl.
  rewrite nth_error_app2 by (unfold id; lia).
  unfold id. rewrite Nat.sub_diag. reflexivity.
Qed.

Lemma waiting_processor_outlives_shutdown_witness :
  let m := process_queue_step Shipped.manager in
  proc m = InGet
  /\ let m2 := process_queue_step
                 (add_command
                    (snd (@AsyncCommandManager.shutdown _ _ Shipped.inert_loop
                            Shipped.quiet m))
                    "click the button" None 0) in
     _shutdown m2 = true
     /\ ctx_of m2 0 = Some (mkContext "click the button" None 0 EXECUTING None None).
Proof.
  cbv zeta. split; [reflexivity|].
  pose proof (waiting_processor_outlives_shutdown (el := Shipped.inert_loop)
                Shipped.quiet (process_queue_step Shipped.manager)
                "click the button" None 0 eq_refl eq_refl eq_refl) as T.
  cbv zeta in T.
  split; [exact (proj1 (proj2 (proj2 (proj2 T))))
         |exact (proj2 (proj2 (proj2 (proj2 (proj2 T)))))].
Defined.

Lemma terminal_state_is_final_witness :
  1 <= 100
  /\ ctx_of
       (@run_actions _ _ Shipped.inert_loop Shipped.quiet
          (@run_actions _ _ Shipped.inert_loop Shipped.quiet
             (init Shipped.tank 100) Shipped.three_commands)
          [Add "scroll down" None 3; Advance; Shutdown]%string) 0
     = Some (mkContext "click the button" None 0 COMPLETED None
               (Some "Task completed"%string)).
Proof.
  split; [lia|].
  exact (terminal_state_is_final Shipped.inert_loop Shipped.quiet Shipped.tank 100
           Shipped.three_commands [Add "scroll down" None 3; Advance; Shutdown]%string
           0 _ ltac:(lia) eq_refl eq_refl).
Defined.

Lemma processor_takes_oldest_queued_witness :
  1 <= 100
  /\ state_of
       (process_queue_step
          (@run_actions _ _ Shipped.inert_loop Shipped.quiet (init Shipped.tank 100)
             [Add "click the button" None 0; Add "open the menu" None 1]%string)) 0
     = Some EXECUTING.
Proof.
  split; [lia|].
  exact (proj1 (proj2
           (processor_takes_oldest_queued Shipped.inert_loop Shipped.quiet Shipped.tank
              100 [Add "click the button" None 0; Add "open the menu" None 1]%string
              0 ltac:(lia) eq_refl eq_refl))).
Defined.

Lemma shutdown_idle_witness :
  exists m',
    @AsyncCommandManager.shutdown _ _ Shipped.inert_loop Shipped.quiet
      (add_command Shipped.manager "click the button" None 0) = (Ok tt, m')
    /\ _shutdown m' = true
    /\ queue m' = []
    /\ ctx_of m' 0
       = Some (mkContext "click the button" None 0 CANCELLED
                 (Some "Command manager shutdown"%string) None).
Proof.
  destruct (@shutdown_idle _ _ Shipped.inert_loop Shipped.quiet
              (add_command Shipped.manager "click the button" None 0)
              eq_refl ltac:(cbn; lia))
    as (m' & Hrun & Hflag & Hq & _ & Hctx & _).
  exists m'. split; [exact Hrun|]. split; [exact Hflag|]. split; [exact Hq|].
  exact (Hctx 0%nat _ (or_introl eq_refl) eq_refl).
Defined.

Lemma same_screen_refl (c : TankClaudeController.t) : same_screen c c.
Proof. repeat split. Qed.

Lemma same_screen_stats (c c' : TankClaudeController.t) (ts : ToolStats) :
  same_screen c c' -> same_screen c (set_tool_stats c' ts).
Proof. intros H. exact H. Qed.

Lemma moves_same {A : Type} (c : TankClaudeController.t) (m : M A) :
  (forall st, trace (snd (m st)) = trace st /\ self (snd (m st)) = self st) ->
  moves_on_screen c m.
Proof.
  intros Hm st Hs. destruct (Hm st) as [Ht Hc]. split.
  - exists []. rewrite app_nil_r. split; [exact Ht|reflexivity].
  - rewrite Hc. exact Hs.
Qed.

Lemma moves_ret {A : Type} c (a : A) : moves_on_screen c (ret a).
Proof. apply moves_same. intros st. split; reflexivity. Qed.

Lemma moves_raise {A : Type} c (e : exn) : moves_on_screen c (raise (A := A) e).
Proof. apply moves_same. intros st. split; reflexivity. Qed.

Lemma moves_lift {A : Type} c (r : res A) : moves_on_screen c (lift r).
Proof. apply moves_same. intros st. split; reflexivity. Qed.

Lemma moves_event_index c : moves_on_screen c event_index.
Proof. apply moves_same. intros st. split; reflexivity. Qed.

Lemma moves_get_messages c : moves_on_screen c get_messages.
Proof. apply moves_same. intros st. split; reflexivity. Qed.

Lemma moves_put_messages c ms : moves_on_screen c (put_messages ms).
Proof. apply moves_same. intros st. split; reflexivity. Qed.

Lemma moves_put_self c c' : same_screen c c' -> moves_on_screen c (put_self c').
Proof.
  intros Hc st Hs. split; [|exact Hc].
  exists []. rewrite app_nil_r. split; reflexivity.
Qed.

Lemma moves_log c (e : event) : on_screen c e = true -> moves_on_screen c (log_event e).
Proof.
  intros He st Hs. split; [|exact Hs].
  exists [e]. split; [reflexivity|]. cbn [forallb]. rewrite He. reflexivity.
Qed.

Lemma moves_bind {A B : Type} c (m : M A) (k : A -> M B) :
  moves_on_screen c m -> (forall a, moves_on_screen c (k a)) ->
  moves_on_screen c (bind m k).
Proof.
  intros Hm Hk st Hs. unfold bind.
  destruct (Hm st Hs) as ((l1 & E1 & F1) & S1).
  destruct (m st) as [[a|e] st1]; cbn [snd] in *.
  - destruct (Hk a st1 S1) as ((l2 & E2 & F2) & S2).
    split; [|exact S2].
    exists (l1 ++ l2)%list. rewrite E2, E1, app_assoc, forallb_app, F1, F2.
    split; reflexivity.
  - split; [|exact S1]. exists l1. split; assumption.
Qed.

(** The controller that [get_self] returns has the screen of [c]. *)
Lemma moves_bind_self {B : Type} c (k : TankClaudeController.t -> M B) :
  (forall c', same_screen c c' -> moves_on_screen c (k c')) ->
  moves_on_screen c (bind get_self k).
Proof.
  intros Hk st Hs. unfold bind, get_self. exact (Hk (self st) Hs st Hs).
Qed.

Lemma moves_try_except {A : Type} c (body : M A) (handler : exn -> M A) :
  moves_on_screen c body -> (forall e, moves_on_screen c (handler e)) ->
  moves_on_screen c (try_except body handler).
Proof.
  intros Hb Hh st Hs. unfold try_except.
  destruct (Hb st Hs) as ((l1 & E1 & F1) & S1).
  destruct (body st) as [[a|e] st1]; cbn [snd] in *.
  - split; [|exact S1]. exists l1. split; assumption.
  - destruct (is_Exception e).
    + destruct (Hh e st1 S1) as ((l2 & E2 & F2) & S2).
      split; [|exact S2].
      exists (l1 ++ l2)%list. rewrite E2, E1, app_assoc, forallb_app, F1, F2.
      split; reflexivity.
    + split; [|exact S1]. exists l1. split; assumption.
Qed.

(** The steps that discharge [moves_on_screen] along the structure of a
    computation. *)
Ltac moves_step :=
  match goal with
  | |- moves_on_screen _ (bind get_self _) => apply moves_bind_self; intros ? ?
  | |- moves_on_screen _ (bind _ _) => apply moves_bind; [|intros ?]
  | |- moves_on_screen _ (try_except _ _) => apply moves_try_except; [|intros ?]
  | |- moves_on_screen _ (ret _) => apply moves_ret
  | |- moves_on_screen _ (raise _) => apply moves_raise
  | |- moves_on_screen _ (lift _) => apply moves_lift
  | |- moves_on_screen _ (put_self (set_tool_stats _ _)) =>
      apply moves_put_self; apply same_screen_stats; assumption
  | |- moves_on_screen _ get_messages => apply moves_get_messages
  | |- moves_on_screen _ (put_messages _) => apply moves_put_messages
  | |- moves_on_screen _ event_index => apply moves_event_index
  | |- moves_on_screen _ (log_event _) => apply moves_log; reflexivity
  | |- moves_on_screen _ (if ?b then _ else _) => destruct b
  | |- moves_on_screen _ (let (_, _) := ?p in _) => destruct p
  | |- moves_on_screen _ (match ?v with _ => _ end) => destruct v
  | H : _ |- _ => apply H
  end.

Ltac moves_auto := repeat moves_step.

Section PointerTargets.

Context (env : Env) (c : TankClaudeController.t).

Hypothesis wide : 1 <= screen_width c.
Hypothesis high : 1 <= screen_height c.

Lemma moves_os_input (call : os_call) :
  on_screen c (OsCall call) = true -> moves_on_screen c (os_input env call).
Proof.
  intros Hc. unfold os_input.
  apply moves_bind; [apply moves_event_index|intros n].
  apply moves_bind; [apply moves_log; exact Hc|intros _]. apply moves_lift.
Qed.

Lemma moves_os_position : moves_on_screen c (os_position env).
Proof. unfold os_position. moves_auto. Qed.

Lemma moves_capture : moves_on_screen c (_capture_screenshot env).
Proof. unfold _capture_screenshot. moves_auto. Qed.

Lemma moves_record_success : moves_on_screen c (record_success env).
Proof. unfold record_success, _update_tool_success_stats. moves_auto. Qed.

Lemma moves_keys_down (keys : list string) : moves_on_screen c (keys_down env keys).
Proof.
  induction keys as [|k keys IH]; cbn [keys_down]; moves_auto.
  apply moves_os_input. reflexivity.
Qed.

Lemma moves_keys_up (keys : list string) : moves_on_screen c (keys_up env keys).
Proof.
  induction keys as [|k keys IH]; cbn [keys_up]; moves_auto.
  apply moves_os_input. reflexivity.
Qed.

Lemma moves_type_chunks (chunks : list pyval) :
  moves_on_screen c (type_chunks env chunks).
Proof.
  induction chunks as [|x chunks IH]; cbn [type_chunks]; moves_auto.
  apply moves_os_input. reflexivity.
Qed.

(** Toward the OS the result of [scale_coordinates] is a point of the
    screen. *)
Lemma scale_api_within (fa : FloatArith) (c' : TankClaudeController.t) (x y : Z)
  (p : Z * Z) :
  same_screen c c' ->
  scale_coordinates_with fa c' API x y = Ok p ->
  within_screen c (fst p) (snd p) = true.
Proof.
  intros (Hcfg & Hox & Hoy & Hw & Hh) Hp.
  assert (Hb : offset_x c' <= fst p <= offset_x c' + screen_width c' - 1
               /\ offset_y c' <= snd p <= offset_y c' + screen_height c' - 1).
  { destruct (enabled (scaling (config c'))) eqn:He.
    - destruct (scale_api_axes_inv fa c' x y p He Hp) as [Hx Hy].
      split; eapply screen_axis_range; try eassumption; lia.
    - destruct (scale_disabled fa c' x y He) as [Hapi _].
      rewrite Hapi in Hp. inversion Hp; subst. cbn [fst snd]. lia. }
  unfold within_screen. rewrite <- Hox, <- Hoy, <- Hw, <- Hh.
  destruct Hb as [[B1 B2] [B3 B4]].
  apply Z.leb_le in B1, B2, B3, B4. rewrite B1, B2, B3, B4. reflexivity.
Qed.

(** What follows [scale_values] toward the OS gets a point of the
    screen. *)
Lemma moves_bind_scale {B : Type} (vx vy : pyval) (k : Z * Z -> M B) :
  (forall p, within_screen c (fst p) (snd p) = true -> moves_on_screen c (k p)) ->
  moves_on_screen c (bind (scale_values API vx vy) k).
Proof.
  intros Hk st Hs.
  assert (E : bind (scale_values API vx vy) k st
              = match (let? x := as_int vx in
                       let? y := as_int vy in
                       scale_coordinates (self st) API x y) with
                | Ok p => k p st
                | Raise e => (Raise e, st)
                end).
  { cbv [bind scale_values lift get_self].
    destruct (as_int vx) as [x|e]; [|reflexivity].
    destruct (as_int vy) as [y|e]; [|reflexivity].
    cbn [res_bind]. destruct (scale_coordinates (self st) API x y); reflexivity. }
  rewrite E. clear E.
  destruct (as_int vx) as [x|e]; cbn [res_bind].
  2:{ split; [exists []; rewrite app_nil_r; split; reflexivity|exact Hs]. }
  destruct (as_int vy) as [y|e]; cbn [res_bind].
  2:{ split; [exists []; rewrite app_nil_r; split; reflexivity|exact Hs]. }
  destruct (scale_coordinates (self st) API x y) as [p|e] eqn:Hp.
  - exact (Hk p (scale_api_within binary64 (self st) x y p Hs Hp) st Hs).
  - split; [exists []; rewrite app_nil_r; split; reflexivity|exact Hs].
Qed.

Lemma moves_mouse_action (action : pyval) (kw : kwargs) :
  moves_on_screen c (mouse_action env action kw).
Proof.
  pose proof moves_os_position. pose proof moves_record_success.
  unfold mouse_action, check_coordinate.
  apply moves_bind; [moves_auto|intros _].
  apply moves_bind; [moves_auto|intros vx].
  apply moves_bind; [moves_auto|intros vy].
  apply moves_bind_scale. intros [x y] Hp. cbn [fst snd] in Hp.
  apply moves_bind.
  - destruct (is_str action "mouse_move").
    + apply moves_bind; [apply moves_os_input; exact Hp|intros _]. apply moves_ret.
    + apply moves_bind; [apply moves_os_position|intros [startx starty]].
      apply moves_bind; [apply moves_os_input; reflexivity|intros _].
      apply moves_bind; [apply moves_os_input; exact Hp|intros _].
      apply moves_bind; [apply moves_os_input; reflexivity|intros _].
      apply moves_ret.
  - intros result_text. moves_auto.
Qed.

Lemma moves_execute_action (kw : kwargs) : moves_on_screen c (execute_action env kw).
Proof.
  pose proof moves_os_position. pose proof moves_capture.
  pose proof moves_record_success. pose proof moves_keys_down.
  pose proof moves_keys_up. pose proof moves_type_chunks.
  pose proof moves_mouse_action.
  unfold execute_action, pop_or_none.
  destruct (negb (truthy (get_or_none "action" kw))); [apply moves_raise|].
  destruct (is_str (get_or_none "action" kw) "screenshot"); [moves_auto|].
  destruct (is_str (get_or_none "action" kw) "mouse_move"
            || is_str (get_or_none "action" kw) "left_click_drag");
    [apply moves_mouse_action|].
  destruct (is_str (get_or_none "action" kw) "left_click"
            || is_str (get_or_none "action" kw) "right_click"
            || is_str (get_or_none "action" kw) "middle_click"
            || is_str (get_or_none "action" kw) "double_click").
  { unfold click_action.
    apply moves_bind; [|intros _; moves_auto].
    repeat match goal with
           | |- moves_on_screen c (if ?b then _ else _) => destruct b
           end; apply moves_os_input; reflexivity. }
  destruct (is_str (get_or_none "action" kw) "key"
            || is_str (get_or_none "action" kw) "type").
  { unfold keyboard_action. moves_auto. }
  destruct (is_str (get_or_none "action" kw) "cursor_position").
  { unfold cursor_position_action. moves_auto. }
  apply moves_raise.
Qed.

Lemma moves_execute_tool (kw : kwargs) : moves_on_screen c (_execute_tool env kw).
Proof.
  pose proof moves_execute_action.
  unfold _execute_tool. moves_auto.
Qed.

End PointerTargets.

(** X10. Whatever the input of a tool call and whatever the OS answers, every
    pointer movement of [_execute_tool] goes to a point of the screen of the
    controller: [offset_x <= x <= offset_x + screen_width - 1] and the same
    for [y]; the call changes neither the configuration nor the screen. *)
Theorem pointer_stays_on_screen (env : Env) (kw : kwargs) (st : State) :
  1 <= screen_width (self st) ->
  1 <= screen_height (self st) ->
  (exists l,
      trace (snd (_execute_tool env kw st)) = (trace st ++ l)%list
      /\ forallb is_os_call l = true
      /\ forall x y d,
           In (OsCall (MoveTo x y d)) l ->
           offset_x (self st) <= x <= offset_x (self st) + screen_width (self st) - 1
           /\ offset_y (self st) <= y
              <= offset_y (self st) + screen_height (self st) - 1)
  /\ same_screen (self st) (self (snd (_execute_tool env kw st))).
Proof.
  intros Hw Hh.
  destruct (moves_execute_tool env (self st) Hw Hh kw st (same_screen_refl _))
    as ((l & Hl & Hon) & Hs).
  split; [|exact Hs].
  exists l. split; [exact Hl|].
  destruct (os_only_execute_tool env kw st) as (l' & Hl' & Hos).
  rewrite Hl in Hl'. apply app_inv_head in Hl'. subst l'.
  split; [exact Hos|].
  intros x y d Hin. rewrite forallb_forall in Hon.
  pose proof (Hon _ Hin) as Hb. cbn [on_screen] in Hb. unfold within_screen in Hb.
  repeat (apply andb_true_iff in Hb; destruct Hb as [Hb ?]).
  repeat match goal with
         | E : (_ <=? _) = true |- _ => apply Z.leb_le in E
         end.
  lia.
Qed.

Lemma os_input_run (env : Env) (call : os_call) (st : State) :
  os_input env call st
  = (input_reply env (List.length (trace st)) call,
     mkState (self st) (trace st ++ [OsCall call]) (out st) (messages st)).
Proof. reflexivity. Qed.

Lemma get_removed_action (k : string) (kw : kwargs) :
  String.eqb k "action" = false ->
  get_or_none k (dict_remove "action" kw) = get_or_none k kw.
Proof. intros Hk. unfold get_or_none. now rewrite dict_get_remove_other. Qed.

Lemma execute_tool_fails (env : Env) (kw : kwargs) (st : State) (e : exn) :
  is_Exception e = true ->
  (forall s, execute_action env kw s = (Raise e, s)) ->
  _execute_tool env kw st = (Raise e, after_failed_call st).
Proof.
  intros He Hbody.
  unfold _execute_tool, try_except, bind, get_self, put_self, raise.
  rewrite Hbody, He. reflexivity.
Qed.

(** X11. A tool call that names no action, an action that is not one of the
    ten, or a keyboard action without a text raises a [ValueError] before
    anything reaches the OS: the events and the chunks are as before,
    [total_calls] and [error_count] are one more each, [success_count] and
    [average_duration] are unchanged. *)
Theorem undispatchable_call_fails_before_os (env : Env) (kw : kwargs) (st : State)
  (e : exn) :
  dispatch_failure env kw = Some e ->
  _execute_tool env kw st = (Raise e, after_failed_call st)
  /\ is_Exception e = true
  /\ trace (after_failed_call st) = trace st
  /\ total_calls (tool_stats (self (after_failed_call st)))
     = total_calls (tool_stats (self st)) + 1
  /\ error_count (tool_stats (self (after_failed_call st)))
     = error_count (tool_stats (self st)) + 1
  /\ success_count (tool_stats (self (after_failed_call st)))
     = success_count (tool_stats (self st)).
Proof.
  unfold dispatch_failure, known_action, TOOL_ACTIONS. cbn [existsb].
  set (action := get_or_none "action" kw).
  intros Hd.
  assert (He : is_Exception e = true).
  { destruct (negb (truthy action)); [inversion Hd; reflexivity|].
    match type of Hd with
    | (if negb ?b then _ else _) = _ => destruct (negb b)
    end; [inversion Hd; reflexivity|].
    match type of Hd with
    | (if ?b then _ else _) = _ => destruct b
    end; [inversion Hd; reflexivity|discriminate Hd]. }
  split; [|split; [exact He|repeat split]].
  apply execute_tool_fails; [exact He|]. intros s.
  unfold execute_action, pop_or_none. fold action.
  destruct (negb (truthy action)) eqn:Ht; [inversion Hd; reflexivity|].
  destruct (is_str action "screenshot") eqn:A1;
    [cbn [orb negb andb] in Hd;
     destruct (is_str action "key" || is_str action "type") eqn:K;
     [|discriminate Hd];
     exfalso; destruct action; try discriminate A1; cbn [is_str] in *;
     apply String.eqb_eq in A1; subst; discriminate K|].
  destruct (is_str action "mouse_move") eqn:A2;
    [cbn [orb negb andb] in Hd;
     destruct (is_str action "key" || is_str action "type") eqn:K;
     [|rewrite ?orb_true_r in Hd; cbn in Hd; discriminate Hd];
     exfalso; destruct action; try discriminate A2; cbn [is_str] in *;
     apply String.eqb_eq in A2; subst; discriminate K|].
  destruct (is_str action "left_click_drag") eqn:A3;
    [cbn [orb negb andb] in Hd;
     destruct (is_str action "key" || is_str action "type") eqn:K;
     [|rewrite ?orb_true_r in Hd; cbn in Hd; discriminate Hd];
     exfalso; destruct action; try discriminate A3; cbn [is_str] in *;
     apply String.eqb_eq in A3; subst; discriminate K|].
  destruct (is_str action "left_click") eqn:A4;
    [cbn [orb negb andb] in Hd;
     destruct (is_str action "key" || is_str action "type") eqn:K;
     [|rewrite ?orb_true_r in Hd; cbn in Hd; discriminate Hd];
     exfalso; destruct action; try discriminate A4; cbn [is_str] in *;
     apply String.eqb_eq in A4; subst; discriminate K|].
  destruct (is_str action "right_click") eqn:A5;
    [cbn [orb negb andb] in Hd;
     destruct (is_str action "key" || is_str action "type") eqn:K;
     [|rewrite ?orb_true_r in Hd; cbn in Hd; discriminate Hd];
     exfalso; destruct action; try discriminate A5; cbn [is_str] in *;
     apply String.eqb_eq in A5; subst; discriminate K|].
  destruct (is_str action "middle_click") eqn:A6;
    [cbn [orb negb andb] in Hd;
     destruct (is_str action "key" || is_str action "type") eqn:K;
     [|rewrite ?orb_true_r in Hd; cbn in Hd; discriminate Hd];
     exfalso; destruct action; try discriminate A6; cbn [is_str] in *;
     apply String.eqb_eq in A6; subst; discriminate K|].
  destruct (is_str action "double_click") eqn:A7;
    [cbn [orb negb andb] in Hd;
     destruct (is_str action "key" || is_str action "type") eqn:K;
     [|rewrite ?orb_true_r in Hd; cbn in Hd; discriminate Hd];
     exfalso; destruct action; try discriminate A7; cbn [is_str] in *;
     apply String.eqb_eq in A7; subst; discriminate K|].
  cbn [orb] in Hd |- *.
  destruct (is_str action "key" || is_str action "type") eqn:K.
  - assert (Hk : negb (is_str action "key" || (is_str action "type"
                        || (is_str action "cursor_position" || false))) = false).
    { apply orb_true_iff in K. destruct K as [-> | ->]; rewrite ?orb_true_r; reflexivity. }
    rewrite Hk in Hd. cbn [andb] in Hd.
    unfold keyboard_action. rewrite (get_removed_action "text" kw eq_refl).
    destruct (negb (truthy (get_or_none "text" kw))); [|discriminate Hd].
    inversion Hd. reflexivity.
  - apply orb_false_iff in K. destruct K as [K1 K2]. rewrite K1, K2 in Hd.
    cbn [orb andb] in Hd. rewrite orb_false_r in Hd.
    destruct (is_str action "cursor_position"); [discriminate Hd|].
    cbn [negb] in Hd. inversion Hd. reflexivity.
Qed.

Lemma undispatchable_call_fails_before_os_witness :
  _execute_tool Shipped.calm_env [("action", PStr "scroll")]%string
    (mkState Shipped.controller [] [] [])
  = (Raise (ValueError "Unknown action: scroll"),
     mkState
       (set_tool_stats Shipped.controller (mkToolStats 0 1 1 (S754_zero false)))
       [] [] []).
Proof.
  exact (proj1
           (undispatchable_call_fails_before_os Shipped.calm_env
              [("action", PStr "scroll")]%string
              (mkState Shipped.controller [] [] [])
              (ValueError "Unknown action: scroll") eq_refl)).
Defined.

(** ** The keyboard *)

Lemma trace_record_success (env : Env) (st : State) :
  trace (snd (record_success env st)) = trace st.
Proof.
  cbv [record_success _update_tool_success_stats bind event_index get_self put_self lift].
  cbn [self trace tool_stats set_tool_stats success_count average_duration].
  destruct (Binary64.mul_int _ _); [|reflexivity].
  destruct (Binary64.div_int _ _); reflexivity.
Qed.

Lemma execute_tool_trace (env : Env) (kw : kwargs) (st : State) :
  trace (snd (_execute_tool env kw st))
  = trace (snd (execute_action env kw
                  (mkState (set_tool_stats (self st) (bump_total_calls (tool_stats (self st))))
                     (trace st) (out st) (messages st))))
  /\ (forall e, fst (execute_action env kw
                       (mkState (set_tool_stats (self st)
                                   (bump_total_calls (tool_stats (self st))))
                          (trace st) (out st) (messages st))) = Raise e ->
                fst (_execute_tool env kw st) = Raise e).
Proof.
  cbv [_execute_tool try_except bind get_self put_self raise].
  destruct (execute_action env kw _) as [[a|e] st1]; cbn [fst snd].
  - split; [reflexivity|discriminate].
  - destruct (is_Exception e); cbn [fst snd trace]; (split; [reflexivity|]);
      intros e' E; exact E.
Qed.

Section Keyboard.

Context (env : Env).

Lemma keys_down_ok (keys : list string) :
  forall st,
    (forall i k, nth_error keys i = Some k ->
                 input_reply env (List.length (trace st) + i)
                   (KeyDown (lower (strip k))) = Ok tt) ->
    keys_down env keys st
    = (Ok tt,
       mkState (self st)
         (trace st ++ map (fun k => key_down (lower (strip k))) keys)
         (out st) (messages st)).
Proof.
  induction keys as [|k keys IH]; intros st Hok.
  - cbn. rewrite app_nil_r. destruct st; reflexivity.
  - cbn [keys_down map]. unfold bind. rewrite os_input_run.
    pose proof (Hok 0%nat k eq_refl) as H0. rewrite Nat.add_0_r in H0. rewrite H0.
    rewrite IH.
    + cbn [self trace out messages]. rewrite <- app_assoc. reflexivity.
    + intros i k' Hi. cbn [trace]. rewrite length_app. cbn [List.length].
      replace (List.length (trace st) + 1 + i)%nat
        with (List.length (trace st) + S i)%nat by lia.
      exact (Hok (S i) k' Hi).
Qed.

Lemma keys_up_ok (keys : list string) :
  forall st,
    (forall n call, input_reply env n call = Ok tt) ->
    keys_up env keys st
    = (Ok tt,
       mkState (self st)
         (trace st ++ map (fun k => key_up (lower (strip k))) keys)
         (out st) (messages st)).
Proof.
  induction keys as [|k keys IH]; intros st Hok.
  - cbn. rewrite app_nil_r. destruct st; reflexivity.
  - cbn [keys_up map]. unfold bind. rewrite os_input_run, Hok, (IH _ Hok).
    cbn [self trace out messages]. rewrite <- app_assoc. reflexivity.
Qed.

Lemma keys_down_fail (keys : list string) :
  forall st j k e,
    nth_error keys j = Some k ->
    (forall i k', (i < j)%nat -> nth_error keys i = Some k' ->
                  input_reply env (List.length (trace st) + i)
                    (KeyDown (lower (strip k'))) = Ok tt) ->
    input_reply env (List.length (trace st) + j) (KeyDown (lower (strip k))) = Raise e ->
    keys_down env keys st
    = (Raise e,
       mkState (self st)
         (trace st ++ map (fun k => key_down (lower (strip k))) (firstn (S j) keys))
         (out st) (messages st)).
Proof.
  induction keys as [|k0 keys IH]; intros st j k e Hj Hok Hfail.
  - destruct j; discriminate Hj.
  - cbn [keys_down]. unfold bind. rewrite os_input_run.
    destruct j as [|j].
    + cbn in Hj. inversion Hj; subst k0. rewrite Nat.add_0_r in Hfail.
      rewrite Hfail. cbn [firstn map]. reflexivity.
    + pose proof (Hok 0%nat k0 ltac:(lia) eq_refl) as H0.
      rewrite Nat.add_0_r in H0. rewrite H0.
      rewrite (IH _ j k e Hj).
      * cbn [self trace out messages firstn map]. rewrite <- app_assoc. reflexivity.
      * intros i k' Hi Hk'. cbn [trace]. rewrite length_app. cbn [List.length].
        replace (List.length (trace st) + 1 + i)%nat
          with (List.length (trace st) + S i)%nat by lia.
        apply Hok; [lia|exact Hk'].
      * cbn [trace]. rewrite length_app. cbn [List.length].
        replace (List.length (trace st) + 1 + j)%nat
          with (List.length (trace st) + S j)%nat by lia.
        exact Hfail.
Qed.

Lemma type_chunks_ok (chunks : list string) :
  forall st,
    (forall n call, input_reply env n call = Ok tt) ->
    type_chunks env (map PStr chunks) st
    = (Ok tt,
       mkState (self st) (trace st ++ map typewrite chunks) (out st) (messages st)).
Proof.
  induction chunks as [|c chunks IH]; intros st Hok.
  - cbn. rewrite app_nil_r. destruct st; reflexivity.
  - cbn [type_chunks map]. unfold bind. rewrite os_input_run, Hok, (IH _ Hok).
    cbn [self trace out messages]. rewrite <- app_assoc. reflexivity.
Qed.

(** The dispatch of a keyboard action that has its text. *)
Lemma execute_action_keyboard (kw : kwargs) (action txt : string) :
  action = "key"%string \/ action = "type"%string ->
  dict_get "action" kw = Some (PStr action) ->
  dict_get "text" kw = Some (PStr txt) ->
  txt <> EmptyString ->
  execute_action env kw
  = ((if String.eqb action "key"
      then keys_down env (split_plus txt) ;; keys_up env (rev (split_plus txt))
      else type_chunks env (map PStr (_chunk_string txt 50))) ;;
     record_success env ;;
     ret [TextItem ("Input text: " ++ txt)%string]).
Proof.
  intros Hact Ha Ht Hne.
  unfold execute_action, pop_or_none, keyboard_action.
  rewrite (get_removed_action "text" kw eq_refl).
  unfold get_or_none. rewrite Ha, Ht.
  assert (Htr : truthy (PStr txt) = true).
  { cbn [truthy]. apply negb_true_iff. apply String.eqb_neq. exact Hne. }
  rewrite Htr.
  destruct Hact as [-> | ->]; reflexivity.
Qed.

End Keyboard.

Lemma key_names_map (txt : string) :
  map (fun k => key_down (lower (strip k))) (split_plus txt)
  = map key_down (key_names txt).
Proof. unfold key_names. rewrite map_map. reflexivity. Qed.

(** X12. A key combination is pressed in the order of the text and released
    in the opposite order: when the keyboard takes every call, the events of
    an action "key" are [keyDown] for each part of the text split at "+",
    stripped and in lower case, then [keyUp] for the same keys from the last
    to the first. *)
Theorem key_combination_is_released_in_reverse (env : Env) (kw : kwargs)
  (st : State) (txt : string) :
  dict_get "action" kw = Some (PStr "key") ->
  dict_get "text" kw = Some (PStr txt) ->
  txt <> EmptyString ->
  (forall n call, input_reply env n call = Ok tt) ->
  trace (snd (_execute_tool env kw st))
  = (trace st ++ map key_down (key_names txt)
     ++ map key_up (rev (key_names txt)))%list.
Proof.
  intros Ha Ht Hne Hok.
  destruct (execute_tool_trace env kw st) as [-> _].
  rewrite (execute_action_keyboard env kw "key" txt (or_introl eq_refl) Ha Ht Hne).
  cbn [String.eqb Ascii.eqb Bool.eqb].
  unfold bind at 1. unfold bind at 1.
  rewrite keys_down_ok by (intros; apply Hok).
  rewrite keys_up_ok by exact Hok.
  unfold bind.
  match goal with
  | |- trace (snd (let (r, st') := record_success env ?s in _)) = _ =>
      pose proof (trace_record_success env s) as Htr;
      destruct (record_success env s) as [[u|e] s1]
  end; cbn [snd ret trace] in *; rewrite Htr;
    unfold key_names; rewrite <- map_rev, !map_map, <- app_assoc; reflexivity.
Qed.

Lemma key_combination_is_released_in_reverse_witness :
  trace (snd (_execute_tool Shipped.calm_env
                [("action", PStr "key"); ("text", PStr "Ctrl + Shift+T")]%string
                (mkState Shipped.controller [] [] [])))
  = [key_down "ctrl"; key_down "shift"; key_down "t";
     key_up "t"; key_up "shift"; key_up "ctrl"]%string.
Proof.
  exact (key_combination_is_released_in_reverse Shipped.calm_env
           [("action", PStr "key"); ("text", PStr "Ctrl + Shift+T")]%string
           (mkState Shipped.controller [] [] []) "Ctrl + Shift+T"
           eq_refl eq_refl ltac:(discriminate) (fun _ _ => eq_refl)).
Defined.

(** X13. A key combination whose key press fails is not released: when
    [keyDown] raises for one of the keys, the call raises that exception, the
    keys before it have been pressed, and no [keyUp] has been issued. *)
Theorem failed_key_press_releases_nothing (env : Env) (kw : kwargs)
  (st : State) (txt : string) (j : nat) (k : string) (e : exn) :
  dict_get "action" kw = Some (PStr "key") ->
  dict_get "text" kw = Some (PStr txt) ->
  txt <> EmptyString ->
  nth_error (key_names txt) j = Some k ->
  (forall i k', (i < j)%nat -> nth_error (key_names txt) i = Some k' ->
                input_reply env (List.length (trace st) + i) (KeyDown k') = Ok tt) ->
  input_reply env (List.length (trace st) + j) (KeyDown k) = Raise e ->
  fst (_execute_tool env kw st) = Raise e
  /\ trace (snd (_execute_tool env kw st))
     = (trace st ++ map key_down (firstn (S j) (key_names txt)))%list.
Proof.
  intros Ha Ht Hne Hj Hok Hfail.
  destruct (execute_tool_trace env kw st) as [Htr Hraise].
  rewrite Htr.
  assert (Hrun : execute_action env kw
                   (mkState (set_tool_stats (self st) (bump_total_calls (tool_stats (self st))))
                      (trace st) (out st) (messages st))
                 = (Raise e,
                    mkState (set_tool_stats (self st) (bump_total_calls (tool_stats (self st))))
                      (trace st ++ map key_down (firstn (S j) (key_names txt)))
                      (out st) (messages st))).
  { rewrite (execute_action_keyboard env kw "key" txt (or_introl eq_refl) Ha Ht Hne).
    cbn [String.eqb Ascii.eqb Bool.eqb].
    unfold key_names in Hj. rewrite nth_error_map in Hj.
    destruct (nth_error (split_plus txt) j) as [k0|] eqn:Hj0; [|discriminate Hj].
    cbn [option_map] in Hj. inversion Hj; subst k.
    unfold bind at 1. unfold bind at 1.
    rewrite (keys_down_fail env (split_plus txt) _ j k0 e Hj0).
    - cbn [self trace out messages]. unfold key_names.
      rewrite firstn_map, map_map. reflexivity.
    - intros i k' Hi Hk'. cbn [trace]. apply (Hok i (lower (strip k')) Hi).
      unfold key_names. rewrite nth_error_map, Hk'. reflexivity.
    - exact Hfail. }
  rewrite Hrun in *. split; [apply Hraise; reflexivity|reflexivity].
Qed.

Lemma failed_key_press_releases_nothing_witness :
  let run := _execute_tool Examples.stuck_shift_env
               [("action", PStr "key"); ("text", PStr "ctrl+shift+t")]%string
               (mkState Shipped.controller [] [] []) in
  fst run = Raise (OtherException "key is stuck")
  /\ trace (snd run) = [key_down "ctrl"; key_down "shift"]%string.
Proof.
  cbv zeta.
  apply (failed_key_press_releases_nothing Examples.stuck_shift_env
           [("action", PStr "key"); ("text", PStr "ctrl+shift+t")]%string
           (mkState Shipped.controller [] [] []) "ctrl+shift+t" 1 "shift"
           (OtherException "key is stuck")); try reflexivity.
  - discriminate.
  - intros [|i] k' Hi Hk; [|lia]. cbn in Hk. inversion Hk. reflexivity.
Defined.

(** ** Typing *)

Lemma substring_0_length (s : string) : String.substring 0 (String.length s) s = s.
Proof. induction s as [|c s IH]; cbn; [reflexivity|now rewrite IH]. Qed.

Lemma substring_split (n : nat) :
  forall s,
    (String.substring 0 n s ++ String.substring n (String.length s - n) s)%string = s.
Proof.
  induction n as [|n IH]; intros s.
  - rewrite Nat.sub_0_r, substring_0_length. destruct s; reflexivity.
  - destruct s as [|c s]; [reflexivity|].
    cbn [String.substring String.length Nat.sub String.append]. now rewrite IH.
Qed.

Lemma length_substring_rest (n : nat) :
  forall s,
    String.length (String.substring n (String.length s - n) s)
    = (String.length s - n)%nat.
Proof.
  induction n as [|n IH]; intros s.
  - rewrite Nat.sub_0_r, substring_0_length. reflexivity.
  - destruct s as [|c s]; [reflexivity|].
    cbn [String.substring String.length Nat.sub]. apply IH.
Qed.

Lemma length_substring_head (n : nat) :
  forall s, String.length (String.substring 0 n s) = Nat.min n (String.length s).
Proof.
  induction n as [|n IH]; intros s.
  - destruct s; reflexivity.
  - destruct s as [|c s]; [reflexivity|].
    cbn [String.substring String.length Nat.min]. now rewrite IH.
Qed.

Lemma chunks_from_joined (chunk_size : nat) :
  (1 <= chunk_size)%nat ->
  forall fuel s,
    (String.length s <= fuel)%nat ->
    joined (chunks_from fuel s chunk_size) = s
    /\ Forall (fun c => (1 <= String.length c <= chunk_size)%nat)
         (chunks_from fuel s chunk_size).
Proof.
  intros Hn. induction fuel as [|fuel IH]; intros s Hlen.
  - destruct s; [split; [reflexivity|constructor]|cbn in Hlen; lia].
  - destruct s as [|c s]; [split; [reflexivity|constructor]|].
    cbn [chunks_from joined fold_right].
    destruct (IH (String.substring chunk_size
                    (String.length (String c s) - chunk_size) (String c s)))
      as [Hj Hf].
    { rewrite length_substring_rest. cbn [String.length] in *. lia. }
    split.
    + fold (joined (chunks_from fuel
                      (String.substring chunk_size
                         (String.length (String c s) - chunk_size) (String c s))
                      chunk_size)).
      rewrite Hj. apply substring_split.
    + constructor; [|exact Hf].
      rewrite length_substring_head. cbn [String.length]. lia.
Qed.

(** X14. An action "type" sends the text to the keyboard whole and in order,
    in pieces of 50 characters at most: when the keyboard takes every call,
    the events of the action are one [typewrite] for each chunk, no chunk is
    empty or longer than 50, and the chunks put together are the text. *)
Theorem typing_sends_the_text_in_chunks (env : Env) (kw : kwargs) (st : State)
  (txt : string) :
  dict_get "action" kw = Some (PStr "type") ->
  dict_get "text" kw = Some (PStr txt) ->
  txt <> EmptyString ->
  (forall n call, input_reply env n call = Ok tt) ->
  exists chunks,
    trace (snd (_execute_tool env kw st)) = (trace st ++ map typewrite chunks)%list
    /\ joined chunks = txt
    /\ Forall (fun c => (1 <= String.length c <= 50)%nat) chunks.
Proof.
  intros Ha Ht Hne Hok.
  exists (_chunk_string txt 50).
  destruct (chunks_from_joined 50 ltac:(lia) (String.length txt) txt (Nat.le_refl _))
    as [Hj Hf].
  split; [|split; [exact Hj|exact Hf]].
  destruct (execute_tool_trace env kw st) as [-> _].
  rewrite (execute_action_keyboard env kw "type" txt (or_intror eq_refl) Ha Ht Hne).
  cbn [String.eqb Ascii.eqb Bool.eqb].
  unfold bind at 1.
  rewrite type_chunks_ok by exact Hok.
  unfold bind.
  match goal with
  | |- trace (snd (let (r, st') := record_success env ?s in _)) = _ =>
      pose proof (trace_record_success env s) as Htr;
      destruct (record_success env s) as [[u|e] s1]
  end; cbn [snd ret trace] in *; rewrite Htr; reflexivity.
Qed.

Lemma typing_sends_the_text_in_chunks_witness :
  exists chunks,
    trace (snd (_execute_tool Shipped.calm_env
                  [("action", PStr "type"); ("text", PStr "hello world")]%string
                  (mkState Shipped.controller [] [] [])))
    = map typewrite chunks
    /\ joined chunks = "hello world"%string.
Proof.
  destruct (typing_sends_the_text_in_chunks Shipped.calm_env
              [("action", PStr "type"); ("text", PStr "hello world")]%string
              (mkState Shipped.controller [] [] []) "hello world"
              eq_refl eq_refl ltac:(discriminate) (fun _ _ => eq_refl))
    as (chunks & Htr & Hj & _).
  exists chunks. split; [exact Htr|exact Hj].
Defined.

Lemma pointer_stays_on_screen_witness :
  1 <= 1920 /\ 1 <= 1080
  /\ same_screen Shipped.controller
       (self (snd (_execute_tool Shipped.calm_env
                     [("action", PStr "mouse_move");
                      ("coordinate", PList [PInt 5000; PInt (-3)])]%string
                     (mkState Shipped.controller [] [] [])))).
Proof.
  split; [lia|]. split; [lia|].
  exact (proj2 (pointer_stays_on_screen Shipped.calm_env
                  [("action", PStr "mouse_move");
                   ("coordinate", PList [PInt 5000; PInt (-3)])]%string
                  (mkState Shipped.controller [] [] [])
                  ltac:(cbn; lia) ltac:(cbn; lia))).
Defined.

Lemma keeps_same {A : Type} (m : M A) :
  (forall st, self (snd (m st)) = self st) -> keeps_self m.
Proof. intros H. exact H. Qed.










Section Counting.

Context (env : Env).














End Counting.


(** A text that is a list: typed as it is, in one call, and counted as a
    success; as a key combination it has no [split], and the call is
    counted as an error before any key is pressed. *)
Lemma typed_list_is_a_success :
  let run := _execute_tool Shipped.calm_env
               [("action", PStr "type"); ("text", PList [PStr "a"; PStr "b"])]%string
               (mkState Shipped.controller [] [] []) in
  trace (snd run) = [OsCall (Typewrite (PList [PStr "a"; PStr "b"]%string))]
  /\ success_count (tool_stats (self (snd run))) = 1
  /\ error_count (tool_stats (self (snd run))) = 0
  /\ total_calls (tool_stats (self (snd run))) = 1.
Proof. vm_compute. repeat split. Qed.

Lemma key_of_a_list_is_an_error :
  let run := _execute_tool Shipped.calm_env
               [("action", PStr "key"); ("text", PList [PStr "a"; PStr "b"])]%string
               (mkState Shipped.controller [] [] []) in
  fst run = Raise (AttributeError "'list' object has no attribute 'split'")
  /\ trace (snd run) = []
  /\ success_count (tool_stats (self (snd run))) = 0
  /\ error_count (tool_stats (self (snd run))) = 1
  /\ total_calls (tool_stats (self (snd run))) = 1.
Proof. vm_compute. repeat split. Qed.

(** ** The requests of the control loop *)

Lemma prune_blocks_zero (content : list block) :
  prune_blocks content 0 = (content, 0).
Proof.
  induction content as [|b content IH]; [reflexivity|].
  destruct b; cbn [prune_blocks]; try rewrite IH; reflexivity.
Qed.

Lemma prune_messages_zero (messages : list message) :
  prune_messages messages 0 = messages.
Proof.
  induction messages as [|m messages IH]; [reflexivity|].
  destruct m as [r [t|content]]; cbn [prune_messages msg_content_of msg_role].
  - now rewrite IH.
  - rewrite prune_blocks_zero, IH. reflexivity.
Qed.

Lemma total_images_all_images (messages : list message) :
  total_images messages = Z.of_nat (List.length (all_images messages)).
Proof. unfold total_images, all_images. apply total_images_of_length. Qed.

(** Pruning with a keep-count of 2 and batches of 2 returns, leaves three
    screenshots at most, and leaves a list that holds three at most as it
    is. *)
Lemma filter_two_two (messages : list message) :
  exists pruned,
    _maybe_filter_to_n_most_recent_images messages 2 2 = Ok pruned
    /\ total_images pruned <= 3
    /\ (total_images messages <= 3 -> pruned = messages).
Proof.
  unfold _maybe_filter_to_n_most_recent_images.
  set (K := total_images messages).
  pose proof (total_images_all_images messages) as HK. fold K in HK.
  destruct (K - 2 <=? 0) eqn:Hle.
  - apply Z.leb_le in Hle. exists messages. fold K.
    split; [reflexivity|]. split; [lia|]. intros _. reflexivity.
  - apply Z.leb_gt in Hle. cbn [Z.eqb].
    pose proof (Z.mod_pos_bound (K - 2) 2 ltac:(lia)) as Hmod.
    eexists. split; [reflexivity|].
    destruct (prune_messages_spec messages (K - 2 - (K - 2) mod 2) ltac:(lia)) as [Hi _].
    split.
    + rewrite total_images_all_images, Hi, length_skipn. lia.
    + intros H3. replace (K - 2 - (K - 2) mod 2) with 0.
      * apply prune_messages_zero.
      * assert (K = 3) by lia. subst K. rewrite H. reflexivity.
Qed.

Lemma tool_result_blocks_app (a b : list message) :
  tool_result_blocks (a ++ b) = (tool_result_blocks a ++ tool_result_blocks b)%list.
Proof.
  induction a as [|m a IH]; [reflexivity|].
  cbn [app tool_result_blocks]. destruct (msg_content_of m); rewrite IH;
    [reflexivity|apply app_assoc].
Qed.

Lemma total_images_of_app (a b : list (list item)) :
  total_images_of (a ++ b) = total_images_of a + total_images_of b.
Proof.
  induction a as [|x a IH]; [reflexivity|].
  cbn [app total_images_of]. rewrite IH. lia.
Qed.

Lemma total_images_app (a b : list message) :
  total_images (a ++ b) = total_images a + total_images b.
Proof. unfold total_images. now rewrite tool_result_blocks_app, total_images_of_app. Qed.

Lemma total_images_nonneg (messages : list message) : 0 <= total_images messages.
Proof. rewrite total_images_all_images. lia. Qed.

Lemma total_images_removelast (messages : list message) :
  total_images (removelast messages) <= total_images messages.
Proof.
  destruct messages as [|m messages]; [cbn; lia|].
  rewrite (app_removelast_last m (l := m :: messages)) at 2 by discriminate.
  rewrite total_images_app.
  pose proof (total_images_nonneg [last (m :: messages) m]). lia.
Qed.

Lemma next_request_small (messages : list message) :
  total_images (next_request messages) <= 3.
Proof.
  unfold next_request.
  destruct (filter_two_two messages) as (pruned & -> & Hsmall & _).
  destruct (last (map Some pruned) None) as [m|]; [|exact Hsmall].
  destruct (is_assistant m); [|exact Hsmall].
  pose proof (total_images_removelast pruned). lia.
Qed.

Section Requests.

Context (env : Env).

Lemma os_only_after_response (response : list content_block) :
  os_only (after_response env response).
Proof.
  pose proof (os_only_process_content env).
  unfold after_response. os_only_auto.
Qed.

Lemma os_only_report_error (e : exn) : os_only (report_error env e).
Proof. unfold report_error. os_only_auto. Qed.

(** One turn of the loop is the request for the pruned conversation and
    what follows it. *)
Lemma loop_iteration_run (st : State) :
  loop_iteration env st
  = try_except (bind (create_message env) (after_response env)) (report_error env)
      (with_messages st (next_request (messages st))).
Proof.
  unfold loop_iteration, next_request, with_messages.
  destruct (filter_two_two (messages st)) as (pruned & Hf & _ & _).
  unfold try_except at 1 2.
  unfold bind at 1, get_messages at 1. unfold bind at 1, lift at 1.
  rewrite Hf. unfold bind at 1, put_messages at 1.
  unfold bind at 1, drop_trailing_assistant, bind at 1, get_messages at 1.
  cbn [messages self trace out].
  destruct (last (map Some pruned) None) as [m|]; [destruct (is_assistant m)|];
    reflexivity.
Qed.

Lemma create_message_run (st : State) :
  client (self st) = true ->
  create_message env st
  = (model_reply env (List.length (trace st)) (messages st),
     mkState (self st)
       (trace st ++ [ModelCall (messages st)
                       (model_reply env (List.length (trace st)) (messages st))])
       (out st) (messages st)).
Proof.
  intros Hc. cbv [create_message bind get_self event_index get_messages log_event lift raise].
  rewrite Hc. reflexivity.
Qed.

Lemma create_message_no_client (st : State) :
  client (self st) = false ->
  create_message env st
  = (Raise (OtherException "'NoneType' object has no attribute 'beta'"), st).
Proof.
  intros Hc. cbv [create_message bind get_self raise]. rewrite Hc. reflexivity.
Qed.

(** The events of one turn: the request, if the session has a client, and
    calls to the OS after it. *)
Lemma loop_iteration_events (st : State) :
  exists l,
    trace (snd (loop_iteration env st))
    = (trace st
       ++ (if client (self st)
           then [ModelCall (next_request (messages st))
                   (model_reply env (List.length (trace st))
                      (next_request (messages st)))]
           else [])
       ++ l)%list
    /\ forallb is_os_call l = true.
Proof.
  rewrite loop_iteration_run. unfold try_except, bind, with_messages.
  destruct (client (self st)) eqn:Hc.
  - rewrite create_message_run by exact Hc. cbn [self trace out messages].
    set (st1 := mkState _ _ _ _).
    destruct (model_reply env (List.length (trace st)) (next_request (messages st)))
      as [response|e] eqn:Hreply.
    + destruct (os_only_after_response response st1) as (l & Hl & Hos).
      destruct (after_response env response st1) as [[a|e] st2]; cbn [snd] in *.
      * exists l. rewrite Hl. unfold st1. cbn [trace]. rewrite <- app_assoc.
        split; [reflexivity|exact Hos].
      * destruct (is_Exception e).
        -- destruct (os_only_report_error e st2) as (l2 & Hl2 & Hos2).
           exists (l ++ l2)%list. rewrite Hl2, Hl. unfold st1. cbn [trace].
           rewrite <- !app_assoc, forallb_app, Hos, Hos2. split; reflexivity.
        -- cbn [snd]. exists l. rewrite Hl. unfold st1. cbn [trace].
           rewrite <- app_assoc. split; [reflexivity|exact Hos].
    + destruct (is_Exception e).
      * destruct (os_only_report_error e st1) as (l2 & Hl2 & Hos2).
        exists l2. rewrite Hl2. unfold st1. cbn [trace]. rewrite <- app_assoc.
        split; [reflexivity|exact Hos2].
      * cbn [snd]. exists []. unfold st1. cbn [trace]. rewrite app_nil_r.
        split; reflexivity.
  - rewrite create_message_no_client by exact Hc. cbn [is_Exception].
    match goal with
    | |- context [report_error env ?e ?s] =>
        destruct (os_only_report_error e s) as (l2 & Hl2 & Hos2)
    end.
    exists l2. rewrite Hl2. cbn [trace app]. split; [reflexivity|exact Hos2].
Qed.

Lemma forallb_os_small (l : list event) :
  forallb is_os_call l = true -> forallb request_is_small l = true.
Proof.
  induction l as [|e l IH]; [reflexivity|]. cbn [forallb]. intros H.
  apply andb_true_iff in H. destruct H as [He Hl]. rewrite (IH Hl).
  destruct e; try discriminate He. reflexivity.
Qed.

Lemma loop_events (fuel : nat) :
  forall st, exists l,
    trace (snd (_process_message_loop env fuel st)) = (trace st ++ l)%list
    /\ forallb request_is_small l = true.
Proof.
  induction fuel as [|fuel IH]; intros st.
  - exists []. rewrite app_nil_r. split; reflexivity.
  - cbn [_process_message_loop]. unfold bind at 1, check_cancelled, bind at 1, get_self.
    destruct (_cancelled (self st)).
    + exists []. rewrite app_nil_r. split; reflexivity.
    + unfold ret at 1. unfold bind.
      destruct (loop_iteration_events st) as (l1 & Hl1 & Hos1).
      assert (Hsmall : forallb request_is_small
                         ((if client (self st)
                           then [ModelCall (next_request (messages st))
                                   (model_reply env (List.length (trace st))
                                      (next_request (messages st)))]
                           else []) ++ l1) = true).
      { rewrite forallb_app, (forallb_os_small l1 Hos1).
        destruct (client (self st)); [|reflexivity].
        cbn [forallb request_is_small].
        pose proof (next_request_small (messages st)) as Hn.
        apply Z.leb_le in Hn. rewrite Hn. reflexivity. }
      destruct (loop_iteration env st) as [[[e|]|x] st1]; cbn [snd] in *.
      * eexists. split; [exact Hl1|exact Hsmall].
      * destruct (IH st1) as (l2 & Hl2 & Hs2).
        eexists. rewrite Hl2, Hl1, <- !app_assoc. split; [reflexivity|].
        rewrite app_assoc, forallb_app, Hsmall, Hs2. reflexivity.
      * eexists. split; [exact Hl1|exact Hsmall].
Qed.

End Requests.


(** ** Exceptions in the control loop *)

Lemma try_except_raises {A : Type} (body : M A) (handler : exn -> M A)
  (st st' : State) (e : exn) :
  (forall e0 s, exists a, fst (handler e0 s) = Ok a) ->
  try_except body handler st = (Raise e, st') ->
  is_Exception e = false.
Proof.
  intros Hh. unfold try_except.
  destruct (body st) as [[a|x] st1]; [discriminate|].
  destruct (is_Exception x) eqn:Hx.
  - destruct (Hh x st1) as [a Ha]. intros E. rewrite E in Ha. discriminate Ha.
  - intros E. inversion E; subst. exact Hx.
Qed.

Lemma report_error_returns (env : Env) (e : exn) (s : State) :
  exists a, fst (report_error env e s) = Ok a.
Proof. eexists. reflexivity. Qed.

Lemma loop_iteration_raises (env : Env) (st st' : State) (e : exn) :
  loop_iteration env st = (Raise e, st') -> is_Exception e = false.
Proof.
  rewrite loop_iteration_run. apply try_except_raises. apply report_error_returns.
Qed.

Lemma loop_raises (env : Env) (fuel : nat) :
  forall st st' e,
    _process_message_loop env fuel st = (Raise e, st') -> is_Exception e = false.
Proof.
  induction fuel as [|fuel IH]; intros st st' e Hrun; [discriminate Hrun|].
  cbn [_process_message_loop] in Hrun.
  unfold bind at 1, check_cancelled, bind at 1, get_self in Hrun.
  destruct (_cancelled (self st)).
  - inversion Hrun. reflexivity.
  - unfold ret at 1 in Hrun. unfold bind in Hrun.
    destruct (loop_iteration env st) as [[[x|]|x] st1] eqn:Hit.
    + discriminate Hrun.
    + exact (IH _ _ _ Hrun).
    + inversion Hrun; subst. exact (loop_iteration_raises env _ _ _ Hit).
Qed.

(** X17. No exception of class [Exception] leaves the generators of the
    controller: whatever the model, the OS and the tool input do,
    [_process_message_loop] and [execute_command] either return or raise a
    cancellation.  An exception inside the loop ends it with a chunk
    "Error: ...", one outside it becomes a chunk "Command execution
    error: ...". *)
Theorem only_cancellation_leaves_the_controller (env : Env) (fuel : nat) :
  (forall st st' e,
      _process_message_loop env fuel st = (Raise e, st') -> is_Exception e = false)
  /\ (forall command st st' e,
         TankClaudeController.execute_command env fuel command st = (Raise e, st') ->
         is_Exception e = false).
Proof.
  split; [apply loop_raises|].
  intros command st st' e. unfold TankClaudeController.execute_command.
  destruct (negb (nonempty (strip command))); [discriminate|].
  apply try_except_raises. intros e0 s. eexists. reflexivity.
Qed.

(** X18. When the request to the model raises an exception of class
    [Exception], the loop yields the chunk "Error: " followed by the text of
    the exception and ends without raising; no tool runs, and the
    conversation is the request that failed. *)
Theorem model_failure_is_reported (env : Env) (fuel : nat) (st : State) (e : exn) :
  client (self st) = true ->
  _cancelled (self st) = false ->
  is_Exception e = true ->
  model_reply env (List.length (trace st)) (next_request (messages st)) = Raise e ->
  exists st',
    _process_message_loop env (S fuel) st = (Ok ErrorReported, st')
    /\ out st' = (out st ++ ["Error: " ++ str_exn e]%string)%list
    /\ trace st'
       = (trace st ++ [ModelCall (next_request (messages st)) (Raise e)])%list
    /\ messages st' = next_request (messages st).
Proof.
  intros Hc Hn He Hreply.
  cbn [_process_message_loop].
  unfold bind at 1, check_cancelled, bind at 1, get_self. rewrite Hn.
  unfold ret at 1. unfold bind at 1.
  rewrite loop_iteration_run. unfold try_except, bind at 1.
  rewrite create_message_run by exact Hc.
  unfold with_messages. cbn [self trace out messages]. rewrite Hreply, He.
  eexists. split; [reflexivity|].
  cbn. repeat split.
Qed.

Lemma model_failure_is_reported_witness :
  exists st',
    _process_message_loop Examples.offline_env 1 Shipped.scripted_start
    = (Ok ErrorReported, st')
    /\ out st' = ["Error: connection refused"]%string.
Proof.
  destruct (model_failure_is_reported Examples.offline_env 0 Shipped.scripted_start
              (RuntimeError "connection refused") eq_refl eq_refl eq_refl eq_refl)
    as (st' & Hrun & Hout & _).
  exists st'. split; [exact Hrun|exact Hout].
Defined.

(** ** The start and the end of a command *)

(** X19. A cancellation that was requested before a command starts is
    forgotten: [execute_command] clears the flag before it enters the loop,
    so the command runs as if no cancellation had been requested (the
    session being open, or opening without an error). *)
Theorem pending_cancellation_is_forgotten (env : Env) (fuel : nat)
  (command : string) (c : TankClaudeController.t) (tr : list event)
  (o : list string) (ms : list message) (b : bool) :
  nonempty (strip command) = true ->
  TankClaudeController._is_initialized c = true \/ create_client env = Ok tt ->
  TankClaudeController.execute_command env fuel command
    (mkState (set_cancelled c b) tr o ms)
  = TankClaudeController.execute_command env fuel command
      (mkState (set_cancelled c false) tr o ms).
Proof.
  intros Hne Hinit. unfold TankClaudeController.execute_command. rewrite Hne.
  cbn [negb].
  cbv [try_except bind get_self put_self ret TankClaudeController.init_session lift
       log_event put_messages].
  cbn [self trace out messages set_cancelled set_session
       TankClaudeController._is_initialized].
  destruct (TankClaudeController._is_initialized c) eqn:Hi.
  - reflexivity.
  - destruct Hinit as [Hinit|Hinit]; [discriminate Hinit|].
    rewrite Hinit.
    cbn [self trace out messages set_cancelled set_session
         TankClaudeController._is_initialized is_Exception].
    rewrite Hi. reflexivity.
Qed.

Lemma pending_cancellation_is_forgotten_witness :
  nonempty (strip "click the button") = true
  /\ TankClaudeController.execute_command Shipped.scripted_env 5 "click the button"
       (mkState (set_cancelled (set_session Shipped.controller true true) true) [] [] [])
     = TankClaudeController.execute_command Shipped.scripted_env 5 "click the button"
         (mkState (set_cancelled (set_session Shipped.controller true true) false)
            [] [] []).
Proof.
  split; [reflexivity|].
  exact (pending_cancellation_is_forgotten Shipped.scripted_env 5 "click the button"
           (set_session Shipped.controller true true) [] [] [] true
           eq_refl (or_introl eq_refl)).
Defined.

Lemma try_except_Ok {A : Type} (body : M A) (handler : exn -> M A)
  (st st' : State) (a : A) :
  try_except body handler st = (Ok a, st') ->
  body st = (Ok a, st')
  \/ exists x s1, body st = (Raise x, s1) /\ handler x s1 = (Ok a, st').
Proof.
  unfold try_except. destruct (body st) as [[b|x] s1].
  - intros E. left. exact E.
  - destruct (is_Exception x); [|discriminate].
    intros E. right. exists x, s1. split; [reflexivity|exact E].
Qed.

Lemma try_cancelled_Ok {A : Type} (body : M A) (handler : exn -> M A)
  (st st' : State) (a : A) :
  try_cancelled body handler st = (Ok a, st') ->
  body st = (Ok a, st')
  \/ exists x s1, body st = (Raise x, s1) /\ handler x s1 = (Ok a, st').
Proof.
  unfold try_cancelled. destruct (body st) as [[b|x] s1].
  - intros E. left. exact E.
  - destruct (is_Exception x); [discriminate|].
    intros E. right. exists x, s1. split; [reflexivity|exact E].
Qed.

(** X20. When a command has run to the end of its loop, the history the
    controller keeps for the next command is the slice
    [messages[-history_size:]] of the conversation: with a [history_size] of
    1 or more its last [history_size] messages, and no more than that; with
    a [history_size] of 0 the whole conversation, since [messages[-0:]] is
    [messages[0:]]. *)
Theorem history_is_the_tail_of_the_conversation (env : Env) (fuel : nat)
  (command : string) (st st' : State) (e : loop_end) :
  TankClaudeController.execute_command env fuel command st = (Ok (Some e), st') ->
  e <> OutOfFuel ->
  let size := history_size (config (self st')) in
  history (self st') = slice_from (messages st') (- size)
  /\ (1 <= size ->
      Z.of_nat (List.length (history (self st'))) <= size
      /\ history (self st')
         = skipn (List.length (messages st') - Z.to_nat size) (messages st'))
  /\ (size = 0 -> history (self st') = messages st').
Proof.
  intros Hrun Hfuel size.
  assert (Hh : history (self st') = slice_from (messages st') (- size)).
  { unfold TankClaudeController.execute_command in Hrun.
    destruct (negb (nonempty (strip command))); [discriminate Hrun|].
    apply try_except_Ok in Hrun.
    destruct Hrun as [Hrun|(x & s1 & _ & Hh)]; [|discriminate Hh].
    invert_run Hrun.
    apply try_cancelled_Ok in Hrun.
    destruct Hrun as [Hrun|(x & s1' & _ & Hh)];
      [|unfold bind, yield, raise in Hh; discriminate Hh].
    invert_run Hrun.
    destruct a5; try (inversion Hrun; subst; congruence);
      invert_run Hrun;
      repeat match goal with
             | E : get_self _ = (Ok _, _) |- _ => inversion E; clear E; subst
             | E : get_messages _ = (Ok _, _) |- _ => inversion E; clear E; subst
             | E : put_self _ _ = (Ok _, _) |- _ => inversion E; clear E; subst
             | E : ret _ _ = (Ok _, _) |- _ => inversion E; clear E; subst
             end;
      reflexivity. }
  split; [exact Hh|]. split.
  - intros Hs. rewrite Hh. unfold slice_from, slice_index.
    replace (- size <? 0) with true by (symmetry; apply Z.ltb_lt; lia).
    rewrite length_skipn. split; [lia|]. f_equal. lia.
  - intros Hs. rewrite Hh, Hs. unfold slice_from, slice_index.
    cbn [Z.opp Z.ltb Z.compare]. rewrite Z.min_l by lia. reflexivity.
Qed.

Lemma history_is_the_tail_of_the_conversation_witness :
  let st' := snd (TankClaudeController.execute_command Shipped.scripted_env 5
                    "click the button"
                    (mkState (set_session Shipped.controller true true) [] [] [])) in
  history (self st') = slice_from (messages st') (- history_size (config (self st'))).
Proof.
  cbv zeta.
  refine (proj1 (history_is_the_tail_of_the_conversation Shipped.scripted_env 5
                   "click the button"
                   (mkState (set_session Shipped.controller true true) [] [] [])
                   _ TurnCompleted _ _)).
  - vm_compute. reflexivity.
  - discriminate.
Defined.

(** ** The first request and the next *)

Section FirstRequest.

Context (env : Env).

(** A loop that passes its first check sends the request for the pruned
    conversation first. *)
Lemma loop_first_request (fuel : nat) (st : State) :
  client (self st) = true ->
  _cancelled (self st) = false ->
  exists l,
    trace (snd (_process_message_loop env (S fuel) st))
    = (trace st
       ++ ModelCall (next_request (messages st))
            (model_reply env (List.length (trace st)) (next_request (messages st)))
          :: l)%list.
Proof.
  intros Hc Hn. cbn [_process_message_loop].
  unfold bind at 1, check_cancelled, bind at 1, get_self. rewrite Hn.
  unfold ret at 1. unfold bind.
  destruct (loop_iteration_events env st) as (l1 & Hl1 & _). rewrite Hc in Hl1.
  destruct (loop_iteration env st) as [[[e|]|x] st1]; cbn [snd] in *.
  - exists l1. exact Hl1.
  - destruct (loop_events env fuel st1) as (l2 & Hl2 & _).
    exists (l1 ++ l2)%list. rewrite Hl2, Hl1, <- !app_assoc. reflexivity.
  - exists l1. exact Hl1.
Qed.

(** The events of [execute_command] are those of its loop. *)
Lemma execute_command_trace (fuel : nat) (command : string) (st : State) :
  nonempty (strip command) = true ->
  TankClaudeController._is_initialized (self st) = true
  \/ create_client env = Ok tt ->
  exists entry,
    trace (snd (TankClaudeController.execute_command env fuel command st))
    = trace (snd (_process_message_loop env fuel entry))
    /\ messages entry
       = (history (self st) ++ [user_message (strip command)])%list
    /\ _cancelled (self entry) = false
    /\ (TankClaudeController._is_initialized (self st) = true ->
        trace entry = trace st /\ client (self entry) = client (self st))
    /\ (TankClaudeController._is_initialized (self st) = false ->
        trace entry = (trace st ++ [SessionCreated])%list
        /\ client (self entry) = true).
Proof.
  intros Hne Hinit.
  assert (Htail : forall entry,
             trace (snd (try_except
                           (try_cancelled
                              (e <- relay_loop env fuel ;;
                               match e with
                               | OutOfFuel => ret (Some OutOfFuel)
                               | _ =>
                                   c <- get_self ;;
                                   ms <- get_messages ;;
                                   put_self
                                     (set_history c
                                        (slice_from ms (- history_size (config c)))) ;;
                                   ret (Some e)
                               end)
                              (fun e => yield env CANCEL_MARKER ;; raise e))
                           (fun e =>
                              yield env ("Command execution error: " ++ str_exn e)%string ;;
                              ret None) entry))
             = trace (snd (_process_message_loop env fuel
                             (mkState (self entry) (trace entry) [] (messages entry))))).
  { intros entry. unfold try_except, try_cancelled, bind at 1, relay_loop.
    destruct (_process_message_loop env fuel _) as [[e|x] s1]; cbn [snd trace].
    - destruct e; reflexivity.
    - destruct (is_Exception x) eqn:Hx; cbn [snd trace]; rewrite ?Hx;
        [reflexivity|].
      cbv [bind yield raise]. cbn [snd trace self out messages]. rewrite Hx.
      reflexivity. }
  unfold TankClaudeController.execute_command. rewrite Hne. cbn [negb].
  destruct (TankClaudeController._is_initialized (self st)) eqn:Hi.
  - exists (mkState (set_cancelled (self st) false) (trace st) []
              (history (self st) ++ [user_message (strip command)])).
    split.
    + pose proof (Htail (mkState (set_cancelled (self st) false) (trace st) (out st)
                           (history (self st) ++ [user_message (strip command)])))
        as HT.
      cbn [self trace out messages] in HT. rewrite <- HT. clear HT Htail.
      cbv [try_except bind get_self put_self ret put_messages].
      cbn [self trace out messages]. rewrite Hi. reflexivity.
    + cbn [messages self trace set_cancelled _cancelled client].
      repeat split; intros; try reflexivity; discriminate.
  - destruct Hinit as [Hinit|Hinit]; [discriminate Hinit|].
    exists (mkState (set_cancelled (set_session (self st) true true) false)
              (trace st ++ [SessionCreated]) []
              (history (self st) ++ [user_message (strip command)])).
    split.
    + pose proof (Htail (mkState (set_cancelled (set_session (self st) true true) false)
                           (trace st ++ [SessionCreated]) (out st)
                           (history (self st) ++ [user_message (strip command)])))
        as HT.
      cbn [self trace out messages] in HT. rewrite <- HT. clear HT Htail.
      cbv [try_except bind get_self put_self ret put_messages
           TankClaudeController.init_session lift log_event].
      cbn [self trace out messages]. rewrite ?Hi, ?Hinit.
      cbn [self trace out messages set_session set_cancelled history
           TankClaudeController._is_initialized is_Exception].
      rewrite ?Hi.
      cbn [self trace out messages set_session set_cancelled history
           TankClaudeController._is_initialized is_Exception].
      reflexivity.
    + cbn [messages self trace set_cancelled set_session _cancelled client].
      repeat split; intros; try reflexivity; discriminate.
Qed.

End FirstRequest.

(** X21. After [close()] the session is not active and the history is empty,
    and the next command opens a new session and starts a new conversation:
    the first request to the model consists of the command, stripped, and
    nothing else. *)
Theorem close_starts_a_fresh_conversation (env : Env) (fuel : nat)
  (command : string) (c : TankClaudeController.t) (tr : list event)
  (o : list string) (ms : list message) :
  create_client env = Ok tt ->
  nonempty (strip command) = true ->
  session_active (close c) = false
  /\ history (close c) = []
  /\ exists l,
       trace (snd (TankClaudeController.execute_command env (S fuel) command
                     (mkState (close c) tr o ms)))
       = (tr ++ SessionCreated
             :: ModelCall [user_message (strip command)]
                  (model_reply env (S (List.length tr)) [user_message (strip command)])
             :: l)%list.
Proof.
  intros Hclient Hne. split; [reflexivity|]. split; [reflexivity|].
  destruct (execute_command_trace env (S fuel) command (mkState (close c) tr o ms)
              Hne (or_intror Hclient))
    as (entry & Htr & Hms & Hcan & _ & Hnew).
  destruct (Hnew eq_refl) as [Htrace Hcl].
  destruct (loop_first_request env fuel entry Hcl Hcan) as (l & Hl).
  exists l. rewrite Htr, Hl, Htrace, Hms. cbn [self trace close history set_session
                                               set_history].
  rewrite length_app. cbn [List.length app]. rewrite Nat.add_1_r.
  rewrite <- app_assoc. reflexivity.
Qed.

Lemma close_starts_a_fresh_conversation_witness :
  session_active (close Shipped.controller) = false
  /\ history (close Shipped.controller) = []
  /\ exists l,
       trace (snd (TankClaudeController.execute_command Shipped.scripted_env 1
                     "click the button"
                     (mkState (close Shipped.controller) [] [] [])))
       = ([] ++ SessionCreated
             :: ModelCall [user_message (strip "click the button")]
                  (model_reply Shipped.scripted_env 1
                     [user_message (strip "click the button")])
             :: l)%list.
Proof.
  apply (close_starts_a_fresh_conversation Shipped.scripted_env 0
           "click the button" Shipped.controller [] [] []); reflexivity.
Defined.

(** ** A reply of text *)

Lemma loop_unfold (env : Env) (fuel : nat) (st : State) :
  _process_message_loop env (S fuel) st
  = (check_cancelled ;;
     r <- loop_iteration env ;;
     match r with
     | Some e => ret e
     | None => _process_message_loop env fuel
     end) st.
Proof. reflexivity. Qed.

(** A request that ends with a message of the assistant is sent without
    it. *)
Lemma next_request_drops_reply (request : list message) (text : string) :
  total_images request <= 3 ->
  next_request (request ++ [mkMessage Assistant (ContentBlocks [TextBlock text])])
  = request.
Proof.
  intros Hsmall. unfold next_request.
  set (a := mkMessage Assistant (ContentBlocks [TextBlock text])).
  destruct (filter_two_two (request ++ [a])) as (pruned & Hf & _ & Hsame).
  rewrite Hf.
  assert (Hp : pruned = (request ++ [a])%list).
  { apply Hsame. rewrite total_images_app. unfold a at 1.
    change (total_images [mkMessage Assistant (ContentBlocks [TextBlock text])]) with 0.
    lia. }
  rewrite Hp, map_app. cbn [map]. rewrite last_last.
  cbn [is_assistant a msg_role]. unfold a. cbn [is_assistant msg_role].
  apply removelast_last.
Qed.

(** One turn whose reply is a remark: the remark is yielded and appended,
    and the loop goes on. *)
Lemma text_reply_turn (env : Env) (st : State) (text : string) :
  client (self st) = true ->
  _cancelled (self st) = false ->
  cancel_request env (List.length (out st ++ [text])) = false ->
  model_reply env (List.length (trace st)) (next_request (messages st))
  = Ok [BetaTextBlock text] ->
  is_completion_text text = false ->
  Z.of_nat (List.length (next_request (messages st))) + 1
  <= history_size (config (self st)) * 10 ->
  loop_iteration env st
  = (Ok None,
     mkState (self st)
       (trace st ++ [ModelCall (next_request (messages st)) (Ok [BetaTextBlock text])])
       (out st ++ [text])
       (next_request (messages st)
        ++ [mkMessage Assistant (ContentBlocks [TextBlock text])])).
Proof.
  intros Hc Hn Hq Hreply Htext Hlen.
  rewrite loop_iteration_run. unfold try_except, bind at 1, with_messages.
  rewrite create_message_run by exact Hc. cbn [self trace out messages].
  rewrite Hreply.
  cbv [after_response process_content process_block bind check_cancelled get_self
       ret raise append_message get_messages put_messages yield].
  simpl. rewrite Hn. simpl. rewrite Hq, Htext. simpl.
  destruct (Z.of_nat (List.length (next_request (messages st) ++ [_]))
            >? history_size (config (self st)) * 10) eqn:Hgt.
  - apply Z.gtb_lt in Hgt. rewrite length_app, Nat2Z.inj_add in Hgt.
    cbn [List.length Z.of_nat Pos.of_succ_nat] in Hgt. lia.
  - reflexivity.
Qed.

(** X22. A reply that is a remark without a completion phrase is not sent
    back to the model: the loop appends it to the conversation and drops it
    again before the next request, which is the request it has just sent. *)
Theorem text_reply_repeats_the_request (env : Env) (fuel : nat) (st : State)
  (text : string) :
  client (self st) = true ->
  _cancelled (self st) = false ->
  cancel_request env (List.length (out st ++ [text])) = false ->
  model_reply env (List.length (trace st)) (next_request (messages st))
  = Ok [BetaTextBlock text] ->
  is_completion_text text = false ->
  Z.of_nat (List.length (next_request (messages st))) + 1
  <= history_size (config (self st)) * 10 ->
  exists l,
    trace (snd (_process_message_loop env (S (S fuel)) st))
    = (trace st
       ++ ModelCall (next_request (messages st)) (Ok [BetaTextBlock text])
          :: ModelCall (next_request (messages st))
               (model_reply env (S (List.length (trace st)))
                  (next_request (messages st)))
          :: l)%list.
Proof.
  intros Hc Hn Hq Hreply Htext Hlen.
  rewrite loop_unfold.
  unfold bind at 1, check_cancelled, bind at 1, get_self. rewrite Hn.
  unfold ret at 1. unfold bind at 1.
  rewrite (text_reply_turn env st text Hc Hn Hq Hreply Htext Hlen).
  set (st1 := mkState _ _ _ _).
  assert (Hc1 : client (self st1) = true) by exact Hc.
  assert (Hc2 : _cancelled (self st1) = false) by exact Hn.
  destruct (loop_first_request env fuel st1 Hc1 Hc2) as (l & Hl).
  exists l. rewrite Hl. unfold st1. cbn [trace messages].
  rewrite next_request_drops_reply by apply next_request_small.
  rewrite length_app. cbn [List.length]. rewrite Nat.add_1_r.
  rewrite <- app_assoc. reflexivity.
Qed.

Lemma text_reply_repeats_the_request_witness :
  exists l,
    trace (snd (_process_message_loop Examples.chatty_env 2 Shipped.scripted_start))
    = ([] ++ ModelCall (next_request (messages Shipped.scripted_start))
               (Ok [BetaTextBlock "I can see the desktop."])
          :: ModelCall (next_request (messages Shipped.scripted_start))
               (model_reply Examples.chatty_env 1
                  (next_request (messages Shipped.scripted_start)))
          :: l)%list.
Proof.
  apply (text_reply_repeats_the_request Examples.chatty_env 0 Shipped.scripted_start
           "I can see the desktop."); try reflexivity.
  vm_compute. discriminate.
Defined.

(** ** The screen of the controller *)

Lemma insert_by_x_perm (s : Monitor) (l : list Monitor) :
  Permutation (insert_by_x s l) (s :: l).
Proof.
  induction l as [|t l IH]; cbn [insert_by_x]; [reflexivity|].
  destruct (mon_x s <=? mon_x t); [reflexivity|].
  rewrite IH. apply perm_swap.
Qed.

Lemma sorted_by_x_perm (l : list Monitor) : Permutation (sorted_by_x l) l.
Proof.
  induction l as [|s l IH]; cbn [sorted_by_x]; [reflexivity|].
  rewrite insert_by_x_perm, IH. reflexivity.
Qed.

Lemma insert_by_x_sorted (s : Monitor) (l : list Monitor) :
  StronglySorted left_of l -> StronglySorted left_of (insert_by_x s l).
Proof.
  induction 1 as [|t l Hl IH Ht]; cbn [insert_by_x].
  - constructor; constructor.
  - destruct (mon_x s <=? mon_x t) eqn:Hle.
    + apply Z.leb_le in Hle. constructor; [constructor; assumption|].
      constructor; [exact Hle|].
      eapply Forall_impl; [|exact Ht]. unfold left_of. intros a Ha. lia.
    + apply Z.leb_gt in Hle. constructor; [exact IH|].
      rewrite (insert_by_x_perm s l). constructor; [unfold left_of; lia|exact Ht].
Qed.

Lemma sorted_by_x_sorted (l : list Monitor) : StronglySorted left_of (sorted_by_x l).
Proof.
  induction l as [|s l IH]; cbn [sorted_by_x]; [constructor|].
  apply insert_by_x_sorted, IH.
Qed.

Lemma sorted_split (left right : list Monitor) (s : Monitor) :
  StronglySorted left_of (left ++ s :: right) ->
  Forall (fun a => left_of a s) left /\ Forall (fun b => left_of s b) right.
Proof.
  induction left as [|a left IH]; cbn [app]; intros Hs.
  - apply StronglySorted_inv in Hs. split; [constructor|apply Hs].
  - apply StronglySorted_inv in Hs. destruct Hs as [Hs Ha].
    destruct (IH Hs) as [Hl Hr]. split; [|exact Hr].
    constructor; [|exact Hl].
    rewrite Forall_forall in Ha. apply Ha, in_elt.
Qed.

(** X23. With [screeninfo] reporting monitors, the controller takes offset
    and size from one of them: counted from the left (by [x]), the monitor
    number [display_number] when there is one, else the leftmost.  The
    monitors before it are not to its right, those after it not to its
    left. *)
Theorem screen_is_the_numbered_monitor_from_the_left (self : TankClaudeController.t)
  (screens : list Monitor) :
  screens <> [] ->
  exists (s : Monitor) (left right : list Monitor),
    _init_screen_offset (Installed (Ok screens)) self = Ok (set_screen self s)
    /\ Permutation (left ++ s :: right) screens
    /\ Z.of_nat (List.length left)
       = chosen_index (display_number (config self)) (List.length screens)
    /\ Forall (fun a => left_of a s) left
    /\ Forall (fun b => left_of s b) right.
Proof.
  intros Hne. unfold _init_screen_offset.
  destruct screens as [|s0 rest]; [contradiction|].
  set (screens := s0 :: rest).
  pose proof (sorted_by_x_perm screens) as Hperm.
  pose proof (sorted_by_x_sorted screens) as Hsorted.
  pose proof (Permutation_length Hperm) as Hlen.
  set (d := display_number (config self)).
  set (idx := if Z.max 0 (d - 1) >=? Z.of_nat (List.length (sorted_by_x screens))
              then 0 else Z.max 0 (d - 1)).
  assert (Hidx : idx = chosen_index d (List.length screens)
                 /\ 0 <= idx < Z.of_nat (List.length screens)).
  { unfold idx, chosen_index. rewrite Hlen.
    assert (0 < Z.of_nat (List.length screens)) by (unfold screens; cbn [List.length]; lia).
    destruct (Z.max 0 (d - 1) >=? Z.of_nat (List.length screens)) eqn:Hge;
      destruct (1 <=? d) eqn:H1; destruct (d <=? Z.of_nat (List.length screens)) eqn:H2;
      cbn [andb]; lia. }
  destruct Hidx as [Hidx Hrange].
  destruct (nth_error (sorted_by_x screens) (Z.to_nat idx)) as [s|] eqn:Hnth.
  - destruct (nth_error_split _ _ Hnth) as (left & right & Hsplit & Hl).
    exists s, left, right. split; [reflexivity|].
    rewrite Hsplit in Hperm, Hsorted.
    destruct (sorted_split _ _ _ Hsorted) as [Hleft Hright].
    repeat split; [exact Hperm| |exact Hleft|exact Hright].
    rewrite Hl, <- Hidx. lia.
  - apply nth_error_None in Hnth. lia.
Qed.

Lemma screen_is_the_numbered_monitor_from_the_left_witness :
  exists (s : Monitor) (left right : list Monitor),
    _init_screen_offset
      (Installed (Ok [mkMonitor 1920 0 1280 1024; mkMonitor 0 0 1920 1080]))
      Shipped.controller
    = Ok (set_screen Shipped.controller s)
    /\ Permutation (left ++ s :: right)
         [mkMonitor 1920 0 1280 1024; mkMonitor 0 0 1920 1080]
    /\ Z.of_nat (List.length left)
       = chosen_index (display_number (config Shipped.controller)) 2
    /\ Forall (fun a => left_of a s) left
    /\ Forall (fun b => left_of s b) right.
Proof.
  apply (screen_is_the_numbered_monitor_from_the_left Shipped.controller
           [mkMonitor 1920 0 1280 1024; mkMonitor 0 0 1920 1080]).
  discriminate.
Defined.

(** X24. When the base resolution is positive, the image that is encoded
    for the model has the base resolution, whatever the size of the capture:
    a capture that is larger in one direction is resized to it, one that is
    smaller is padded to it. *)
Theorem screenshot_has_base_resolution (self : TankClaudeController.t)
  (current_w current_h : Z) :
  0 < base_width (scaling (config self)) ->
  0 < base_height (scaling (config self)) ->
  fit_to_base self (current_w, current_h)
  = Ok (base_width (scaling (config self)), base_height (scaling (config self))).
Proof.
  intros Hw Hh. unfold fit_to_base, _pad_to_base_resolution, resize, new_image.
  cbn [fst snd].
  set (bw := base_width (scaling (config self))) in *.
  set (bh := base_height (scaling (config self))) in *.
  replace (bw <=? 0) with false by (symmetry; apply Z.leb_gt; lia).
  replace (bh <=? 0) with false by (symmetry; apply Z.leb_gt; lia).
  replace (bw <? 0) with false by (symmetry; apply Z.ltb_ge; lia).
  replace (bh <? 0) with false by (symmetry; apply Z.ltb_ge; lia).
  cbn [orb].
  destruct (current_w >? bw) eqn:H1; destruct (current_h >? bh) eqn:H2;
    cbn [orb]; try reflexivity.
  destruct (current_w <? bw) eqn:H3; destruct (current_h <? bh) eqn:H4;
    cbn [orb];
    destruct (current_w >=? bw) eqn:H5; destruct (current_h >=? bh) eqn:H6;
    cbn [andb]; try reflexivity; try lia.
  f_equal. f_equal; lia.
Qed.

Lemma screenshot_has_base_resolution_witness :
  fit_to_base Shipped.controller (1920, 1080)
  = Ok (base_width (scaling (config Shipped.controller)),
        base_height (scaling (config Shipped.controller))).
Proof.
  apply (screenshot_has_base_resolution Shipped.controller 1920 1080); reflexivity.
Defined.

(** ** The filter with other parameters *)



(** ** The Tank handler *)

Lemma relay_from (env : Env) (results : list string) :
  clock_advances env ->
  forall (reading : nat) (seen_messages : list (string * Z)),
    (forall k, In k seen_messages ->
               exists i, (i < reading)%nat /\ snd k = time_reading env i) ->
    TankHandler.relay env results reading seen_messages
    = filter nonempty (map strip results).
Proof.
  intros Hclock. induction results as [|result rest IH]; intros reading seen Hseen.
  - reflexivity.
  - cbn [TankHandler.relay map filter].
    destruct (nonempty (strip result)) eqn:Hne; cbn [negb].
    + assert (Hfresh : existsb (fun k => String.eqb (fst k) (strip result)
                                         && (snd k =? time_reading env reading))
                         seen = false).
      { apply not_true_is_false. intros Hex. apply existsb_exists in Hex.
        destruct Hex as (k & Hk & Hmatch). apply andb_true_iff in Hmatch.
        destruct Hmatch as [_ Ht]. apply Z.eqb_eq in Ht.
        destruct (Hseen k Hk) as (i & Hi & Hki). rewrite Hki in Ht.
        apply Hclock in Ht. lia. }
      rewrite Hfresh. f_equal. apply IH. intros k [<-|Hk].
      * exists reading. split; [lia|reflexivity].
      * destruct (Hseen k Hk) as (i & Hi & Hki). exists i. split; [lia|exact Hki].
    + apply IH, Hseen.
Qed.

(** X26. While the clock advances, the handler passes on every chunk of the
    controller that is not blank, stripped, in order: the set of seen
    messages never holds back a chunk, repeated texts included. *)
Theorem relay_holds_back_blank_chunks_only (env : Env) (results : list string) :
  clock_advances env ->
  TankHandler.relay env results 0 [] = filter nonempty (map strip results).
Proof.
  intros Hclock. apply relay_from; [exact Hclock|]. intros k [].
Qed.

Lemma relay_holds_back_blank_chunks_only_witness :
  TankHandler.relay Shipped.calm_env ["Clicked."; "  "; "Clicked."]%string 0 []
  = filter nonempty (map strip ["Clicked."; "  "; "Clicked."]%string).
Proof.
  apply (relay_holds_back_blank_chunks_only Shipped.calm_env).
  intros i j Hij. cbn in Hij. lia.
Defined.

(** A run of the controller that a cancellation leaves has the marker as
    its last chunk. *)
Lemma cancelled_run_ends_with_marker (env : Env) (fuel : nat) (command : string)
  (st st' : State) (e : exn) :
  TankClaudeController._is_initialized (self st) = true
  \/ create_client env = Ok tt ->
  TankClaudeController.execute_command env fuel command st = (Raise e, st') ->
  is_Exception e = false ->
  exists pre, out st' = (pre ++ [CANCEL_MARKER])%list.
Proof.
  intros Hinit Hrun Hx. unfold TankClaudeController.execute_command in Hrun.
  destruct (nonempty (strip command)); cbn [negb] in Hrun; [|discriminate Hrun].
  assert (Htail : forall entry,
             try_except
               (try_cancelled
                  (e <- relay_loop env fuel ;;
                   match e with
                   | OutOfFuel => ret (Some OutOfFuel)
                   | _ =>
                       c <- get_self ;;
                       ms <- get_messages ;;
                       put_self
                         (set_history c (slice_from ms (- history_size (config c)))) ;;
                       ret (Some e)
                   end)
                  (fun e => yield env CANCEL_MARKER ;; raise e))
               (fun e =>
                  yield env ("Command execution error: " ++ str_exn e)%string ;;
                  ret None) entry = (Raise e, st') ->
             exists pre, out st' = (pre ++ [CANCEL_MARKER])%list).
  { intros entry. unfold try_except, try_cancelled, bind at 1, relay_loop.
    destruct (_process_message_loop env fuel _) as [[e0|x] s1].
    - destruct e0; cbv [bind get_self get_messages put_self ret]; discriminate.
    - destruct (is_Exception x) eqn:Hxx.
      + rewrite Hxx. cbv [bind yield ret]. discriminate.
      + cbv [bind yield raise]. cbn [self trace out messages]. rewrite Hxx.
        intros Heq. inversion Heq; subst. cbn [out]. eexists. reflexivity. }
  destruct (TankClaudeController._is_initialized (self st)) eqn:Hi.
  - apply (Htail (mkState (set_cancelled (self st) false) (trace st) (out st)
                    (history (self st) ++ [user_message (strip command)]))).
    rewrite <- Hrun.
    cbv [try_except bind get_self put_self ret put_messages].
    cbn [self trace out messages]. rewrite Hi. reflexivity.
  - destruct Hinit as [Hinit|Hinit]; [discriminate Hinit|].
    apply (Htail (mkState (set_cancelled (set_session (self st) true true) false)
                    (trace st ++ [SessionCreated]) (out st)
                    (history (self st) ++ [user_message (strip command)]))).
    rewrite <- Hrun.
    cbv [try_except bind get_self put_self ret put_messages
         TankClaudeController.init_session lift log_event].
    cbn [self trace out messages]. rewrite ?Hi, ?Hinit.
    cbn [self trace out messages set_session set_cancelled history
         TankClaudeController._is_initialized is_Exception].
    rewrite ?Hi.
    cbn [self trace out messages set_session set_cancelled history
         TankClaudeController._is_initialized is_Exception].
    reflexivity.
Qed.

(** X27. A command the user cancels while it runs ends with the marker
    twice: the controller yields it before it raises, the handler relays it
    and yields it again for the cancellation it catches. *)
Theorem cancelled_command_yields_the_marker_twice (env : Env) (fuel : nat)
  (h : TankHandler.t) (tr : list event) (command : string) (st' : State) (e : exn) :
  clock_advances env ->
  TankHandler._is_initialized h = true ->
  TankClaudeController._is_initialized (TankHandler.controller h) = true
  \/ create_client env = Ok tt ->
  TankClaudeController.execute_command env fuel (strip command)
    (mkState (TankHandler.controller h) tr [] []) = (Raise e, st') ->
  is_Exception e = false ->
  exists pre,
    TankHandler.chunks (TankHandler.execute_command env fuel h tr command)
    = (pre ++ [CANCEL_MARKER; CANCEL_MARKER])%list
    /\ TankHandler.ended (TankHandler.execute_command env fuel h tr command) = None.
Proof.
  intros Hclock Hh Hinit Hrun Hx.
  destruct (cancelled_run_ends_with_marker env fuel (strip command)
              (mkState (TankHandler.controller h) tr [] []) st' e Hinit Hrun Hx)
    as (pre & Hout).
  unfold TankHandler.execute_command. rewrite Hh, Hrun, Hx.
  cbn [TankHandler.chunks TankHandler.ended].
  rewrite (relay_from env (out st') Hclock 0 []) by (intros k []).
  rewrite Hout.
  rewrite map_app, filter_app. cbn [map filter].
  change (nonempty (strip CANCEL_MARKER)) with true. cbv iota.
  change (strip CANCEL_MARKER) with CANCEL_MARKER.
  exists (filter nonempty (map strip pre)). rewrite <- app_assoc.
  split; reflexivity.
Qed.

Lemma cancelled_command_yields_the_marker_twice_witness :
  exists pre,
    TankHandler.chunks
      (TankHandler.execute_command Examples.cancelling_env 3 Examples.open_tank []
         "look at the screen")
    = (pre ++ [CANCEL_MARKER; CANCEL_MARKER])%list
    /\ TankHandler.ended
         (TankHandler.execute_command Examples.cancelling_env 3 Examples.open_tank []
            "look at the screen") = None.
Proof.
  apply (cancelled_command_yields_the_marker_twice Examples.cancelling_env 3
           Examples.open_tank [] "look at the screen"
           (snd (TankClaudeController.execute_command Examples.cancelling_env 3
                   (strip "look at the screen")
                   (mkState (TankHandler.controller Examples.open_tank) [] [] [])))
           (CancelledError "")).
  - intros i j Hij. cbn in Hij. lia.
  - reflexivity.
  - left. reflexivity.
  - vm_compute. reflexivity.
  - reflexivity.
Defined.

(** X28. When the client cannot be created, a command yields one chunk, the
    error with the prefix of both [init_session] methods, and that is all:
    no request goes to the model, nothing to the OS, and the handler stays
    without a session. *)
Theorem session_failure_is_one_error_chunk (env : Env) (fuel : nat)
  (h : TankHandler.t) (tr : list event) (command : string) (e : exn) :
  TankHandler._is_initialized h = false ->
  TankClaudeController._is_initialized (TankHandler.controller h) = false ->
  create_client env = Raise e ->
  is_Exception e = true ->
  let r := TankHandler.execute_command env fuel h tr command in
  TankHandler.chunks r
  = [("Command execution error: Session initialization failed: "
      ++ "Session initialization failed: " ++ str_exn e)%string]
  /\ TankHandler.ended r = None
  /\ TankHandler.events r = tr
  /\ TankHandler.after r = h.
Proof.
  intros Hh Hc Hclient Hx. cbv zeta.
  unfold TankHandler.execute_command, TankHandler.init_session. rewrite Hh.
  cbv [TankClaudeController.init_session try_except bind get_self lift raise
       log_event put_self ret].
  cbn [self trace out messages]. rewrite Hc, Hclient, Hx.
  cbn [is_Exception str_exn TankHandler.chunks TankHandler.ended TankHandler.events
       TankHandler.after self trace].
  destruct h; repeat split; reflexivity.
Qed.

Lemma session_failure_is_one_error_chunk_witness :
  let r := TankHandler.execute_command Examples.keyless_env 3 Shipped.tank []
             "look at the screen" in
  TankHandler.chunks r
  = [("Command execution error: Session initialization failed: "
      ++ "Session initialization failed: "
      ++ str_exn (OtherException "invalid x-api-key"))%string]
  /\ TankHandler.ended r = None
  /\ TankHandler.events r = []
  /\ TankHandler.after r = Shipped.tank.
Proof.
  apply (session_failure_is_one_error_chunk Examples.keyless_env 3 Shipped.tank []
           "look at the screen" (OtherException "invalid x-api-key")); reflexivity.
Defined.
